(* ===== verification/_CoqProject ===== *)
-Q . S2P
Prelude.v
Text.v
F64.v
F64Int.v
Round.v
Wire.v
Seq.v
Filters.v
Rtt.v
Batch.v
Pacing.v
Congestion.v
Config.v
Connection.v
AckNak.v
StallLatch.v
Classifier.v
Selection.v
SelectionSpec.v
SelectionFrame.v
LinkCc.v
LinkLoss.v
Registration.v
Tracker.v
Dedup.v
Uplink.v
Sender.v
Routing.v
Housekeeping.v
Drift.v
Reload.v
Version.v
Links.v
Identity.v
MainLoop.v
LoopSpec.v
Handshake.v
Net.v
Sockets.v
Stats.v
Status.v
Subscriptions.v
Control.v
ControlSocket.v
Cli.v
Metrics.v
Pipe.v
Binder.v
Program.v
Host.v
Topology.v
TopologySpec.v
Scenario.v
Harness.v
HarnessSpec.v
