(* ===== verification/Prelude.v ===== *)
(** * srtla_send: a verification development

    srtla_send takes the SRT stream of a local encoder on one UDP port and
    spreads its packets over several uplinks (one UDP socket per source
    address) to an SRTLA receiver, which reassembles them; replies come back
    over any uplink and are handed to the encoder.  This library models the
    sender (its decision logic, its sockets, its control and metrics
    endpoints and how main puts them together) and the network simulator that
    its tests run on, and proves what makes them correct.

    ** The program and the files that model it

    The order below is the order of dependency; every file opens with the
    functions it translates.

    - [Prelude] (this file): machine integers, the [res] monad of computations
      that may panic, record update, shared tactics and lemmas.  [Text]:
      strings and printed numbers.  [F64]: the binary64 arithmetic of the
      program, executable, with its order.  [F64Int]: when that arithmetic is
      exact, to compare it with integers.  [Round]: rounding at any precision
      and the casts between binary64 and binary32.
    - [Wire]: crates/srtla-protocol (types, builders, parsers), the byte formats of SRT
      and SRTLA.  Decoders are total or fallible exactly as the Rust ones.
    - [Seq]: crates/srtla-core/src/seq.rs, circular 31-bit sequence order.
    - [Filters]: ewma.rs, kalman.rs, windowed_min.rs; [Rtt]:
      connection/rtt.rs; [Batch]: connection/batch_send.rs; [Pacing]:
      connection/reconnection.rs and bitrate.rs; [Congestion]:
      connection/congestion/*; [Config]: mode.rs, config_snapshot.rs and the
      cells of src/config.rs.
    - [Connection]: connection/mod.rs and ack_nak.rs, the 44-field
      [SrtlaConnection] with every operation on it, what the receive path
      (src/sender/uplink_recv.rs) writes into it, and the invariant
      [conn_ok].  [AckNak] and [StallLatch] hold the theorems about
      acknowledgement handling and the stall latch.
    - [Selection]: selection/{mod,classic,enhanced,quality}.rs and
      priority.rs, the choice of the uplink of a packet.
      [SelectionSpec] and [SelectionFrame] hold its theorems: which link is
      chosen, and what a pass leaves alone.
    - [Classifier]: selection/classifier.rs, the weak-link classifier that a
      housekeeping tick runs over the links.
    - [LinkCc]: selection/link_cc.rs, the per-link delay and loss based
      congestion controller: its state machine, the law of its cap and the
      controller of all links; [LinkLoss] holds the theorems on its loss
      window, its back-off test and its loss latch.
    - [Registration]: registration/*, the REG1/REG2/REG3 handshake and the
      probing that picks the first link.
    - [Tracker]: src/sender/sequence.rs, who sent which sequence number;
      [Dedup]: src/sender/client_dedup.rs, the ring that drops the copies of
      an ACK or NAK that arrive over several uplinks.
    - [Uplink]: connection/incoming.rs, src/sender/uplink_recv.rs and the
      receive half of packet_handler.rs; [Sender]: the send half, the event
      handlers of the main loop and a step relation [sender_reach] over them;
      [Routing]: where a client packet goes; [Housekeeping]: the one-second
      tick of src/sender/housekeeping.rs, rehome.rs and connections.rs;
      [Drift]: the re-home lookup and the detached tasks of connections.rs that
      warn of DNS drift, with the atomic they share ([drift_step]).
    - [Reload]: src/sender/reload.rs, the list of source addresses and the
      guard on a changed one, with the string functions it uses; [Links]:
      src/sender/connections.rs, building links and applying a changed list;
      [Identity]: what no operation on a link changes (id, address, weight,
      verdicts).
    - [MainLoop]: src/sender/mod.rs, start-up and the event loop over the whole
      state ([LoopState]), with sync_readers of uplink.rs, drain_packet_queue
      of packet_handler.rs and priority_listener.rs.  One [loop_step] is one
      turn of the [select!]; [loop_reach] are the states the program reaches.
      [LoopSpec] holds the theorems about it, [Handshake] the registration of
      a whole bond over it.  [Stats]: src/stats.rs, the
      snapshot of the links that a tick publishes.
    - [Subscriptions]: src/subscriptions.rs, the hub of pushed events;
      [Control]: src/control.rs, the JSON-RPC requests; [ControlSocket]:
      src/control_socket.rs, the connections of the Unix socket as a
      transition system ([sock_step], [sock_reach]).
    - [Net]: the Linux half of src/net/batch_recv.rs, its batch send elsewhere
      and send_all_datagrams of src/net/mod.rs; [Sockets]: the receive half
      elsewhere, single sends, and the reader task of src/sender/uplink.rs.
      Both go over scripts of what the kernel answers, and the code above the
      sockets over the classes [BatchSend] and [BatchRecv], of which each
      system is an instance with its laws.  [Binder]: src/net/socket.rs and apple.rs, the creation of a
      socket and the trait [UplinkBinder] with its three implementations, over
      a record of kernel answers ([Kernel]).
    - [Status]: src/sender/status.rs, the periodic report; [Metrics]:
      src/metrics.rs, the Prometheus text and its HTTP endpoint; [Cli]:
      toml_config.rs and the settings part of main.rs; [Program]: main.rs, the
      tasks over the state they share, one [prog_step] per turn of a task;
      [Version]: build.rs, version.rs and the clock of utils.rs.
    - The network simulator, crates/network-sim: [Host], a host as a function
      of everything that was asked of it, with the monad [Sh] of code that
      fails, panics and runs destructors; [Topology] and [TopologySpec]:
      test_util.rs, topology.rs, impairment.rs and SrtlaTestTopology;
      [Scenario]: scenario.rs; [Harness] and [HarnessSpec]: the processes and
      the test stack of harness.rs; [Pipe]: the threads that capture what the
      processes print.

    ** How the parts interact

    A client packet ([Sender.handle_srt_packet]) asks [Selection] for a link,
    is queued in that link's [Batch], and its sequence number is noted in the
    [Tracker] and in the link's log.  A datagram from an uplink
    ([Uplink.process_uplink_packet]) updates the link it came from, drives
    [Registration], and produces an [SrtlaIncoming] whose ACK numbers go to
    every link and whose NAK numbers go to the link the [Tracker] names; what
    remains after [Dedup] is forwarded.  The [Housekeeping] tick times links
    out, paces reconnection, ages the registration handshake and can move the
    whole bond to another address of the receiver.  The loop runs them all: its
    tick also runs the [Classifier] and [LinkCc] over the links and stamps
    their verdicts, which [Selection] reads until the next tick, and applies the
    list of addresses that SIGHUP queued.  A request of the [Control] protocol
    acts on the loop only through the cells of [Config].  [Program] runs the
    loop, the control socket, the standard input and the priority listener over
    one configuration and one snapshot of statistics, which [Metrics] renders.
    The simulator writes the list of addresses that [Reload] reads.

    ** Modelling conventions

    Integers are [Z] with their width written out; the release profile wraps
    on overflow, so [+] is followed by the wrap of its type wherever overflow
    is possible, and saturating operations saturate.  An index out of range, a
    division by zero or a failed [unwrap] is [Panic] in [res], and theorems say that
    it does not happen.  Floats are the Standard Library's executable
    binary64; no real-number axioms are used.  Hash maps are [gmap]s, vectors
    are lists.  The clock is an argument.  What lies outside the sources is a
    parameter: [exp] of the platform's mathematics library, the hash of the
    dedup ring, the bytes of the random generator, the answers of the name
    resolver, the outcome of each socket call, the JSON and TOML decoders, the
    decimal text of floats and addresses, the random generator of the scenarios and
    the host of the simulator.

    Loops whose recursion is not structural run on fuel: the NAK and ACK
    decoders and the handshake walk take the buffer length, and a NAK range
    takes the cap of 1000; a batch send takes the length of the batch, a batch receive the number of
    messages, a reader task the length of its script and one more, and the capture of a pipe its bytes and one more; the polls of the simulator take one unit per sleep that fits in
    their timeout.  The functional theorems are equalities with
    fuel-free references or totality lemmas, so the fuel is never exhausted.

    ** What the theorems show

    - The whole program: from every accepted start and along every sequence of
      events the state of the loop stays consistent and no branch panics
      ([LoopSpec.loop_invariant], [Connection.connection_invariant]); a client
      packet goes to one link, which the scheduler names, and as a marked copy
      to the links due for a probe; it is dropped only when no link can carry
      it, and queued packets are lost only on a link whose socket refuses a
      batch ([Routing.packet_routed_once]).
    - Selection: the chosen link is the best one of the candidates by the
      documented score (classic, critical override), and in enhanced mode
      exactly the best one or the previous one within the hysteresis
      ([SelectionSpec.enhanced_choice_best]); a stalled link is never chosen
      while another one can carry; the candidate pool never becomes empty by
      gating; a sole carrier is unique and sticky.
    - Window and stall control: the window stays within its bounds, recovery
      waits as long as the constants say, the latch is released only after a
      dwell, probes and back-off follow their schedule.
    - Feedback: what a cumulative ACK prunes, exactly, older entries that it
      leaves included ([AckNak.srt_ack_prunes_exactly]); a NAK is charged once and to the link that sent the packet, the tracker and
      the dedup ring refine the history of what was inserted.
    - Registration and re-homing: a receiver that answers gets every link of
      the bond ([Handshake.bond_registers]); REG3 is accepted once per request,
      a forged frame touches no handshake, though a rejected one is passed on
      as data ([Uplink.rejected_frame_effects]); an id is taken only from the link that was asked,
      a dead bond gives no traffic before it is registered anew; re-homing is
      rate limited, happens exactly when the name has moved away from the bond,
      and restarts every link and the handshake or changes nothing but its gate
      ([Housekeeping.rehome_moves_whole_bond]); concurrent drift warnings are linearizable and a
      minute apart ([Drift.drift_claims_linearizable]).
    - Verdicts: the classifier calls a link late exactly after two late ticks
      in a row and never starves a link for low share; the cap of the
      controller follows an integer law, stays in its bounds and moves only as
      its state allows; the loss window holds exactly the last second; the
      loss latch needs four seconds of loss; the scheduler obeys the verdicts
      that the tick stamped ([LoopSpec.scheduler_obeys_verdicts]), and the
      statistics show the same verdicts ([Stats.stats_match_scheduler]), though
      not always the multiplier in use ([Stats.stats_multiplier_differs]).
    - Reload: a list is refused or applied as a whole, a printed list is read
      back, and after a SIGHUP and a tick the links are those of the file
      ([LoopSpec.reload_end_to_end]); the run [LoopSpec.reload_misplaces_grants]
      shows what happens to registrations that were under way.
    - Control: a request changes the configuration exactly as asked or answers
      with the code of its cause, both transports agree, subscriptions belong to
      open connections, publications reach each of them in order, and a closed
      connection leaves nothing behind.
    - The program: the tasks of main, however they interleave, stay within the
      models of their components and never panic ([Program.program_refines]);
      only a control line changes a setting; a tick's statistics reach every
      subscription; a setting comes from the command line, the file or its
      default, in this order, and a file that cannot be loaded stops the start
      ([Cli.settings_precedence]).
    - Sockets: a flush puts exactly the reported prefix on the wire and ends,
      with the whole batch charged to the link or the link disconnected
      ([Net.flush_over_socket]); a batch receive gives the oldest datagrams unchanged, the reader task
      hands on every datagram on either system, and all refine what the loop
      model assumes of them; a bound socket has the source
      address that was asked for.
    - Metrics: a scraper reads back the state of the links and of the program,
      value by value ([Metrics.exposition_roundtrip]), and the answer does not
      depend on how a request is cut into packets; the status report counts what
      it says.
    - The simulator: whatever fails, a stack leaves no process and no namespace
      behind but those that the host refuses to kill or to delete
      ([HarnessSpec.stack_leaves_nothing]); kills and starts end, a captured process never hangs on its
      output, every uplink of a topology has a path of its own, and a scenario
      stays within its bounds.
    - Wire formats and numbers: round trips and exact specifications of the
      decoders, serial-number order, the sliding minimum, round-trip floors.

    ** Not modelled

    Which socket object a reader task holds (a reader is the id of its link);
    the wording of log lines, labels and error texts; JSON decoding and the
    splitting of the command line and of TOML text (serde and clap); binding
    the metrics and control endpoints and accepting their connections; code
    that exists only for tests (the [test-internals] accessors, the stub
    resolver, the process scope of the test runner); and what [ip], [tc] and
    the kernel do with the commands of the simulator. *)
From Stdlib Require Export ZArith Lia Bool.
From stdpp Require Export base numbers option gmap fin_maps.
From stdpp Require Export list.
#[export] Set Default Proof Using "Type".
Global Open Scope Z_scope.

(** ** Machine integers

    Every Rust integer is a [Z]; an operation of width [w] writes its
    wrap-around or its saturation out.  The program is built in the release
    profile, where a plain [+], [-] or [*] wraps. *)
Definition two31 : Z := 2147483648.
Definition two32 : Z := 4294967296.
Definition two64 : Z := 18446744073709551616.
Definition i32_max : Z := two31 - 1.
Definition u32_max : Z := two32 - 1.
Definition u64_max : Z := two64 - 1.

Definition u8_wrap (z : Z) : Z := z mod 256.
Definition u16_wrap (z : Z) : Z := z mod 65536.
Definition u32_wrap (z : Z) : Z := z mod two32.
Definition u64_wrap (z : Z) : Z := z mod two64.
Definition i32_wrap (z : Z) : Z := (z + two31) mod two32 - two31.
Definition i64_wrap (z : Z) : Z := (z + two64 / 2) mod two64 - two64 / 2.

(** [saturating_sub] of the unsigned types, [saturating_add] per width. *)
Definition sat_sub (a b : Z) : Z := Z.max 0 (a - b).
Definition sat_add_u32 (a b : Z) : Z := Z.min u32_max (a + b).
Definition sat_add_u64 (a b : Z) : Z := Z.min u64_max (a + b).
Definition sat_mul_u64 (a b : Z) : Z := Z.min u64_max (a * b).
Definition sat_i32 (z : Z) : Z := Z.max (- two31) (Z.min i32_max z).

Definition is_u8 (z : Z) : Prop := 0 <= z < 256.
Definition is_u16 (z : Z) : Prop := 0 <= z < 65536.
Definition is_u32 (z : Z) : Prop := 0 <= z < two32.
Definition is_u64 (z : Z) : Prop := 0 <= z < two64.
Definition is_i32 (z : Z) : Prop := - two31 <= z < two31.

Ltac unfold_ints :=
  unfold is_u8, is_u16, is_u32, is_u64, is_i32, u8_wrap, u16_wrap, u32_wrap,
    u64_wrap, i32_wrap, i64_wrap, sat_sub, sat_add_u32, sat_add_u64,
    sat_mul_u64, sat_i32, i32_max, u32_max, u64_max, two31, two32, two64 in *.
Ltac zlia := unfold_ints; Z.to_euclidean_division_equations; lia.

(** ** Panicking computations

    Code that indexes a slice or adds with an overflow check runs in [res]:
    [Panic] is a Rust panic, so panic-freedom is a theorem and not an
    assumption. *)
Inductive res (A : Type) : Type :=
  | Ret (a : A)
  | Panic.
Arguments Ret {A} a.
Arguments Panic {A}.

Global Instance res_ret : MRet res := fun A a => Ret a.
Global Instance res_bind : MBind res := fun A B f m =>
  match m with Ret a => f a | Panic => Panic end.

(** The [?] operator inside a function that returns an [Option]. *)
Definition try_bind {A B} (m : res (option A)) (f : A -> res (option B)) : res (option B) :=
  match m with
  | Ret (Some a) => f a
  | Ret None => Ret None
  | Panic => Panic
  end.
Notation "x '←?' m ; k" := (try_bind m (fun x => k))
  (at level 20, m at level 100, k at level 200, only parsing).

(** ** Record update

    [r <| f := v |>] is the Rust assignment [r.f = v].  The updater of a field
    is found by eta-expanding the record and abstracting the field. *)
Class Eta (R : Type) := eta : R -> R.
Class Upd {R T : Type} (proj : R -> T) := upd : (T -> T) -> R -> R.
Arguments eta {R _} / r : rename.
Arguments upd {R T} proj {_} / f r : rename.

Ltac build_upd :=
  match goal with
  | |- @Upd ?R ?T ?proj =>
      let r := fresh "r" in let f := fresh "f" in
      intros f r;
      let body := constr:(@eta R _ r) in
      let body := eval cbv beta delta [eta] in body in
      let body := match body with
        | ?i r => let i' := eval hnf in i in eval cbv beta in (i' r)
        | ?b => b end in
      let pat := eval pattern (proj r) in body in
      match pat with ?g _ => let t := eval cbv beta in (g (f (proj r))) in exact t end
  end.
#[export] Hint Extern 1 (Upd _) => build_upd : typeclass_instances.

Declare Scope record_scope.
Global Open Scope record_scope.
#[warnings="-postfix-notation-not-level-1"]
Notation "r <| proj := v |>" := (upd proj (fun _ => v) r)
  (at level 12, left associativity) : record_scope.
#[warnings="-postfix-notation-not-level-1"]
Notation "r <| proj ::= f |>" := (upd proj f r)
  (at level 12, left associativity) : record_scope.

(** ** Shared automation *)
Create HintDb srtla.

(** Case analysis on the outermost [if]s and [match]es of the goal. *)
Ltac split_ifs :=
  repeat match goal with
  | |- context [if ?b then _ else _] => let E := fresh "E" in destruct b eqn:E
  | |- context [match ?x with Some _ => _ | None => _ end] =>
      let E := fresh "E" in destruct x eqn:E
  end.

(** Turn boolean comparisons in the context into propositions. *)
Ltac bool_to_prop :=
  repeat match goal with
  | H : context [(_ && _) = true] |- _ => rewrite andb_true_iff in H
  | H : (_ && _) = true |- _ => apply andb_true_iff in H as [? ?]
  | H : (_ || _) = false |- _ => apply orb_false_iff in H as [? ?]
  | H : (_ || _) = true |- _ => apply orb_true_iff in H
  | H : (_ && _) = false |- _ => apply andb_false_iff in H
  | H : negb _ = true |- _ => apply negb_true_iff in H
  | H : negb _ = false |- _ => apply negb_false_iff in H
  | H : (_ <? _) = true |- _ => apply Z.ltb_lt in H
  | H : (_ <? _) = false |- _ => apply Z.ltb_ge in H
  | H : (_ <=? _) = true |- _ => apply Z.leb_le in H
  | H : (_ <=? _) = false |- _ => apply Z.leb_gt in H
  | H : (_ =? _) = true |- _ => apply Z.eqb_eq in H
  | H : (_ =? _) = false |- _ => apply Z.eqb_neq in H
  | H : (_ >? _) = true |- _ => rewrite Z.gtb_ltb in H
  | H : (_ >? _) = false |- _ => rewrite Z.gtb_ltb in H
  | H : (_ >=? _) = true |- _ => rewrite Z.geb_leb in H
  | H : (_ >=? _) = false |- _ => rewrite Z.geb_leb in H
  end.

(** ** Lemmas shared by the components *)
Lemma i32_wrap_id (z : Z) : is_i32 z -> i32_wrap z = z.
Proof. zlia. Qed.

Lemma i32_wrap_range (z : Z) : is_i32 (i32_wrap z).
Proof. zlia. Qed.

Lemma u32_wrap_id (z : Z) : is_u32 z -> u32_wrap z = z.
Proof. zlia. Qed.

Lemma u64_wrap_id (z : Z) : is_u64 z -> u64_wrap z = z.
Proof. zlia. Qed.

Lemma u64_wrap_range (z : Z) : is_u64 (u64_wrap z).
Proof. zlia. Qed.

#[export] Hint Resolve i32_wrap_range u64_wrap_range : srtla.
