(* ===== verification/Text.v ===== *)
(** * Text

    Lemmas on strings that the components which print or read text share:
    characters that a text does not contain, the decimal printer, and the part
    of a text behind the last occurrence of a character. *)
From S2P Require Import Prelude.
From stdpp Require Import strings pretty.
Local Open Scope Z_scope.

(** The characters of an ASCII text. *)
Definition chars_of (s : string) : list Z := map (fun c => Z.of_nat (Ascii.nat_of_ascii c)) (String.list_ascii_of_string s).

(** [c] does not occur in [s]. *)
Fixpoint lacks (c : Ascii.ascii) (s : string) : bool :=
  match s with "" => true | String x s => negb (bool_decide (x = c)) && lacks c s end%string.

Lemma append_String x a b : String x a +:+ b = String x (a +:+ b).
Proof. done. Qed.
Lemma lacks_app c a b : lacks c (a +:+ b) = lacks c a && lacks c b.
Proof. induction a as [|x a IH]; [done|]. rewrite append_String. cbn [lacks]. rewrite IH. by rewrite andb_assoc. Qed.

(** ** Decimal numbers *)
Lemma pretty_N_lacks (c : Ascii.ascii) (m : N) : (forall x : N, pretty_N_char x <> c) -> lacks c (pretty m) = true.
Proof.
  intros Hc. assert (forall k s, lacks c s = true -> lacks c (pretty_N_go k s) = true) as Hg.
  { intros k. induction (N.lt_wf_0 k) as [k _ IH]. intros s Hs. destruct (decide (k = 0%N)) as [->|Hk]; [by rewrite pretty_N_go_0|].
    rewrite pretty_N_go_step by lia. apply IH; [apply N.div_lt; lia|]. cbn [lacks]. by rewrite Hs, bool_decide_eq_false_2. }
  unfold pretty, pretty_N. case_decide; [|by apply Hg]. cbn. specialize (Hc 0%N). cbn in Hc. by rewrite bool_decide_eq_false_2.
Qed.

Lemma pretty_Z_pos (n : Z) : 0 <= n -> pretty n = pretty (Z.to_N n).
Proof. destruct n; [done|done|lia]. Qed.

Lemma pretty_lacks (c : Ascii.ascii) (n : Z) : 0 <= n -> (forall x : N, pretty_N_char x <> c) -> lacks c (pretty n) = true.
Proof. intros Hn Hc. rewrite pretty_Z_pos by done. by apply pretty_N_lacks. Qed.

Lemma pretty_N_go_length (k : nat) (m : N) (s : string) : (m < 10 ^ N.of_nat k)%N ->
  (String.length (pretty_N_go m s) <= k + String.length s)%nat.
Proof.
  revert m s. induction k as [|k IH]; intros m s Hm.
  - replace m with 0%N by (change (10 ^ N.of_nat 0)%N with 1%N in Hm; lia). by rewrite pretty_N_go_0.
  - destruct (decide (m = 0%N)) as [->|Hz]; [rewrite pretty_N_go_0; lia|]. rewrite pretty_N_go_step by lia.
    specialize (IH (m `div` 10)%N (String (pretty_N_char (m `mod` 10)) s)). cbn [String.length] in IH.
    etransitivity; [apply IH|lia]. apply N.Div0.div_lt_upper_bound. by rewrite Nat2N.inj_succ, N.pow_succ_r' in Hm.
Qed.

Lemma pretty_length (k : nat) (n : Z) : (1 <= k)%nat -> 0 <= n < 10 ^ Z.of_nat k -> (String.length (pretty n) <= k)%nat.
Proof.
  intros Hk [Hn Hlt]. rewrite pretty_Z_pos by done. unfold pretty, pretty_N. case_decide; [done|].
  pose proof (pretty_N_go_length k (Z.to_N n) "") as HL. cbn [String.length] in HL. rewrite Nat.add_0_r in HL. apply HL.
  apply N2Z.inj_lt. rewrite Z2N.id, N2Z.inj_pow, nat_N_Z by done. exact Hlt.
Qed.

(** ** Lengths and ends *)
Lemma length_append (a b : string) : String.length (a +:+ b) = (String.length a + String.length b)%nat.
Proof. induction a as [|x a IH]; [done|]. rewrite append_String. cbn [String.length]. by rewrite IH. Qed.
Lemma append_assoc (a b c : string) : (a +:+ b) +:+ c = a +:+ (b +:+ c).
Proof. induction a as [|x a IH]; [done|]. rewrite !append_String. by rewrite IH. Qed.

Lemma substring_length n (s : string) : (String.length (String.substring 0 n s) <= n)%nat.
Proof. revert n. induction s as [|x s IH]; intros [|n]; cbn; [lia..|]. specialize (IH n). lia. Qed.

(** What follows the last [c]. *)
Fixpoint after_last (c : Ascii.ascii) (s : string) : option string :=
  match s with
  | "" => None
  | String x s => match after_last c s with Some t => Some t | None => if bool_decide (x = c) then Some s else None end
  end%string.
Lemma after_last_lacks c s : lacks c s = true -> after_last c s = None.
Proof.
  induction s as [|x s IH]; [done|]. cbn [lacks after_last]. intros [Hx Hs]%andb_true_iff. rewrite IH by done.
  apply negb_true_iff in Hx. by rewrite Hx.
Qed.
Lemma after_last_app c a b : lacks c b = true -> after_last c (a +:+ String c b) = Some b.
Proof.
  intros Hb. induction a as [|x a IH].
  - change ("" +:+ String c b) with (String c b). cbn [after_last]. rewrite after_last_lacks by done. by rewrite bool_decide_eq_true_2.
  - rewrite append_String. cbn [after_last]. by rewrite IH.
Qed.

(** Two texts that end in a separator and a number agree only on that number. *)
Lemma numbered_inj (c : Ascii.ascii) a b (m n : Z) : (forall x : N, pretty_N_char x <> c) -> 0 <= m -> 0 <= n ->
  a +:+ String c (pretty m) = b +:+ String c (pretty n) -> m = n.
Proof.
  intros Hc Hm Hn H. apply (f_equal (after_last c)) in H. rewrite !after_last_app in H by (by apply pretty_lacks).
  injection H as H. by apply (inj pretty) in H.
Qed.

Lemma append_cancel_r (a b s : string) : a +:+ s = b +:+ s -> a = b.
Proof.
  revert b. induction a as [|x a IH]; intros [|y b] H; [done| | |].
  - apply (f_equal String.length) in H. rewrite !length_append in H. cbn [String.length] in H. lia.
  - apply (f_equal String.length) in H. rewrite !length_append in H. cbn [String.length] in H. lia.
  - rewrite !append_String in H. injection H as -> H. f_equal. by apply IH.
Qed.
Lemma append_cancel_l (s a b : string) : s +:+ a = s +:+ b -> a = b.
Proof. induction s as [|x s IH]; [done|]. rewrite !append_String. intros [= H]. auto. Qed.

(** ** Lists of lines *)
Lemma omap_flat_map {A B C} (f : B -> option C) (g : A -> list B) l : omap f (flat_map g l) = flat_map (fun x => omap f (g x)) l.
Proof. induction l as [|x l IH]; [done|]. cbn [flat_map]. by rewrite omap_app, IH. Qed.
