(* ===== verification/F64.v ===== *)
(** * IEEE-754 floating point as Rust uses it

    [f64] is binary64 and [f32] binary32, with the executable operations of
    the Standard Library's [SpecFloat] (round to nearest, ties to even).  On
    top of them this file defines what the program uses of Rust's float API:
    comparisons, [max], [min], [clamp], [floor], the saturating [as] casts and
    decimal literals.  The lemmas make the float order usable: on numbers it is
    the lexicographic order of an integer key, so that [lia] decides it. *)
From S2P Require Import Prelude.
From Stdlib Require Export SpecFloat.

Definition f64 := spec_float.
Definition f32 := spec_float.

Definition fadd : f64 -> f64 -> f64 := SFadd 53 1024.
Definition fsub : f64 -> f64 -> f64 := SFsub 53 1024.
Definition fmul : f64 -> f64 -> f64 := SFmul 53 1024.
Definition fdiv : f64 -> f64 -> f64 := SFdiv 53 1024.
Definition fneg : f64 -> f64 := SFopp.
Definition fabs : f64 -> f64 := SFabs.
Definition flt (a b : f64) : bool := SFltb a b.
Definition fle (a b : f64) : bool := SFleb a b.
Definition fgt (a b : f64) : bool := SFltb b a.
Definition fge (a b : f64) : bool := SFleb b a.
Definition feq (a b : f64) : bool := SFeqb a b.

(** [n as f64] for an integer [n]. *)
Definition f_of_Z (n : Z) : f64 := binary_normalize 53 1024 n 0 false.

(** The decimal literal [n / d]: both parts are exact in binary64, so the one
    division rounds the literal correctly. *)
Definition flit (n d : Z) : f64 := fdiv (f_of_Z n) (f_of_Z d).

Definition f0 : f64 := S754_zero false.
Definition f1 : f64 := f_of_Z 1.
Definition f_inf : f64 := S754_infinity false.

Definition is_nan (a : f64) : bool := match a with S754_nan => true | _ => false end.
Definition is_infinite (a : f64) : bool := match a with S754_infinity _ => true | _ => false end.
Definition is_finite (a : f64) : bool := negb (is_nan a) && negb (is_infinite a).

(** [f64::max] and [f64::min] ignore a NaN operand. *)
Definition fmax (a b : f64) : f64 :=
  if is_nan a then b else if is_nan b then a else if flt a b then b else a.
Definition fmin (a b : f64) : f64 :=
  if is_nan a then b else if is_nan b then a else if flt b a then b else a.

(** [x.clamp(lo, hi)] with [lo <= hi]; a NaN stays. *)
Definition fclamp (x lo hi : f64) : f64 :=
  let x := if flt x lo then lo else x in if fgt x hi then hi else x.

(** The integer part, truncated towards zero. *)
Definition f_trunc (a : f64) : Z :=
  match a with
  | S754_finite s m e =>
    let n := if e >=? 0 then Z.pos m * 2 ^ e else Z.pos m / 2 ^ (- e) in
    if s then - n else n
  | _ => 0
  end.

(** [a as T] for an integer type with range [[lo, hi]]: NaN is 0 and a value
    out of range saturates. *)
Definition f_cast (lo hi : Z) (a : f64) : Z :=
  match a with
  | S754_nan => 0
  | S754_infinity s => if s then lo else hi
  | _ => Z.max lo (Z.min hi (f_trunc a))
  end.
Definition f_as_u64 : f64 -> Z := f_cast 0 u64_max.
Definition f_as_u32 : f64 -> Z := f_cast 0 u32_max.
Definition f_as_i32 : f64 -> Z := f_cast (- two31) i32_max.

(** [f64::floor] (exact: the result is an integer of no larger magnitude, or
    the number itself). *)
Definition f_floor (a : f64) : f64 :=
  match a with
  | S754_finite s m e =>
    if e >=? 0 then a
    else let n := (if s then - Z.pos m else Z.pos m) / 2 ^ (- e) in
         if n =? 0 then S754_zero false else binary_normalize 53 1024 n 0 false
  | _ => a
  end.

(** Binary32, for the weight multiplier of classic mode. *)
Definition f32_mul : f32 -> f32 -> f32 := SFmul 24 128.
Definition f32_div : f32 -> f32 -> f32 := SFdiv 24 128.
Definition f32_add : f32 -> f32 -> f32 := SFadd 24 128.
Definition f32_sub : f32 -> f32 -> f32 := SFsub 24 128.
Definition f32_of_Z (n : Z) : f32 := binary_normalize 24 128 n 0 false.

(** ** The order of numbers *)

(** Class, exponent and mantissa, signs folded in. *)
Definition fkey (a : f64) : Z * Z * Z :=
  match a with
  | S754_nan => (0, 0, 0)
  | S754_infinity s => ((if s then -2 else 2), 0, 0)
  | S754_zero _ => (0, 0, 0)
  | S754_finite s m e => if s then (-1, - e, Z.neg m) else (1, e, Z.pos m)
  end.

Definition key_lt (x y : Z * Z * Z) : Prop :=
  x.1.1 < y.1.1 \/ (x.1.1 = y.1.1 /\ (x.1.2 < y.1.2 \/ (x.1.2 = y.1.2 /\ x.2 < y.2))).

Lemma SFcompare_key a b :
  is_nan a = false -> is_nan b = false ->
  exists c, SFcompare a b = Some c /\
    (c = Lt <-> key_lt (fkey a) (fkey b)) /\ (c = Eq <-> fkey a = fkey b) /\
    (c = Gt <-> key_lt (fkey b) (fkey a)).
Proof.
  unfold key_lt. intros Ha Hb.
  assert (forall m1 m2, Pos.compare_cont Eq m1 m2 = Z.compare (Z.pos m1) (Z.pos m2)) as Hc by done.
  assert (forall m1 m2, CompOpp (Pos.compare_cont Eq m1 m2) = Z.compare (Z.neg m1) (Z.neg m2)) as Hn
    by done.
  destruct a as [s1|s1| |s1 m1 e1], b as [s2|s2| |s2 m2 e2]; try done;
    try (destruct s1); try (destruct s2); cbn [SFcompare fkey fst snd];
    rewrite ?Hn, ?Hc; eexists; (split; [reflexivity|]);
    try (split_and!; split; intros; simplify_eq; first [lia | congruence]).
  - destruct (Z.compare_spec e1 e2), (Z.compare_spec (Z.neg m1) (Z.neg m2));
      split_and!; split; intros; simplify_eq; try (first [lia | congruence | repeat f_equal; lia]).
  - destruct (Z.compare_spec e1 e2), (Z.compare_spec (Z.pos m1) (Z.pos m2));
      split_and!; split; intros; simplify_eq; try (first [lia | congruence | repeat f_equal; lia]).
Qed.

Lemma flt_key a b : is_nan a = false -> is_nan b = false ->
  flt a b = true <-> key_lt (fkey a) (fkey b).
Proof.
  intros Ha Hb. destruct (SFcompare_key a b Ha Hb) as (c & Hc & Hl & _ & _).
  unfold flt, SFltb. rewrite Hc. rewrite <- Hl. by destruct c.
Qed.

Lemma fle_key a b : is_nan a = false -> is_nan b = false ->
  fle a b = true <-> ~ key_lt (fkey b) (fkey a).
Proof.
  intros Ha Hb. destruct (SFcompare_key a b Ha Hb) as (c & Hc & _ & _ & Hg).
  unfold fle, SFleb. rewrite Hc. rewrite <- Hg. by destruct c; split; intros; try congruence; intros [=].
Qed.

Lemma flt_not_nan a b : flt a b = true -> is_nan a = false /\ is_nan b = false.
Proof. destruct a, b; done. Qed.

Lemma fle_not_nan a b : fle a b = true -> is_nan a = false /\ is_nan b = false.
Proof. destruct a, b; done. Qed.

(** Decide a float order goal on numbers by its keys. *)
Ltac fkeys :=
  repeat match goal with
  | H : flt ?a ?b = true |- _ =>
      let Ha := fresh in let Hb := fresh in
      destruct (flt_not_nan a b H) as [Ha Hb]; apply (flt_key a b Ha Hb) in H
  | H : fle ?a ?b = true |- _ =>
      let Ha := fresh in let Hb := fresh in
      destruct (fle_not_nan a b H) as [Ha Hb]; apply (fle_key a b Ha Hb) in H
  | Ha : is_nan ?a = false, Hb : is_nan ?b = false, H : flt ?a ?b = false |- _ =>
      apply not_true_iff_false in H; rewrite (flt_key a b Ha Hb) in H
  | Ha : is_nan ?a = false, Hb : is_nan ?b = false, H : fle ?a ?b = false |- _ =>
      apply not_true_iff_false in H; rewrite (fle_key a b Ha Hb) in H
  | Ha : is_nan ?a = false, Hb : is_nan ?b = false |- flt ?a ?b = true =>
      apply (flt_key a b Ha Hb)
  | Ha : is_nan ?a = false, Hb : is_nan ?b = false |- fle ?a ?b = true =>
      apply (fle_key a b Ha Hb)
  | Ha : is_nan ?a = false, Hb : is_nan ?b = false |- flt ?a ?b = false =>
      apply not_true_iff_false; rewrite (flt_key a b Ha Hb)
  | Ha : is_nan ?a = false, Hb : is_nan ?b = false |- fle ?a ?b = false =>
      apply not_true_iff_false; rewrite (fle_key a b Ha Hb)
  end; unfold key_lt in *; cbn in *.

Lemma flt_trans a b c : flt a b = true -> flt b c = true -> flt a c = true.
Proof. intros. fkeys. lia. Qed.

Lemma fle_trans a b c : fle a b = true -> fle b c = true -> fle a c = true.
Proof. intros. fkeys. lia. Qed.

Lemma fle_lt_trans a b c : fle a b = true -> flt b c = true -> flt a c = true.
Proof. intros. fkeys. lia. Qed.

Lemma flt_le_trans a b c : flt a b = true -> fle b c = true -> flt a c = true.
Proof. intros. fkeys. lia. Qed.

Lemma flt_le a b : flt a b = true -> fle a b = true.
Proof. intros. fkeys. lia. Qed.

Lemma flt_irrefl a : flt a a = false.
Proof. apply not_true_iff_false; intros H. fkeys. lia. Qed.

Lemma fle_refl a : is_nan a = false -> fle a a = true.
Proof. intros. apply fle_key; [done..|]. unfold key_lt; lia. Qed.

Lemma flt_false_fle a b : is_nan a = false -> is_nan b = false ->
  flt a b = false -> fle b a = true.
Proof. intros. fkeys. lia. Qed.

Lemma fle_false_flt a b : is_nan a = false -> is_nan b = false ->
  fle a b = false -> flt b a = true.
Proof. intros. fkeys. lia. Qed.

(** ** Clamps, minima and casts *)
Lemma fclamp_range x lo hi :
  is_nan x = false -> fle lo hi = true ->
  fle lo (fclamp x lo hi) = true /\ fle (fclamp x lo hi) hi = true.
Proof.
  intros Hx H. unfold fclamp, fgt.
  destruct (fle_not_nan _ _ H) as [Hl Hh]. fold (flt hi (if flt x lo then lo else x)).
  destruct (flt x lo) eqn:E1.
  - destruct (flt hi lo) eqn:E2; [|by auto using fle_refl]. fkeys; lia.
  - destruct (flt hi x) eqn:E2; split; auto using fle_refl, flt_false_fle.
Qed.

Lemma fmax_ge a b : is_nan a = false ->
  fle a (fmax a b) = true /\ is_nan (fmax a b) = false.
Proof.
  intros Ha. unfold fmax. rewrite Ha. destruct (is_nan b) eqn:Hb; [by auto using fle_refl|].
  destruct (flt a b) eqn:E; auto using fle_refl, flt_le.
Qed.

Lemma fmin_le a b : is_nan a = false ->
  fle (fmin a b) a = true /\ is_nan (fmin a b) = false.
Proof.
  intros Ha. unfold fmin. rewrite Ha. destruct (is_nan b) eqn:Hb; [by auto using fle_refl|].
  destruct (flt b a) eqn:E; auto using fle_refl, flt_le.
Qed.

Lemma fmin_le_r a b : is_nan b = false -> fle (fmin a b) b = true /\ is_nan (fmin a b) = false.
Proof.
  intros Hb. unfold fmin. destruct (is_nan a) eqn:Ha; [by auto using fle_refl|]. rewrite Hb.
  destruct (flt b a) eqn:E; [by auto using fle_refl|]. split; [|done]. by apply flt_false_fle.
Qed.

Lemma fmax_ge_r a b : is_nan b = false -> fle b (fmax a b) = true /\ is_nan (fmax a b) = false.
Proof.
  intros Hb. unfold fmax. destruct (is_nan a) eqn:Ha; [by auto using fle_refl|]. rewrite Hb.
  destruct (flt a b) eqn:E; [by auto using fle_refl|]. split; [|done]. by apply flt_false_fle.
Qed.

Lemma f_cast_range lo hi a : lo <= 0 <= hi -> lo <= f_cast lo hi a <= hi.
Proof. intros. unfold f_cast. destruct a as [|[]| |]; lia. Qed.

(** ** Rounding keeps integers of 64 bits finite *)
Lemma digits2_pos_log2 p : Z.pos (digits2_pos p) = Z.log2 (Z.pos p) + 1.
Proof.
  induction p as [p IH|p IH|]; cbn [digits2_pos]; [| |done].
  - rewrite Pos2Z.inj_succ, IH. change (Z.pos p~1) with (Z.succ_double (Z.pos p)).
    rewrite Z.succ_double_spec, Z.log2_succ_double by lia. lia.
  - rewrite Pos2Z.inj_succ, IH. change (Z.pos p~0) with (2 * Z.pos p).
    rewrite Z.log2_double by lia. lia.
Qed.

Lemma shr_1_m r : 0 <= shr_m r -> shr_m (shr_1 r) = shr_m r / 2.
Proof.
  intros H. destruct r as [[|[p|p|]|p] b1 b2]; cbn in *; try done; try lia.
  - rewrite Pos2Z.inj_xI. zlia.
  - rewrite Pos2Z.inj_xO. zlia.
Qed.

Lemma iter_shr_1_m n r :
  0 <= shr_m r -> shr_m (iter_pos shr_1 n r) = shr_m r / 2 ^ Z.pos n.
Proof.
  revert r. induction n as [n IH|n IH|]; intros r Hr; cbn [iter_pos].
  - assert (0 <= shr_m (shr_1 r)) as H1 by (rewrite shr_1_m by done; zlia).
    assert (0 <= shr_m (iter_pos shr_1 n (shr_1 r))) as H2
      by (rewrite IH by done; apply Z.div_pos; lia).
    rewrite !IH, shr_1_m by done. rewrite !Z.div_div by lia. f_equal.
    replace (Z.pos n~1) with (1 + Z.pos n + Z.pos n) by lia.
    rewrite !Z.pow_add_r by lia. lia.
  - assert (0 <= shr_m (iter_pos shr_1 n r)) as H2
      by (rewrite IH by done; apply Z.div_pos; lia).
    rewrite !IH by done. rewrite Z.div_div by lia. f_equal.
    rewrite <- Z.pow_add_r by lia. f_equal. lia.
  - by rewrite shr_1_m.
Qed.

Lemma shr_fexp_spec m e l :
  0 <= m ->
  let r := shr_fexp 53 1024 m e l in
  let e' := Z.max e (fexp 53 1024 (Zdigits2 m + e)) in
  r.2 = e' /\ shr_m r.1 = m / 2 ^ (e' - e).
Proof.
  intros Hm. unfold shr_fexp, shr. cbn zeta.
  assert (shr_m (shr_record_of_loc m l) = m) as H0 by (by destruct l as [|[]]).
  set (f := fexp 53 1024 (Zdigits2 m + e)).
  destruct (f - e) as [|p|p] eqn:E; cbn [fst snd].
  - replace (Z.max e f) with e by lia. rewrite H0, Z.sub_diag, Z.div_1_r. done.
  - rewrite iter_shr_1_m, H0 by (by rewrite H0). rewrite <- E. split; [lia|].
    f_equal. f_equal. lia.
  - replace (Z.max e f) with e by lia. rewrite H0, Z.sub_diag, Z.div_1_r. done.
Qed.

Lemma Zdigits2_pos m : 0 < m -> Zdigits2 m = Z.log2 m + 1.
Proof. destruct m as [|p|p]; [done| |done]. intros _. apply digits2_pos_log2. Qed.

Lemma fexp_53 x : -1000 <= x -> fexp 53 1024 x = x - 53.
Proof. unfold fexp, emin. lia. Qed.

(** Shifting a number right by fewer bits than it has leaves it positive, with
    its length reduced by the shift. *)
Lemma shift_log2 m n : 0 < m -> 0 <= n <= Z.log2 m ->
  0 < m / 2 ^ n /\ Z.log2 (m / 2 ^ n) = Z.log2 m - n.
Proof.
  intros Hm Hn. rewrite <- Z.shiftr_div_pow2 by lia. split.
  - rewrite Z.shiftr_div_pow2 by lia. apply Z.div_str_pos.
    pose proof (Z.log2_spec m Hm). pose proof (Z.pow_le_mono_r 2 n (Z.log2 m)). lia.
  - rewrite Z.log2_shiftr by lia. lia.
Qed.

Lemma round_even_cases m l :
  round_nearest_even m l = m \/ round_nearest_even m l = m + 1.
Proof. destruct l as [|[]]; cbn; auto. destruct (Z.even m); auto. Qed.

Lemma binary_round_aux_finite sx mx ex lx :
  0 < mx -> -900 <= ex -> ex + Z.log2 mx <= 900 ->
  exists m e, binary_round_aux 53 1024 sx mx ex lx = S754_finite sx m e.
Proof.
  intros Hm He Hl. unfold binary_round_aux.
  pose proof (Z.log2_nonneg mx) as Hlog.
  pose proof (shr_fexp_spec mx ex lx ltac:(lia)) as [H1 H2].
  destruct (shr_fexp 53 1024 mx ex lx) as [mrs' e']. cbn [fst snd] in H1, H2.
  rewrite Zdigits2_pos, fexp_53 in H1, H2 by lia. rewrite <- H1 in H2.
  destruct (shift_log2 mx (e' - ex)) as [Hp1 Hl1]; [lia|lia|]. rewrite <- H2 in Hp1, Hl1.
  set (m1 := round_nearest_even _ _).
  assert (0 < m1 /\ Z.log2 m1 <= 53) as [Hp2 Hl2].
  { assert (shr_m mrs' <= m1 <= shr_m mrs' + 1) as Hb
      by (unfold m1; destruct (round_even_cases (shr_m mrs') (loc_of_shr_record mrs')) as [-> | ->]; lia).
    split; [lia|]. etransitivity; [apply Z.log2_le_mono; apply Hb|].
    pose proof (Z.log2_succ_le (shr_m mrs')). unfold Z.succ in *. lia. }
  pose proof (shr_fexp_spec m1 e' loc_Exact ltac:(lia)) as [H3 H4].
  destruct (shr_fexp 53 1024 m1 e' loc_Exact) as [mrs2 e2]. cbn [fst snd] in H3, H4.
  rewrite Zdigits2_pos, fexp_53 in H3, H4 by (pose proof (Z.log2_nonneg m1); lia). rewrite <- H3 in H4.
  destruct (shift_log2 m1 (e2 - e')) as [Hp3 _]; [lia|pose proof (Z.log2_nonneg m1); lia|].
  rewrite <- H4 in Hp3. destruct (shr_m mrs2) as [|p|p]; [lia| |lia].
  rewrite (proj2 (Z.leb_le _ _)) by lia. eauto.
Qed.

(** A positive 64-bit integer becomes a positive finite float. *)
Lemma f_of_Z_finite n : 0 < n < two64 -> exists m e, f_of_Z n = S754_finite false m e.
Proof.
  intros Hn. unfold f_of_Z, binary_normalize. destruct n as [|p|p]; [lia| |lia].
  unfold binary_round, shl_align.
  pose proof (digits2_pos_log2 p) as Hd. pose proof (Z.log2_nonneg (Z.pos p)).
  assert (Z.log2 (Z.pos p) < 64) by (apply Z.log2_lt_pow2; [lia|]; change (2 ^ 64) with two64; lia).
  rewrite Z.add_0_r, Hd, fexp_53, Z.sub_0_r by lia.
  destruct (Z.log2 (Z.pos p) + 1 - 53) as [|d|d] eqn:E; try (apply binary_round_aux_finite; lia).
  assert (forall k q, Z.log2 (Z.pos (Pos.iter xO q k)) = Z.log2 (Z.pos q) + Z.pos k) as Hit.
  { intros k. induction k as [|k IH] using Pos.peano_ind; intros q.
    - cbn [Pos.iter]. change (Z.pos q~0) with (2 * Z.pos q). rewrite Z.log2_double by lia. lia.
    - rewrite Pos.iter_succ. change (Z.pos (Pos.iter xO q k)~0) with (2 * Z.pos (Pos.iter xO q k)).
      rewrite Z.log2_double, IH by lia. lia. }
  apply binary_round_aux_finite; [lia|lia|]. rewrite Hit. lia.
Qed.

(** ** Operations that cannot produce NaN *)
Lemma binary_round_aux_num sx mx ex lx :
  0 <= mx -> is_nan (binary_round_aux 53 1024 sx mx ex lx) = false.
Proof.
  intros Hm. unfold binary_round_aux.
  pose proof (shr_fexp_spec mx ex lx Hm) as [_ H1].
  destruct (shr_fexp 53 1024 mx ex lx) as [mrs' e']. cbn [fst] in H1.
  set (m1 := round_nearest_even _ _).
  assert (0 <= shr_m mrs') as Hp by (rewrite H1; apply Z.div_pos; lia).
  assert (0 <= m1) as Hp1
    by (unfold m1; destruct (round_even_cases (shr_m mrs') (loc_of_shr_record mrs')) as [-> | ->]; lia).
  pose proof (shr_fexp_spec m1 e' loc_Exact Hp1) as [_ H2].
  destruct (shr_fexp 53 1024 m1 e' loc_Exact) as [mrs2 e2]. cbn [fst] in H2.
  assert (0 <= shr_m mrs2) as Hp2 by (rewrite H2; apply Z.div_pos; lia).
  destruct (shr_m mrs2); [done| |lia]. by destruct (_ <=? _).
Qed.

Lemma binary_normalize_num m e s : is_nan (binary_normalize 53 1024 m e s) = false.
Proof.
  destruct m; cbn [binary_normalize]; [done| |];
    unfold binary_round; destruct (shl_align _ _ _); by apply binary_round_aux_num.
Qed.

Lemma f_of_Z_num n : is_nan (f_of_Z n) = false.
Proof. apply binary_normalize_num. Qed.

Lemma fadd_num a b : is_finite a = true -> is_nan b = false -> is_nan (fadd a b) = false.
Proof.
  unfold is_finite. intros Ha Hb. destruct a as [s1|s1| |s1 m1 e1], b as [s2|s2| |s2 m2 e2]; try done;
    unfold fadd, SFadd; try apply binary_normalize_num; by destruct s1, s2.
Qed.

Lemma fmul_num a b :
  is_finite a = true -> feq a f0 = false -> is_nan b = false -> is_nan (fmul a b) = false.
Proof.
  unfold is_finite. intros Ha Hz Hb. destruct a as [s1|s1| |s1 m1 e1], b as [s2|s2| |s2 m2 e2]; try done;
    unfold fmul, SFmul; by apply binary_round_aux_num.
Qed.

Lemma fdiv_num a s m e : is_finite a = true -> is_nan (fdiv a (S754_finite s m e)) = false.
Proof.
  unfold is_finite. intros Ha. destruct a as [s1|s1| |s1 m1 e1]; try done.
  unfold fdiv, SFdiv, SFdiv_core_binary. set (m' := match _ with 0 => _ | _ => _ end).
  assert (0 <= m') as Hm' by (unfold m'; destruct (_ - _); try lia; apply Z.shiftl_nonneg; lia).
  pose proof (Z.div_pos m' (Z.pos m) Hm' ltac:(lia)) as Hq. unfold Z.div in Hq.
  destruct (Z.div_eucl m' (Z.pos m)) as [q r]. by apply binary_round_aux_num.
Qed.
