(* ===== verification/F64Int.v ===== *)
(** * Integers in binary64

    The congestion controller computes its integer caps in floats.  This file
    shows when that is exact: sums, differences and products of integers below
    2^53 are the integers they should be, a quotient truncates to the integer
    quotient, and [max] and [min] commute with truncation.  Everything is about
    the executable operations of [SpecFloat]; no real numbers are involved. *)
From S2P Require Import Prelude F64.

(** ** Rounding that loses nothing *)
Lemma shr_1_double q : 0 <= q -> shr_1 (Build_shr_record (2 * q) false false) = Build_shr_record q false false.
Proof. intros H. by destruct q. Qed.

Lemma iter_shr_exact n q :
  0 <= q -> iter_pos shr_1 n (Build_shr_record (q * 2 ^ Z.pos n) false false) = Build_shr_record q false false.
Proof.
  revert q. induction n as [n IH|n IH|]; intros q Hq; cbn [iter_pos].
  - replace (q * 2 ^ Z.pos n~1) with (2 * (q * 2 ^ Z.pos n * 2 ^ Z.pos n)).
    + rewrite shr_1_double by lia. by rewrite !IH by lia.
    + replace (Z.pos n~1) with (1 + Z.pos n + Z.pos n) by lia. rewrite !Z.pow_add_r by lia. lia.
  - replace (q * 2 ^ Z.pos n~0) with (q * 2 ^ Z.pos n * 2 ^ Z.pos n).
    + by rewrite !IH by lia.
    + replace (Z.pos n~0) with (Z.pos n + Z.pos n) by lia. rewrite !Z.pow_add_r by lia. lia.
  - rewrite Z.pow_1_r, Z.mul_comm. by apply shr_1_double.
Qed.

Lemma shr_fexp_exact n j :
  0 < n < 2 ^ 53 -> 0 <= j <= 900 -> 52 <= Z.log2 n + j ->
  shr_fexp 53 1024 (n * 2 ^ j) (- j) loc_Exact =
    (Build_shr_record (n * 2 ^ (52 - Z.log2 n)) false false, Z.log2 n - 52).
Proof.
  intros Hn Hj Hd. pose proof (Z.log2_nonneg n). assert (Z.log2 n < 53) by (apply Z.log2_lt_pow2; lia).
  unfold shr_fexp. rewrite Zdigits2_pos by nia. rewrite Z.log2_mul_pow2 by lia.
  rewrite fexp_53 by lia. unfold shr. cbn [shr_record_of_loc].
  destruct (j + Z.log2 n + 1 + - j - 53 - - j) as [|k|k] eqn:E; [| |lia].
  - replace j with (52 - Z.log2 n) by lia. f_equal. lia.
  - replace (n * 2 ^ j) with (n * 2 ^ (52 - Z.log2 n) * 2 ^ Z.pos k).
    + rewrite iter_shr_exact by nia. f_equal. lia.
    + rewrite <- Z.mul_assoc, <- Z.pow_add_r by lia. do 2 f_equal. lia.
Qed.

(** The canonical float of an integer below 2^53. *)
Definition fint (s : bool) (n : Z) : f64 :=
  S754_finite s (Z.to_pos (n * 2 ^ (52 - Z.log2 n))) (Z.log2 n - 52).

Lemma fint_mantissa n : 0 < n < 2 ^ 53 ->
  0 <= Z.log2 n <= 52 /\ 2 ^ 52 <= n * 2 ^ (52 - Z.log2 n) < 2 ^ 53 /\ Z.log2 (n * 2 ^ (52 - Z.log2 n)) = 52.
Proof.
  intros Hn. pose proof (Z.log2_nonneg n). assert (Z.log2 n < 53) by (apply Z.log2_lt_pow2; lia).
  assert (Z.log2 (n * 2 ^ (52 - Z.log2 n)) = 52) as Hl by (rewrite Z.log2_mul_pow2 by lia; lia).
  split; [lia|]. split; [|done]. pose proof (Z.log2_spec (n * 2 ^ (52 - Z.log2 n)) ltac:(nia)) as Hs.
  rewrite Hl in Hs. done.
Qed.

Lemma round_aux_exact s n j :
  0 < n < 2 ^ 53 -> 0 <= j <= 900 -> 52 <= Z.log2 n + j ->
  binary_round_aux 53 1024 s (n * 2 ^ j) (- j) loc_Exact = fint s n.
Proof.
  intros Hn Hj Hd. unfold binary_round_aux. rewrite shr_fexp_exact by done.
  cbn [shr_m loc_of_shr_record round_nearest_even].
  destruct (fint_mantissa n Hn) as (Hl & Hm & Hlm).
  replace (Z.log2 n - 52) with (- (52 - Z.log2 n)) by lia. rewrite shr_fexp_exact by lia. cbn [shr_m].
  unfold fint. destruct (n * 2 ^ (52 - Z.log2 n)) as [|p|p] eqn:E; [lia| |lia].
  rewrite (proj2 (Z.leb_le _ _)) by lia. done.
Qed.

Lemma iter_xO q k : Z.pos (Pos.iter xO q k) = Z.pos q * 2 ^ Z.pos k.
Proof.
  induction k as [|k IH] using Pos.peano_ind; [cbn; lia|].
  rewrite Pos.iter_succ. change (Z.pos (Pos.iter xO q k)~0) with (2 * Z.pos (Pos.iter xO q k)).
  rewrite IH, Pos2Z.inj_succ, Z.pow_succ_r by lia. lia.
Qed.

(** A sum of aligned mantissas that is an integer rounds to that integer. *)
Lemma binary_normalize_exact s (m : Z) n j sz :
  0 < n < 2 ^ 53 -> 0 <= j <= 800 -> m = (if s : bool then - (n * 2 ^ j) else n * 2 ^ j) ->
  binary_normalize 53 1024 m (- j) sz = fint s n.
Proof.
  intros Hn Hj ->. destruct (fint_mantissa n Hn) as (Hl & _ & _).
  assert (exists p, n * 2 ^ j = Z.pos p) as [p Hp] by (destruct (n * 2 ^ j) eqn:E; [nia|eauto|nia]).
  assert (binary_round 53 1024 s p (- j) = fint s n) as Hr.
  { unfold binary_round, shl_align.
    rewrite digits2_pos_log2, <- Hp, Z.log2_mul_pow2, fexp_53 by lia.
    destruct (j + Z.log2 n + 1 + - j - 53 - - j) as [|k|k] eqn:E.
    - rewrite <- Hp. apply round_aux_exact; lia.
    - rewrite <- Hp. apply round_aux_exact; lia.
    - rewrite iter_xO, <- Hp. replace (j + Z.log2 n + 1 + - j - 53) with (- (j + Z.pos k)) by lia.
      rewrite <- Z.mul_assoc, <- Z.pow_add_r by lia. apply round_aux_exact; lia. }
  rewrite Hp. by destruct s.
Qed.

Lemma f_of_Z_int n : 0 < n < 2 ^ 53 -> f_of_Z n = fint false n.
Proof. intros Hn. unfold f_of_Z. apply (binary_normalize_exact false n n 0); lia. Qed.

(** ** Arithmetic of integers *)
Lemma fint_pos n : 0 < n < 2 ^ 53 -> Z.pos (Z.to_pos (n * 2 ^ (52 - Z.log2 n))) = n * 2 ^ (52 - Z.log2 n).
Proof. intros Hn. destruct (fint_mantissa n Hn) as (_ & H & _). apply Z2Pos.id. lia. Qed.

Lemma fmul_int a b :
  0 < a < 2 ^ 53 -> 0 < b < 2 ^ 53 -> a * b < 2 ^ 53 -> fmul (fint false a) (fint false b) = fint false (a * b).
Proof.
  intros Ha Hb Hab. destruct (fint_mantissa a Ha) as (La & _ & _), (fint_mantissa b Hb) as (Lb & _ & _).
  unfold fmul. cbn [SFmul fint xorb]. rewrite Pos2Z.inj_mul, !fint_pos by done.
  replace (Z.log2 a - 52 + (Z.log2 b - 52)) with (- ((52 - Z.log2 a) + (52 - Z.log2 b))) by lia.
  replace (a * 2 ^ (52 - Z.log2 a) * (b * 2 ^ (52 - Z.log2 b)))
    with (a * b * 2 ^ ((52 - Z.log2 a) + (52 - Z.log2 b))) by (rewrite Z.pow_add_r by lia; lia).
  apply round_aux_exact; [nia|lia|]. pose proof (Z.log2_mul_below a b ltac:(lia) ltac:(lia)). lia.
Qed.

Lemma shl_align_val m e e' : e' <= e -> Z.pos (shl_align m e e').1 = Z.pos m * 2 ^ (e - e').
Proof.
  intros H. unfold shl_align. destruct (e' - e) as [|k|k] eqn:E; [|lia|].
  - replace (e - e') with 0 by lia. cbn [fst]. lia.
  - cbn [fst]. rewrite iter_xO. do 2 f_equal. lia.
Qed.

Lemma fint_align n e' : 0 < n < 2 ^ 53 -> e' <= Z.log2 n - 52 ->
  Z.pos (shl_align (Z.to_pos (n * 2 ^ (52 - Z.log2 n))) (Z.log2 n - 52) e').1 = n * 2 ^ (- e').
Proof.
  intros Hn He. destruct (fint_mantissa n Hn) as (L & _ & _).
  rewrite shl_align_val, fint_pos by done. rewrite <- Z.mul_assoc, <- Z.pow_add_r by lia. do 2 f_equal. lia.
Qed.

Lemma fsub_int a b : 0 < a < 2 ^ 53 -> 0 < b < 2 ^ 53 ->
  fsub (fint false a) (fint false b) =
    if a =? b then S754_zero false else if b <? a then fint false (a - b) else fint true (b - a).
Proof.
  intros Ha Hb. destruct (fint_mantissa a Ha) as (La & _ & _), (fint_mantissa b Hb) as (Lb & _ & _).
  unfold fsub. cbn [SFsub fint cond_Zopp]. set (e := Z.min (Z.log2 a - 52) (Z.log2 b - 52)).
  rewrite !fint_align by lia. replace e with (- (- e)) at 3 by lia. rewrite <- Z.mul_sub_distr_r.
  destruct (Z.eqb_spec a b) as [->|Hne]; [by rewrite Z.sub_diag|].
  destruct (Z.ltb_spec b a).
  - apply (binary_normalize_exact false); [lia|lia|done].
  - apply (binary_normalize_exact true); [lia|lia|]. lia.
Qed.

(** ** Rounding that loses at most one unit *)
Lemma round_aux_bound mx ex l :
  52 <= Z.log2 mx -> -900 <= ex -> ex + Z.log2 mx <= 900 ->
  let k := Z.log2 mx - 52 in
  exists m e, binary_round_aux 53 1024 false mx ex l = S754_finite false m e /\
    2 ^ 52 <= Z.pos m < 2 ^ 53 /\ ex + k <= e <= ex + k + 1 /\
    mx / 2 ^ k * 2 ^ k <= Z.pos m * 2 ^ (e - ex) <= (mx / 2 ^ k + 1) * 2 ^ k.
Proof.
  intros Hl He Hu k. assert (0 < mx) as Hm by (destruct (Z.le_gt_cases mx 0); [rewrite Z.log2_nonpos in Hl by done; lia|done]).
  unfold binary_round_aux. pose proof (shr_fexp_spec mx ex l ltac:(lia)) as [H1 H2].
  destruct (shr_fexp 53 1024 mx ex l) as [r e1]. cbn [fst snd] in H1, H2.
  rewrite Zdigits2_pos, fexp_53 in H1, H2 by lia. rewrite <- H1 in H2.
  replace (e1 - ex) with k in H2 by lia.
  destruct (shift_log2 mx k Hm) as [Hp Hlg]; [lia|]. rewrite <- H2 in *. pose proof (Z.log2_spec _ Hp) as Hs. rewrite Hlg in Hs.
  replace (Z.log2 mx - k) with 52 in Hs by lia. cbn [Z.succ] in Hs.
  set (m1 := round_nearest_even _ _).
  assert (shr_m r <= m1 <= shr_m r + 1) as Hb
    by (unfold m1; destruct (round_even_cases (shr_m r) (loc_of_shr_record r)) as [-> | ->]; lia).
  destruct (Z.eq_dec m1 (2 ^ 53)) as [E|E].
  - rewrite E. replace e1 with (ex + k) by lia. exists (Z.to_pos (2 ^ 52)), (ex + k + 1).
    pose proof (shr_fexp_spec (2 ^ 53) (ex + k) loc_Exact ltac:(lia)) as [H3 H4].
    destruct (shr_fexp 53 1024 (2 ^ 53) (ex + k) loc_Exact) as [r2 e2]. cbn [fst snd] in H3, H4.
    rewrite Zdigits2_pos, fexp_53 in H3, H4 by (change (Z.log2 (2 ^ 53)) with 53; lia).
    change (Z.log2 (2 ^ 53)) with 53 in *. replace e2 with (ex + k + 1) by lia.
    replace (Z.max _ _ - _) with 1 in H4 by lia. change (2 ^ 53 / 2 ^ 1) with (Z.pos (Z.to_pos (2 ^ 52))) in H4.
    rewrite H4, (proj2 (Z.leb_le _ _)) by lia. split; [done|]. split; [lia|]. split; [lia|].
    replace (ex + k + 1 - ex) with (1 + k) by lia. rewrite Z.pow_add_r by lia.
    pose proof (Z.pow_pos_nonneg 2 k). change (Z.pos (Z.to_pos (2 ^ 52))) with (2 ^ 52). nia.
  - assert (2 ^ 52 <= m1 < 2 ^ 53) as Hm1 by (change (Z.succ 52) with 53 in Hs; lia).
    assert (Z.log2 m1 = 52) as Hlm by (apply Z.log2_unique; lia).
    pose proof (shr_fexp_spec m1 e1 loc_Exact ltac:(lia)) as [H3 H4].
    destruct (shr_fexp 53 1024 m1 e1 loc_Exact) as [r2 e2]. cbn [fst snd] in H3, H4.
    rewrite Zdigits2_pos, Hlm, fexp_53 in H3, H4 by lia. replace (Z.max _ _ - _) with 0 in H4 by lia.
    rewrite Z.div_1_r in H4. exists (Z.to_pos m1), e1. rewrite H4. destruct m1 as [|p|p] eqn:Em; [lia| |lia].
    rewrite (proj2 (Z.leb_le _ _)) by lia. cbn [Z.to_pos]. split; [f_equal; lia|]. split; [lia|]. split; [lia|].
    replace (e1 - ex) with k by lia. pose proof (Z.pow_pos_nonneg 2 k). nia.
Qed.

(** ** Truncation *)
Lemma f_trunc_normal m e : e <= 0 -> f_trunc (S754_finite false m e) = Z.pos m / 2 ^ (- e).
Proof.
  intros He. unfold f_trunc. destruct (Z.geb_spec e 0); [|done]. replace e with 0 by lia. cbn. by rewrite Z.div_1_r, Z.mul_1_r.
Qed.

Lemma f_trunc_int n : 0 < n < 2 ^ 53 -> f_trunc (fint false n) = n.
Proof.
  intros Hn. destruct (fint_mantissa n Hn) as (L & _ & _). unfold fint. rewrite f_trunc_normal, fint_pos by lia.
  replace (- (Z.log2 n - 52)) with (52 - Z.log2 n) by lia. apply Z.div_mul. lia.
Qed.

(** A number of the kind the controller handles: zero, or normal and at least
    one binary digit finer than the integers. *)
Inductive small_num : f64 -> Prop :=
| SN_zero : small_num (S754_zero false)
| SN_pos m e : 2 ^ 52 <= Z.pos m < 2 ^ 53 -> e <= 0 -> small_num (S754_finite false m e).

Lemma fint_small n : 0 < n < 2 ^ 53 -> small_num (fint false n).
Proof.
  intros Hn. destruct (fint_mantissa n Hn) as (L & M & _). constructor; [rewrite fint_pos by done; lia|lia].
Qed.

Lemma small_not_nan x : small_num x -> is_nan x = false.
Proof. by destruct 1. Qed.

Lemma f_trunc_nonneg x : small_num x -> 0 <= f_trunc x.
Proof. destruct 1; [done|]. rewrite f_trunc_normal by done. apply Z.div_pos; lia. Qed.

Lemma f_trunc_mono x y : small_num x -> small_num y -> fle x y = true -> f_trunc x <= f_trunc y.
Proof.
  intros Hx Hy H. apply fle_key in H; [|by apply small_not_nan..]. revert H. unfold key_lt.
  destruct Hx as [|m1 e1 M1 E1]; [intros _; by apply f_trunc_nonneg|].
  destruct Hy as [|m2 e2 M2 E2]; cbn [fkey fst snd]; [lia|]. intros H. rewrite !f_trunc_normal by done.
  destruct (Z.eq_dec e1 e2) as [->|Hne]; [apply Z.div_le_mono; lia|].
  replace (- e1) with ((e2 - e1) + (- e2)) by lia. rewrite Z.pow_add_r, <- Z.div_div by lia.
  apply Z.div_le_mono; [lia|]. apply Z.div_le_upper_bound; [lia|].
  pose proof (Z.pow_le_mono_r 2 1 (e2 - e1)). nia.
Qed.

Lemma fmax_trunc x y : small_num x -> small_num y ->
  small_num (fmax x y) /\ f_trunc (fmax x y) = Z.max (f_trunc x) (f_trunc y).
Proof.
  intros Hx Hy. pose proof (small_not_nan x Hx) as Nx. pose proof (small_not_nan y Hy) as Ny.
  unfold fmax. rewrite Nx, Ny. destruct (flt x y) eqn:E; (split; [done|]).
  - apply flt_le, f_trunc_mono in E; [|done..]. lia.
  - apply flt_false_fle, f_trunc_mono in E; [|done..]. lia.
Qed.

Lemma fmin_trunc x y : small_num x -> small_num y ->
  small_num (fmin x y) /\ f_trunc (fmin x y) = Z.min (f_trunc x) (f_trunc y).
Proof.
  intros Hx Hy. pose proof (small_not_nan x Hx) as Nx. pose proof (small_not_nan y Hy) as Ny.
  unfold fmin. rewrite Nx, Ny. destruct (flt y x) eqn:E; (split; [done|]).
  - apply flt_le, f_trunc_mono in E; [|done..]. lia.
  - apply flt_false_fle, f_trunc_mono in E; [|done..]. lia.
Qed.

Lemma f_as_u64_small x : small_num x -> f_trunc x < two64 -> f_as_u64 x = f_trunc x.
Proof.
  intros Hx Hlt. pose proof (f_trunc_nonneg x Hx). unfold f_as_u64, f_cast. destruct Hx; [done|]. unfold_ints. lia.
Qed.

(** ** Quotients *)
Lemma SFdiv_core_normal m1 e1 m2 e2 :
  Z.log2 (Z.pos m1) = 52 -> Z.log2 (Z.pos m2) = 52 -> -200 <= e1 <= 0 -> -200 <= e2 <= 0 ->
  exists l, SFdiv_core_binary 53 1024 (Z.pos m1) e1 (Z.pos m2) e2 =
    (Z.pos m1 * 2 ^ 53 / Z.pos m2, e1 - e2 - 53, l).
Proof.
  intros L1 L2 H1 H2. unfold SFdiv_core_binary. rewrite !Zdigits2_pos, L1, L2 by lia.
  rewrite fexp_53 by lia. replace (Z.min _ _) with (e1 - e2 - 53) by lia.
  replace (e1 - e2 - (e1 - e2 - 53)) with 53 by lia. rewrite Z.shiftl_mul_pow2 by lia.
  unfold Z.div. destruct (Z.div_eucl _ _) as [q r]. eauto.
Qed.

Lemma fdiv_mantissa n d : 0 < n < 2 ^ 40 -> 0 < d <= 1000 ->
  let J := 53 + Z.log2 d - Z.log2 n in
  n * 2 ^ (52 - Z.log2 n) * 2 ^ 53 / (d * 2 ^ (52 - Z.log2 d)) = n * 2 ^ J / d /\
  2 ^ 52 <= n * 2 ^ J / d < 2 ^ 54.
Proof.
  intros Hn Hd J. destruct (fint_mantissa n) as (Ln & Mn & _); [lia|].
  destruct (fint_mantissa d) as (Ld & Md & _); [lia|].
  assert (Z.log2 n < 40) by (apply Z.log2_lt_pow2; lia).
  assert (n * 2 ^ (52 - Z.log2 n) * 2 ^ 53 / (d * 2 ^ (52 - Z.log2 d)) = n * 2 ^ J / d) as E.
  { rewrite <- (Z.div_mul_cancel_r (n * 2 ^ J) d (2 ^ (52 - Z.log2 d))) by lia. f_equal.
    rewrite <- !Z.mul_assoc, <- !Z.pow_add_r by lia. do 2 f_equal. lia. }
  split; [done|]. rewrite <- E. split; [apply Z.div_le_lower_bound; lia|apply Z.div_lt_upper_bound; lia].
Qed.

(** The quotient of two integers, rounded: never below the integer quotient,
    and at least 2^-11 below the next integer. *)
Lemma fdiv_int n d : 0 < n < 2 ^ 40 -> 0 < d <= 1000 ->
  exists m e, fdiv (fint false n) (fint false d) = S754_finite false m e /\
    2 ^ 52 <= Z.pos m < 2 ^ 53 /\ -200 <= e <= -12 /\
    n / d * 2 ^ (- e) <= Z.pos m /\ Z.pos m + 2 ^ (- e - 11) <= (n / d + 1) * 2 ^ (- e).
Proof.
  intros Hn Hd. destruct (fint_mantissa n) as (Ln & Mn & LMn); [lia|].
  destruct (fint_mantissa d) as (Ld & Md & LMd); [lia|].
  assert (Z.log2 n < 40) by (apply Z.log2_lt_pow2; lia).
  destruct (fdiv_mantissa n d Hn Hd) as [Eq Hq]. set (J := 53 + Z.log2 d - Z.log2 n) in *.
  destruct (SFdiv_core_normal (Z.to_pos (n * 2 ^ (52 - Z.log2 n))) (Z.log2 n - 52)
              (Z.to_pos (d * 2 ^ (52 - Z.log2 d))) (Z.log2 d - 52)) as [l Hl];
    [rewrite fint_pos by lia; done|rewrite fint_pos by lia; done|lia|lia|].
  rewrite !fint_pos, Eq in Hl by lia. replace (Z.log2 n - 52 - (Z.log2 d - 52) - 53) with (- J) in Hl by lia.
  set (q := n * 2 ^ J / d) in *.
  assert (52 <= Z.log2 q <= 53) as Lq.
  { split; [apply (Z.log2_le_mono (2 ^ 52)); lia|]. assert (Z.log2 q < 54) by (apply Z.log2_lt_pow2; lia). lia. }
  destruct (round_aux_bound q (- J) l) as (m & e & Hr & Hm & He & Hlo & Hup); [lia..|].
  set (k := Z.log2 q - 52) in *. exists m, e. split; [|split; [done|split; [lia|]]].
  { unfold fdiv. cbn [SFdiv fint]. rewrite !fint_pos, Hl by lia. exact Hr. }
  replace (e - - J) with (e + J) in * by lia.
  assert (2 ^ J = 2 ^ (- e) * 2 ^ (e + J)) as EJ by (rewrite <- Z.pow_add_r by lia; f_equal; lia).
  assert (2 ^ J = 2 ^ (J - k) * 2 ^ k) as Ek by (rewrite <- Z.pow_add_r by lia; f_equal; lia).
  assert (0 < 2 ^ (e + J) /\ 0 < 2 ^ k /\ 0 < 2 ^ (- e - 11) /\ 0 < 2 ^ J) as (P1 & P2 & P3 & P4) by lia.
  assert (2 ^ k <= 2 ^ (e + J)) as Hk by (apply Z.pow_le_mono_r; lia).
  assert (2 ^ (- e) = 2048 * 2 ^ (- e - 11)) as E11
    by (change 2048 with (2 ^ 11); rewrite <- Z.pow_add_r by lia; f_equal; lia).
  pose proof (Z.div_mod n d ltac:(lia)) as Dn. pose proof (Z.mod_pos_bound n d ltac:(lia)) as Rn.
  split.
  - assert (n / d * 2 ^ J <= q) as H1 by (apply Z.div_le_lower_bound; nia).
    assert (n / d * 2 ^ (J - k) <= q / 2 ^ k) as H2
      by (apply Z.div_le_lower_bound; [lia|]; rewrite Ek in H1; lia).
    apply (Z.mul_le_mono_pos_r _ _ (2 ^ (e + J))); [done|]. rewrite <- Z.mul_assoc, <- EJ, Ek, Z.mul_assoc.
    apply (Z.mul_le_mono_nonneg_r _ _ (2 ^ k)) in H2; lia.
  - assert (q * d <= n * 2 ^ J) as H1 by (unfold q; pose proof (Z.mul_div_le (n * 2 ^ J) d); lia).
    assert (q / 2 ^ k * 2 ^ k <= q) as H2 by (pose proof (Z.mul_div_le q (2 ^ k)); lia).
    assert (Z.pos m * 2 ^ (e + J) <= q + 2 ^ (e + J)) as H3 by lia.
    assert (Z.pos m * d <= n * 2 ^ (- e) + d) as H4.
    { apply (Z.mul_le_mono_pos_r _ _ (2 ^ (e + J))); [done|].
      rewrite Z.mul_add_distr_r, <- (Z.mul_assoc n), <- EJ.
      apply (Z.mul_le_mono_nonneg_r _ _ d) in H3; lia. }
    rewrite E11 in *. apply Z.nlt_ge. intros Hlt. clear - Hlt H4 Rn Dn P3 Hd.
    set (R := 2 ^ (- e - 11)) in *. set (K := n / d) in *.
    assert (((K + 1) * (2048 * R) - R + 1) * d <= Z.pos m * d) as H5 by (apply Z.mul_le_mono_nonneg_r; lia).
    assert (n * (2048 * R) <= (d * K + d - 1) * (2048 * R)) as H6 by (apply Z.mul_le_mono_nonneg_r; lia).
    assert (R * d <= R * 1000) as H7 by (apply Z.mul_le_mono_nonneg_l; lia). lia.
Qed.

Lemma fdiv_small n d : 0 < n < 2 ^ 40 -> 0 < d <= 1000 ->
  small_num (fdiv (fint false n) (fint false d)) /\ f_trunc (fdiv (fint false n) (fint false d)) = n / d.
Proof.
  intros Hn Hd. destruct (fdiv_int n d Hn Hd) as (m & e & -> & Hm & He & Hlo & Hup).
  split; [constructor; lia|]. rewrite f_trunc_normal by lia. symmetry. apply (Z.div_unique _ _ _ (Z.pos m - n / d * 2 ^ (- e))); nia.
Qed.

Lemma binary_normalize_long S ez :
  52 <= Z.log2 S -> -900 <= ez ->
  binary_normalize 53 1024 S ez false = binary_round_aux 53 1024 false S ez loc_Exact.
Proof.
  intros HS He. destruct S as [|p|p]; [cbn in HS; lia| |cbn in HS; lia].
  cbn [binary_normalize]. unfold binary_round, shl_align. rewrite digits2_pos_log2, fexp_53 by lia.
  destruct (Z.log2 (Z.pos p) + 1 + ez - 53 - ez) eqn:E; [done|done|lia].
Qed.

(** An integer plus such a quotient truncates to the sum of the integers. *)
Lemma fadd_int_frac t m e K :
  0 < t < 2 ^ 40 -> 2 ^ 52 <= Z.pos m < 2 ^ 53 -> -200 <= e <= -12 -> 0 <= K < 2 ^ 39 ->
  K * 2 ^ (- e) <= Z.pos m -> Z.pos m + 2 ^ (- e - 11) <= (K + 1) * 2 ^ (- e) ->
  small_num (fadd (fint false t) (S754_finite false m e)) /\
  f_trunc (fadd (fint false t) (S754_finite false m e)) = t + K.
Proof.
  intros Ht Hm He HK Hlo Hup. destruct (fint_mantissa t) as (Lt & Mt & _); [lia|].
  assert (Z.log2 t < 40) by (apply Z.log2_lt_pow2; lia).
  unfold fadd. cbn [SFadd fint cond_Zopp]. set (ez := Z.min (Z.log2 t - 52) e).
  rewrite fint_align, shl_align_val by lia.
  assert (0 < 2 ^ (e - ez) /\ 0 < 2 ^ (- ez) /\ 0 < 2 ^ (- e)) as (P1 & P2 & P3) by lia.
  assert (2 ^ (- ez) = 2 ^ (- e) * 2 ^ (e - ez)) as Ez by (rewrite <- Z.pow_add_r by lia; f_equal; lia).
  set (S := t * 2 ^ (- ez) + Z.pos m * 2 ^ (e - ez)).
  assert (2 ^ (- ez - 11) = 2 ^ (- e - 11) * 2 ^ (e - ez)) as Eg by (rewrite <- Z.pow_add_r by lia; f_equal; lia).
  assert ((t + K) * 2 ^ (- ez) <= S) as HL.
  { apply (Z.mul_le_mono_nonneg_r _ _ (2 ^ (e - ez))) in Hlo; [|lia]. unfold S. rewrite Ez in *. lia. }
  assert (S + 2 ^ (- ez - 11) <= (t + K + 1) * 2 ^ (- ez)) as HU.
  { apply (Z.mul_le_mono_nonneg_r _ _ (2 ^ (e - ez))) in Hup; [|lia]. unfold S. rewrite Ez, Eg in *. lia. }
  assert (Z.pos m * 1 <= Z.pos m * 2 ^ (e - ez)) as HS0 by (apply Z.mul_le_mono_nonneg_l; lia).
  assert (52 <= Z.log2 S) as HS1.
  { change 52 with (Z.log2 (2 ^ 52)). apply Z.log2_le_mono. unfold S.
    pose proof (Z.mul_pos_pos t (2 ^ (- ez))). lia. }
  assert (Z.log2 S < 41 + - ez) as HS2.
  { apply Z.log2_lt_pow2; [pose proof (Z.mul_pos_pos (t + K) (2 ^ (- ez))); lia|]. rewrite Z.pow_add_r by lia.
    assert ((t + K + 1) * 2 ^ (- ez) <= 2 ^ 41 * 2 ^ (- ez)) by (apply Z.mul_le_mono_nonneg_r; lia).
    assert (0 < 2 ^ (- ez - 11)) by lia. lia. }
  rewrite binary_normalize_long by lia.
  destruct (round_aux_bound S ez loc_Exact) as (m' & e' & -> & Hm' & He' & HL' & HU'); [lia..|].
  set (k := Z.log2 S - 52) in *. split; [constructor; lia|]. rewrite f_trunc_normal by lia.
  assert (0 < 2 ^ (e' - ez) /\ 0 < 2 ^ k) as (P4 & P5) by lia.
  assert (2 ^ (- ez) = 2 ^ (- e') * 2 ^ (e' - ez)) as E' by (rewrite <- Z.pow_add_r by lia; f_equal; lia).
  assert (2 ^ (- ez) = 2 ^ (- ez - k) * 2 ^ k) as Ek by (rewrite <- Z.pow_add_r by lia; f_equal; lia).
  assert ((t + K) * 2 ^ (- ez - k) <= S / 2 ^ k) as H1 by (apply Z.div_le_lower_bound; [lia|]; rewrite Ek in HL; lia).
  assert ((t + K) * 2 ^ (- e') <= Z.pos m') as H2.
  { apply (Z.mul_le_mono_pos_r _ _ (2 ^ (e' - ez))); [done|]. rewrite <- Z.mul_assoc, <- E', Ek, Z.mul_assoc.
    apply (Z.mul_le_mono_nonneg_r _ _ (2 ^ k)) in H1; lia. }
  assert (2 ^ k < 2 ^ (- ez - 11)) as H3 by (apply Z.pow_lt_mono_r; lia).
  assert (Z.pos m' < (t + K + 1) * 2 ^ (- e')) as H4.
  { apply (Z.mul_lt_mono_pos_r (2 ^ (e' - ez))); [done|]. rewrite <- Z.mul_assoc, <- E'.
    pose proof (Z.mul_div_le S (2 ^ k) P5). lia. }
  symmetry. apply (Z.div_unique _ _ _ (Z.pos m' - (t + K) * 2 ^ (- e'))); lia.
Qed.

(** A larger integer still compares above every integer below 2^53. *)
Lemma f_of_Z_big n : 2 ^ 53 <= n < two64 -> exists m e, f_of_Z n = S754_finite false m e /\ 1 <= e.
Proof.
  intros Hn. assert (53 <= Z.log2 n) by (change 53 with (Z.log2 (2 ^ 53)); apply Z.log2_le_mono; lia).
  assert (Z.log2 n < 64) by (apply Z.log2_lt_pow2; [lia|]; change (2 ^ 64) with two64; lia).
  unfold f_of_Z. rewrite binary_normalize_long by lia.
  destruct (round_aux_bound n 0 loc_Exact) as (m & e & -> & _ & He & _); [lia..|]. exists m, e. split; [done|lia].
Qed.

Lemma fmin_int_big n b : 0 <= n < two64 -> 0 < b < 2 ^ 53 ->
  small_num (fmin (f_of_Z n) (fint false b)) /\ f_trunc (fmin (f_of_Z n) (fint false b)) = Z.min n b.
Proof.
  intros Hn Hb. pose proof (fint_small b Hb) as Sb.
  destruct (Z.eq_dec n 0) as [->|H0]; [|destruct (Z.lt_ge_cases n (2 ^ 53)) as [Hlt|Hge]].
  - destruct (fmin_trunc (f_of_Z 0) (fint false b)) as [H1 H2]; [constructor|done|]. split; [done|].
    rewrite H2, f_trunc_int by done. done.
  - rewrite f_of_Z_int by lia. destruct (fmin_trunc (fint false n) (fint false b)) as [H1 H2];
      [apply fint_small; lia|done|]. split; [done|]. by rewrite H2, !f_trunc_int by lia.
  - destruct (f_of_Z_big n ltac:(lia)) as (m & e & -> & He).
    assert (flt (fint false b) (S754_finite false m e) = true) as Hf.
    { apply flt_key; [done..|]. unfold key_lt; cbn [fkey fint fst snd].
      destruct (fint_mantissa b Hb) as (L & _). lia. }
    unfold fmin. cbn [is_nan fint]. fold (fint false b). rewrite Hf. split; [done|]. rewrite f_trunc_int by done. lia.
Qed.

Lemma fadd_int a b : 0 < a < 2 ^ 40 -> 0 < b < 2 ^ 39 ->
  small_num (fadd (fint false a) (fint false b)) /\ f_trunc (fadd (fint false a) (fint false b)) = a + b.
Proof.
  intros Ha Hb. destruct (fint_mantissa b) as (L & M & _); [lia|].
  assert (Z.log2 b < 39) by (apply Z.log2_lt_pow2; lia).
  assert (2 ^ (52 - Z.log2 b) = 2048 * 2 ^ (52 - Z.log2 b - 11)) as E
    by (change 2048 with (2 ^ 11); rewrite <- Z.pow_add_r by lia; f_equal; lia).
  apply (fadd_int_frac a _ (Z.log2 b - 52) b); rewrite ?fint_pos by lia; try lia;
    replace (- (Z.log2 b - 52)) with (52 - Z.log2 b) by lia; lia.
Qed.
