(* ===== verification/Round.v ===== *)
(** * Rounding at any precision

    [binary_round_aux] for every precision and range: the mantissa it keeps is
    the quotient or one more, exact when nothing is lost.  From it: results
    are well formed ([wf]), sums and products of well-formed numbers are well
    formed, and the cast from binary64 to binary32 does not leave a bound that
    is a binary32 number. *)
From S2P Require Import Prelude F64 F64Int.

Section Round.
Context (prec emax : Z) (Hprec : 1 < prec) (Hemax : prec < emax).
Abbreviation emin := (emin prec emax).
Abbreviation fexp := (fexp prec emax).

Lemma fexp_max x : fexp x = Z.max (x - prec) emin.
Proof. done. Qed.

Lemma shr_fexp_any m e l : 0 <= m ->
  let r := shr_fexp prec emax m e l in
  let e' := Z.max e (fexp (Zdigits2 m + e)) in
  r.2 = e' /\ shr_m r.1 = m / 2 ^ (e' - e) /\ (l = loc_Exact -> m = m / 2 ^ (e' - e) * 2 ^ (e' - e) -> loc_of_shr_record r.1 = loc_Exact).
Proof.
  intros Hm. unfold shr_fexp, shr. cbn zeta.
  assert (shr_m (shr_record_of_loc m l) = m) as H0 by (by destruct l as [|[]]).
  set (f := fexp (Zdigits2 m + e)).
  destruct (f - e) as [|p|p] eqn:E; cbn [fst snd].
  - replace (Z.max e f) with e by lia. rewrite H0, Z.sub_diag, Z.div_1_r. split_and!; [done|done|]. by intros -> _.
  - replace (Z.max e f) with f by lia. rewrite iter_shr_1_m, H0 by (by rewrite H0). rewrite E. split_and!; [lia|done|].
    intros -> Hx. cbn [shr_record_of_loc]. rewrite Hx, iter_shr_exact by (apply Z.div_pos; lia). done.
  - replace (Z.max e f) with e by lia. rewrite H0, Z.sub_diag, Z.div_1_r. split_and!; [done|done|]. by intros -> _.
Qed.

(** What [binary_round_aux] makes of a rounded mantissa. *)
Definition packed (s : bool) (m e : Z) : spec_float :=
  if m =? 0 then S754_zero s
  else if m =? 2 ^ prec then (if e + 1 <=? emax - prec then S754_finite s (Z.to_pos (2 ^ (prec - 1))) (e + 1) else S754_infinity s)
  else if e <=? emax - prec then S754_finite s (Z.to_pos m) e else S754_infinity s.

Lemma round_aux_packed s mx ex l : 0 < mx -> ex <= fexp (Zdigits2 mx + ex) ->
  let e1 := fexp (Zdigits2 mx + ex) in
  let q := mx / 2 ^ (e1 - ex) in
  exists m1, q <= m1 <= q + 1 /\ (l = loc_Exact -> mx = q * 2 ^ (e1 - ex) -> m1 = q) /\
    0 <= q < 2 ^ prec /\ (emin < e1 -> 2 ^ (prec - 1) <= q) /\ binary_round_aux prec emax s mx ex l = packed s m1 e1.
Proof using Hprec Hemax.
  intros Hm He e1 q. assert (emin <= e1) as Hmin by (unfold e1; rewrite fexp_max; lia).
  assert (0 <= q < 2 ^ prec /\ (emin < e1 -> 2 ^ (prec - 1) <= q)) as [Hq Hn].
  { pose proof (Z.log2_nonneg mx). pose proof (Z.log2_spec mx Hm) as Hs. unfold q. pose proof (Zdigits2_pos mx Hm) as Hd.
    assert (e1 = Z.max (Z.log2 mx + 1 + ex - prec) emin) as E1 by (unfold e1; rewrite fexp_max, Hd; lia).
    split; [split; [apply Z.div_pos; lia|]|].
    - apply Z.div_lt_upper_bound; [lia|]. eapply Z.lt_le_trans; [apply Hs|]. rewrite <- Z.pow_add_r by lia. apply Z.pow_le_mono_r; lia.
    - intros Hlt. destruct (shift_log2 mx (e1 - ex) Hm) as [Hp Hl]; [lia|]. pose proof (Z.log2_spec _ Hp) as Hs2. rewrite Hl in Hs2.
      replace (Z.log2 mx - (e1 - ex)) with (prec - 1) in Hs2 by lia. lia. }
  pose proof (shr_fexp_any mx ex l ltac:(lia)) as (A1 & A2 & A3). fold e1 in A1, A2, A3.
  replace (Z.max ex e1) with e1 in A1, A2, A3 by lia. fold q in A2, A3.
  unfold binary_round_aux. destruct (shr_fexp prec emax mx ex l) as [r e1']. cbn [fst snd] in A1, A2, A3. subst e1'.
  rewrite A2. set (m1 := round_nearest_even q (loc_of_shr_record r)). exists m1.
  assert (q <= m1 <= q + 1) as Hb by (unfold m1; destruct (round_even_cases q (loc_of_shr_record r)) as [-> | ->]; lia).
  split; [done|]. split; [intros Hl Hx; unfold m1; by rewrite A3|]. split; [done|]. split; [done|].
  pose proof (shr_fexp_any m1 e1 loc_Exact ltac:(lia)) as (B1 & B2 & _).
  destruct (shr_fexp prec emax m1 e1 loc_Exact) as [r2 e2]. cbn [fst snd] in B1, B2. unfold packed.
  destruct (Z.eqb_spec m1 0) as [E0|Hz].
  { rewrite E0, Z.div_0_l in B2 by lia. by rewrite B2. }
  pose proof (Zdigits2_pos m1 ltac:(lia)) as Hd1. rewrite Hd1, fexp_max in B1, B2.
  destruct (Z.eqb_spec m1 (2 ^ prec)) as [E2|Hne].
  - rewrite E2, Z.log2_pow2 in B1, B2 by lia. replace (Z.max _ _) with (e1 + 1) in B1, B2 by lia.
    replace (e1 + 1 - e1) with 1 in B2 by lia. rewrite (Z.pow_sub_r 2 prec 1), Z.pow_1_r in * by lia. rewrite B2, B1.
    assert (0 < 2 ^ prec / 2) as Hp by (apply Z.div_str_pos; split; [lia|]; apply (Z.pow_le_mono_r 2 1); lia).
    destruct (2 ^ prec / 2) as [|p|p]; [lia|done|lia].
  - assert (Z.log2 m1 < prec) by (apply Z.log2_lt_pow2; lia). replace (Z.max _ _) with e1 in B1, B2 by lia.
    rewrite Z.sub_diag, Z.div_1_r in B2. rewrite B2, B1. destruct m1 as [|p|p]; [lia|done|lia].
Qed.
End Round.

(** ** Well-formed numbers *)
Definition wf (prec emax : Z) (x : spec_float) : Prop :=
  match x with
  | S754_finite _ m e => Z.pos m < 2 ^ prec /\ emin prec emax <= e <= emax - prec /\ (emin prec emax < e -> 2 ^ (prec - 1) <= Z.pos m)
  | _ => True
  end.

Section Wf.
Context (prec emax : Z) (Hprec : 1 < prec) (Hemax : prec < emax).

Lemma packed_wf s m e : 0 <= m <= 2 ^ prec -> emin prec emax <= e -> (emin prec emax < e -> 2 ^ (prec - 1) <= m) ->
  wf prec emax (packed prec emax s m e).
Proof using Hprec.
  intros Hm He Hn. unfold packed. destruct (Z.eqb_spec m 0); [done|]. destruct (Z.eqb_spec m (2 ^ prec)).
  - destruct (Z.leb_spec (e + 1) (emax - prec)); [|done]. cbn. rewrite Z2Pos.id by (apply Z.pow_pos_nonneg; lia).
    split; [apply Z.pow_lt_mono_r; lia|]. split; [lia|]. lia.
  - destruct (Z.leb_spec e (emax - prec)); [|done]. cbn. rewrite Z2Pos.id by lia. split; [lia|]. split; [lia|done].
Qed.
Lemma round_aux_wf s mx ex l : 0 < mx -> ex <= fexp prec emax (Zdigits2 mx + ex) -> wf prec emax (binary_round_aux prec emax s mx ex l).
Proof using Hprec Hemax.
  intros Hm He. destruct (round_aux_packed prec emax Hprec Hemax s mx ex l Hm He) as (m1 & Hb & _ & Hq & Hn & ->).
  apply packed_wf; [lia|unfold fexp; lia|]. intros H. specialize (Hn H). lia.
Qed.

(** The alignment of [binary_round] does not change the exponent of rounding. *)
Lemma shl_align_fexp m e : let f := fexp prec emax (Z.pos (digits2_pos m) + e) in
  exists m', shl_align m e f = (m', Z.min e f) /\ Z.pos m' = Z.pos m * 2 ^ (e - Z.min e f) /\
    fexp prec emax (Zdigits2 (Z.pos m') + Z.min e f) = f.
Proof.
  intros f. pose proof (Z.log2_nonneg (Z.pos m)). destruct (Z.le_gt_cases f e) as [Hle|Hgt].
  - pose proof (shl_align_val m e f Hle) as Hv. exists (shl_align m e f).1. rewrite (Z.min_r e f) by lia.
    split; [|split; [done|]].
    + unfold shl_align. destruct (f - e) eqn:E; cbn [fst]; f_equal; lia.
    + unfold Zdigits2. rewrite digits2_pos_log2, Hv, Z.log2_mul_pow2 by lia. unfold f. rewrite digits2_pos_log2. f_equal. lia.
  - exists m. rewrite (Z.min_l e f) by lia. unfold shl_align. destruct (f - e) eqn:E; [lia| |lia].
    split; [done|]. rewrite Z.sub_diag. split; [lia|done].
Qed.
Lemma binary_round_wf s m e : wf prec emax (binary_round prec emax s m e).
Proof using Hprec Hemax.
  unfold binary_round. destruct (shl_align_fexp m e) as (m' & -> & _ & Hf). apply round_aux_wf; [lia|]. rewrite Hf. lia.
Qed.
Lemma binary_normalize_wf m e s : wf prec emax (binary_normalize prec emax m e s).
Proof using Hprec Hemax. destruct m; cbn [binary_normalize]; [done|apply binary_round_wf..]. Qed.
Lemma SFadd_wf x y : wf prec emax x -> wf prec emax y -> wf prec emax (SFadd prec emax x y).
Proof using Hprec Hemax.
  intros Hx Hy. destruct x as [s1|s1| |s1 m1 e1], y as [s2|s2| |s2 m2 e2]; cbn [SFadd]; try done;
    try (by destruct s1, s2). apply binary_normalize_wf.
Qed.
Lemma SFmul_wf x y : wf prec emax x -> wf prec emax y -> wf prec emax (SFmul prec emax x y).
Proof using Hprec Hemax.
  intros Hx Hy. destruct x as [s1|s1| |s1 m1 e1], y as [s2|s2| |s2 m2 e2]; cbn [SFmul]; try done.
  destruct Hx as (_ & He1 & Hn1), Hy as (_ & He2 & Hn2). apply round_aux_wf; [lia|]. rewrite Pos2Z.inj_mul.
  rewrite Zdigits2_pos by lia. pose proof (Z.log2_mul_below (Z.pos m1) (Z.pos m2) ltac:(lia) ltac:(lia)).
  pose proof (Z.log2_nonneg (Z.pos m1)). pose proof (Z.log2_nonneg (Z.pos m2)).
  assert (forall m, 2 ^ (prec - 1) <= Z.pos m -> prec - 1 <= Z.log2 (Z.pos m)) as Hl.
  { intros m Hm. rewrite <- (Z.log2_pow2 (prec - 1)) by lia. by apply Z.log2_le_mono. }
  unfold fexp. destruct (Z.eq_dec e1 (emin prec emax)) as [->|N1]; [destruct (Z.eq_dec e2 (emin prec emax)) as [->|N2]|].
  - assert (emin prec emax <= 0) by (unfold emin; lia). lia.
  - specialize (Hl m2 (Hn2 ltac:(lia))). lia.
  - specialize (Hl m1 (Hn1 ltac:(lia))). lia.
Qed.
End Wf.

Lemma fadd_wf a b : wf 53 1024 a -> wf 53 1024 b -> wf 53 1024 (fadd a b).
Proof. apply SFadd_wf; lia. Qed.
Lemma fmul_wf a b : wf 53 1024 a -> wf 53 1024 b -> wf 53 1024 (fmul a b).
Proof. apply SFmul_wf; lia. Qed.
Lemma f_of_Z_wf n : wf 53 1024 (f_of_Z n).
Proof. apply binary_normalize_wf; lia. Qed.
Lemma fneg_wf a : wf 53 1024 a -> wf 53 1024 (fneg a).
Proof. by destruct a. Qed.

(** ** Casts between the widths *)
Definition f64_of_f32 (x : f32) : f64 := match x with S754_finite s m e => binary_round 53 1024 s m e | x => x end.
Definition f32_of_f64 (x : f64) : f32 := match x with S754_finite s m e => binary_round 24 128 s m e | x => x end.

(** The values of positive numbers compare as their keys do. *)
Lemma fle_value m1 e1 m2 e2 E : wf 53 1024 (S754_finite false m1 e1) -> wf 53 1024 (S754_finite false m2 e2) ->
  fle (S754_finite false m1 e1) (S754_finite false m2 e2) = true -> E <= e1 -> E <= e2 ->
  Z.pos m1 * 2 ^ (e1 - E) <= Z.pos m2 * 2 ^ (e2 - E).
Proof.
  intros (M1 & R1 & N1) (M2 & R2 & N2) H H1 H2. apply fle_key in H; [|done..]. unfold key_lt in H. cbn [fkey fst snd] in H.
  destruct (Z.eq_dec e1 e2) as [->|Hne]; [apply Z.mul_le_mono_nonneg_r; lia|].
  assert (e1 < e2) as Hlt by lia. specialize (N2 ltac:(lia)). replace (e2 - E) with ((e2 - e1) + (e1 - E)) by lia.
  rewrite Z.pow_add_r, Z.mul_assoc by lia. apply Z.mul_le_mono_nonneg_r; [lia|].
  pose proof (Z.pow_le_mono_r 2 1 (e2 - e1)). nia.
Qed.

(** A mantissa of at most 53 bits rounds to itself. *)
Lemma binary_round_exact s m e : Z.pos m < 2 ^ 53 -> -900 <= e <= 900 ->
  exists m' e', binary_round 53 1024 s m e = S754_finite s m' e' /\ wf 53 1024 (S754_finite s m' e') /\
    e - 53 <= e' <= e /\ Z.pos m' = Z.pos m * 2 ^ (e - e').
Proof.
  intros Hm He. unfold binary_round.
  destruct (shl_align_fexp 53 1024 m e) as (m' & -> & Hv & Hf). set (f := fexp 53 1024 _) in *.
  assert (Z.log2 (Z.pos m) < 53) as Hl by (apply Z.log2_lt_pow2; lia). pose proof (Z.log2_nonneg (Z.pos m)).
  assert (f = Z.log2 (Z.pos m) + 1 + e - 53) as Ef
    by (unfold f, fexp; rewrite digits2_pos_log2; change (emin 53 1024) with (-1074); lia).
  replace (Z.min e f) with f in * by lia.
  destruct (round_aux_packed 53 1024 ltac:(lia) ltac:(lia) s (Z.pos m') f loc_Exact ltac:(lia) ltac:(lia)) as (m1 & Hb & Hx & Hq & Hn & ->).
  rewrite Hf, Z.sub_diag, Z.pow_0_r, Z.div_1_r, Z.mul_1_r in *. specialize (Hx eq_refl eq_refl). subst m1.
  exists m', f. unfold packed. rewrite (proj2 (Z.eqb_neq _ _)), (proj2 (Z.eqb_neq _ _)), (proj2 (Z.leb_le _ _)) by lia.
  cbn [Z.to_pos]. split; [done|]. split; [|split; [lia|done]]. cbn. change (emin 53 1024) with (-1074) in *. change (53 - 1) with 52 in *. split; [lia|]. split; lia.
Qed.
Lemma wf_f32_range s m e : wf 24 128 (S754_finite s m e) -> Z.pos m < 2 ^ 53 /\ -149 <= e <= 104.
Proof. intros (Hm & He & _). change (emin 24 128) with (-149) in He. change (2 ^ 53) with (2 ^ 24 * 2 ^ 29). lia. Qed.

(** ** Products that stay finite *)

(** Zero, or a well-formed number whose exponent is far from both ends. *)
Definition tame (x : f64) : Prop :=
  match x with
  | S754_zero _ => True
  | S754_finite _ m e => wf 53 1024 x /\ -300 <= e <= 300
  | _ => False
  end.
Lemma tame_wf x : tame x -> wf 53 1024 x.
Proof. destruct x; try done. by intros [H _]. Qed.
Lemma tame_round s m e : Z.pos m < 2 ^ 53 -> -200 <= e <= 200 -> tame (binary_round 53 1024 s m e).
Proof. intros Hm He. destruct (binary_round_exact s m e Hm ltac:(lia)) as (m' & e' & -> & Hw & Hr & _). split; [done|lia]. Qed.
Lemma tame_f32 x : wf 24 128 x -> is_finite x = true -> tame (f64_of_f32 x).
Proof. intros Hw Hf. destruct x as [s|s| |s m e]; try done. destruct (wf_f32_range s m e Hw). apply tame_round; lia. Qed.
Lemma tame_int n : 0 <= n < 2 ^ 53 -> tame (f_of_Z n).
Proof. intros Hn. unfold f_of_Z. destruct n as [|p|p]; [done| |lia]. apply tame_round; lia. Qed.
Lemma tame_mul a b : tame a -> tame b -> is_finite (fmul a b) = true /\ wf 53 1024 (fmul a b).
Proof.
  intros Ha Hb. split; [|apply fmul_wf; by apply tame_wf].
  destruct a as [s1|s1| |s1 m1 e1], b as [s2|s2| |s2 m2 e2]; try done. destruct Ha as ((M1 & _) & E1), Hb as ((M2 & _) & E2).
  unfold fmul. cbn [SFmul]. destruct (binary_round_aux_finite (xorb s1 s2) (Z.pos (m1 * m2)) (e1 + e2) loc_Exact) as (m & e & ->); [lia|lia| |done].
  assert (Z.log2 (Z.pos (m1 * m2)) < 106) by (apply Z.log2_lt_pow2; [lia|]; rewrite Pos2Z.inj_mul; change (2 ^ 106) with (2 ^ 53 * 2 ^ 53); nia). lia.
Qed.

(** A rounded mantissa below a bound at the same or a larger exponent. *)
Lemma packed_le s_m1 f mM eM : 0 <= s_m1 <= 2 ^ 24 -> emin 24 128 <= f -> wf 24 128 (S754_finite false mM eM) ->
  (f < eM \/ f = eM /\ s_m1 <= Z.pos mM) ->
  fle f0 (packed 24 128 false s_m1 f) = true /\ fle (packed 24 128 false s_m1 f) (S754_finite false mM eM) = true.
Proof.
  intros Hm Hf (M1 & M2 & M3) Hc. unfold packed.
  destruct (Z.eqb_spec s_m1 0); [done|]. destruct (Z.eqb_spec s_m1 (2 ^ 24)) as [E|E].
  - assert (f < eM) as Hlt by lia. specialize (M3 ltac:(lia)). rewrite (proj2 (Z.leb_le _ _)) by lia. split; [done|].
    apply fle_key; [done..|]. unfold key_lt. cbn [fkey fst snd]. change (Z.pos (Z.to_pos (2 ^ (24 - 1)))) with (2 ^ 23). change (24 - 1) with 23 in M3. lia.
  - rewrite (proj2 (Z.leb_le _ _)) by lia. split; [done|].
    apply fle_key; [done..|]. unfold key_lt. cbn [fkey fst snd]. rewrite Z2Pos.id by lia. lia.
Qed.

Lemma f32_round_le m e mM eM : wf 24 128 (S754_finite false mM eM) ->
  (forall E, E <= e -> E <= eM -> Z.pos m * 2 ^ (e - E) <= Z.pos mM * 2 ^ (eM - E)) ->
  fle f0 (f32_of_f64 (S754_finite false m e)) = true /\ fle (f32_of_f64 (S754_finite false m e)) (S754_finite false mM eM) = true.
Proof.
  intros HM Hv. cbn [f32_of_f64]. unfold binary_round.
  destruct (shl_align_fexp 24 128 m e) as (mz & -> & Hz & Hf). set (f := fexp 24 128 _) in *. set (ez := Z.min e f) in *.
  assert (emin 24 128 <= f) as Hmin by (unfold f, fexp; lia). pose proof HM as (M1 & M2 & M3).
  assert (forall E, E <= ez -> E <= eM -> Z.pos mz * 2 ^ (ez - E) <= Z.pos mM * 2 ^ (eM - E)) as Hvz.
  { intros E H1 H2. rewrite Hz, <- Z.mul_assoc, <- Z.pow_add_r by lia. replace (e - ez + (ez - E)) with (e - E) by lia. apply Hv; lia. }
  destruct (round_aux_packed 24 128 ltac:(lia) ltac:(lia) false (Z.pos mz) ez loc_Exact ltac:(lia)) as (m1 & Hb & Hx & Hq & Hn & ->); [lia|].
  rewrite Hf in *. set (q := Z.pos mz / 2 ^ (f - ez)) in *. apply packed_le; [lia|done|done|].
  assert (0 < 2 ^ (f - ez)) as Hp by (apply Z.pow_pos_nonneg; lia).
  assert (q * 2 ^ (f - ez) <= Z.pos mz) as Hql by (unfold q; pose proof (Z.mul_div_le (Z.pos mz) (2 ^ (f - ez)) Hp); lia).
  destruct (Z.lt_trichotomy f eM) as [Hlt|[Heq|Hgt]]; [by left|right|exfalso].
  - split; [done|]. specialize (Hvz ez ltac:(lia) ltac:(lia)). rewrite Z.sub_diag, Z.pow_0_r, Z.mul_1_r, <- Heq in Hvz.
    destruct (Z.lt_ge_cases q (Z.pos mM)); [lia|]. assert (q = Z.pos mM) as Eq by nia. rewrite Hx; [lia|done|nia].
  - specialize (Hn ltac:(lia)). change (24 - 1) with 23 in Hn. set (E := Z.min ez eM). specialize (Hvz E ltac:(lia) ltac:(lia)).
    assert (2 ^ 23 * 2 ^ (f - E) <= Z.pos mz * 2 ^ (ez - E)) as H1.
    { replace (f - E) with ((f - ez) + (ez - E)) by lia. rewrite Z.pow_add_r, Z.mul_assoc by lia. apply Z.mul_le_mono_nonneg_r; [lia|]. nia. }
    assert (2 ^ 24 * 2 ^ (eM - E) <= 2 ^ 23 * 2 ^ (f - E)) as H2.
    { rewrite <- !Z.pow_add_r by lia. apply Z.pow_le_mono_r; lia. }
    assert (0 < 2 ^ (eM - E)) by (apply Z.pow_pos_nonneg; lia). nia.
Qed.

(** Rounding to binary32 stays below a bound that is a binary32 number. *)
Lemma f32_of_f64_bound x M : wf 53 1024 x -> wf 24 128 M -> is_finite M = true -> fle f0 M = true -> fle f0 x = true ->
  fle x (f64_of_f32 M) = true -> fle f0 (f32_of_f64 x) = true /\ fle (f32_of_f64 x) M = true.
Proof.
  intros Hx HM Hf HM0 H0 Hle. destruct M as [sM|sM| |[] mM eM]; try done; [by destruct x as [s|[]| |[] m e]|].
  destruct (wf_f32_range false mM eM HM) as [HmM HeM]. destruct (binary_round_exact false mM eM) as (m' & e' & E & Hw & He & Hm'); [lia..|].
  cbn [f64_of_f32] in Hle. rewrite E in Hle.
  destruct x as [s|[]| |[] m e]; try done.
  apply f32_round_le; [done|]. intros B H1 H2. set (C := Z.min B e'). assert (C <= B) as HCB by lia.
  pose proof (fle_value m e m' e' C Hx Hw Hle ltac:(lia) ltac:(lia)) as H. rewrite Hm', <- Z.mul_assoc, <- Z.pow_add_r in H by lia.
  replace (e - C) with ((e - B) + (B - C)) in H by lia. replace (eM - e' + (e' - C)) with ((eM - B) + (B - C)) in H by lia.
  rewrite !Z.pow_add_r, !Z.mul_assoc in H by lia. apply (Z.mul_le_mono_pos_r _ _ (2 ^ (B - C))); [apply Z.pow_pos_nonneg; lia|done].
Qed.

(** An integer bound on a well-formed number is a bound on its integer part. *)
Lemma clamped_trunc x a b : wf 53 1024 x -> 1 <= a -> b < 2 ^ 53 -> fle (f_of_Z a) x = true -> fle x (f_of_Z b) = true -> a <= b ->
  small_num x /\ a <= f_trunc x <= b.
Proof.
  intros Hx Ha Hb H1 H2 Hab. rewrite f_of_Z_int in H1, H2 by lia. destruct (fint_mantissa a) as (La & _ & _); [lia|].
  destruct (fint_mantissa b) as (Lb & _ & _); [lia|].
  assert (small_num x) as Hs.
  { destruct x as [[]|[]| |[] m e]; try done. destruct Hx as (M1 & R1 & N1).
    apply fle_key in H1; [|done..]. apply fle_key in H2; [|done..]. unfold key_lt in H1, H2. cbn [fkey fint fst snd] in H1, H2.
    change (emin 53 1024) with (-1074) in *. change (53 - 1) with 52 in *. constructor; [split; [apply N1; lia|lia]|lia]. }
  split; [done|]. pose proof (fint_small a ltac:(lia)). pose proof (fint_small b ltac:(lia)).
  apply f_trunc_mono in H1; [|done..]. apply f_trunc_mono in H2; [|done..]. rewrite f_trunc_int in H1, H2 by lia. lia.
Qed.
