(* ===== verification/Wire.v ===== *)
(** * Wire formats (crate srtla-protocol)

    The packet constants, the packet-type helpers ([types.rs]), the packet
    builders ([builders.rs]) and the parsers of packets that arrive from the
    network ([parsers.rs]).  A buffer is a list of bytes; the parsers run in
    [res], where an index out of range and an overflowing [+= 1] are a panic.
    The theorems show that no input makes a parser panic, what each parser
    returns on every input, and that it inverts the builders. *)
From S2P Require Import Prelude.

Definition bytes := list Z.
Definition is_bytes (buf : bytes) : Prop := Forall is_u8 buf.

(** ** constants.rs *)
Definition SRTLA_TYPE_KEEPALIVE : Z := 0x9000.
Definition SRTLA_TYPE_ACK : Z := 0x9100.
Definition SRTLA_TYPE_REG1 : Z := 0x9200.
Definition SRTLA_TYPE_REG2 : Z := 0x9201.
Definition SRTLA_TYPE_REG3 : Z := 0x9202.
Definition SRTLA_TYPE_REG_ERR : Z := 0x9210.
Definition SRTLA_TYPE_REG_NGP : Z := 0x9211.
Definition SRTLA_TYPE_REG_NAK : Z := 0x9212.
Definition SRT_TYPE_HANDSHAKE : Z := 0x8000.
Definition SRT_TYPE_ACK : Z := 0x8002.
Definition SRT_TYPE_NAK : Z := 0x8003.
Definition SRT_CONTROL_HEADER_LEN : nat := 16.
Definition SRT_HANDSHAKE_CIF_LEN : nat := 48.
Definition SRT_HS_VERSION_5 : Z := 5.
Definition SRT_HS_REQTYPE_CONCLUSION : Z := -1.
Definition SRT_HS_EXT_FLAG_HSREQ : Z := 1.
Definition SRT_HS_EXT_CMD_HSREQ : Z := 1.
Definition SRT_HS_EXT_CMD_HSRSP : Z := 2.
Definition SRT_HS_EXT_HSREQ_WORDS : nat := 3.
Definition SRT_HS_OPT_TSBPDSND : Z := 1.
Definition SRT_HS_OPT_TSBPDRCV : Z := 2.
Definition SRTLA_ID_LEN : nat := 256.
Definition SRTLA_TYPE_REG1_LEN : nat := 2 + SRTLA_ID_LEN.
Definition SRTLA_TYPE_REG2_LEN : nat := 2 + SRTLA_ID_LEN.
Definition SRTLA_TYPE_REG3_LEN : nat := 2.
Definition MTU : Z := 1500.
Definition CONN_TIMEOUT : Z := 5.
Definition REG2_TIMEOUT : Z := 4.
Definition REG3_TIMEOUT : Z := 4.
Definition IDLE_TIME : Z := 1.
Definition WINDOW_MIN : Z := 1.
Definition WINDOW_DEF : Z := 20.
Definition WINDOW_MAX : Z := 60.
Definition WINDOW_MULT : Z := 1000.
Definition WINDOW_DECR : Z := 100.
Definition WINDOW_INCR : Z := 30.
Definition SRTLA_KEEPALIVE_MAGIC : Z := 0xc01f.
Definition SRTLA_KEEPALIVE_EXT_LEN : nat := 38.
Definition SRTLA_KEEPALIVE_EXT_VERSION : Z := 1.

(** ** Big-endian integers and slices of the standard library *)

(** [from_be_bytes]. *)
Definition of_be (bs : bytes) : Z := fold_left (fun acc b => acc * 256 + b) bs 0.

(** [to_be_bytes] of a [w]-byte integer; a negative one in two's complement. *)
Fixpoint to_be (w : nat) (z : Z) : bytes :=
  match w with
  | O => []
  | S w' => (z / 256 ^ Z.of_nat w') mod 256 :: to_be w' z
  end.

(** [buf[i]]. *)
Definition idx (buf : bytes) (i : nat) : res Z :=
  match buf !! i with Some b => Ret b | None => Panic end.

(** [u32::from_be_bytes([buf[i], buf[i+1], buf[i+2], buf[i+3]])]. *)
Definition idx32 (buf : bytes) (i : nat) : res Z :=
  b0 ← idx buf i; b1 ← idx buf (i + 1); b2 ← idx buf (i + 2); b3 ← idx buf (i + 3);
  Ret (of_be [b0; b1; b2; b3]).

Definition idx16 (buf : bytes) (i : nat) : res Z :=
  b0 ← idx buf i; b1 ← idx buf (i + 1); Ret (of_be [b0; b1]).

(** [buf.get(lo..hi)] and [buf.get(lo..)]. *)
Definition get_range (buf : bytes) (lo hi : nat) : option bytes :=
  if bool_decide (lo <= hi <= length buf)%nat then Some (take (hi - lo) (drop lo buf)) else None.
Definition get_from (buf : bytes) (lo : nat) : option bytes :=
  if bool_decide (lo <= length buf)%nat then Some (drop lo buf) else None.

(** [&buf[lo..]]. *)
Definition slice_from (buf : bytes) (lo : nat) : res bytes :=
  match get_from buf lo with Some b => Ret b | None => Panic end.

(** [pkt[off..off + src.len()].copy_from_slice(src)]. *)
Definition copy_from_slice (off : nat) (src pkt : bytes) : bytes := list_inserts off src pkt.

(** ** types.rs *)
Record ConnectionInfo := mkConnectionInfo {
  ci_conn_id : Z; ci_window : Z; ci_in_flight : Z; ci_rtt_ms : Z;
  ci_nak_count : Z; ci_bitrate_bytes_per_sec : Z }.

Record SrtHandshakeLatency := mkHsLatency {
  is_response : bool; rcv_ms : option Z; snd_ms : option Z }.

Definition get_packet_type (buf : bytes) : res (option Z) :=
  if bool_decide (length buf < 2)%nat then Ret None
  else t ← idx16 buf 0; Ret (Some t).

Definition is_srtla_reg1 (buf : bytes) : res bool :=
  if bool_decide (length buf = SRTLA_TYPE_REG1_LEN)
  then t ← get_packet_type buf; Ret (bool_decide (t = Some SRTLA_TYPE_REG1)) else Ret false.
Definition is_srtla_reg2 (buf : bytes) : res bool :=
  if bool_decide (length buf = SRTLA_TYPE_REG2_LEN)
  then t ← get_packet_type buf; Ret (bool_decide (t = Some SRTLA_TYPE_REG2)) else Ret false.
Definition is_srtla_reg3 (buf : bytes) : res bool :=
  if bool_decide (length buf = SRTLA_TYPE_REG3_LEN)
  then t ← get_packet_type buf; Ret (bool_decide (t = Some SRTLA_TYPE_REG3)) else Ret false.
Definition is_srtla_keepalive (buf : bytes) : res bool :=
  t ← get_packet_type buf; Ret (bool_decide (t = Some SRTLA_TYPE_KEEPALIVE)).
Definition is_srt_ack (buf : bytes) : res bool :=
  t ← get_packet_type buf; Ret (bool_decide (t = Some SRT_TYPE_ACK)).

Definition get_srt_sequence_number (buf : bytes) : res (option Z) :=
  if bool_decide (length buf < 4)%nat then Ret None
  else sn ← idx32 buf 0;
       Ret (if Z.land sn 0x80000000 =? 0 then Some sn else None).

Definition is_srt_data_retransmit (buf : bytes) : res bool :=
  if bool_decide (8 <= length buf)%nat then
    b0 ← idx buf 0;
    if Z.land b0 0x80 =? 0 then b4 ← idx buf 4; Ret (negb (Z.land b4 0x04 =? 0))
    else Ret false
  else Ret false.

Definition set_srt_data_retransmit (buf : bytes) : res bytes :=
  if bool_decide (8 <= length buf)%nat then
    b0 ← idx buf 0;
    if Z.land b0 0x80 =? 0 then b4 ← idx buf 4; Ret (<[4%nat := Z.lor b4 0x04]> buf)
    else Ret buf
  else Ret buf.

(** ** builders.rs *)
Definition create_reg1_packet (id : bytes) : bytes :=
  copy_from_slice 2 id (copy_from_slice 0 (to_be 2 SRTLA_TYPE_REG1)
    (replicate SRTLA_TYPE_REG1_LEN 0)).

Definition create_reg2_packet (id : bytes) : bytes :=
  copy_from_slice 2 id (copy_from_slice 0 (to_be 2 SRTLA_TYPE_REG2)
    (replicate SRTLA_TYPE_REG2_LEN 0)).

Definition create_keepalive_packet (now : Z) : bytes :=
  copy_from_slice 2 (to_be 8 now) (copy_from_slice 0 (to_be 2 SRTLA_TYPE_KEEPALIVE)
    (replicate 10 0)).

Definition create_keepalive_packet_ext (info : ConnectionInfo) (now : Z) : bytes :=
  let pkt := replicate SRTLA_KEEPALIVE_EXT_LEN 0 in
  let pkt := copy_from_slice 0 (to_be 2 SRTLA_TYPE_KEEPALIVE) pkt in
  let pkt := copy_from_slice 2 (to_be 8 now) pkt in
  let pkt := copy_from_slice 10 (to_be 2 SRTLA_KEEPALIVE_MAGIC) pkt in
  let pkt := copy_from_slice 12 (to_be 2 SRTLA_KEEPALIVE_EXT_VERSION) pkt in
  let pkt := copy_from_slice 14 (to_be 4 (ci_conn_id info)) pkt in
  let pkt := copy_from_slice 18 (to_be 4 (ci_window info)) pkt in
  let pkt := copy_from_slice 22 (to_be 4 (ci_in_flight info)) pkt in
  let pkt := copy_from_slice 26 (to_be 4 (ci_rtt_ms info)) pkt in
  let pkt := copy_from_slice 30 (to_be 4 (ci_nak_count info)) pkt in
  copy_from_slice 34 (to_be 4 (ci_bitrate_bytes_per_sec info)) pkt.

Definition create_ack_packet (acks : list Z) : bytes :=
  let pkt := replicate (4 + 4 * length acks) 0 in
  let pkt := copy_from_slice 0 (to_be 2 SRTLA_TYPE_ACK) pkt in
  let pkt := <[3%nat := 0]> (<[2%nat := 0]> pkt) in
  snd (fold_left (fun '(i, pkt) ack => (S i, copy_from_slice (4 + i * 4) (to_be 4 ack) pkt))
         acks (O, pkt)).

(** ** parsers.rs *)
Definition be32 (buf : bytes) (off : nat) : res (option Z) :=
  bs ←? Ret (get_range buf off (off + 4));
  w ← idx32 bs 0; Ret (Some w).

(** The walk over the extension blocks.  Each step drops at least the four
    bytes of the spec word, so [length rest] steps are enough; a walk that ran
    out of fuel would count as a panic. *)
Fixpoint hs_walk (fuel : nat) (rest : bytes) : res (option SrtHandshakeLatency) :=
  match fuel with
  | O => if bool_decide (4 <= length rest)%nat then Panic else Ret None
  | S fuel =>
    if bool_decide (4 <= length rest)%nat then
      spec ←? be32 rest 0;
      let cmd := u16_wrap (Z.shiftr spec 16) in
      let block_len := (Z.to_nat (Z.land spec 0xffff) * 4)%nat in
      block ←? Ret (get_range rest 4 (4 + block_len));
      if (cmd =? SRT_HS_EXT_CMD_HSREQ) || (cmd =? SRT_HS_EXT_CMD_HSRSP) then
        if bool_decide (length block < SRT_HS_EXT_HSREQ_WORDS * 4)%nat then Ret None
        else
          flags ←? be32 block 4;
          latency ←? be32 block 8;
          Ret (Some {|
            is_response := cmd =? SRT_HS_EXT_CMD_HSRSP;
            rcv_ms := if negb (Z.land flags SRT_HS_OPT_TSBPDRCV =? 0)
                      then Some (u16_wrap (Z.shiftr latency 16)) else None;
            snd_ms := if negb (Z.land flags SRT_HS_OPT_TSBPDSND =? 0)
                      then Some (u16_wrap (Z.land latency 0xffff)) else None |})
      else
        rest' ← slice_from rest (4 + block_len);
        hs_walk fuel rest'
    else Ret None
  end.

Definition parse_srt_handshake_latency (buf : bytes) : res (option SrtHandshakeLatency) :=
  t ←? get_packet_type buf;
  if negb (t =? SRT_TYPE_HANDSHAKE) then Ret None else
  body ←? Ret (get_from buf SRT_CONTROL_HEADER_LEN);
  if bool_decide (length body < SRT_HANDSHAKE_CIF_LEN)%nat then Ret None else
  version ←? be32 body 0;
  if negb (version =? SRT_HS_VERSION_5) then Ret None else
  reqtype ←? be32 body 20;
  if negb (i32_wrap reqtype =? SRT_HS_REQTYPE_CONCLUSION) then Ret None else
  ext ←? be32 body 4;
  if Z.land (Z.land ext 0xffff) SRT_HS_EXT_FLAG_HSREQ =? 0 then Ret None else
  rest ←? Ret (get_from body SRT_HANDSHAKE_CIF_LEN);
  hs_walk (length rest) rest.

(** [for i in 0..8 { ts = (ts << 8) | (buf[2 + i] as u64); }] *)
Fixpoint ts_loop (buf : bytes) (n i : nat) (ts : Z) : res Z :=
  match n with
  | O => Ret ts
  | S n => b ← idx buf (2 + i); ts_loop buf n (S i) (Z.lor (u64_wrap (Z.shiftl ts 8)) b)
  end.

Definition extract_keepalive_timestamp (buf : bytes) : res (option Z) :=
  if bool_decide (length buf < 10)%nat then Ret None else
  t ←? get_packet_type buf;
  if negb (t =? SRTLA_TYPE_KEEPALIVE) then Ret None else
  ts ← ts_loop buf 8 0 0; Ret (Some ts).

Definition extract_keepalive_conn_info (buf : bytes) : res (option ConnectionInfo) :=
  if bool_decide (length buf < SRTLA_KEEPALIVE_EXT_LEN)%nat then Ret None else
  t ←? get_packet_type buf;
  if negb (t =? SRTLA_TYPE_KEEPALIVE) then Ret None else
  magic ← idx16 buf 10;
  if negb (magic =? SRTLA_KEEPALIVE_MAGIC) then Ret None else
  version ← idx16 buf 12;
  if negb (version =? SRTLA_KEEPALIVE_EXT_VERSION) then Ret None else
  conn_id ← idx32 buf 14;
  window ← idx32 buf 18;
  in_flight ← idx32 buf 22;
  rtt ← idx32 buf 26;
  nak_count ← idx32 buf 30;
  bitrate ← idx32 buf 34;
  Ret (Some (mkConnectionInfo conn_id (i32_wrap window) (i32_wrap in_flight)
               rtt nak_count bitrate)).

Definition parse_srt_ack (buf : bytes) : res (option Z) :=
  if bool_decide (length buf < 20)%nat then Ret None else
  t ←? get_packet_type buf;
  if negb (t =? SRT_TYPE_ACK) then Ret None else
  a ← idx32 buf 16; Ret (Some a).

Definition SRT_NAK_RANGE_FLAG : Z := 0x80000000.
Definition SRT_NAK_MAX_LOSS_IDS : nat := 1000.

(** The inner [loop]: push, stop at [end], else step.  [seq += 1] panics on
    overflow in a checked build; the theorem below shows it cannot. *)
Fixpoint nak_range (fuel : nat) (seq end_ : Z) (out : list Z) : res (list Z) :=
  if bool_decide (SRT_NAK_MAX_LOSS_IDS <= length out)%nat then Ret out else
  match fuel with
  | O => Panic
  | S fuel =>
    let out := out ++ [seq] in
    if seq =? end_ then Ret out
    else if seq + 1 <? two32 then nak_range fuel (seq + 1) end_ out else Panic
  end.

(** The outer loop: [i] grows by at least 4 a turn, so [length buf] turns are
    enough. *)
Fixpoint nak_loop (fuel : nat) (buf : bytes) (i : nat) (out : list Z) : res (list Z) :=
  if bool_decide (i + 3 < length buf)%nat then
    match fuel with
    | O => Panic
    | S fuel =>
      id ← idx32 buf i;
      let i := (i + 4)%nat in
      if Z.land id SRT_NAK_RANGE_FLAG =? 0 then nak_loop fuel buf i (out ++ [id])
      else
        let start := Z.land id (Z.lxor u32_max SRT_NAK_RANGE_FLAG) in
        if bool_decide (length buf <= i + 3)%nat then Ret out else
        end_ ← idx32 buf i;
        let i := (i + 4)%nat in
        if negb (Z.land end_ SRT_NAK_RANGE_FLAG =? 0) || (end_ <? start)
        then nak_loop fuel buf i out
        else out ← nak_range SRT_NAK_MAX_LOSS_IDS start end_ out; nak_loop fuel buf i out
    end
  else Ret out.

Definition parse_srt_nak (buf : bytes) : res (list Z) :=
  if bool_decide (length buf < SRT_CONTROL_HEADER_LEN + 4)%nat then Ret [] else
  t ← get_packet_type buf;
  if negb (bool_decide (t = Some SRT_TYPE_NAK)) then Ret [] else
  nak_loop (length buf) buf SRT_CONTROL_HEADER_LEN [].

Fixpoint ack_loop (fuel : nat) (buf : bytes) (i : nat) (out : list Z) : res (list Z) :=
  if bool_decide (i + 3 < length buf)%nat then
    match fuel with
    | O => Panic
    | S fuel => ack ← idx32 buf i; ack_loop fuel buf (i + 4) (out ++ [ack])
    end
  else Ret out.

Definition parse_srtla_ack (buf : bytes) : res (list Z) :=
  if bool_decide (length buf < 8)%nat then Ret [] else
  t ← get_packet_type buf;
  if negb (bool_decide (t = Some SRTLA_TYPE_ACK)) then Ret [] else
  ack_loop (length buf) buf 4 [].

(** ** Reference definitions *)

(** The type word as a pure function. *)
Definition packet_type_of (buf : bytes) : option Z :=
  match buf with b0 :: b1 :: _ => Some (of_be [b0; b1]) | _ => None end.

(** The complete 32-bit words of a byte string. *)
Fixpoint words (bs : bytes) : list Z :=
  match bs with
  | b0 :: b1 :: b2 :: b3 :: bs' => of_be [b0; b1; b2; b3] :: words bs'
  | _ => []
  end.

(** What a NAK loss list means: a word below 2^31 is one lost sequence; a word
    with its top bit set opens a range closed by the next word, expanded up to
    the cap, and ignored when the closing word is not a sequence at or after
    the start. *)
Fixpoint nak_ids (ws out : list Z) : list Z :=
  match ws with
  | [] => out
  | w :: ws =>
    if w <? two31 then nak_ids ws (out ++ [w])
    else match ws with
         | [] => out
         | e :: ws =>
           let s := w - two31 in
           nak_ids ws
             (if (s <=? e) && (e <? two31)
              then out ++ seqZ s (Z.min (e - s + 1)
                                    (Z.of_nat SRT_NAK_MAX_LOSS_IDS - Z.of_nat (length out)))
              else out)
         end
  end.

(** How many words of a loss list are single sequences. *)
Fixpoint nak_singles (ws : list Z) : nat :=
  match ws with
  | [] => O
  | w :: ws => if w <? two31 then S (nak_singles ws)
               else match ws with [] => O | _ :: ws => nak_singles ws end
  end.

(** An extension block on the wire and a conclusion handshake around blocks. *)
Definition encode_block (b : Z * bytes) : bytes :=
  to_be 4 (b.1 * 65536 + Z.of_nat (length b.2 / 4)) ++ b.2.

Definition plain_block (b : Z * bytes) : Prop :=
  is_u16 b.1 /\ b.1 <> SRT_HS_EXT_CMD_HSREQ /\ b.1 <> SRT_HS_EXT_CMD_HSRSP /\
  exists n, length b.2 = (4 * n)%nat /\ Z.of_nat n < 65536.

(** ** Byte-level lemmas *)

(** Split [is_bytes] of an explicit list into its heads. *)
Ltac split_bytes H :=
  unfold is_bytes in H;
  repeat match type of H with
  | Forall _ (_ :: _) => apply Forall_cons in H as [? H]
  end.

Lemma idx_lookup buf i b : buf !! i = Some b -> idx buf i = Ret b.
Proof. unfold idx. by intros ->. Qed.

Lemma idx32_drop buf i b0 b1 b2 b3 t :
  drop i buf = b0 :: b1 :: b2 :: b3 :: t -> idx32 buf i = Ret (of_be [b0; b1; b2; b3]).
Proof.
  intros Hd.
  assert (forall k b, (b0 :: b1 :: b2 :: b3 :: t) !! k = Some b -> buf !! (i + k)%nat = Some b) as Hk
    by (intros k b; rewrite <- Hd, lookup_drop; done).
  unfold idx32.
  rewrite (idx_lookup buf i b0) by (rewrite <- (Nat.add_0_r i); by apply Hk).
  rewrite (idx_lookup buf (i + 1) b1), (idx_lookup buf (i + 2) b2),
    (idx_lookup buf (i + 3) b3) by (by apply Hk).
  done.
Qed.

Lemma get_packet_type_spec buf : get_packet_type buf = Ret (packet_type_of buf).
Proof. destruct buf as [|b0 [|b1 t]]; reflexivity. Qed.

Lemma is_bytes_drop n buf : is_bytes buf -> is_bytes (drop n buf).
Proof. apply Forall_drop. Qed.

Lemma of_be4_range b0 b1 b2 b3 :
  is_u8 b0 -> is_u8 b1 -> is_u8 b2 -> is_u8 b3 -> is_u32 (of_be [b0; b1; b2; b3]).
Proof. unfold of_be; cbn [fold_left]; unfold_ints; lia. Qed.

Lemma fold_be_to_be w z acc :
  fold_left (fun acc b => acc * 256 + b) (to_be w z) acc =
    acc * 256 ^ Z.of_nat w + z mod 256 ^ Z.of_nat w.
Proof.
  revert acc. induction w as [|w IH]; intros acc; cbn [to_be fold_left].
  - change (256 ^ Z.of_nat 0) with 1. rewrite Z.mod_1_r. lia.
  - rewrite IH, Nat2Z.inj_succ, Z.pow_succ_r, (Z.mul_comm 256) by lia.
    rewrite (Z.rem_mul_r z) by lia. lia.
Qed.

Lemma of_be_to_be w z : of_be (to_be w z) = z mod 256 ^ Z.of_nat w.
Proof. unfold of_be. rewrite fold_be_to_be. lia. Qed.

Lemma of_be_to_be4 z : of_be (to_be 4 z) = u32_wrap z.
Proof. apply of_be_to_be. Qed.

Lemma of_be_to_be8 z : of_be (to_be 8 z) = u64_wrap z.
Proof. apply of_be_to_be. Qed.

Lemma to_be_bytes w z : is_bytes (to_be w z).
Proof. induction w; constructor; [|done]. zlia. Qed.

Lemma length_to_be w z : length (to_be w z) = w.
Proof. by induction w; cbn; f_equal. Qed.

Lemma i32_u32_wrap z : i32_wrap (u32_wrap z) = i32_wrap z.
Proof. zlia. Qed.

(** Testing the top bit of a word is comparing it with 2^31. *)
Lemma land_flag31 w : is_u32 w -> (Z.land w 0x80000000 =? 0) = (w <? two31).
Proof.
  intros Hw. change 0x80000000 with (2 ^ 31).
  assert (Z.land w (2 ^ 31) = w / 2 ^ 31 * 2 ^ 31) as ->; [|zlia].
  rewrite <- Z.shiftr_div_pow2, <- Z.shiftl_mul_pow2 by lia.
  apply Z.bits_inj'; intros n Hn.
  rewrite Z.land_spec, Z.pow2_bits_eqb, Z.shiftl_spec by lia.
  destruct (Z.eqb_spec 31 n) as [<-|Hne].
  - rewrite andb_true_r, Z.shiftr_spec by lia. f_equal; lia.
  - rewrite andb_false_r. destruct (Z.ltb_spec n 31).
    + by rewrite Z.testbit_neg_r by lia.
    + rewrite Z.shiftr_spec by lia. replace (n - 31 + 31) with n by lia. symmetry.
      apply Z.bits_above_log2; [zlia|].
      destruct (decide (w = 0)) as [->|]; [cbn; lia|].
      assert (Z.log2 w < 32) by (apply Z.log2_lt_pow2; zlia). lia.
Qed.

Lemma land_clear31 w : Z.land w (Z.lxor u32_max 0x80000000) = w mod two31.
Proof. change (Z.lxor u32_max 0x80000000) with (Z.ones 31). rewrite Z.land_ones by lia. done. Qed.

Lemma land_pow2_testbit w n : 0 <= n -> (Z.land w (2 ^ n) =? 0) = negb (Z.testbit w n).
Proof.
  intros Hn. destruct (Z.testbit w n) eqn:E; cbn.
  - apply Z.eqb_neq. intros H0. apply (f_equal (fun z => Z.testbit z n)) in H0.
    by rewrite Z.land_spec, Z.bits_0, E, Z.pow2_bits_true in H0.
  - apply Z.eqb_eq, Z.bits_inj'; intros m Hm. rewrite Z.land_spec, Z.bits_0, Z.pow2_bits_eqb by done.
    destruct (Z.eqb_spec n m) as [<-|]; [by rewrite E|by rewrite andb_false_r].
Qed.

Lemma land_low16 w : Z.land w 0xffff = w mod 65536.
Proof. change 0xffff with (Z.ones 16). by rewrite Z.land_ones by lia. Qed.

Lemma shl8_lor ts b : 0 <= ts < 2 ^ 56 -> is_u8 b ->
  Z.lor (u64_wrap (Z.shiftl ts 8)) b = ts * 256 + b.
Proof.
  intros Hts Hb. rewrite Z.shiftl_mul_pow2 by lia. rewrite u64_wrap_id by zlia.
  change (2 ^ 8) with 256.
  assert (Z.land (ts * 256) b = 0) as Hz.
  { apply Z.bits_inj'; intros n Hn. rewrite Z.land_spec, Z.bits_0.
    destruct (Z.ltb_spec n 8).
    - change 256 with (2 ^ 8). rewrite Z.mul_pow2_bits_low by lia. done.
    - apply andb_false_iff; right. apply Z.bits_above_log2; [zlia|].
      destruct (decide (b = 0)) as [->|]; [cbn; lia|].
      assert (Z.log2 b < 8) by (apply Z.log2_lt_pow2; zlia). lia. }
  rewrite Z.add_nocarry_lxor by done. symmetry. by apply Z.lxor_lor.
Qed.

(** ** SRT NAK *)
Lemma nak_range_spec fuel s e out :
  0 <= s <= e -> e < two31 ->
  Z.of_nat SRT_NAK_MAX_LOSS_IDS - Z.of_nat (length out) <= Z.of_nat fuel ->
  nak_range fuel s e out =
    Ret (out ++ seqZ s (Z.min (e - s + 1)
                          (Z.of_nat SRT_NAK_MAX_LOSS_IDS - Z.of_nat (length out)))).
Proof.
  revert s out. induction fuel as [|fuel IH]; intros s out Hs He Hf; cbn [nak_range];
    (case_bool_decide as Hcap; [rewrite seqZ_nil by lia; by rewrite app_nil_r|]); [lia|].
  destruct (Z.eqb_spec s e) as [->|Hne].
  { rewrite seqZ_cons by lia. rewrite seqZ_nil by lia. done. }
  rewrite (proj2 (Z.ltb_lt (s + 1) two32)) by zlia.
  rewrite IH by (rewrite ?length_app; cbn; lia). f_equal.
  rewrite <- app_assoc, length_app. f_equal. cbn [length app].
  rewrite (seqZ_cons s) by lia. f_equal. f_equal; lia.
Qed.

Lemma words_u32 bs : is_bytes bs -> Forall is_u32 (words bs).
Proof.
  induction bs as [bs IH] using (induction_ltof1 _ length); unfold ltof in IH.
  destruct bs as [|b0 [|b1 [|b2 [|b3 t]]]]; cbn [words]; intros Hb; try by constructor.
  split_bytes Hb.
  constructor; [by apply of_be4_range|]. apply IH; [cbn; lia|done].
Qed.

Lemma drop_step (buf : bytes) i b0 b1 b2 b3 t :
  drop i buf = b0 :: b1 :: b2 :: b3 :: t -> drop (i + 4) buf = t.
Proof. intros Hd. rewrite <- drop_drop, Hd. done. Qed.

Lemma drop_short (buf : bytes) i :
  (i + 3 < length buf)%nat -> exists b0 b1 b2 b3 t, drop i buf = b0 :: b1 :: b2 :: b3 :: t.
Proof.
  intros Hi. assert (4 <= length (drop i buf))%nat as Hl by (rewrite length_drop; lia).
  destruct (drop i buf) as [|b0 [|b1 [|b2 [|b3 t]]]]; cbn in Hl; try lia. eauto 10.
Qed.

Lemma words_short (bs : bytes) : (length bs < 4)%nat -> words bs = [].
Proof. destruct bs as [|b0 [|b1 [|b2 [|b3 t]]]]; cbn; intros; first [done | lia]. Qed.

Lemma nak_loop_spec fuel buf i out :
  is_bytes buf -> (length (drop i buf) <= fuel)%nat ->
  nak_loop fuel buf i out = Ret (nak_ids (words (drop i buf)) out).
Proof.
  intros Hb. revert i out. induction fuel as [|fuel IH]; intros i out Hf; cbn [nak_loop];
    (case_bool_decide as Hi;
     [|rewrite words_short by (rewrite length_drop; lia); done]).
  { rewrite length_drop in Hf; lia. }
  destruct (drop_short buf i Hi) as (b0 & b1 & b2 & b3 & t & Hd).
  pose proof (is_bytes_drop i buf Hb) as Hbd; rewrite Hd in Hbd.
  split_bytes Hbd.
  rewrite (idx32_drop _ _ _ _ _ _ _ Hd). cbn [mbind res_bind].
  unfold SRT_NAK_RANGE_FLAG. rewrite land_flag31, land_clear31 by (by apply of_be4_range).
  pose proof (of_be4_range b0 b1 b2 b3) as Hw. rewrite Hd in *. cbn [words nak_ids].
  destruct (Z.ltb_spec (of_be [b0; b1; b2; b3]) two31) as [Hlt|Hge].
  { rewrite IH by (rewrite (drop_step _ _ _ _ _ _ _ Hd); cbn in Hf; lia).
    by rewrite (drop_step _ _ _ _ _ _ _ Hd). }
  case_bool_decide as Hi2.
  { rewrite words_short; [done|]. rewrite <- (drop_step _ _ _ _ _ _ _ Hd), length_drop. lia. }
  destruct (drop_short buf (i + 4) ltac:(lia)) as (c0 & c1 & c2 & c3 & t2 & Hd2).
  pose proof (drop_step _ _ _ _ _ _ _ Hd) as Ht. rewrite Hd2 in Ht. subst t.
  split_bytes Hbd.
  rewrite (idx32_drop _ _ _ _ _ _ _ Hd2). cbn [mbind res_bind words].
  rewrite land_flag31 by (by apply of_be4_range).
  pose proof (drop_step _ _ _ _ _ _ _ Hd2) as Hd3.
  specialize (Hw ltac:(done) ltac:(done) ltac:(done) ltac:(done)).
  pose proof (of_be4_range c0 c1 c2 c3 ltac:(done) ltac:(done) ltac:(done) ltac:(done)) as Hw2.
  replace (of_be [b0; b1; b2; b3] mod two31) with (of_be [b0; b1; b2; b3] - two31) by zlia.
  set (s := of_be [b0; b1; b2; b3] - two31) in *. set (e := of_be [c0; c1; c2; c3]) in *.
  assert (length (drop (i + 4 + 4) buf) <= fuel)%nat by (rewrite Hd3; cbn in Hf; lia).
  destruct (Z.ltb_spec e two31), (Z.leb_spec s e), (Z.ltb_spec e s); cbn [negb orb andb];
    try lia; try (rewrite IH by done; by rewrite Hd3).
  rewrite nak_range_spec by (unfold s; zlia). cbn [mbind res_bind].
  rewrite IH by done. by rewrite Hd3.
Qed.

Lemma nak_ids_ind (P : list Z -> nat -> list Z -> Prop) :
  (forall out, P [] O out) ->
  (forall w ws out, w < two31 -> P ws (nak_singles ws) (out ++ [w]) ->
     P (w :: ws) (S (nak_singles ws)) out) ->
  (forall w out, two31 <= w -> P [w] O out) ->
  (forall w e ws out out', two31 <= w ->
     out' = out \/ (e < two31 /\ w - two31 <= e /\
       out' = out ++ seqZ (w - two31) (Z.min (e - (w - two31) + 1)
                  (Z.of_nat SRT_NAK_MAX_LOSS_IDS - Z.of_nat (length out)))) ->
     nak_ids (w :: e :: ws) out = nak_ids ws out' ->
     P ws (nak_singles ws) out' -> P (w :: e :: ws) (nak_singles ws) out) ->
  forall ws out, P ws (nak_singles ws) out.
Proof.
  intros Hnil Hone Hend Hpair ws. induction ws as [ws IH] using (induction_ltof1 _ length).
  unfold ltof in IH. destruct ws as [|w ws]; intros out; [apply Hnil|]. cbn [nak_singles].
  destruct (Z.ltb_spec w two31) as [Hw|Hw].
  { apply Hone; [done|]. apply IH; cbn; lia. }
  destruct ws as [|e ws]; [by apply Hend|].
  pose (out' := if (w - two31 <=? e) && (e <? two31)
              then out ++ seqZ (w - two31) (Z.min (e - (w - two31) + 1)
                    (Z.of_nat SRT_NAK_MAX_LOSS_IDS - Z.of_nat (length out)))
              else out).
  apply (Hpair w e ws out out'); [done| | |apply IH; cbn; lia].
  - subst out'. destruct (Z.leb_spec (w - two31) e), (Z.ltb_spec e two31); cbn; auto.
  - cbn [nak_ids]. by rewrite (proj2 (Z.ltb_ge w two31)).
Qed.

Lemma nak_ids_single w ws out : w < two31 -> nak_ids (w :: ws) out = nak_ids ws (out ++ [w]).
Proof. intros Hw. cbn [nak_ids]. by rewrite (proj2 (Z.ltb_lt w two31)). Qed.

Lemma nak_ids_bound ws out :
  (length (nak_ids ws out) <=
     Nat.max SRT_NAK_MAX_LOSS_IDS (length out) + nak_singles ws)%nat.
Proof.
  revert ws out. apply (nak_ids_ind (fun ws n out => (length (nak_ids ws out) <=
     Nat.max SRT_NAK_MAX_LOSS_IDS (length out) + n)%nat)).
  - cbn [nak_ids]; lia.
  - intros w ws out Hw IH. rewrite nak_ids_single by done. rewrite length_app in IH. cbn in *. lia.
  - intros w out Hw. cbn. rewrite (proj2 (Z.ltb_ge w two31)) by done. lia.
  - intros w e ws out out' _ Hout -> IH. destruct Hout as [->|(_ & _ & ->)]; [done|].
    rewrite length_app, length_seqZ in IH. lia.
Qed.

Lemma nak_ids_31bit ws out :
  Forall (fun w => 0 <= w) ws -> Forall (fun s => 0 <= s < two31) out ->
  Forall (fun s => 0 <= s < two31) (nak_ids ws out).
Proof.
  revert ws out.
  apply (nak_ids_ind (fun ws _ out => Forall (fun w => 0 <= w) ws ->
     Forall (fun s => 0 <= s < two31) out -> Forall (fun s => 0 <= s < two31) (nak_ids ws out))).
  - done.
  - intros w ws out Hw IH Hws Hout. apply Forall_cons in Hws as [? ?].
    rewrite nak_ids_single by done. apply IH; [done|]. apply Forall_app; auto.
  - intros w out Hw _ Hout. cbn. by rewrite (proj2 (Z.ltb_ge w two31)).
  - intros w e ws out out' Hw Hout -> IH Hws Ho.
    apply Forall_cons in Hws as [? Hws]; apply Forall_cons in Hws as [? Hws].
    apply IH; [done|]. destruct Hout as [->|(? & ? & ->)]; [done|].
    apply Forall_app; split; [done|]. apply Forall_forall; intros x Hx%elem_of_seqZ. lia.
Qed.

(** The parser and the reference expansion agree. *)
Lemma parse_srt_nak_eq (buf : bytes) :
  is_bytes buf ->
  parse_srt_nak buf =
    Ret (if bool_decide (20 <= length buf)%nat && bool_decide (packet_type_of buf = Some SRT_TYPE_NAK)
         then nak_ids (words (drop SRT_CONTROL_HEADER_LEN buf)) [] else []).
Proof.
  intros Hb. unfold parse_srt_nak. change (SRT_CONTROL_HEADER_LEN + 4)%nat with 20%nat.
  rewrite get_packet_type_spec. cbn [mbind res_bind].
  do 3 case_bool_decide; try lia; try done.
  cbn [negb andb]. rewrite nak_loop_spec; [done..|]. rewrite length_drop; lia.
Qed.

(** C23: on every byte string the SRT NAK parser terminates without a panic and
    returns exactly the expansion of the loss list that starts after the
    16-byte control header; a buffer that is too short or not a NAK yields no
    ids. *)
Theorem parse_srt_nak_spec (buf : bytes) :
  is_bytes buf ->
  parse_srt_nak buf =
    Ret (if bool_decide (20 <= length buf)%nat && bool_decide (packet_type_of buf = Some SRT_TYPE_NAK)
         then nak_ids (words (drop SRT_CONTROL_HEADER_LEN buf)) [] else []).
Proof. exact (parse_srt_nak_eq buf). Qed.

Lemma parse_srt_nak_spec_witness :
  parse_srt_nak ([0x80; 3] ++ replicate 14 0 ++ [0; 0; 0; 5; 0x80; 0; 0; 7; 0; 0; 0; 9])
    = Ret [5; 7; 8; 9].
Proof.
  rewrite parse_srt_nak_spec.
  - vm_compute. reflexivity.
  - unfold is_bytes, is_u8. cbn. repeat constructor; lia.
Defined.

(** The loss ids a NAK packet expands into are 31-bit sequence numbers and
    there are at most 1000 of them beyond the single entries of the packet: two
    words on the wire can never ask for more than 1000 resends. *)
Theorem parse_srt_nak_bounded (buf : bytes) (ids : list Z) :
  is_bytes buf -> parse_srt_nak buf = Ret ids ->
  Forall (fun s => 0 <= s < two31) ids /\
  (length ids <= SRT_NAK_MAX_LOSS_IDS + nak_singles (words (drop SRT_CONTROL_HEADER_LEN buf)))%nat.
Proof.
  intros Hb. unfold parse_srt_nak. rewrite get_packet_type_spec. cbn [mbind res_bind].
  repeat case_bool_decide; cbn [negb]; try (intros [= <-]; split; [by constructor|cbn; lia]).
  rewrite nak_loop_spec; [|done|rewrite length_drop; lia]. intros [= <-]. split.
  - apply nak_ids_31bit; [|done].
    eapply Forall_impl; [by apply words_u32, is_bytes_drop|]. unfold_ints; intros; lia.
  - etransitivity; [apply nak_ids_bound|]. cbn [length]. lia.
Qed.

Lemma parse_srt_nak_bounded_witness :
  parse_srt_nak ([0x80; 3] ++ replicate 14 0 ++ [0x80; 0; 0; 0; 0x7f; 255; 255; 255]) =
    Ret (seqZ 0 1000) /\ (length (seqZ 0 1000) <= 1000 + 0)%nat.
Proof.
  assert (is_bytes ([0x80; 3] ++ replicate 14 0 ++ [0x80; 0; 0; 0; 0x7f; 255; 255; 255])) as Hb
    by (unfold is_bytes, is_u8; cbn; repeat constructor; lia).
  assert (parse_srt_nak ([0x80; 3] ++ replicate 14 0 ++ [0x80; 0; 0; 0; 0x7f; 255; 255; 255]) =
    Ret (seqZ 0 1000)) as Hp by (vm_compute; reflexivity).
  split; [exact Hp|]. exact (proj2 (parse_srt_nak_bounded _ _ Hb Hp)).
Defined.

(** ** SRTLA ACK *)
Lemma ack_loop_spec fuel buf i out :
  (length (drop i buf) <= fuel)%nat ->
  ack_loop fuel buf i out = Ret (out ++ words (drop i buf)).
Proof.
  revert i out. induction fuel as [|fuel IH]; intros i out Hf; cbn [ack_loop];
    (case_bool_decide as Hi;
     [|rewrite words_short by (rewrite length_drop; lia); by rewrite app_nil_r]).
  { rewrite length_drop in Hf; lia. }
  destruct (drop_short buf i Hi) as (b0 & b1 & b2 & b3 & t & Hd).
  rewrite (idx32_drop _ _ _ _ _ _ _ Hd). cbn [mbind res_bind].
  rewrite IH by (rewrite (drop_step _ _ _ _ _ _ _ Hd); rewrite Hd in Hf; cbn in Hf; lia).
  rewrite (drop_step _ _ _ _ _ _ _ Hd), Hd. cbn [words]. by rewrite <- app_assoc.
Qed.

Lemma parse_srtla_ack_total buf : exists ids, parse_srtla_ack buf = Ret ids.
Proof.
  unfold parse_srtla_ack. case_bool_decide; [by eexists|]. rewrite get_packet_type_spec. cbn [mbind res_bind].
  destruct (negb _); [by eexists|]. rewrite ack_loop_spec by (rewrite length_drop; lia). by eexists.
Qed.

Lemma parse_srt_ack_total buf : exists o, parse_srt_ack buf = Ret o.
Proof.
  unfold parse_srt_ack. case_bool_decide as Hl; [by eexists|]. rewrite get_packet_type_spec.
  destruct (packet_type_of buf); cbn [try_bind]; [|by eexists]. destruct (negb _); [by eexists|].
  destruct (drop_short buf 16 ltac:(lia)) as (b0 & b1 & b2 & b3 & t & Hd).
  rewrite (idx32_drop _ _ _ _ _ _ _ Hd). by eexists.
Qed.

(** Writing words one after the other fills the tail of the packet. *)
Lemma ack_fill acks hdr i :
  length hdr = (4 + 4 * i)%nat ->
  snd (fold_left (fun '(i, pkt) ack => (S i, copy_from_slice (4 + i * 4) (to_be 4 ack) pkt))
         acks (i, hdr ++ replicate (4 * length acks) 0))
  = hdr ++ concat (map (to_be 4) acks).
Proof.
  revert hdr i. induction acks as [|a acks IH]; intros hdr i Hl; [done|].
  cbn [fold_left length map concat].
  replace (copy_from_slice (4 + i * 4) (to_be 4 a) (hdr ++ replicate (4 * S (length acks)) 0))
    with ((hdr ++ to_be 4 a) ++ replicate (4 * length acks) 0).
  - rewrite IH by (rewrite length_app, length_to_be; lia). by rewrite <- app_assoc.
  - unfold copy_from_slice. replace (4 + i * 4)%nat with (length hdr + 0)%nat by lia.
    rewrite list_inserts_app_r, <- app_assoc. f_equal.
    replace (4 * S (length acks))%nat with (4 + 4 * length acks)%nat by lia.
    rewrite replicate_add. by rewrite list_inserts_0_r by (by rewrite length_to_be).
Qed.

Lemma words_be_app a t : words (to_be 4 a ++ t) = u32_wrap a :: words t.
Proof. by rewrite <- of_be_to_be4. Qed.

Lemma words_concat acks : Forall is_u32 acks -> words (concat (map (to_be 4) acks)) = acks.
Proof.
  induction 1 as [|a acks Ha _ IH]; [done|].
  cbn [map concat]. by rewrite words_be_app, IH, u32_wrap_id.
Qed.

(** Parsing a built SRTLA ACK gives back the list of acknowledged sequence
    words, for every list of 32-bit words, the empty one included. *)
Theorem srtla_ack_roundtrip (acks : list Z) :
  Forall is_u32 acks -> parse_srtla_ack (create_ack_packet acks) = Ret acks.
Proof.
  intros Ha.
  assert (create_ack_packet acks = [0x91; 0; 0; 0] ++ concat (map (to_be 4) acks)) as ->.
  { unfold create_ack_packet. rewrite replicate_add. rewrite <- (ack_fill acks _ 0) by done. done. }
  unfold parse_srtla_ack. case_bool_decide as Hl.
  { destruct acks as [|a acks]; [done|]. cbn in Hl. lia. }
  rewrite get_packet_type_spec. cbn [mbind res_bind app packet_type_of].
  replace (bool_decide _) with true by reflexivity. cbn [negb].
  rewrite ack_loop_spec by (rewrite length_drop; lia).
  by rewrite !skipn_cons, drop_0, app_nil_l, words_concat.
Qed.

Lemma srtla_ack_roundtrip_witness :
  parse_srtla_ack (create_ack_packet [7; 4294967295]) = Ret [7; 4294967295].
Proof. apply (srtla_ack_roundtrip [7; 4294967295]). repeat constructor; cbv; lia || done. Defined.

(** ** Keepalives *)
Definition conn_info_ok (i : ConnectionInfo) : Prop :=
  is_u32 (ci_conn_id i) /\ is_i32 (ci_window i) /\ is_i32 (ci_in_flight i) /\
  is_u32 (ci_rtt_ms i) /\ is_u32 (ci_nak_count i) /\ is_u32 (ci_bitrate_bytes_per_sec i).

(** The eight shifts of the receiver side rebuild the number. *)
Lemma ts_loop_be b0 b1 b2 b3 b4 b5 b6 b7 h0 h1 t :
  is_bytes [b0; b1; b2; b3; b4; b5; b6; b7] ->
  ts_loop (h0 :: h1 :: b0 :: b1 :: b2 :: b3 :: b4 :: b5 :: b6 :: b7 :: t) 8 0 0 =
    Ret (of_be [b0; b1; b2; b3; b4; b5; b6; b7]).
Proof.
  intros Hb. split_bytes Hb. unfold of_be. cbn [ts_loop fold_left idx lookup list_lookup Nat.add mbind res_bind].
  unfold idx; cbn [lookup list_lookup].
  repeat match goal with
  | |- context [Z.lor (u64_wrap (Z.shiftl ?t 8)) ?b] =>
      lazymatch t with context [Z.lor] => fail | _ => idtac end;
      rewrite (shl8_lor t b) by (unfold is_u8 in *; lia)
  end. done.
Qed.

Lemma extract_timestamp_be now h t :
  is_u64 now -> h = to_be 2 SRTLA_TYPE_KEEPALIVE ->
  extract_keepalive_timestamp (h ++ to_be 8 now ++ t) = Ret (Some now).
Proof.
  intros Hn ->. unfold extract_keepalive_timestamp. case_bool_decide as Hl.
  { rewrite !length_app, !length_to_be in Hl. lia. }
  rewrite get_packet_type_spec. cbn [try_bind app to_be packet_type_of].
  replace (negb _) with false by reflexivity.
  rewrite ts_loop_be by apply (to_be_bytes 8 now). cbn [mbind res_bind].
  do 2 f_equal. change (of_be (to_be 8 now) = now). by rewrite of_be_to_be8, u64_wrap_id.
Qed.

(** An extended keepalive carries its timestamp and the connection info
    unchanged: both extractors return exactly what the builder was given, for
    every value of the fields' Rust types. *)
Theorem keepalive_ext_roundtrip (info : ConnectionInfo) (now : Z) :
  conn_info_ok info -> is_u64 now ->
  extract_keepalive_conn_info (create_keepalive_packet_ext info now) = Ret (Some info) /\
  extract_keepalive_timestamp (create_keepalive_packet_ext info now) = Ret (Some now).
Proof.
  intros (Hc & Hw & Hi & Hr & Hn & Hb) Hnow. split.
  - change (extract_keepalive_conn_info (create_keepalive_packet_ext info now)) with
      (Ret (Some (mkConnectionInfo (of_be (to_be 4 (ci_conn_id info)))
        (i32_wrap (of_be (to_be 4 (ci_window info)))) (i32_wrap (of_be (to_be 4 (ci_in_flight info))))
        (of_be (to_be 4 (ci_rtt_ms info))) (of_be (to_be 4 (ci_nak_count info)))
        (of_be (to_be 4 (ci_bitrate_bytes_per_sec info)))))).
    rewrite !of_be_to_be4, !i32_u32_wrap, !i32_wrap_id, !u32_wrap_id by done. by destruct info.
  - change (create_keepalive_packet_ext info now) with
      (to_be 2 SRTLA_TYPE_KEEPALIVE ++ to_be 8 now ++
        drop 10 (create_keepalive_packet_ext info now)).
    by apply extract_timestamp_be.
Qed.

Lemma keepalive_ext_roundtrip_witness :
  extract_keepalive_conn_info (create_keepalive_packet_ext (mkConnectionInfo 3 20000 (-2) 45 1 99) 5)
    = Ret (Some (mkConnectionInfo 3 20000 (-2) 45 1 99)).
Proof.
  apply (keepalive_ext_roundtrip (mkConnectionInfo 3 20000 (-2) 45 1 99) 5);
    unfold conn_info_ok; unfold_ints; cbn; lia.
Defined.

(** ** Retransmit flag *)

(** Marking a packet as a retransmission never panics; a data packet is
    recognised as a retransmission afterwards and every bit other than bit 2 of
    byte 4 is kept; anything that is not a data packet is left as it is. *)
Theorem set_retransmit_spec (buf : bytes) :
  exists buf', set_srt_data_retransmit buf = Ret buf' /\ length buf' = length buf /\
    (forall i, i <> 4%nat -> buf' !! i = buf !! i) /\
    set_srt_data_retransmit buf' = Ret buf' /\
    (is_srt_data_retransmit buf' = Ret true \/
     buf' = buf /\ is_srt_data_retransmit buf = Ret false) /\
    (forall b b' n, buf !! 4%nat = Some b -> buf' !! 4%nat = Some b' -> 0 <= n -> n <> 2 ->
       Z.testbit b' n = Z.testbit b n).
Proof.
  unfold set_srt_data_retransmit at 1. case_bool_decide as Hl.
  - destruct buf as [|b0 [|b1 [|b2 [|b3 [|b4 [|b5 [|b6 [|b7 t]]]]]]]]; cbn in Hl; try lia.
    cbn [idx lookup list_lookup mbind res_bind]. unfold idx; cbn [lookup list_lookup].
    assert (forall l, bool_decide (8 <= length (b0 :: b1 :: b2 :: b3 :: l :: b5 :: b6 :: b7 :: t))%nat = true) as Hlen
      by (intros; apply bool_decide_eq_true; cbn; lia).
    destruct (Z.land b0 0x80 =? 0) eqn:E.
    + assert (Z.land (Z.lor b4 4) 4 = 4) as H4.
      { apply Z.bits_inj'; intros n Hn. rewrite Z.land_spec, Z.lor_spec. by destruct (Z.testbit b4 n), (Z.testbit 4 n). }
      eexists; split; [done|]. split; [done|].
      split; [by intros [|[|[|[|[|i]]]]] ?|].
      unfold set_srt_data_retransmit, is_srt_data_retransmit, idx.
      cbn [insert list_insert]. rewrite Hlen. cbn [lookup list_lookup mbind res_bind]. rewrite E, H4.
      split; [rewrite <- Z.lor_assoc; done|]. split; [by left|].
      intros b b' n [= <-] [= <-] Hn Hn2. rewrite Z.lor_spec. change 4 with (2 ^ 2).
      rewrite Z.pow2_bits_eqb by lia. destruct (Z.eqb_spec 2 n); [lia|]. by rewrite orb_false_r.
    + eexists; split; [done|]. unfold set_srt_data_retransmit, is_srt_data_retransmit, idx.
      rewrite Hlen. cbn [lookup list_lookup mbind res_bind]. rewrite E. naive_solver.
  - eexists; split; [done|]. unfold set_srt_data_retransmit, is_srt_data_retransmit.
    rewrite bool_decide_eq_false_2 by done. naive_solver.
Qed.

(** ** Handshake latency *)
Lemma be32_spec buf off : be32 buf off = Ret (head (words (drop off buf))).
Proof.
  unfold be32, get_range. case_bool_decide as Hl; cbn [try_bind].
  - destruct (drop_short buf off ltac:(lia)) as (b0 & b1 & b2 & b3 & t & Hd).
    replace (off + 4 - off)%nat with 4%nat by lia. rewrite Hd. done.
  - rewrite words_short by (rewrite length_drop; lia). done.
Qed.

(** The walk returns a value on every byte string: it never runs out of fuel
    and the slice after a block is in range. *)
Lemma hs_walk_total fuel rest :
  (length rest <= fuel)%nat -> exists r, hs_walk fuel rest = Ret r.
Proof.
  revert rest. induction fuel as [|fuel IH]; intros rest Hf; cbn [hs_walk].
  - rewrite bool_decide_eq_false_2 by lia. eauto.
  - case_bool_decide as Hl; [|by eauto]. rewrite be32_spec.
    destruct (head _) as [spec|]; cbn [try_bind]; [|by eauto].
    unfold get_range at 1. case_bool_decide as Hr; cbn [try_bind]; [|by eauto].
    destruct (_ || _).
    + case_bool_decide; [by eauto|]. rewrite !be32_spec.
      destruct (head _); cbn [try_bind]; [|by eauto]. destruct (head _); cbn [try_bind]; by eauto.
    + unfold slice_from, get_from. rewrite bool_decide_eq_true_2 by lia. cbn [mbind res_bind].
      apply IH. rewrite length_drop. lia.
Qed.

Lemma handshake_reader_total (buf : bytes) :
  exists r, parse_srt_handshake_latency buf = Ret r.
Proof.
  unfold parse_srt_handshake_latency. rewrite get_packet_type_spec.
  destruct (packet_type_of buf); cbn [try_bind]; [|by eauto].
  destruct (negb _); [by eauto|]. destruct (get_from _ _) as [body|]; cbn [try_bind]; [|by eauto].
  case_bool_decide; [by eauto|]. rewrite !be32_spec.
  do 3 (destruct (head _); cbn [try_bind]; [|by eauto]; destruct (_ : bool); [by eauto|]).
  destruct (get_from _ _); cbn [try_bind]; [|by eauto]. by apply hs_walk_total.
Qed.

(** Reading the TSBPD latency off a handshake terminates and never panics,
    whatever bytes arrive, truncated and inconsistent packets included. *)
Theorem parse_srt_handshake_latency_total (buf : bytes) :
  exists r, parse_srt_handshake_latency buf = Ret r.
Proof. exact (handshake_reader_total buf). Qed.

Lemma get_range_4 (h b t : bytes) : length h = 4%nat ->
  get_range (h ++ b ++ t) 4 (4 + length b) = Some b.
Proof.
  intros Hh. unfold get_range. rewrite bool_decide_eq_true_2 by (rewrite !length_app; lia).
  rewrite (drop_app_length' h) by done.
  replace (4 + length b - 4)%nat with (length b) by lia. by rewrite take_app_length.
Qed.

Lemma encode_block_spec cmd body :
  is_u16 cmd -> (exists n, length body = (4 * n)%nat /\ Z.of_nat n < 65536) ->
  exists spec, is_u32 spec /\ encode_block (cmd, body) = to_be 4 spec ++ body /\
    u16_wrap (Z.shiftr spec 16) = cmd /\ (Z.to_nat (Z.land spec 0xffff) * 4)%nat = length body.
Proof.
  intros Hc (n & Hl & Hn). exists (cmd * 65536 + Z.of_nat n).
  assert (length body / 4 = n)%nat as Hdiv by (rewrite Hl, Nat.mul_comm; by apply Nat.div_mul).
  split; [zlia|]. split; [unfold encode_block; cbn [fst snd]; by rewrite Hdiv|].
  rewrite Z.shiftr_div_pow2, land_low16 by lia. change (2 ^ 16) with 65536. split; [zlia|].
  replace ((cmd * 65536 + Z.of_nat n) mod 65536) with (Z.of_nat n) by zlia. lia.
Qed.

(** One turn of the walk on an encoded block. *)
Lemma hs_walk_block fuel cmd body t :
  is_u16 cmd -> (exists n, length body = (4 * n)%nat /\ Z.of_nat n < 65536) ->
  hs_walk (S fuel) (encode_block (cmd, body) ++ t) =
    if (cmd =? SRT_HS_EXT_CMD_HSREQ) || (cmd =? SRT_HS_EXT_CMD_HSRSP) then
      if bool_decide (length body < 12)%nat then Ret None
      else
        flags ←? be32 body 4;
        latency ←? be32 body 8;
        Ret (Some (mkHsLatency (cmd =? SRT_HS_EXT_CMD_HSRSP)
          (if negb (Z.land flags SRT_HS_OPT_TSBPDRCV =? 0)
           then Some (u16_wrap (Z.shiftr latency 16)) else None)
          (if negb (Z.land flags SRT_HS_OPT_TSBPDSND =? 0)
           then Some (u16_wrap (Z.land latency 0xffff)) else None)))
    else hs_walk fuel t.
Proof.
  intros Hc Hb. destruct (encode_block_spec cmd body Hc Hb) as (spec & Hs & -> & Hcmd & Hlen).
  cbn [hs_walk]. rewrite <- app_assoc. rewrite bool_decide_eq_true_2
    by (rewrite !length_app, length_to_be; lia).
  rewrite be32_spec, drop_0, words_be_app, u32_wrap_id by done. cbn [head try_bind].
  rewrite Hcmd, Hlen, get_range_4 by (by rewrite length_to_be). cbn [try_bind].
  destruct (_ || _); [done|].
  unfold slice_from, get_from. rewrite bool_decide_eq_true_2
    by (rewrite !length_app, length_to_be; lia). cbn [mbind res_bind].
  rewrite app_assoc, drop_app_length'; [done|]. by rewrite length_app, length_to_be.
Qed.

Lemma hs_walk_skip pre t fuel :
  Forall plain_block pre ->
  hs_walk (length pre + fuel) (concat (map encode_block pre) ++ t) = hs_walk fuel t.
Proof.
  induction 1 as [|[cmd body] pre (Hc & H1 & H2 & Hb) _ IH]; [done|].
  cbn [length map concat Nat.add]. rewrite <- app_assoc, hs_walk_block by done.
  cbn [fst] in H1, H2. rewrite (proj2 (Z.eqb_neq _ _) H1), (proj2 (Z.eqb_neq _ _) H2). done.
Qed.

Lemma hs_walk_fuel fuel fuel' rest :
  (length rest <= fuel)%nat -> (length rest <= fuel')%nat -> hs_walk fuel rest = hs_walk fuel' rest.
Proof.
  revert fuel' rest. induction fuel as [|fuel IH]; intros [|fuel'] rest H1 H2; [done|..];
    cbn [hs_walk]; try (by rewrite bool_decide_eq_false_2 by lia).
  case_bool_decide as Hl; [|done]. rewrite be32_spec.
  destruct (head _) as [spec|]; cbn [try_bind]; [|done].
  unfold get_range. case_bool_decide; cbn [try_bind]; [|done].
  destruct (_ || _); [done|].
  unfold slice_from, get_from. rewrite bool_decide_eq_true_2 by lia. cbn [mbind res_bind].
  apply IH; rewrite length_drop; lia.
Qed.

Lemma words_drop k bs : words (drop (4 * k) bs) = drop k (words bs).
Proof.
  revert bs. induction k as [|k IH]; intros bs; [done|].
  replace (4 * S k)%nat with (4 + 4 * k)%nat by lia.
  destruct bs as [|b0 [|b1 [|b2 [|b3 t]]]]; cbn [Nat.add drop words]; rewrite ?drop_nil; done.
Qed.

Lemma words_app4 k a t : length a = (4 * k)%nat -> words (a ++ t) = words a ++ words t.
Proof.
  revert a. induction k as [|k IH]; intros a Ha.
  { by destruct a. }
  destruct a as [|b0 [|b1 [|b2 [|b3 a]]]]; cbn in Ha; try lia.
  cbn [app words]. f_equal. apply IH. lia.
Qed.

(** What makes a header and a handshake body an HSv5 conclusion with an HSREQ
    extension. *)
Definition conclusion_prefix (hdr cif : bytes) : Prop :=
  length hdr = SRT_CONTROL_HEADER_LEN /\ packet_type_of hdr = Some SRT_TYPE_HANDSHAKE /\
  length cif = SRT_HANDSHAKE_CIF_LEN /\ words cif !! 0%nat = Some 5 /\
  words cif !! 5%nat = Some 0xffffffff /\
  exists ext, words cif !! 1%nat = Some ext /\ Z.testbit ext 0 = true.

Lemma be32_word cif t k w :
  length cif = (4 * 12)%nat -> words cif !! k = Some w ->
  be32 (cif ++ t) (4 * k) = Ret (Some w).
Proof.
  intros Hl Hw. rewrite be32_spec, words_drop, (words_app4 12) by done. f_equal.
  rewrite head_lookup, lookup_drop, Nat.add_0_r. by apply lookup_app_l_Some.
Qed.

(** On a conclusion handshake the parser is the block walk of what follows. *)
Lemma parse_handshake_prefix hdr cif rest :
  conclusion_prefix hdr cif ->
  parse_srt_handshake_latency (hdr ++ cif ++ rest) = hs_walk (length rest) rest.
Proof.
  intros (Hh & Ht & Hc & W0 & W5 & ext & W1 & Hext). unfold parse_srt_handshake_latency.
  rewrite get_packet_type_spec. replace (packet_type_of (hdr ++ cif ++ rest)) with (Some SRT_TYPE_HANDSHAKE)
    by (rewrite <- Ht; by destruct hdr as [|? [|? ?]]).
  cbn [try_bind]. rewrite Z.eqb_refl. cbn [negb]. unfold get_from.
  rewrite bool_decide_eq_true_2, drop_app_length' by (rewrite ?length_app; lia).
  cbn [try_bind]. rewrite bool_decide_eq_false_2 by (rewrite length_app; lia).
  rewrite (be32_word cif rest 0 5 Hc W0 : be32 _ 0 = _),
    (be32_word cif rest 5 0xffffffff Hc W5 : be32 _ 20 = _),
    (be32_word cif rest 1 ext Hc W1 : be32 _ 4 = _).
  cbn [try_bind]. replace (Z.land (Z.land ext 0xffff) SRT_HS_EXT_FLAG_HSREQ) with 1; cycle 1.
  { rewrite <- Z.land_assoc. change (Z.land 0xffff SRT_HS_EXT_FLAG_HSREQ) with (Z.ones 1).
    rewrite Z.land_ones, <- Z.bit0_mod, Hext by lia. done. }
  change (i32_wrap 0xffffffff) with (-1). cbn [negb Z.eqb Pos.eqb].
  rewrite bool_decide_eq_true_2 by (rewrite ?length_app; lia).
  rewrite drop_app_length' by done. done.
Qed.

(** The latency block is found wherever it stands.  After any sequence of
    well-formed blocks of other kinds, an HSREQ or HSRSP block of at least
    three words gives the two halves of its latency word, each present exactly
    when its TSBPD flag is set, whatever follows the block. *)
Theorem parse_srt_handshake_latency_found
    (hdr cif : bytes) (pre : list (Z * bytes)) (cmd ver flags lat : Z) (extra tail : bytes) (k : nat) :
  conclusion_prefix hdr cif -> Forall plain_block pre ->
  cmd = SRT_HS_EXT_CMD_HSREQ \/ cmd = SRT_HS_EXT_CMD_HSRSP ->
  is_u32 flags -> is_u32 lat -> length extra = (4 * k)%nat -> 3 + Z.of_nat k < 65536 ->
  parse_srt_handshake_latency
    (hdr ++ cif ++ concat (map encode_block pre) ++
       encode_block (cmd, to_be 4 ver ++ to_be 4 flags ++ to_be 4 lat ++ extra) ++ tail)
  = Ret (Some (mkHsLatency (cmd =? SRT_HS_EXT_CMD_HSRSP)
      (if Z.testbit flags 1 then Some (lat / 65536) else None)
      (if Z.testbit flags 0 then Some (lat mod 65536) else None))).
Proof.
  intros Hp Hpre Hcmd Hf Hl Hk Hk2. rewrite parse_handshake_prefix by done.
  set (body := to_be 4 ver ++ _). set (rest := concat _ ++ _).
  rewrite (hs_walk_fuel _ (length pre + S (length rest)) rest) by lia.
  unfold rest at 2. rewrite hs_walk_skip by done.
  assert (length body = (4 * (3 + k))%nat) as Hb by (unfold body; rewrite !length_app, !length_to_be; lia).
  rewrite hs_walk_block by (try (destruct Hcmd; subst cmd; cbv; lia || done); exists (3 + k)%nat; lia).
  replace (_ || _) with true by (by destruct Hcmd; subst).
  rewrite bool_decide_eq_false_2 by lia.
  rewrite !be32_spec. rewrite (words_drop 2 body : words (drop 8 body) = _),
    (words_drop 1 body : words (drop 4 body) = _). unfold body. rewrite !words_be_app, !(u32_wrap_id flags), !(u32_wrap_id lat) by done. cbn [drop head try_bind].
  do 3 f_equal.
  - change SRT_HS_OPT_TSBPDRCV with (2 ^ 1). rewrite (land_pow2_testbit flags 1) by lia.
    rewrite Z.shiftr_div_pow2 by lia. change (2 ^ 16) with 65536.
    destruct (Z.testbit flags 1); [|done]. cbn. f_equal; zlia.
  - change SRT_HS_OPT_TSBPDSND with (2 ^ 0). rewrite (land_pow2_testbit flags 0) by lia.
    rewrite land_low16. destruct (Z.testbit flags 0); [|done]. cbn. f_equal; zlia.
Qed.

Lemma parse_srt_handshake_latency_found_witness :
  parse_srt_handshake_latency
    (([0x80; 0] ++ replicate 14 0) ++
     (to_be 4 5 ++ to_be 4 1 ++ replicate 12 0 ++ to_be 4 0xffffffff ++ replicate 24 0) ++
     concat (map encode_block [(5, [1; 2; 3; 4])]) ++
     encode_block (2, to_be 4 0 ++ to_be 4 3 ++ to_be 4 (2000 * 65536 + 120) ++ []) ++ [9])
  = Ret (Some (mkHsLatency true (Some 2000) (Some 120))).
Proof.
  apply (parse_srt_handshake_latency_found ([0x80; 0] ++ replicate 14 0)
     (to_be 4 5 ++ to_be 4 1 ++ replicate 12 0 ++ to_be 4 0xffffffff ++ replicate 24 0)
     [(5, [1; 2; 3; 4])] 2 0 3 (2000 * 65536 + 120) [] [9] 0).
  - repeat split. by exists 1.
  - constructor; [|constructor]. split; [cbn; unfold_ints; lia|]. do 2 (split; [done|]).
    exists 1%nat. split; [done|lia].
  - by right.
  - unfold_ints; lia.
  - unfold_ints; lia.
  - done.
  - lia.
Defined.
