(* ===== verification/Seq.v ===== *)
(** * Serial arithmetic on SRT sequence numbers (srtla-core/src/seq.rs)

    Sequence numbers are 31 bits wide and compared by the shorter direction
    around the circle.  The theorems characterise the signed distance, show
    that the order is antisymmetric, transitive within a quarter of the space
    and invariant under translation, and that stepping forwards and backwards are inverse
    across the wrap. *)
From S2P Require Import Prelude.

Definition SEQ_SPACE : Z := 0x80000000.
Definition SEQ_HALF : Z := SEQ_SPACE / 2.
Definition SEQ_MASK : Z := 0x7fffffff.
Definition NO_ACK_YET : Z := - two31.

Definition seq_normalize (seq : Z) : Z := Z.land seq SEQ_MASK.

(** [a as u32] of an [i32] is [u32_wrap]. *)
Definition seq_diff (a b : Z) : Z :=
  let d := Z.land (u32_wrap (u32_wrap a - u32_wrap b)) (u32_wrap SEQ_MASK) in
  if d >=? SEQ_HALF then i32_wrap (u32_wrap (d - SEQ_SPACE)) else i32_wrap d.

Definition seq_after (a b : Z) : bool := seq_diff a b >? 0.

Definition seq_next (seq : Z) : Z :=
  i32_wrap (Z.land (u32_wrap (u32_wrap seq + 1)) (u32_wrap SEQ_MASK)).

Definition seq_prev (seq : Z) : Z :=
  i32_wrap (Z.land (u32_wrap (u32_wrap seq - 1)) (u32_wrap SEQ_MASK)).

Definition srt_ack_last_acked (ack_field : Z) : Z :=
  seq_prev (seq_normalize (i32_wrap ack_field)).

(** A normalised sequence number. *)
Definition is_seq (s : Z) : Prop := 0 <= s < two31.

Global Instance is_seq_dec s : Decision (is_seq s).
Proof. unfold is_seq. apply _. Defined.

(** ** Arithmetic forms *)
Lemma land_mask z : Z.land z SEQ_MASK = z mod two31.
Proof. change SEQ_MASK with (Z.ones 31). by rewrite Z.land_ones by lia. Qed.

Lemma seq_normalize_mod s : seq_normalize s = s mod two31.
Proof. apply land_mask. Qed.

Lemma seq_normalize_range s : is_seq (seq_normalize s).
Proof. rewrite seq_normalize_mod. unfold is_seq. zlia. Qed.

Lemma seq_normalize_id s : is_seq s -> seq_normalize s = s.
Proof. rewrite seq_normalize_mod. unfold is_seq. zlia. Qed.

(** The distance is the representative of [a - b] in [[-2^30, 2^30)]. *)
Lemma seq_diff_mod a b : seq_diff a b = (a - b + 1073741824) mod two31 - 1073741824.
Proof.
  unfold seq_diff. change (u32_wrap SEQ_MASK) with SEQ_MASK. rewrite land_mask.
  change SEQ_HALF with 1073741824. change SEQ_SPACE with two31.
  rewrite Z.geb_leb. destruct (Z.leb_spec 1073741824 (u32_wrap (u32_wrap a - u32_wrap b) mod two31)); zlia.
Qed.

Lemma seq_next_mod s : seq_next s = (s + 1) mod two31.
Proof.
  unfold seq_next. change (u32_wrap SEQ_MASK) with SEQ_MASK. rewrite land_mask. zlia.
Qed.

Lemma seq_prev_mod s : seq_prev s = (s - 1) mod two31.
Proof.
  unfold seq_prev. change (u32_wrap SEQ_MASK) with SEQ_MASK. rewrite land_mask. zlia.
Qed.

Lemma seq_next_range s : is_seq (seq_next s).
Proof. rewrite seq_next_mod. unfold is_seq. zlia. Qed.

Lemma seq_diff_self a : seq_diff a a = 0.
Proof. rewrite seq_diff_mod. zlia. Qed.

Lemma seq_diff_zero a b : is_seq a -> is_seq b -> seq_diff a b = 0 -> a = b.
Proof. rewrite seq_diff_mod. unfold is_seq. zlia. Qed.

(** Distances are preserved by any common shift. *)
Lemma seq_diff_shift a b k :
  seq_diff ((a + k) mod two31) ((b + k) mod two31) = seq_diff a b.
Proof.
  rewrite !seq_diff_mod. zlia.
Qed.

Lemma seq_diff_add base k : 0 <= k < 1073741824 -> seq_diff ((base + k) mod two31) base = k.
Proof. intros. rewrite seq_diff_mod. zlia. Qed.

Lemma seq_after_iff a b : seq_after a b = true <-> 0 < seq_diff a b.
Proof. unfold seq_after. rewrite Z.gtb_lt. done. Qed.

(** ** Theorems *)

(** The serial distance of two sequence numbers lies in [[-2^30, 2^30)],
    moving the second by the distance gives the first, and exchanging the two
    negates it except at the ambiguous antipode. *)
Theorem seq_diff_spec (a b : Z) :
  is_seq a -> is_seq b ->
  - 1073741824 <= seq_diff a b < 1073741824 /\
  (b + seq_diff a b) mod two31 = a /\
  (seq_diff a b <> - 1073741824 -> seq_diff b a = - seq_diff a b).
Proof. intros Ha Hb. rewrite !seq_diff_mod. unfold is_seq in *. zlia. Qed.

Lemma seq_diff_spec_witness :
  is_seq 3 /\ is_seq 0x7fffffff /\ (0x7fffffff + seq_diff 3 0x7fffffff) mod two31 = 3 /\
  seq_diff 3 0x7fffffff = 4.
Proof.
  assert (is_seq 3) by (cbv; split; congruence).
  assert (is_seq 0x7fffffff) by (cbv; split; congruence).
  split; [done|]. split; [done|]. split; [|reflexivity].
  exact (proj1 (proj2 (seq_diff_spec 3 0x7fffffff ltac:(done) ltac:(done)))).
Defined.

(** Serial order is transitive on sequences that span less than half the
    space, which is what makes "newest" well defined for a packet log. *)
Theorem seq_after_trans (a b c : Z) :
  is_seq a -> is_seq b -> is_seq c ->
  seq_after a b = true -> seq_after b c = true ->
  seq_diff a b + seq_diff b c < 1073741824 ->
  seq_after a c = true /\ seq_diff a c = seq_diff a b + seq_diff b c.
Proof.
  intros Ha Hb Hc. rewrite !seq_after_iff, !seq_diff_mod. unfold is_seq in *. zlia.
Qed.

Lemma seq_after_trans_witness : seq_after 2 0x7ffffffe = true.
Proof.
  apply (seq_after_trans 2 0 0x7ffffffe); try (cbv; split; congruence); reflexivity.
Defined.

(** Stepping to the next and to the previous sequence are inverse on the
    31-bit space, wrap included, and the next sequence is exactly one ahead. *)
Theorem seq_next_prev (s : Z) :
  is_seq s ->
  is_seq (seq_next s) /\ is_seq (seq_prev s) /\ seq_prev (seq_next s) = s /\
  seq_next (seq_prev s) = s /\ seq_diff (seq_next s) s = 1.
Proof.
  intros Hs. rewrite seq_diff_mod, !seq_next_mod, !seq_prev_mod. unfold is_seq in *. zlia.
Qed.

Lemma seq_next_prev_witness : seq_next 0x7fffffff = 0 /\ seq_prev (seq_next 0x7fffffff) = 0x7fffffff.
Proof.
  split; [reflexivity|]. apply (seq_next_prev 0x7fffffff). cbv; split; congruence.
Defined.
