(* ===== verification/Filters.v ===== *)
(** * Filters: ewma.rs, kalman.rs, windowed_min.rs (srtla-core)

    The exponentially weighted average, the two-state Kalman filter and the
    constant-space windowed minimum that smooth RTT samples.  The filters are
    total on every float, reject NaN and infinities where the code does, and
    the windowed minimum reports a sample that is inside the window and is
    the minimum of everything measured since. *)
From S2P Require Import Prelude F64.

(** ** ewma.rs *)
Module Ewma.
Record t := mk { value : f64; alpha : f64; initialized : bool }.
Global Instance eta_t : Eta t := fun r => mk (value r) (alpha r) (initialized r).

Definition new (alpha : f64) : t := mk f0 alpha false.

Definition update (self : t) (measurement : f64) : t :=
  if is_nan measurement || is_infinite measurement then self
  else if negb (initialized self) then
    self <| value := measurement |> <| initialized := true |>
  else self <| value := fadd (fmul (value self) (fsub f1 (alpha self)))
                             (fmul measurement (alpha self)) |>.

Definition reset (self : t) : t := self <| value := f0 |> <| initialized := false |>.
End Ewma.

(** ** kalman.rs *)
Module Kalman.
Record KalmanConfig := mkConfig { q_value : f64; q_velocity : f64; r : f64 }.

Definition for_rtt : KalmanConfig := mkConfig (flit 5 10) (flit 1 10) (flit 2 1).

(** [p] is the covariance array [[p00, p01, p10, p11]]. *)
Record t := mk {
  x : f64; v : f64; p0 : f64; p1 : f64; p2 : f64; p3 : f64;
  config : KalmanConfig; initialized : bool }.

Definition new (config : KalmanConfig) : t := mk f0 f0 f0 f0 f0 f0 config false.

Definition update (self : t) (measurement : f64) : t :=
  if is_nan measurement || is_infinite measurement then self
  else
  let c := config self in
  if negb (initialized self) then mk measurement f0 (r c) f0 f0 (r c) c true
  else
  let x_pred := fadd (x self) (v self) in
  let v_pred := v self in
  let p00 := fadd (fadd (fadd (fadd (p0 self) (p2 self)) (p1 self)) (p3 self)) (q_value c) in
  let p01 := fadd (p1 self) (p3 self) in
  let p10 := fadd (p2 self) (p3 self) in
  let p11 := fadd (p3 self) (q_velocity c) in
  let y := fsub measurement x_pred in
  let s := fadd p00 (r c) in
  if flt (fabs s) (flit 1 1000000000000) then self
  else
  let k0 := fdiv p00 s in
  let k1 := fdiv p10 s in
  mk (fadd x_pred (fmul k0 y)) (fadd v_pred (fmul k1 y))
     (fmul (fsub f1 k0) p00) (fmul (fsub f1 k0) p01)
     (fsub p10 (fmul k1 p00)) (fsub p11 (fmul k1 p01)) c true.

Definition value (self : t) : f64 := x self.
Definition velocity (self : t) : f64 := v self.
Definition is_initialized (self : t) : bool := initialized self.

Definition reset (self : t) : t := mk f0 f0 f0 f0 f0 f0 (config self) false.
End Kalman.

(** ** windowed_min.rs *)
Module WindowedMin.
Record Sample := mkSample { t_ms : Z; v : f64 }.
Record t := mk { window_ms : Z; s : option (Sample * Sample * Sample) }.

Definition new (window_ms : Z) : t := mk window_ms None.
Definition reset (self : t) : t := mk (window_ms self) None.
Definition get (self : t) : option f64 :=
  match s self with Some (a, _, _) => Some (v a) | None => None end.

(** The two replacement rules and the expiry of [update], on the three
    samples. *)
Definition place (val : Sample) (s3 : Sample * Sample * Sample) : Sample * Sample * Sample :=
  let '(a, b, c) := s3 in
  if fle (v val) (v b) then (a, val, val)
  else if fle (v val) (v c) then (a, b, val)
  else (a, b, c).

Definition age_out (win now_ms : Z) (val : Sample) (s3 : Sample * Sample * Sample)
  : Sample * Sample * Sample :=
  let '(a, b, c) := s3 in
  let dt := sat_sub now_ms (t_ms a) in
  if dt >? win then
    let '(a, b, c) := (b, c, val) in
    if sat_sub now_ms (t_ms a) >? win then (b, c, val) else (a, b, c)
  else if (t_ms b =? t_ms a) && (dt >? win / 4) then (a, val, val)
  else if (t_ms c =? t_ms b) && (dt >? win / 2) then (a, b, val)
  else (a, b, c).

Definition update (self : t) (now_ms : Z) (v' : f64) : t * f64 :=
  let val := mkSample now_ms v' in
  let win := window_ms self in
  match s self with
  | Some (a, b, c) =>
    if fgt v' (v a) && (sat_sub now_ms (t_ms c) <=? win) then
      let s3 := age_out win now_ms val (place val (a, b, c)) in
      (mk win (Some s3), v s3.1.1)
    else (mk win (Some (val, val, val)), v')
  | None => (mk win (Some (val, val, val)), v')
  end.

(** Feeding a whole series, oldest sample first. *)
Definition run (win : Z) (samples : list Sample) : t :=
  fold_left (fun wm x => (update wm (t_ms x) (v x)).1) samples (new win).
End WindowedMin.

(** ** Windowed minimum: the reported value *)
Import WindowedMin.

(** [x] occurs in the series (newest first) and nothing newer is below it. *)
Definition min_since (x : Sample) (newest_first : list Sample) : Prop :=
  exists newer older, newest_first = newer ++ x :: older /\
    Forall (fun y => fle (v x) (v y) = true) newer.

Lemma min_since_new x tr : min_since x (x :: tr).
Proof. by exists [], tr. Qed.

Lemma min_since_cons x y tr : min_since x tr -> fle (v x) (v y) = true -> min_since x (y :: tr).
Proof. intros (n & o & -> & Hn) Hy. exists (y :: n), o. split; [done|]. by constructor. Qed.

#[export] Hint Resolve min_since_new min_since_cons : srtla.

(** The representation invariant of the three samples. *)
Definition samples_ok (s3 : Sample * Sample * Sample) (tr : list Sample) : Prop :=
  let '(a, b, c) := s3 in
  min_since a tr /\ min_since b tr /\ min_since c tr /\
  (is_nan (v a) = false -> is_nan (v b) = false /\ is_nan (v c) = false).

Definition wm_ok (wm : t) (tr : list Sample) : Prop :=
  match s wm with None => tr = [] | Some s3 => samples_ok s3 tr end.

Lemma samples_ok_reset val tr : samples_ok (val, val, val) (val :: tr).
Proof. repeat split; auto with srtla. Qed.

Lemma place_ok val a b c tr :
  samples_ok (a, b, c) tr -> flt (v a) (v val) = true ->
  samples_ok (place val (a, b, c)) (val :: tr).
Proof.
  intros (Ha & Hb & Hc & Hnan) Hlt. destruct (flt_not_nan _ _ Hlt) as [Na Nv].
  specialize (Hnan Na) as [Nb Nc].
  pose proof (min_since_cons _ _ _ Ha (flt_le _ _ Hlt)). unfold place.
  destruct (fle (v val) (v b)) eqn:E1; [repeat split; auto with srtla|].
  apply fle_false_flt in E1; [|done..].
  destruct (fle (v val) (v c)) eqn:E2; [repeat split; auto using flt_le with srtla|].
  apply fle_false_flt in E2; [|done..]. repeat split; auto using flt_le with srtla.
Qed.

Lemma age_out_ok win now val s3 tr :
  samples_ok s3 (val :: tr) -> is_nan (v s3.1.1) = false -> is_nan (v val) = false ->
  samples_ok (age_out win now val s3) (val :: tr).
Proof.
  destruct s3 as [[a b] c]; cbn [fst]. intros (Ha & Hb & Hc & Hn) Na Nv.
  specialize (Hn Na) as [Nb Nc]. unfold age_out.
  split_ifs; repeat split; auto with srtla.
Qed.

(** The reported sample is in the window when the newest runner-up is. *)
Lemma age_out_fresh win val a b c :
  0 <= win -> sat_sub (t_ms val) (t_ms c) <= win ->
  sat_sub (t_ms val) (t_ms (age_out win (t_ms val) val (a, b, c)).1.1) <= win.
Proof. intros Hw Hc. unfold age_out. split_ifs; cbn in *; bool_to_prop; lia. Qed.

Lemma place_head val a b c :
  (place val (a, b, c)).1.1 = a /\
  ((place val (a, b, c)).2 = c \/ (place val (a, b, c)).2 = val).
Proof. unfold place. split_ifs; cbn; auto. Qed.

Lemma update_ok wm tr now v' :
  0 <= window_ms wm -> wm_ok wm tr ->
  wm_ok (update wm now v').1 (mkSample now v' :: tr) /\
  exists t0, s (update wm now v').1 <> None /\
    (forall s3, s (update wm now v').1 = Some s3 -> s3.1.1 = mkSample t0 (update wm now v').2) /\
    sat_sub now t0 <= window_ms wm.
Proof.
  intros Hw Hok. unfold update, wm_ok in *. set (val := mkSample now v').
  assert (samples_ok (val, val, val) (val :: tr) /\
    exists t0, Some (val, val, val) <> None /\
      (forall s3, Some (val, val, val) = Some s3 -> s3.1.1 = mkSample t0 v') /\
      sat_sub now t0 <= window_ms wm) as Hreset.
  { split; [apply samples_ok_reset|]. exists now. split; [done|]. split; [by intros ? [= <-]|].
    unfold sat_sub; lia. }
  destruct (s wm) as [[[a b] c]|]; [|exact Hreset].
  destruct (_ && _) eqn:E; [|exact Hreset]. cbn [fst snd s].
  apply andb_true_iff in E as [Hlt Hc]; apply Z.leb_le in Hc.
  pose proof (place_ok val a b c tr Hok Hlt) as Hp.
  destruct (place_head val a b c) as [Hh Hl].
  destruct (flt_not_nan _ _ Hlt) as [Na Nv].
  split; [apply age_out_ok; [done|by rewrite Hh|done]|].
  set (s3 := age_out _ _ _ _). exists (t_ms s3.1.1). split; [done|].
  split; [by intros ? [= <-]; destruct (s3.1.1)|].
  unfold s3. destruct (place val (a, b, c)) as [[a' b'] c']. cbn in Hl.
  apply (age_out_fresh _ val); [done|]. destruct Hl; subst; unfold sat_sub in *; cbn; lia.
Qed.

Lemma update_window wm now v' : window_ms (update wm now v').1 = window_ms wm.
Proof. unfold update. destruct (s wm) as [[[a b] c]|]; [|done]. by destruct (_ && _). Qed.

Lemma run_ok win samples :
  0 <= win -> wm_ok (run win samples) (rev samples) /\ window_ms (run win samples) = win.
Proof.
  intros Hw. induction samples as [|x l [IH IHw]] using rev_ind; [done|].
  unfold run. rewrite fold_left_app. cbn [fold_left]. fold (run win l).
  rewrite rev_app_distr. cbn [rev app].
  destruct (update_ok (run win l) (rev l) (t_ms x) (v x)) as [Hok _]; [lia|done|].
  split; [by destruct x|]. by rewrite update_window.
Qed.

(** After any series of samples, the windowed minimum returned for a new
    sample is the value of a sample of the series that is at most one window
    old and that no sample taken after it undercuts. *)
Theorem windowed_min_sound (win : Z) (samples : list Sample) (now : Z) (v' : f64) :
  0 <= win ->
  exists t0 newer older,
    rev (samples ++ [mkSample now v']) =
      newer ++ mkSample t0 (update (run win samples) now v').2 :: older /\
    Forall (fun y => fle (update (run win samples) now v').2 (v y) = true) newer /\
    sat_sub now t0 <= win.
Proof.
  intros Hw. destruct (run_ok win samples Hw) as [Hok Hwin].
  destruct (update_ok _ _ now v' ltac:(by rewrite Hwin) Hok) as [Hok' (t0 & Hs & Hhd & Ht0)].
  unfold wm_ok in Hok'. destruct (s (update _ now v').1) as [[[a b] c]|] eqn:E; [|done].
  specialize (Hhd _ eq_refl). cbn in Hhd. subst a.
  destruct Hok' as [(newer & older & Heq & Hall) _].
  exists t0, newer, older. rewrite rev_app_distr. split; [exact Heq|]. split; [done|]. lia.
Qed.

Lemma windowed_min_sound_witness :
  0 <= 100 /\ exists t0 newer older,
    rev ([mkSample 5 (f_of_Z 30); mkSample 50 (f_of_Z 40)] ++ [mkSample 130 (f_of_Z 50)]) =
      newer ++ mkSample t0 (update (run 100 [mkSample 5 (f_of_Z 30); mkSample 50 (f_of_Z 40)])
                              130 (f_of_Z 50)).2 :: older /\
    Forall (fun y => fle (update (run 100 [mkSample 5 (f_of_Z 30); mkSample 50 (f_of_Z 40)])
                              130 (f_of_Z 50)).2 (v y) = true) newer /\
    sat_sub 130 t0 <= 100.
Proof.
  split; [lia|].
  apply (windowed_min_sound 100 [mkSample 5 (f_of_Z 30); mkSample 50 (f_of_Z 40)] 130 (f_of_Z 50)).
  lia.
Defined.

(** Finite measurements initialise the filters, the others leave them alone. *)
Lemma ewma_ignores_non_finite e m : is_finite m = false -> Ewma.update e m = e.
Proof.
  unfold is_finite, Ewma.update. destruct (is_nan m); [done|]. by destruct (is_infinite m).
Qed.

Lemma kalman_ignores_non_finite k m : is_finite m = false -> Kalman.update k m = k.
Proof.
  unfold is_finite, Kalman.update. destruct (is_nan m); [done|]. by destruct (is_infinite m).
Qed.

Lemma kalman_first k m :
  is_finite m = true -> Kalman.initialized k = false ->
  Kalman.value (Kalman.update k m) = m /\ Kalman.velocity (Kalman.update k m) = f0 /\
  Kalman.is_initialized (Kalman.update k m) = true.
Proof.
  unfold is_finite, Kalman.update. intros H ->. by destruct (is_nan m), (is_infinite m).
Qed.
