(* ===== verification/Rtt.v ===== *)
(** * RTT tracking (srtla-core/src/connection/rtt.rs)

    The per-link round-trip estimator: one plausibility guard in front of a
    Kalman filter, an average of the change rate and two windowed minima.  The
    theorems show what the guard admits, that a rejected sample changes
    nothing, and that the reported floor never lies above the latest sample. *)
From S2P Require Import Prelude F64 Wire Filters.

Definition FAST_WINDOW_MS : Z := 3000.
Definition SLOW_WINDOW_MS : Z := 30000.
Definition MAX_PLAUSIBLE_RTT_MS : Z := 10000.
Definition RTT_MASD_ALPHA : f64 := flit 1 10.
Definition GRAD_TRIP_SIGMA : f64 := flit 3 1.
Definition GRAD_TRIP_FLOOR_FRACTION : f64 := flit 5 100.

Definition plausible_round_trip (sent_ms now_ms : Z) : option Z :=
  let rtt := sat_sub now_ms sent_ms in
  if negb (rtt =? 0) && (rtt <=? MAX_PLAUSIBLE_RTT_MS) then Some rtt else None.

Definition keepalive_echo_rtt_ms (data : bytes) (now_ms : Z) : res (option Z) :=
  ts ←? extract_keepalive_timestamp data; Ret (plausible_round_trip ts now_ms).

Record RttTracker := mkRtt {
  last_keepalive_sent_ms : Z;
  waiting_for_keepalive_response : bool;
  last_rtt_measurement_ms : Z;
  kalman_rtt : Kalman.t;
  rtt_jitter_ms : f64;
  prev_rtt_ms : f64;
  rtt_avg_delta : Ewma.t;
  rtt_min_ms : f64;
  rtt_min_fast_ms : f64;
  rtt_min_slow_ms : f64;
  rtt_masd_ms : f64;
  estimated_rtt_ms : f64;
  rtt_min_fast_window : WindowedMin.t;
  rtt_min_slow_window : WindowedMin.t }.

Global Instance eta_rtt : Eta RttTracker := fun r =>
  mkRtt (last_keepalive_sent_ms r) (waiting_for_keepalive_response r) (last_rtt_measurement_ms r)
    (kalman_rtt r) (rtt_jitter_ms r) (prev_rtt_ms r) (rtt_avg_delta r) (rtt_min_ms r)
    (rtt_min_fast_ms r) (rtt_min_slow_ms r) (rtt_masd_ms r) (estimated_rtt_ms r)
    (rtt_min_fast_window r) (rtt_min_slow_window r).

Definition rtt_default : RttTracker := {|
  last_keepalive_sent_ms := 0;
  waiting_for_keepalive_response := false;
  last_rtt_measurement_ms := 0;
  kalman_rtt := Kalman.new Kalman.for_rtt;
  rtt_jitter_ms := f0;
  prev_rtt_ms := f0;
  rtt_avg_delta := Ewma.new (flit 2 10);
  rtt_min_ms := f_of_Z 200;
  rtt_min_fast_ms := f_of_Z 200;
  rtt_min_slow_ms := f_of_Z 200;
  rtt_masd_ms := f0;
  estimated_rtt_ms := f0;
  rtt_min_fast_window := WindowedMin.new FAST_WINDOW_MS;
  rtt_min_slow_window := WindowedMin.new SLOW_WINDOW_MS |}.

Definition rtt_reset (self : RttTracker) : RttTracker := {|
  last_rtt_measurement_ms := 0;
  kalman_rtt := Kalman.reset (kalman_rtt self);
  rtt_jitter_ms := f0;
  prev_rtt_ms := f0;
  rtt_avg_delta := Ewma.reset (rtt_avg_delta self);
  rtt_min_ms := f_of_Z 200;
  rtt_min_fast_ms := f_of_Z 200;
  rtt_min_slow_ms := f_of_Z 200;
  rtt_masd_ms := f0;
  estimated_rtt_ms := f0;
  last_keepalive_sent_ms := 0;
  waiting_for_keepalive_response := false;
  rtt_min_fast_window := WindowedMin.reset (rtt_min_fast_window self);
  rtt_min_slow_window := WindowedMin.reset (rtt_min_slow_window self) |}.

Definition update_estimate (self : RttTracker) (rtt_ms now_ms : Z) : RttTracker :=
  let current_rtt := f_of_Z rtt_ms in
  if negb (Kalman.is_initialized (kalman_rtt self)) then
    self <| kalman_rtt ::= fun k => Kalman.update k current_rtt |>
         <| prev_rtt_ms := current_rtt |>
         <| estimated_rtt_ms := current_rtt |>
         <| rtt_min_ms := current_rtt |>
         <| rtt_min_fast_ms := current_rtt |>
         <| rtt_min_slow_ms := current_rtt |>
         <| rtt_masd_ms := f0 |>
         <| rtt_min_fast_window ::= fun w => (WindowedMin.update w now_ms current_rtt).1 |>
         <| rtt_min_slow_window ::= fun w => (WindowedMin.update w now_ms current_rtt).1 |>
         <| last_rtt_measurement_ms := now_ms |>
  else
    let self := self <| kalman_rtt ::= fun k => Kalman.update k current_rtt |> in
    let delta_rtt := fsub current_rtt (prev_rtt_ms self) in
    let self := self <| rtt_avg_delta ::= fun e => Ewma.update e delta_rtt |> in
    let self := self <| rtt_masd_ms := fadd (fmul (rtt_masd_ms self) (fsub f1 RTT_MASD_ALPHA))
                                            (fmul (fabs delta_rtt) RTT_MASD_ALPHA) |> in
    let self := self <| prev_rtt_ms := current_rtt |> in
    let '(fast_window, fast_min) :=
      WindowedMin.update (rtt_min_fast_window self) now_ms current_rtt in
    let '(slow_window, slow_min) :=
      WindowedMin.update (rtt_min_slow_window self) now_ms current_rtt in
    let self := self <| rtt_min_fast_window := fast_window |>
                     <| rtt_min_slow_window := slow_window |>
                     <| rtt_min_fast_ms := fast_min |>
                     <| rtt_min_slow_ms := slow_min |>
                     <| rtt_min_ms := fmin fast_min slow_min |> in
    let self := self <| rtt_jitter_ms ::= fun j => fmul j (flit 99 100) |> in
    let self := if fgt (fabs delta_rtt) (rtt_jitter_ms self)
                then self <| rtt_jitter_ms := fabs delta_rtt |> else self in
    self <| estimated_rtt_ms := Kalman.value (kalman_rtt self) |>
         <| last_rtt_measurement_ms := now_ms |>.

Definition record_round_trip (self : RttTracker) (sent_ms now_ms : Z) : RttTracker * option Z :=
  match plausible_round_trip sent_ms now_ms with
  | None => (self, None)
  | Some rtt => (update_estimate self rtt now_ms, Some rtt)
  end.

Definition is_stable (self : RttTracker) : bool :=
  flt (fabs (Ewma.value (rtt_avg_delta self))) f1.

Definition rtt_gradient_ms (self : RttTracker) : f64 :=
  fmax (fsub (rtt_min_fast_ms self) (rtt_min_slow_ms self)) f0.

Definition queue_building_suspected (self : RttTracker) : bool :=
  if negb (Kalman.is_initialized (kalman_rtt self)) || negb (is_finite (rtt_min_ms self)) then false
  else
    let trip := fmax (fmul GRAD_TRIP_SIGMA (rtt_masd_ms self))
                     (fmul GRAD_TRIP_FLOOR_FRACTION (rtt_min_ms self)) in
    fgt (rtt_gradient_ms self) trip.

Definition record_keepalive_sent (self : RttTracker) (now_ms : Z) : RttTracker :=
  self <| last_keepalive_sent_ms := now_ms |> <| waiting_for_keepalive_response := true |>.

Definition handle_keepalive_response (self : RttTracker) (data : bytes) (now_ms : Z)
  : res (RttTracker * option Z) :=
  if negb (waiting_for_keepalive_response self) then Ret (self, None)
  else
    ts ← extract_keepalive_timestamp data;
    let '(self, r) :=
      match ts with
      | Some ts => record_round_trip self ts now_ms
      | None => (self, None)
      end in
    Ret (self <| waiting_for_keepalive_response := false |>, r).

Definition needs_measurement (self : RttTracker) (connected : bool)
    (connection_established_ms now_ms : Z) : bool :=
  if connection_established_ms =? 0 then false
  else connected && negb (waiting_for_keepalive_response self) &&
       ((last_rtt_measurement_ms self =? 0)
        || (sat_sub now_ms (last_rtt_measurement_ms self) >? 3000)).

(** ** Invariant *)

(** Both windows hold samples that represent some series of measurements. *)
Definition rtt_ok (r : RttTracker) : Prop :=
  (exists tr, wm_ok (rtt_min_fast_window r) tr) /\ (exists tr, wm_ok (rtt_min_slow_window r) tr) /\
  WindowedMin.window_ms (rtt_min_fast_window r) = FAST_WINDOW_MS /\
  WindowedMin.window_ms (rtt_min_slow_window r) = SLOW_WINDOW_MS.

(** The estimator after a list of (sent, now) round trips. *)
Definition run_round_trips (l : list (Z * Z)) : RttTracker :=
  fold_left (fun r '(sent, now) => (record_round_trip r sent now).1) l rtt_default.

Lemma plausible_iff sent now rtt :
  plausible_round_trip sent now = Some rtt <->
  rtt = now - sent /\ 1 <= now - sent <= MAX_PLAUSIBLE_RTT_MS.
Proof.
  unfold plausible_round_trip, sat_sub, MAX_PLAUSIBLE_RTT_MS.
  destruct (_ && _) eqn:E; bool_to_prop.
  - split; [intros [= <-]|intros [-> ?]; f_equal]; lia.
  - split; [done|intros [-> ?]]. lia.
Qed.

Lemma f_of_rtt_number n : 1 <= n <= MAX_PLAUSIBLE_RTT_MS -> is_nan (f_of_Z n) = false.
Proof.
  intros Hn.
  assert (forallb (fun k => negb (is_nan (f_of_Z k))) (seqZ 1 10000) = true) as Hall
    by (vm_compute; reflexivity).
  rewrite forallb_forall in Hall. apply negb_true_iff, Hall.
  apply list_elem_of_In, elem_of_seqZ. unfold MAX_PLAUSIBLE_RTT_MS in Hn. lia.
Qed.

(** A window's answer is at most the sample just folded in. *)
Lemma window_update_le wm tr now v :
  0 <= WindowedMin.window_ms wm -> wm_ok wm tr -> is_nan v = false ->
  fle (WindowedMin.update wm now v).2 v = true.
Proof.
  intros Hw Hok Hv. destruct (update_ok wm tr now v Hw Hok) as [Hok' (t0 & Hs & Hhd & _)].
  unfold wm_ok in Hok'. destruct (WindowedMin.s (WindowedMin.update wm now v).1) as [[[a b] c]|];
    [|done].
  specialize (Hhd _ eq_refl). cbn in Hhd. subst a.
  destruct Hok' as [(newer & older & Heq & Hall) _].
  destruct newer as [|y newer]; cbn in Heq.
  - injection Heq as _ Hv' _. rewrite <- Hv'. by apply fle_refl.
  - injection Heq as <- _. by apply Forall_cons in Hall as [? _].
Qed.

Lemma update_estimate_ok r rtt now : rtt_ok r -> rtt_ok (update_estimate r rtt now).
Proof.
  intros ((tf & Hf) & (ts & Hs) & Wf & Ws).
  destruct (update_ok (rtt_min_fast_window r) tf now (f_of_Z rtt)) as [Hf' _];
    [rewrite Wf; cbv; congruence|done|].
  destruct (update_ok (rtt_min_slow_window r) ts now (f_of_Z rtt)) as [Hs' _];
    [rewrite Ws; cbv; congruence|done|].
  pose proof (update_window (rtt_min_fast_window r) now (f_of_Z rtt)).
  pose proof (update_window (rtt_min_slow_window r) now (f_of_Z rtt)).
  unfold update_estimate, rtt_ok. destruct (negb _); cbn -[WindowedMin.update fabs f_of_Z].
  - repeat split; eauto; congruence.
  - destruct (WindowedMin.update (rtt_min_fast_window r) now (f_of_Z rtt)) as [fw fm].
    destruct (WindowedMin.update (rtt_min_slow_window r) now (f_of_Z rtt)) as [sw sm].
    cbn [fst snd] in *. destruct (fgt _ _); cbn; repeat split; eauto; congruence.
Qed.

Lemma rtt_default_ok : rtt_ok rtt_default.
Proof. repeat split; exists []; done. Qed.

Lemma record_round_trip_ok r sent now : rtt_ok r -> rtt_ok (record_round_trip r sent now).1.
Proof. unfold record_round_trip. case_match; [apply update_estimate_ok|done]. Qed.

Lemma run_round_trips_ok l : rtt_ok (run_round_trips l).
Proof.
  induction l as [|[sent now] l IH] using rev_ind; [exact rtt_default_ok|].
  unfold run_round_trips. rewrite fold_left_app. by apply record_round_trip_ok.
Qed.

(** ** Theorems *)

(** A round trip is folded in exactly when it is between 1 ms and 10 s; the
    accepted value is the elapsed time, the measurement clock moves to now, and
    a rejected sample leaves the whole estimator unchanged. *)
Theorem record_round_trip_spec (r : RttTracker) (sent now : Z) :
  (1 <= now - sent <= MAX_PLAUSIBLE_RTT_MS ->
     (record_round_trip r sent now).2 = Some (now - sent) /\
     last_rtt_measurement_ms (record_round_trip r sent now).1 = now) /\
  (~ 1 <= now - sent <= MAX_PLAUSIBLE_RTT_MS -> record_round_trip r sent now = (r, None)).
Proof.
  unfold record_round_trip. split; intros H.
  - rewrite (proj2 (plausible_iff sent now (now - sent))) by done. split; [done|].
    cbn [fst]. unfold update_estimate. destruct (negb _); [done|].
    destruct (WindowedMin.update _ _ _), (WindowedMin.update _ _ _). by destruct (fgt _ _).
  - destruct (plausible_round_trip sent now) eqn:E; [|done]. by apply plausible_iff in E as [_ ?].
Qed.

Lemma record_round_trip_spec_witness :
  (record_round_trip rtt_default 100 145).2 = Some 45 /\
  record_round_trip rtt_default 145 100 = (rtt_default, None).
Proof.
  split.
  - apply (record_round_trip_spec rtt_default 100 145). cbv; split; congruence.
  - apply (record_round_trip_spec rtt_default 145 100). cbv. intros [H _]. by apply H.
Defined.

(** Whatever round trips came before, after an accepted sample the reported
    RTT floor is a number that does not exceed the sample, so a link is never
    credited with a floor above what it just measured. *)
Theorem rtt_floor_below_sample (l : list (Z * Z)) (sent now : Z) :
  1 <= now - sent <= MAX_PLAUSIBLE_RTT_MS ->
  fle (rtt_min_ms (record_round_trip (run_round_trips l) sent now).1) (f_of_Z (now - sent)) = true.
Proof.
  intros H. pose proof (f_of_rtt_number _ H) as Hnum.
  unfold record_round_trip. rewrite (proj2 (plausible_iff sent now (now - sent))) by done.
  destruct (run_round_trips_ok l) as ((tf & Hf) & _ & Wf & _).
  cbn [fst]. set (r := run_round_trips l) in *. unfold update_estimate.
  destruct (negb _); cbn -[WindowedMin.update fabs f_of_Z fmin]; [by apply fle_refl|].
  pose proof (window_update_le (rtt_min_fast_window r) tf now (f_of_Z (now - sent))
    ltac:(rewrite Wf; cbv; congruence) Hf Hnum) as Hle.
  destruct (WindowedMin.update (rtt_min_fast_window r) now _) as [fw fm].
  destruct (WindowedMin.update (rtt_min_slow_window r) now _) as [sw sm].
  cbn [snd] in Hle. destruct (fle_not_nan _ _ Hle) as [Hfm _].
  destruct (fgt _ _); cbn -[fmin];
    (eapply fle_trans; [apply (fmin_le fm sm Hfm)|done]).
Qed.

Lemma rtt_floor_below_sample_witness :
  1 <= 130 - 100 <= MAX_PLAUSIBLE_RTT_MS /\
  fle (rtt_min_ms (record_round_trip (run_round_trips [(0, 45); (50, 60)]) 100 130).1)
      (f_of_Z (130 - 100)) = true.
Proof.
  assert (1 <= 130 - 100 <= MAX_PLAUSIBLE_RTT_MS) as H by (cbv; split; congruence).
  split; [exact H|]. exact (rtt_floor_below_sample [(0, 45); (50, 60)] 100 130 H).
Defined.
