(* ===== verification/Batch.v ===== *)
(** * Batched sending (srtla-core/src/connection/batch_send.rs)

    The per-link send queue: three parallel vectors, a regime that sets the
    batch size and a drain that hands everything to the socket layer.  The
    queue implements an abstract FIFO of (bytes, sequence, time) triples: over
    any history of operations nothing is lost, duplicated or reordered. *)
From S2P Require Import Prelude F64 Wire.

Definition BATCH_SEND_SIZE : nat := 32.
Definition HIGH_LOAD_THRESHOLD_BPS : f64 := f_of_Z 5000000.
Definition LOW_ACTIVITY_THRESHOLD_BPS : f64 := f_of_Z 500000.
Definition BATCH_SIZE_LOW_ACTIVITY : nat := 4.
Definition BATCH_SIZE_NORMAL : nat := 16.
Definition BATCH_SIZE_HIGH_LOAD : nat := 32.
Definition FLUSH_INTERVAL_MS : Z := 15.

(** [(bytes, seq, queue_time_ms)]. *)
Definition DrainedPacket : Type := bytes * option Z * Z.

Inductive BatchRegime := LowActivity | Normal | HighLoad.
Global Instance BatchRegime_eq_dec : EqDecision BatchRegime.
Proof. solve_decision. Defined.

Definition from_bps (bps : f64) : BatchRegime :=
  if fgt bps HIGH_LOAD_THRESHOLD_BPS then HighLoad
  else if fle bps LOW_ACTIVITY_THRESHOLD_BPS then LowActivity
  else Normal.

Definition batch_size (r : BatchRegime) : nat :=
  match r with
  | LowActivity => BATCH_SIZE_LOW_ACTIVITY
  | Normal => BATCH_SIZE_NORMAL
  | HighLoad => BATCH_SIZE_HIGH_LOAD
  end.

Record BatchSender := mkBatch {
  queue : list bytes;
  sequences : list (option Z);
  queue_times : list Z;
  last_flush_ms : Z;
  batch_regime : BatchRegime }.

Global Instance eta_batch : Eta BatchSender := fun b =>
  mkBatch (queue b) (sequences b) (queue_times b) (last_flush_ms b) (batch_regime b).

Definition batch_new : BatchSender := mkBatch [] [] [] 0 Normal.

Definition queue_packet (self : BatchSender) (data : bytes) (seq : option Z) (current_time_ms : Z)
  : BatchSender * bool :=
  let self := self <| queue ::= fun q => q ++ [data] |>
                   <| sequences ::= fun q => q ++ [seq] |>
                   <| queue_times ::= fun q => q ++ [current_time_ms] |> in
  (self, bool_decide (batch_size (batch_regime self) <= length (queue self))%nat).

Definition set_regime (self : BatchSender) (regime : BatchRegime) : BatchSender :=
  self <| batch_regime := regime |>.

Definition needs_time_flush (self : BatchSender) (now_ms : Z) : bool :=
  negb (bool_decide (queue self = [])) &&
  (sat_sub now_ms (last_flush_ms self) >=? FLUSH_INTERVAL_MS).

Definition has_queued_packets (self : BatchSender) : bool := negb (bool_decide (queue self = [])).

Definition queued_count (self : BatchSender) : Z := i32_wrap (Z.of_nat (length (queue self))).

Definition drain (self : BatchSender) (now_ms : Z) : BatchSender * list DrainedPacket :=
  let self := self <| last_flush_ms := now_ms |> in
  if bool_decide (queue self = []) then (self, [])
  else
    let out := zip (zip (queue self) (sequences self)) (queue_times self) in
    (self <| queue := [] |> <| sequences := [] |> <| queue_times := [] |>, out).

Definition batch_reset (self : BatchSender) : BatchSender :=
  self <| queue := [] |> <| sequences := [] |> <| queue_times := [] |> <| last_flush_ms := 0 |>.

(** ** The abstract queue *)

(** The vectors stay parallel. *)
Definition batch_ok (b : BatchSender) : Prop :=
  length (sequences b) = length (queue b) /\ length (queue_times b) = length (queue b).

Definition pending (b : BatchSender) : list DrainedPacket :=
  zip (zip (queue b) (sequences b)) (queue_times b).

Inductive batch_op :=
  | OpQueue (data : bytes) (seq : option Z) (time : Z)
  | OpDrain (now : Z)
  | OpRegime (r : BatchRegime).

Definition batch_step (st : BatchSender * list DrainedPacket) (op : batch_op)
  : BatchSender * list DrainedPacket :=
  let '(b, sent) := st in
  match op with
  | OpQueue d s t => ((queue_packet b d s t).1, sent)
  | OpDrain now => let '(b, out) := drain b now in (b, sent ++ out)
  | OpRegime r => (set_regime b r, sent)
  end.

Definition op_queued (op : batch_op) : list DrainedPacket :=
  match op with OpQueue d s t => [(d, s, t)] | _ => [] end.

Lemma queue_packet_refines b d s t :
  batch_ok b -> batch_ok (queue_packet b d s t).1 /\
  pending (queue_packet b d s t).1 = pending b ++ [(d, s, t)].
Proof.
  unfold batch_ok, pending. intros [Hs Ht]. cbn. rewrite !length_app. cbn. split; [lia|].
  rewrite !zip_with_app; [done|by rewrite ?length_zip_with; lia..].
Qed.

Lemma drain_refines b now :
  batch_ok b -> batch_ok (drain b now).1 /\ (drain b now).2 = pending b /\
  pending (drain b now).1 = [] /\ last_flush_ms (drain b now).1 = now.
Proof.
  unfold drain, batch_ok, pending. intros [Hs Ht]. cbn. case_bool_decide as E; cbn; [|done].
  rewrite E in *. done.
Qed.

(** ** Theorems *)

(** Over any history of queueing, draining and regime changes, what has
    been handed to the socket followed by what is still queued is exactly the
    sequence of queued packets, with their sequence numbers and times. *)
Theorem batch_fifo (ops : list batch_op) :
  let '(b, sent) := fold_left batch_step ops (batch_new, []) in
  batch_ok b /\ sent ++ pending b = concat (map op_queued ops).
Proof.
  induction ops as [|op ops IH] using rev_ind; [done|].
  rewrite fold_left_app, map_app, concat_app. cbn [fold_left map concat].
  destruct (fold_left batch_step ops (batch_new, [])) as [b sent].
  destruct IH as [Hok IH]. rewrite <- IH, app_nil_r. destruct op as [d s t|now|r]; cbn [batch_step op_queued].
  - destruct (queue_packet_refines b d s t Hok) as [? ->]. by rewrite app_assoc.
  - destruct (drain_refines b now Hok) as (? & ? & Hp & _).
    destruct (drain b now) as [b' out]. cbn [fst snd] in *. subst. by rewrite Hp, !app_nil_r.
  - by rewrite app_nil_r.
Qed.

(** The flush signal of queueing is raised exactly when the queue has
    reached the regime's batch size, so between two size flushes a queue that
    starts empty never holds more than 32 packets. *)
Theorem queue_packet_signal (b : BatchSender) (d : bytes) (s : option Z) (t : Z) :
  ((queue_packet b d s t).2 = true <->
     (batch_size (batch_regime b) <= S (length (queue b)))%nat) /\
  ((queue_packet b d s t).2 = false ->
     (length (queue (queue_packet b d s t).1) < BATCH_SEND_SIZE)%nat).
Proof.
  cbn. rewrite length_app. cbn. rewrite Nat.add_1_r, bool_decide_eq_true, bool_decide_eq_false.
  split; [done|]. unfold BATCH_SEND_SIZE, batch_size, BATCH_SIZE_LOW_ACTIVITY,
    BATCH_SIZE_NORMAL, BATCH_SIZE_HIGH_LOAD. destruct (batch_regime b); lia.
Qed.

Lemma queue_packet_signal_witness :
  (length (queue (queue_packet batch_new [1; 2]%Z (Some 7%Z) 100%Z).1) < BATCH_SEND_SIZE)%nat.
Proof. apply (queue_packet_signal batch_new [1; 2]%Z (Some 7%Z) 100%Z). reflexivity. Defined.
