(* ===== verification/Pacing.v ===== *)
(** * Reconnection pacing and bitrate (connection/reconnection.rs, connection/bitrate.rs)

    When a link that lost its registration may be rebuilt, and the two-second
    bitrate measurement.  The theorems give the exact retry instants: four
    fast attempts a tick apart, then one every five seconds, with half a tick
    of slack. *)
From S2P Require Import Prelude F64.

(** ** reconnection.rs *)
Definition STARTUP_GRACE_MS : Z := 5000.
Definition FAST_RETRY_ATTEMPTS : Z := 4.
Definition FAST_RETRY_DELAY_MS : Z := 1000.
Definition SLOW_RETRY_DELAY_MS : Z := 5000.
Definition TICK_SLACK_MS : Z := 500.

Record ReconnectionState := mkReconnection {
  last_reconnect_attempt_ms : Z;
  reconnect_failure_count : Z;
  connection_established_ms : Z;
  startup_grace_deadline_ms : Z }.

Global Instance eta_reconnection : Eta ReconnectionState := fun r =>
  mkReconnection (last_reconnect_attempt_ms r) (reconnect_failure_count r)
    (connection_established_ms r) (startup_grace_deadline_ms r).

Definition reconnection_default : ReconnectionState := mkReconnection 0 0 0 0.

Definition elapsed_reaches (now since delay_ms : Z) : bool :=
  u64_wrap (sat_sub now since + TICK_SLACK_MS) >=? delay_ms.

Definition retry_delay (self : ReconnectionState) : Z :=
  if reconnect_failure_count self <? FAST_RETRY_ATTEMPTS then FAST_RETRY_DELAY_MS
  else SLOW_RETRY_DELAY_MS.

Definition should_attempt_reconnect (self : ReconnectionState) (now : Z) : bool :=
  if connection_established_ms self =? 0 then
    if now <=? startup_grace_deadline_ms self then false
    else if last_reconnect_attempt_ms self =? 0 then true
    else elapsed_reaches now (last_reconnect_attempt_ms self) FAST_RETRY_DELAY_MS
  else if last_reconnect_attempt_ms self =? 0 then true
  else elapsed_reaches now (last_reconnect_attempt_ms self) (retry_delay self).

Definition record_attempt (self : ReconnectionState) (now : Z) : ReconnectionState :=
  let self := self <| last_reconnect_attempt_ms := now |> in
  if connection_established_ms self =? 0 then self
  else self <| reconnect_failure_count ::= fun c => sat_add_u32 c 1 |>.

Definition mark_success (self : ReconnectionState) : ReconnectionState :=
  if reconnect_failure_count self >? 0 then self <| reconnect_failure_count := 0 |> else self.

Definition reset_startup_grace (self : ReconnectionState) (now : Z) : ReconnectionState :=
  self <| startup_grace_deadline_ms := u64_wrap (now + STARTUP_GRACE_MS) |>.

(** A housekeeping pass: attempt when allowed. *)
Definition retry_tick (st : ReconnectionState * list Z) (now : Z) : ReconnectionState * list Z :=
  let '(s, attempts) := st in
  if should_attempt_reconnect s now then (record_attempt s now, attempts ++ [now]) else st.

(** ** bitrate.rs *)
Record BitrateTracker := mkBitrate {
  bytes_sent_total : Z;
  bytes_sent_window : Z;
  last_rate_update_ms : Z;
  current_bitrate_bps : f64 }.

Global Instance eta_bitrate : Eta BitrateTracker := fun r =>
  mkBitrate (bytes_sent_total r) (bytes_sent_window r) (last_rate_update_ms r)
    (current_bitrate_bps r).

Definition bitrate_new (now_ms : Z) : BitrateTracker := mkBitrate 0 0 now_ms f0.

Definition bitrate_reset (self : BitrateTracker) (now_ms : Z) : BitrateTracker :=
  mkBitrate 0 0 now_ms f0.

Definition update_on_send (self : BitrateTracker) (bytes_sent : Z) : BitrateTracker :=
  self <| bytes_sent_total ::= fun t => sat_add_u64 t bytes_sent |>.

Definition BITRATE_UPDATE_INTERVAL_MS : Z := 2000.

Definition calculate (self : BitrateTracker) (now_ms : Z) : BitrateTracker :=
  let now := now_ms in
  let time_diff_ms := sat_sub now (last_rate_update_ms self) in
  if time_diff_ms >=? BITRATE_UPDATE_INTERVAL_MS then
    let bytes_diff := sat_sub (bytes_sent_total self) (bytes_sent_window self) in
    let self :=
      if time_diff_ms >? 0 then
        let bits := sat_mul_u64 bytes_diff 8 in
        self <| current_bitrate_bps :=
          fdiv (fmul (f_of_Z bits) (f_of_Z 1000)) (f_of_Z time_diff_ms) |>
      else self in
    self <| last_rate_update_ms := now |> <| bytes_sent_window := bytes_sent_total self |>
  else self.

Definition mbps (self : BitrateTracker) : f64 := fdiv (current_bitrate_bps self) (f_of_Z 1000000).

(** ** Lemmas *)
Lemma elapsed_reaches_iff now since delay :
  0 <= since -> now < two64 - 500 -> TICK_SLACK_MS <= delay ->
  elapsed_reaches now since delay = true <-> delay <= 500 \/ since + delay - 500 <= now.
Proof.
  unfold elapsed_reaches, TICK_SLACK_MS. intros. rewrite Z.geb_leb, Z.leb_le.
  unfold u64_wrap. rewrite Z.mod_small by (unfold sat_sub, two64 in *; lia).
  unfold sat_sub; lia.
Qed.

(** ** Theorems *)

(** Once a link that was registered has made an attempt at time [t], the
    next one is allowed exactly from [t + 500] ms on while fewer than four
    attempts have been made, and from [t + 4500] ms on afterwards. *)
Theorem retry_cadence (s : ReconnectionState) (t now : Z) :
  connection_established_ms s <> 0 -> 0 < t -> now < two64 - 500 ->
  0 <= reconnect_failure_count s ->
  should_attempt_reconnect (record_attempt s t) now = true <->
    t + (if reconnect_failure_count s <? 3 then 500 else 4500) <= now.
Proof.
  intros He Ht Hn Hf. unfold should_attempt_reconnect, record_attempt. cbn.
  rewrite (proj2 (Z.eqb_neq _ _) He). cbn. rewrite (proj2 (Z.eqb_neq _ _) He).
  rewrite (proj2 (Z.eqb_neq t 0)) by lia. unfold retry_delay. cbn. rewrite elapsed_reaches_iff.
  - unfold sat_add_u32, u32_max, two32, FAST_RETRY_ATTEMPTS, FAST_RETRY_DELAY_MS, SLOW_RETRY_DELAY_MS.
    destruct (Z.ltb_spec (reconnect_failure_count s) 3), (Z.ltb_spec
      (Z.min (4294967296 - 1) (reconnect_failure_count s + 1)) 4); lia.
  - lia.
  - done.
  - unfold TICK_SLACK_MS, FAST_RETRY_DELAY_MS, SLOW_RETRY_DELAY_MS. destruct (_ <? _); lia.
Qed.

Lemma retry_cadence_witness :
  should_attempt_reconnect (record_attempt (mkReconnection 0 3 9 0) 1000) 5500 = true.
Proof. apply (retry_cadence (mkReconnection 0 3 9 0) 1000 5500); cbv; congruence. Defined.

Lemma retry_tick_spaced s attempts ticks :
  connection_established_ms s <> 0 -> 4 <= reconnect_failure_count s ->
  0 < last_reconnect_attempt_ms s ->
  Forall (fun t => 0 < t < two64 - 500) ticks ->
  exists new, (fold_left retry_tick ticks (s, attempts)).2 = attempts ++ new /\
    forall i t1 t2, (last_reconnect_attempt_ms s :: new) !! i = Some t1 ->
      (last_reconnect_attempt_ms s :: new) !! S i = Some t2 -> t1 + 4500 <= t2.
Proof.
  intros He Hf Hl Ht. revert s attempts He Hf Hl.
  induction Ht as [|t ticks Ht _ IH]; intros s attempts He Hf Hl.
  { exists []. rewrite app_nil_r. split; [done|]. by intros [|i] t1 t2 [= <-]. }
  cbn [fold_left retry_tick]. destruct (should_attempt_reconnect s t) eqn:E; [|by apply IH].
  assert (last_reconnect_attempt_ms s + 4500 <= t) as Hsp.
  { unfold should_attempt_reconnect in E.
    rewrite (proj2 (Z.eqb_neq _ _) He), (proj2 (Z.eqb_neq (last_reconnect_attempt_ms s) 0)) in E by lia.
    unfold retry_delay in E.
    rewrite (proj2 (Z.ltb_ge _ _)) in E by (unfold FAST_RETRY_ATTEMPTS; lia).
    apply elapsed_reaches_iff in E; unfold SLOW_RETRY_DELAY_MS, TICK_SLACK_MS in *; lia. }
  assert (record_attempt s t = s <| last_reconnect_attempt_ms := t |>
    <| reconnect_failure_count ::= fun c => sat_add_u32 c 1 |>) as ->
    by (unfold record_attempt; cbn; by rewrite (proj2 (Z.eqb_neq _ _) He)).
  destruct (IH (s <| last_reconnect_attempt_ms := t |>
    <| reconnect_failure_count ::= fun c => sat_add_u32 c 1 |>) (attempts ++ [t]))
    as (new & Hnew & Hspaced).
  { done. }
  { cbn. unfold sat_add_u32, u32_max, two32. lia. }
  { cbn. lia. }
  exists (t :: new). split; [by rewrite Hnew, <- app_assoc|].
  intros [|i] t1 t2; [by intros [= <-] [= <-]|]. apply (Hspaced i).
Qed.

(** Over any sequence of housekeeping ticks, a registered link that has
    spent its four fast attempts rebuilds its socket at most once every 4.5
    seconds, so a slow answer is never cut off sooner. *)
Theorem slow_retries_spaced (s : ReconnectionState) (ticks : list Z) (i : nat) (t1 t2 : Z) :
  connection_established_ms s <> 0 -> 4 <= reconnect_failure_count s ->
  0 < last_reconnect_attempt_ms s ->
  Forall (fun t => 0 < t < two64 - 500) ticks ->
  (fold_left retry_tick ticks (s, [])).2 !! i = Some t1 ->
  (fold_left retry_tick ticks (s, [])).2 !! S i = Some t2 ->
  t1 + 4500 <= t2.
Proof.
  intros He Hf Hl Ht. destruct (retry_tick_spaced s [] ticks He Hf Hl Ht) as (new & -> & Hs).
  cbn [app]. intros H1 H2. by apply (Hs (S i)).
Qed.

Lemma slow_retries_spaced_witness :
  (fold_left retry_tick [2000; 6000; 7000; 10500] (mkReconnection 1000 4 9 0, [])).2 = [6000; 10500]
  /\ 6000 + 4500 <= 10500.
Proof.
  split; [reflexivity|].
  apply (slow_retries_spaced (mkReconnection 1000 4 9 0) [2000; 6000; 7000; 10500] 0).
  - done.
  - cbn; lia.
  - cbn; lia.
  - repeat (constructor; [unfold two64; lia|]). constructor.
  - reflexivity.
  - reflexivity.
Defined.
