(* ===== verification/Congestion.v ===== *)
(** * Congestion control (srtla-core/src/connection/congestion/)

    The per-link window in thousandths of a packet: reduced by a NAK, grown by
    ACKs, and, in enhanced mode, recovered over time.  Each operation takes the
    control state and the window the code passes by reference and returns both.
    The theorems bound the window for every history, show that only a NAK lowers
    it, that enhanced ACKs grow it exactly as classic ones do, and how fast
    recovery may go. *)
From S2P Require Import Prelude F64 Wire.

(** ** congestion/mod.rs *)
Definition NAK_BURST_WINDOW_MS : Z := 1000.
Definition NAK_BURST_LOG_THRESHOLD : Z := 5.

Record CongestionControl := mkCongestion {
  nak_count : Z;
  last_nak_time_ms : Z;
  last_window_increase_ms : Z;
  consecutive_acks_without_nak : Z;
  fast_recovery_mode : bool;
  fast_recovery_start_ms : Z;
  nak_burst_count : Z;
  nak_burst_start_time_ms : Z }.

Global Instance eta_congestion : Eta CongestionControl := fun c =>
  mkCongestion (nak_count c) (last_nak_time_ms c) (last_window_increase_ms c)
    (consecutive_acks_without_nak c) (fast_recovery_mode c) (fast_recovery_start_ms c)
    (nak_burst_count c) (nak_burst_start_time_ms c).

Definition congestion_default : CongestionControl := mkCongestion 0 0 0 0 false 0 0 0.

Definition congestion_reset (self : CongestionControl) : CongestionControl :=
  self <| nak_count := 0 |> <| last_nak_time_ms := 0 |> <| nak_burst_count := 0 |>
       <| nak_burst_start_time_ms := 0 |> <| last_window_increase_ms := 0 |>
       <| consecutive_acks_without_nak := 0 |> <| fast_recovery_mode := false |>
       <| fast_recovery_start_ms := 0 |>.

Definition cc_handle_nak (self : CongestionControl) (window now_ms : Z) : CongestionControl * Z :=
  let current_time := now_ms in
  let self := self <| nak_count ::= fun n => sat_i32 (n + 1) |> in
  let time_since_last_nak := sat_sub current_time (last_nak_time_ms self) in
  let self :=
    if (last_nak_time_ms self >? 0) && (time_since_last_nak <? NAK_BURST_WINDOW_MS) then
      if nak_burst_count self =? 0 then
        self <| nak_burst_count := 2 |> <| nak_burst_start_time_ms := last_nak_time_ms self |>
      else self <| nak_burst_count ::= fun n => sat_i32 (n + 1) |>
    else self <| nak_burst_count := 0 |> <| nak_burst_start_time_ms := 0 |> in
  let self := self <| last_nak_time_ms := current_time |>
                   <| consecutive_acks_without_nak := 0 |> in
  let window := Z.max (i32_wrap (window - WINDOW_DECR)) (WINDOW_MIN * WINDOW_MULT) in
  let self :=
    if (window <=? 2000) && negb (fast_recovery_mode self) then
      self <| fast_recovery_mode := true |> <| fast_recovery_start_ms := current_time |>
    else self in
  (self, window).

(** ** congestion/classic.rs *)
Definition classic_handle_srtla_ack_specific (window in_flight_packets : Z) : Z :=
  if sat_i32 (in_flight_packets * WINDOW_MULT) >? window
  then Z.min (i32_wrap (window + WINDOW_INCR - 1)) (WINDOW_MAX * WINDOW_MULT)
  else window.

Definition handle_srtla_ack_specific_classic (self : CongestionControl)
    (window in_flight_packets : Z) : CongestionControl * Z :=
  (self, classic_handle_srtla_ack_specific window in_flight_packets).

(** ** congestion/enhanced.rs *)
Definition NORMAL_MIN_WAIT_MS : Z := 2000.
Definition FAST_MIN_WAIT_MS : Z := 500.
Definition NORMAL_INCREMENT_WAIT_MS : Z := 1000.
Definition FAST_INCREMENT_WAIT_MS : Z := 300.
Definition FAST_RECOVERY_DISABLE_WINDOW : Z := 12000.
Definition RTT_VELOCITY_GATE_THRESHOLD : f64 := flit 2 1.

Definition handle_srtla_ack_enhanced (self : CongestionControl)
    (window in_flight_packets now_ms : Z) : CongestionControl * Z :=
  let window :=
    if sat_i32 (in_flight_packets * WINDOW_MULT) >? window
    then Z.min (i32_wrap (window + WINDOW_INCR - 1)) (WINDOW_MAX * WINDOW_MULT)
    else window in
  let self :=
    if fast_recovery_mode self && (window >=? FAST_RECOVERY_DISABLE_WINDOW)
    then self <| fast_recovery_mode := false |> else self in
  (self, window).

(** The increment of one recovery step. *)
Definition recovery_increment (fast : bool) (time_since_last_nak : Z) (rtt_velocity : f64) : Z :=
  let fast_mode_bonus := if fast then 2 else 1 in
  let velocity_scale :=
    if fgt rtt_velocity RTT_VELOCITY_GATE_THRESHOLD then flit 1 2 else f1 in
  let base_incr :=
    if time_since_last_nak >? 10000 then WINDOW_INCR * 2 * fast_mode_bonus
    else if time_since_last_nak >? 7000 then WINDOW_INCR * fast_mode_bonus
    else if time_since_last_nak >? 5000 then WINDOW_INCR * fast_mode_bonus / 2
    else WINDOW_INCR * fast_mode_bonus / 4 in
  f_as_i32 (fmul (f_of_Z base_incr) velocity_scale).

Definition perform_window_recovery (self : CongestionControl) (window : Z) (connected : bool)
    (rtt_velocity : f64) (now_ms : Z) : CongestionControl * Z :=
  if negb connected || (window >=? WINDOW_MAX * WINDOW_MULT) then (self, window)
  else
  let now := now_ms in
  let time_since_last_nak :=
    if last_nak_time_ms self >? 0 then sat_sub now (last_nak_time_ms self) else u64_max in
  let self :=
    if (time_since_last_nak >=? NAK_BURST_WINDOW_MS) && (nak_burst_count self >? 0)
    then self <| nak_burst_count := 0 |> <| nak_burst_start_time_ms := 0 |> else self in
  let min_wait_time := if fast_recovery_mode self then FAST_MIN_WAIT_MS else NORMAL_MIN_WAIT_MS in
  let increment_wait :=
    if fast_recovery_mode self then FAST_INCREMENT_WAIT_MS else NORMAL_INCREMENT_WAIT_MS in
  if (time_since_last_nak >? min_wait_time)
     && (sat_sub now (last_window_increase_ms self) >? increment_wait) then
    let window := i32_wrap (window +
      recovery_increment (fast_recovery_mode self) time_since_last_nak rtt_velocity) in
    let window := Z.min window (WINDOW_MAX * WINDOW_MULT) in
    let self := self <| last_window_increase_ms := now |> in
    let self :=
      if fast_recovery_mode self && (window >=? FAST_RECOVERY_DISABLE_WINDOW)
      then self <| fast_recovery_mode := false |> else self in
    (self, window)
  else (self, window).

Definition time_since_last_nak_ms (self : CongestionControl) (now_ms : Z) : option Z :=
  if last_nak_time_ms self =? 0 then None else Some (sat_sub now_ms (last_nak_time_ms self)).

(** ** Bounds *)
Definition window_ok (w : Z) : Prop :=
  WINDOW_MIN * WINDOW_MULT <= w <= WINDOW_MAX * WINDOW_MULT.

Lemma window_ok_iff w : window_ok w <-> 1000 <= w <= 60000.
Proof. done. Qed.

Ltac unfold_window :=
  repeat match goal with H : window_ok _ |- _ => rewrite window_ok_iff in H end;
  rewrite ?window_ok_iff; unfold WINDOW_DECR, WINDOW_INCR in *; change (WINDOW_MAX * WINDOW_MULT) with 60000 in *;
  change (WINDOW_MIN * WINDOW_MULT) with 1000 in *.

Lemma cc_handle_nak_window c w now :
  window_ok w -> (cc_handle_nak c w now).2 = Z.max (w - 100) 1000.
Proof.
  intros Hw. unfold cc_handle_nak. cbn -[Z.mul]. unfold_window.
  rewrite i32_wrap_id by (unfold_ints; lia). done.
Qed.

Lemma classic_ack_window w n :
  window_ok w ->
  classic_handle_srtla_ack_specific w n =
    if sat_i32 (n * 1000) >? w then Z.min (w + 29) 60000 else w.
Proof.
  intros Hw. unfold classic_handle_srtla_ack_specific. unfold_window.
  change WINDOW_MULT with 1000. rewrite i32_wrap_id by (unfold_ints; lia).
  by replace (w + 30 - 1) with (w + 29) by lia.
Qed.

(** The eight increments of the recovery table. *)
Lemma recovery_increment_range fast t vel : 3 <= recovery_increment fast t vel <= 120.
Proof.
  unfold recovery_increment.
  destruct (fgt _ _), (t >? 10000), (t >? 7000), (t >? 5000), fast; vm_compute; split; congruence.
Qed.

Lemma recovery_window c w conn vel now :
  window_ok w ->
  w <= (perform_window_recovery c w conn vel now).2 <= Z.min 60000 (w + 120).
Proof.
  intros Hw. unfold perform_window_recovery. destruct (_ || _) eqn:E; cbn [snd]; [unfold_window; lia|].
  set (t := if last_nak_time_ms c >? 0 then _ else _). set (c' := if (t >=? _) && _ then _ else c).
  pose proof (recovery_increment_range (fast_recovery_mode c') t vel). clearbody c'.
  destruct (_ && _); cbn [snd]; unfold_window; [|lia].
  rewrite i32_wrap_id by (unfold_ints; lia). lia.
Qed.

(** One event of the congestion window's life. *)
Inductive cc_event :=
  | EvNak (now : Z)
  | EvClassicAck (in_flight : Z)
  | EvEnhancedAck (in_flight now : Z)
  | EvRecovery (connected : bool) (velocity : f64) (now : Z).

Definition cc_step (st : CongestionControl * Z) (ev : cc_event) : CongestionControl * Z :=
  let '(c, w) := st in
  match ev with
  | EvNak now => cc_handle_nak c w now
  | EvClassicAck n => handle_srtla_ack_specific_classic c w n
  | EvEnhancedAck n now => handle_srtla_ack_enhanced c w n now
  | EvRecovery conn vel now => perform_window_recovery c w conn vel now
  end.

Lemma enhanced_is_classic c w n now :
  (handle_srtla_ack_enhanced c w n now).2 = classic_handle_srtla_ack_specific w n.
Proof. done. Qed.

Lemma cc_step_window c w ev :
  window_ok w -> window_ok (cc_step (c, w) ev).2 /\
  ((forall now, ev <> EvNak now) -> w <= (cc_step (c, w) ev).2).
Proof.
  intros Hw. destruct ev as [now|n|n now|conn vel now]; cbn [cc_step].
  - rewrite cc_handle_nak_window by done. split; [unfold_window; lia|]. intros H. by destruct (H now).
  - cbn [snd handle_srtla_ack_specific_classic]. rewrite classic_ack_window by done.
    unfold_window. destruct (_ >? _); lia.
  - rewrite enhanced_is_classic, classic_ack_window by done.
    unfold_window. destruct (_ >? _); lia.
  - pose proof (recovery_window c w conn vel now Hw). unfold_window. lia.
Qed.

(** ** Theorems *)

(** C21: whatever NAKs, ACKs and recovery passes a link goes through, its window
    stays between 1 and 60 packets (1000 and 60000 units); a machine overflow
    never occurs. *)
Theorem window_always_bounded (c : CongestionControl) (w : Z) (evs : list cc_event) :
  window_ok w -> window_ok (fold_left cc_step evs (c, w)).2.
Proof.
  revert c w. induction evs as [|ev evs IH]; intros c w Hw; [done|].
  cbn [fold_left]. destruct (cc_step_window c w ev Hw) as [Hok _].
  destruct (cc_step (c, w) ev). by apply IH.
Qed.

Lemma window_always_bounded_witness :
  window_ok (fold_left cc_step [EvNak 5; EvClassicAck 40; EvNak 6] (congestion_default, 1050)).2.
Proof. apply (window_always_bounded congestion_default 1050). cbv; split; congruence. Defined.

(** Only a NAK lowers the window, by 100 units down to the floor of 1000;
    every other event leaves it or raises it, an ACK by at most 29 and a
    recovery pass by at most 120 units. *)
Theorem window_monotone_without_nak (c : CongestionControl) (w : Z) (ev : cc_event) :
  window_ok w ->
  (cc_step (c, w) ev).2 - w <=
    match ev with EvNak _ => 0 | EvRecovery _ _ _ => 120 | _ => 29 end /\
  match ev with EvNak _ => Z.max (w - 100) 1000 | _ => w end <= (cc_step (c, w) ev).2.
Proof.
  intros Hw. pose proof Hw as Hb. rewrite window_ok_iff in Hb.
  destruct ev as [now|n|n now|conn vel now]; cbn [cc_step].
  - rewrite cc_handle_nak_window by done. lia.
  - cbn [snd handle_srtla_ack_specific_classic]. rewrite classic_ack_window by done.
    destruct (_ >? _); lia.
  - rewrite enhanced_is_classic, classic_ack_window by done. destruct (_ >? _); lia.
  - pose proof (recovery_window c w conn vel now Hw). lia.
Qed.

Lemma window_monotone_without_nak_witness :
  (cc_step (congestion_default, 20000) (EvEnhancedAck 30 5)).2 - 20000 <= 29.
Proof.
  apply (window_monotone_without_nak congestion_default 20000 (EvEnhancedAck 30 5)).
  cbv; split; congruence.
Defined.

(** A recovery pass moves the window only for a connected link, only after
    the quiet time since the last NAK (500 ms in fast recovery, 2 s otherwise)
    and not within the increment wait of the previous step (300 ms or 1 s). *)
Theorem recovery_waits (c : CongestionControl) (w : Z) (conn : bool) (vel : f64) (now : Z) :
  (perform_window_recovery c w conn vel now).2 <> w ->
  conn = true /\
  (0 < last_nak_time_ms c ->
     (if fast_recovery_mode c then 500 else 2000) < now - last_nak_time_ms c) /\
  (if fast_recovery_mode c then 300 else 1000) < now - last_window_increase_ms c /\
  last_window_increase_ms (perform_window_recovery c w conn vel now).1 = now.
Proof.
  unfold perform_window_recovery. destruct conn; cbn [negb orb]; [|done].
  destruct (w >=? _); [done|].
  set (t := if last_nak_time_ms c >? 0 then _ else _).
  set (c' := if (t >=? _) && _ then _ else c).
  assert (fast_recovery_mode c' = fast_recovery_mode c /\
    last_window_increase_ms c' = last_window_increase_ms c) as [Hf Hi]
    by (unfold c'; by destruct (_ && _)).
  clearbody c'. rewrite Hf, Hi. destruct (_ && _) eqn:E; [|done]. intros _. bool_to_prop.
  unfold FAST_MIN_WAIT_MS, NORMAL_MIN_WAIT_MS, FAST_INCREMENT_WAIT_MS, NORMAL_INCREMENT_WAIT_MS in *.
  split; [done|]. split.
  { intros Hn. unfold t in *. rewrite (proj2 (Z.gtb_lt _ _) Hn) in *. unfold sat_sub in *.
    destruct (fast_recovery_mode c); lia. }
  split; [unfold sat_sub in *; destruct (fast_recovery_mode c); lia|].
  cbn [fst]. by destruct (_ && _).
Qed.

Lemma recovery_waits_witness :
  (perform_window_recovery congestion_default 5000 true f0 20000).2 = 5060 /\
  1000 < 20000 - last_window_increase_ms congestion_default.
Proof.
  split; [vm_compute; reflexivity|].
  apply (recovery_waits congestion_default 5000 true f0 20000). vm_compute. discriminate.
Defined.
