(* ===== verification/Config.v ===== *)
(** * Configuration (srtla-core/src/mode.rs, srtla-core/src/config_snapshot.rs, src/config.rs)

    The scheduling mode, the constants of the stall guard, the snapshot the
    hot path reads and the shared atomic cells behind it.  A [DynamicConfig]
    is the contents of the cells: every clone shares them, each setter is one
    store and each getter one load. *)
From stdpp Require Import strings.
From S2P Require Import Prelude F64 Wire.
Open Scope Z_scope.

(** ** mode.rs *)
Inductive SchedulingMode := Classic | Enhanced.
Global Instance SchedulingMode_eq_dec : EqDecision SchedulingMode.
Proof. solve_decision. Defined.

Definition mode_as_u8 (m : SchedulingMode) : Z := match m with Classic => 0 | Enhanced => 1 end.
Definition mode_from_u8 (value : Z) : SchedulingMode := if value =? 0 then Classic else Enhanced.
Definition is_classic (m : SchedulingMode) : bool := match m with Classic => true | _ => false end.
Definition mode_display (m : SchedulingMode) : string :=
  match m with Classic => "classic" | Enhanced => "enhanced" end.
Definition mode_from_str (s : string) : option SchedulingMode :=
  if bool_decide (s = "classic"%string) then Some Classic
  else if bool_decide (s = "enhanced"%string) then Some Enhanced else None.

(** ** config_snapshot.rs *)
Definition STALL_MIN_IN_FLIGHT_PACKETS : Z := 32.
Definition STALL_ACK_STALE_MS : Z := 3000.
Definition STALL_STALE_RTT_MULT : Z := 4.
Definition STALL_STALE_FLOOR_MS : Z := 1000.
Definition STALL_REJOIN_PROOF_FLOOR_MS : Z := IDLE_TIME * 1000 + 500.
Definition STALL_REJOIN_DWELL_MULT : Z := 2.
Definition STALL_REJOIN_BACKOFF_MAX : Z := 16.
Definition STALL_REJOIN_PROBATION_MULT : Z := STALL_REJOIN_DWELL_MULT + 1.
Definition PROBE_LOG_SOFT_CAP : Z := 128.
Definition PROBE_LOG_MAX_AGE_MS : Z := 10000.
Definition STALL_REJOIN_RAMP_FLOOR : f64 := flit 5 100.
Definition STALL_PROBE_ONE_IN_N : Z := 100.
Definition SILENCE_PULL_FLOOR_MS : Z := 250.
Definition SILENCE_PULL_RTT_MULT : Z := 2.
Definition CONN_TIMEOUT_MS : Z := CONN_TIMEOUT * 1000.
Definition CONN_TIMEOUT_MS_MIN : Z := 1000.
Definition CONN_TIMEOUT_MS_MAX : Z := 60000.

Record ConfigSnapshot := mkSnapshot {
  cfg_mode : SchedulingMode;
  cfg_quality_enabled : bool;
  cfg_stall_deselect : bool;
  cfg_stall_min_in_flight : Z;
  cfg_stall_ack_stale_ms : Z;
  cfg_conn_timeout_ms : Z;
  cfg_negotiated_latency_ms : Z }.

Definition snapshot_default : ConfigSnapshot :=
  mkSnapshot Enhanced true true STALL_MIN_IN_FLIGHT_PACKETS STALL_ACK_STALE_MS CONN_TIMEOUT_MS 0.

Definition effective_quality_enabled (self : ConfigSnapshot) : bool :=
  cfg_quality_enabled self && negb (is_classic (cfg_mode self)).

(** ** config.rs *)
Record DynamicConfig := mkDynamic {
  dyn_mode : Z;
  dyn_quality_enabled : bool;
  dyn_stall_deselect : bool;
  dyn_stall_min_in_flight : Z;
  dyn_stall_ack_stale_ms : Z;
  dyn_conn_timeout_ms : Z;
  dyn_rehome_on_failure : bool;
  dyn_negotiated_latency_ms : Z }.

Global Instance eta_dynamic : Eta DynamicConfig := fun d =>
  mkDynamic (dyn_mode d) (dyn_quality_enabled d) (dyn_stall_deselect d)
    (dyn_stall_min_in_flight d) (dyn_stall_ack_stale_ms d) (dyn_conn_timeout_ms d)
    (dyn_rehome_on_failure d) (dyn_negotiated_latency_ms d).

Definition dynamic_new : DynamicConfig :=
  mkDynamic (mode_as_u8 Enhanced) true true STALL_MIN_IN_FLIGHT_PACKETS STALL_ACK_STALE_MS
    CONN_TIMEOUT_MS true 0.

Definition clamp_Z (x lo hi : Z) : Z := Z.max lo (Z.min x hi).

Definition from_cli (mode : SchedulingMode) (no_quality no_stall_deselect : bool)
    (stall_min_in_flight stall_ack_stale_ms conn_timeout_ms : Z) (no_rehome : bool) : DynamicConfig :=
  mkDynamic (mode_as_u8 mode) (negb no_quality) (negb no_stall_deselect) stall_min_in_flight
    stall_ack_stale_ms (clamp_Z conn_timeout_ms CONN_TIMEOUT_MS_MIN CONN_TIMEOUT_MS_MAX)
    (negb no_rehome) 0.

Definition rehome_on_failure (self : DynamicConfig) : bool := dyn_rehome_on_failure self.

Definition snapshot (self : DynamicConfig) : ConfigSnapshot := {|
  cfg_mode := mode_from_u8 (dyn_mode self);
  cfg_quality_enabled := dyn_quality_enabled self;
  cfg_stall_deselect := dyn_stall_deselect self;
  cfg_stall_min_in_flight := dyn_stall_min_in_flight self;
  cfg_stall_ack_stale_ms := dyn_stall_ack_stale_ms self;
  cfg_conn_timeout_ms := dyn_conn_timeout_ms self;
  cfg_negotiated_latency_ms := dyn_negotiated_latency_ms self |}.

Definition set_negotiated_latency_ms (self : DynamicConfig) (latency_ms : Z) : DynamicConfig * bool :=
  (self <| dyn_negotiated_latency_ms := latency_ms |>,
   negb (dyn_negotiated_latency_ms self =? latency_ms)).

Definition config_mode (self : DynamicConfig) : SchedulingMode := mode_from_u8 (dyn_mode self).

Definition set_mode (self : DynamicConfig) (mode : SchedulingMode) : DynamicConfig :=
  self <| dyn_mode := mode_as_u8 mode |>.

Definition set_quality_enabled (self : DynamicConfig) (enabled : bool) : DynamicConfig :=
  self <| dyn_quality_enabled := enabled |>.

Definition set_stall_deselect (self : DynamicConfig) (enabled : bool) : DynamicConfig :=
  self <| dyn_stall_deselect := enabled |>.

Definition set_conn_timeout_ms (self : DynamicConfig) (ms : Z) : DynamicConfig * Z :=
  let applied := clamp_Z ms CONN_TIMEOUT_MS_MIN CONN_TIMEOUT_MS_MAX in
  (self <| dyn_conn_timeout_ms := applied |>, applied).

(** ** Runtime commands *)
Inductive config_op :=
  | SetMode (m : SchedulingMode)
  | SetQuality (b : bool)
  | SetStallDeselect (b : bool)
  | SetConnTimeout (ms : Z)
  | SetLatency (ms : Z).

Definition config_step (d : DynamicConfig) (op : config_op) : DynamicConfig :=
  match op with
  | SetMode m => set_mode d m
  | SetQuality b => set_quality_enabled d b
  | SetStallDeselect b => set_stall_deselect d b
  | SetConnTimeout ms => (set_conn_timeout_ms d ms).1
  | SetLatency ms => (set_negotiated_latency_ms d ms).1
  end.

Lemma mode_u8_roundtrip m : mode_from_u8 (mode_as_u8 m) = m.
Proof. by destruct m. Qed.

Lemma mode_str_roundtrip m : mode_from_str (mode_display m) = Some m.
Proof. by destruct m. Qed.

(** However the process was started and whatever runtime commands follow,
    the liveness timeout a snapshot carries stays within 1 s and 60 s, and a
    mode change is what the next snapshot reads back. *)
Theorem snapshot_after_commands (mode : SchedulingMode) (nq ns nr : bool) (mif stale timeout : Z)
    (ops : list config_op) (m : SchedulingMode) :
  let d := fold_left config_step ops (from_cli mode nq ns mif stale timeout nr) in
  CONN_TIMEOUT_MS_MIN <= cfg_conn_timeout_ms (snapshot d) <= CONN_TIMEOUT_MS_MAX /\
  cfg_mode (snapshot (set_mode d m)) = m.
Proof.
  cbn [snapshot cfg_conn_timeout_ms cfg_mode]. split; [|by destruct m].
  assert (forall d, CONN_TIMEOUT_MS_MIN <= dyn_conn_timeout_ms d <= CONN_TIMEOUT_MS_MAX ->
    CONN_TIMEOUT_MS_MIN <= dyn_conn_timeout_ms (fold_left config_step ops d) <= CONN_TIMEOUT_MS_MAX)
    as Hinv.
  { induction ops as [|op ops IH]; intros d Hd; [done|]. cbn [fold_left]. apply IH.
    destruct op; cbn; try done. unfold clamp_Z, CONN_TIMEOUT_MS_MIN, CONN_TIMEOUT_MS_MAX. lia. }
  apply Hinv. cbn. unfold clamp_Z, CONN_TIMEOUT_MS_MIN, CONN_TIMEOUT_MS_MAX. lia.
Qed.
