(* ===== verification/Connection.v ===== *)
(** * One uplink (srtla-core/src/connection/mod.rs and ack_nak.rs)

    The state of a bonded link and every operation on it: packet and probe
    logs, acknowledgements, the congestion window, the phase machine, the
    stall latch, the silence pull, the rejoin ramp and the resets.  The
    invariant [conn_ok] ties the in-flight count to the packet log and bounds
    the window and the backoff; every operation preserves it.  Log messages
    and the label they print are left out. *)
From S2P Require Import Prelude F64 Wire Seq Filters Rtt Batch Pacing Congestion Config.

(** ** Link phase *)
Definition WARMING_RTT_PROBES : Z := 2.
Definition WARMING_TIMEOUT_MS : Z := 5000.

Inductive LinkPhase :=
  | Registering
  | Warming (rtt_probes entered_ms : Z)
  | Live
  | Degraded.

Definition phase_is_schedulable (p : LinkPhase) : bool :=
  match p with Registering => false | _ => true end.

Definition phase_weight_of (p : LinkPhase) : f64 :=
  match p with
  | Registering => f0
  | Warming _ _ => flit 8 10
  | Live | Degraded => f1
  end.

(** The classifier's verdict (selection/classifier.rs). *)
Inductive WeakReason := Healthy | HighRtt | QueueBuilding | NoTraffic | LowShare | Bypassed.
Global Instance WeakReason_eq_dec : EqDecision WeakReason.
Proof. solve_decision. Defined.

Definition is_delay (r : WeakReason) : bool :=
  match r with HighRtt | QueueBuilding => true | _ => false end.

Definition QUALITY_CACHE_INTERVAL_MS : Z := 50.

Record CachedQuality := mkCachedQuality { multiplier : f64; last_calculated_ms : Z }.
Definition cached_quality_default : CachedQuality := mkCachedQuality f1 0.

(** ** Operator link weights *)
Definition LINK_WEIGHT_MIN : Z := 1.
Definition LINK_WEIGHT_MAX : Z := 10.
Definition LINK_WEIGHT_FULL_ABOVE_WINDOW : Z := 20 * WINDOW_MULT.
Definition LINK_WEIGHT_NONE_AT_OR_BELOW_WINDOW : Z := 10 * WINDOW_MULT.

Definition link_weight_multiplier (window weight : Z) : f32 :=
  let weight := f32_of_Z (clamp_Z weight LINK_WEIGHT_MIN LINK_WEIGHT_MAX) in
  if window >? LINK_WEIGHT_FULL_ABOVE_WINDOW then weight
  else if window >? LINK_WEIGHT_NONE_AT_OR_BELOW_WINDOW then
    let factor :=
      f32_div (f32_of_Z (window - LINK_WEIGHT_NONE_AT_OR_BELOW_WINDOW))
        (f32_of_Z (LINK_WEIGHT_FULL_ABOVE_WINDOW - LINK_WEIGHT_NONE_AT_OR_BELOW_WINDOW)) in
    f32_add (f32_of_Z 1) (f32_mul (f32_sub weight (f32_of_Z 1)) factor)
  else f32_of_Z 1.

(** [weights.iter().copied().min()]. *)
Definition list_min (l : list Z) : option Z :=
  match l with [] => None | x :: l => Some (fold_left Z.min l x) end.

Definition normalise_link_weights (weights : list Z) : list Z :=
  let weights := map (fun w => clamp_Z w LINK_WEIGHT_MIN LINK_WEIGHT_MAX) weights in
  match list_min weights with
  | None => weights
  | Some lowest => map (fun w => u8_wrap (u8_wrap (w - lowest) + 1)) weights
  end.

(** ** Rejoin ramp, backoff and timeliness *)
Definition rejoin_ramp_multiplier_of (ramp_start_ms ramp_ms now_ms : Z) : f64 :=
  if (ramp_start_ms =? 0) || (ramp_ms =? 0) then f1
  else
    let elapsed := sat_sub now_ms ramp_start_ms in
    if elapsed >=? ramp_ms then f1
    else
      let progress := fdiv (f_of_Z elapsed) (f_of_Z ramp_ms) in
      fclamp (fadd STALL_REJOIN_RAMP_FLOOR (fmul (fsub f1 STALL_REJOIN_RAMP_FLOOR) progress))
             STALL_REJOIN_RAMP_FLOOR f1.

Definition stall_rejoin_backoff_next (backoff released_at_ms held_for_ms probation_ms : Z) : Z :=
  if (released_at_ms =? 0) || (held_for_ms >=? probation_ms) then 1
  else
    let doubled := if backoff <=? 1 then 2 else Z.min u32_max (backoff * 2) in
    Z.min doubled STALL_REJOIN_BACKOFF_MAX.

Definition delivery_proof_is_timely (smooth_rtt_ms : f64) (budget_ms : Z) : bool :=
  if (budget_ms =? 0) || fle smooth_rtt_ms f0 then true
  else fle (fdiv smooth_rtt_ms (f_of_Z 2)) (f_of_Z budget_ms).

(** ** The connection *)
Record SrtlaConnection := mkConn {
  conn_id : Z;
  local_ip : Z;
  connected : bool;
  window : Z;
  in_flight_packets : Z;
  packet_log : gmap Z Z;
  probe_log : gmap Z Z;
  highest_acked_seq : Z;
  last_received : option Z;
  last_sent : option Z;
  last_keepalive_sent : option Z;
  last_ack_or_rtt_sample_ms : Z;
  stall_gated : bool;
  stall_latched_since_ms : Z;
  stall_recovery_since_ms : Z;
  stall_gate_events : Z;
  stall_probe_counter : Z;
  stall_released_at_ms : Z;
  stall_rejoin_backoff : Z;
  stall_rejoin_ramp_start_ms : Z;
  stall_rejoin_ramp_ms : Z;
  stall_rejoin_ramp_from_stall_gate : bool;
  sole_carrier : bool;
  sole_carrier_since_ms : Z;
  sole_carrier_excluded : bool;
  sole_carrier_elections : Z;
  silence_pulled : bool;
  silence_pulls : Z;
  conn_timeout_ms : Z;
  delay_budget_ms : Z;
  rtt : RttTracker;
  congestion : CongestionControl;
  bitrate : BitrateTracker;
  reconnection : ReconnectionState;
  quality_cache : CachedQuality;
  batch_sender : BatchSender;
  phase : LinkPhase;
  weak : bool;
  weak_reason : WeakReason;
  quality_excluded : bool;
  cc_backing_off : bool;
  cc_target_bps : Z;
  loss_degraded : bool;
  link_weight : Z }.

Global Instance eta_conn : Eta SrtlaConnection := fun c =>
  mkConn (conn_id c) (local_ip c) (connected c) (window c) (in_flight_packets c) (packet_log c)
    (probe_log c) (highest_acked_seq c) (last_received c) (last_sent c) (last_keepalive_sent c)
    (last_ack_or_rtt_sample_ms c) (stall_gated c) (stall_latched_since_ms c)
    (stall_recovery_since_ms c) (stall_gate_events c) (stall_probe_counter c)
    (stall_released_at_ms c) (stall_rejoin_backoff c) (stall_rejoin_ramp_start_ms c)
    (stall_rejoin_ramp_ms c) (stall_rejoin_ramp_from_stall_gate c) (sole_carrier c)
    (sole_carrier_since_ms c) (sole_carrier_excluded c) (sole_carrier_elections c)
    (silence_pulled c) (silence_pulls c) (conn_timeout_ms c) (delay_budget_ms c) (rtt c)
    (congestion c) (bitrate c) (reconnection c) (quality_cache c) (batch_sender c) (phase c)
    (weak c) (weak_reason c) (quality_excluded c) (cc_backing_off c) (cc_target_bps c)
    (loss_degraded c) (link_weight c).

Definition new_registering (conn_id local_ip now : Z) : SrtlaConnection := {|
  conn_id := conn_id;
  local_ip := local_ip;
  connected := false;
  window := WINDOW_DEF * WINDOW_MULT;
  in_flight_packets := 0;
  packet_log := ∅;
  probe_log := ∅;
  highest_acked_seq := NO_ACK_YET;
  last_received := None;
  last_sent := None;
  last_keepalive_sent := None;
  last_ack_or_rtt_sample_ms := 0;
  stall_gated := false;
  stall_latched_since_ms := 0;
  stall_recovery_since_ms := 0;
  stall_gate_events := 0;
  stall_probe_counter := 0;
  stall_released_at_ms := 0;
  stall_rejoin_backoff := 0;
  stall_rejoin_ramp_start_ms := 0;
  stall_rejoin_ramp_ms := 0;
  stall_rejoin_ramp_from_stall_gate := false;
  sole_carrier := false;
  sole_carrier_since_ms := 0;
  sole_carrier_excluded := false;
  sole_carrier_elections := 0;
  silence_pulled := false;
  silence_pulls := 0;
  conn_timeout_ms := CONN_TIMEOUT_MS;
  delay_budget_ms := 0;
  rtt := rtt_default;
  congestion := congestion_default;
  bitrate := bitrate_new now;
  reconnection := reconnection_default <| startup_grace_deadline_ms := u64_wrap (now + STARTUP_GRACE_MS) |>;
  quality_cache := cached_quality_default;
  batch_sender := batch_new;
  phase := Registering;
  weak := false;
  weak_reason := Healthy;
  quality_excluded := false;
  cc_backing_off := false;
  cc_target_bps := 0;
  loss_degraded := false;
  link_weight := LINK_WEIGHT_MIN |}.

Definition log_len (m : gmap Z Z) : Z := i32_wrap (Z.of_nat (size m)).

Definition weight_multiplier (self : SrtlaConnection) : f32 :=
  link_weight_multiplier (window self) (link_weight self).

Definition get_score (self : SrtlaConnection) : Z :=
  if negb (connected self) then -1
  else
    let total_in_flight := sat_i32 (in_flight_packets self + queued_count (batch_sender self)) in
    let denom := Z.max (sat_i32 (total_in_flight + 1)) 1 in
    Z.quot (window self) denom.

Definition queue_data_packet (self : SrtlaConnection) (data : bytes) (seq : option Z)
    (send_time_ms : Z) : SrtlaConnection * bool :=
  let self := self <| bitrate ::= fun b => update_on_send b (Z.of_nat (length data)) |> in
  let '(b, full) := queue_packet (batch_sender self) data seq send_time_ms in
  (self <| batch_sender := b |>, full).

Definition record_probe (self : SrtlaConnection) (seq send_time_ms : Z) : SrtlaConnection :=
  let self :=
    if Z.of_nat (size (probe_log self)) >=? PROBE_LOG_SOFT_CAP then
      let cutoff := sat_sub send_time_ms PROBE_LOG_MAX_AGE_MS in
      let log := filter (fun kv : Z * Z => cutoff <= kv.2) (probe_log self) in
      self <| probe_log := if Z.of_nat (size log) >=? PROBE_LOG_SOFT_CAP then ∅ else log |>
    else self in
  self <| probe_log ::= <[seq := send_time_ms]> |>.

Definition queue_probe_packet (self : SrtlaConnection) (data : bytes) (seq send_time_ms : Z)
  : SrtlaConnection * bool :=
  let self := self <| bitrate ::= fun b => update_on_send b (Z.of_nat (length data)) |> in
  let self := record_probe self (i32_wrap seq) send_time_ms in
  let '(b, full) := queue_packet (batch_sender self) data None send_time_ms in
  (self <| batch_sender := b |>, full).

Definition needs_batch_flush (self : SrtlaConnection) (now_ms : Z) : bool :=
  needs_time_flush (batch_sender self) now_ms.

Definition conn_has_queued_packets (self : SrtlaConnection) : bool :=
  has_queued_packets (batch_sender self).

(** *** ack_nak.rs *)
Definition TARGETED_REMOVAL_LIMIT : Z := 64.

Definition register_packet (self : SrtlaConnection) (seq send_time_ms : Z) : SrtlaConnection :=
  let self := self <| packet_log ::= <[seq := send_time_ms]> |> in
  self <| in_flight_packets := log_len (packet_log self) |>.

(** [for _ in 0..n { seq = seq_next(seq); log.remove(&seq) }] *)
Fixpoint remove_walk (n : nat) (seq : Z) (log : gmap Z Z) : gmap Z Z :=
  match n with
  | O => log
  | S n => let seq := seq_next seq in remove_walk n seq (delete seq log)
  end.

Definition handle_srt_ack (self : SrtlaConnection) (ack now_ms : Z) (owns_acked_seq : bool)
  : SrtlaConnection :=
  let ack := seq_normalize ack in
  let old_highest := highest_acked_seq self in
  let first_ack := old_highest =? NO_ACK_YET in
  if negb first_ack && negb (seq_after ack old_highest) then self
  else
    let ack_send_time_ms := packet_log self !! ack in
    let self := self <| highest_acked_seq := ack |> in
    let advance := if first_ack then i32_max else seq_diff ack old_highest in
    let self :=
      if advance <=? TARGETED_REMOVAL_LIMIT
      then self <| packet_log ::= remove_walk (Z.to_nat advance) old_highest |>
      else self <| packet_log ::= filter (fun kv : Z * Z => seq_after kv.1 ack = true) |> in
    let self := self <| in_flight_packets := log_len (packet_log self) |> in
    match owns_acked_seq, ack_send_time_ms with
    | true, Some sent_ms => self <| rtt ::= fun r => (record_round_trip r sent_ms now_ms).1 |>
    | _, _ => self
    end.

Definition handle_nak (self : SrtlaConnection) (seq now_ms : Z) : SrtlaConnection * bool :=
  let found := bool_decide (is_Some (packet_log self !! seq)) in
  let self := self <| packet_log ::= delete seq |> in
  if found then
    let self := self <| in_flight_packets := log_len (packet_log self) |> in
    let '(cc, w) := cc_handle_nak (congestion self) (window self) now_ms in
    (self <| congestion := cc |> <| window := w |>, true)
  else (self, false).

Definition handle_srtla_ack_specific (self : SrtlaConnection) (seq : Z) (classic_mode : bool)
    (now_ms : Z) : SrtlaConnection * bool :=
  match probe_log self !! seq with
  | Some sent_ms =>
    (self <| probe_log ::= delete seq |>
          <| last_ack_or_rtt_sample_ms := now_ms |>
          <| rtt ::= fun r => (record_round_trip r sent_ms now_ms).1 |>, true)
  | None =>
    match packet_log self !! seq with
    | Some sent_ms =>
      let self := self <| packet_log ::= delete seq |> in
      let self := self <| in_flight_packets := log_len (packet_log self) |>
                       <| last_ack_or_rtt_sample_ms := now_ms |>
                       <| rtt ::= fun r => (record_round_trip r sent_ms now_ms).1 |> in
      let '(cc, w) :=
        if classic_mode
        then handle_srtla_ack_specific_classic (congestion self) (window self) (in_flight_packets self)
        else handle_srtla_ack_enhanced (congestion self) (window self) (in_flight_packets self) now_ms in
      (self <| congestion := cc |> <| window := w |>, true)
    | None => (self, false)
    end
  end.

Definition handle_srtla_ack_global (self : SrtlaConnection) : SrtlaConnection :=
  if connected self && bool_decide (is_Some (last_received self))
  then self <| window ::= fun w => Z.min (i32_wrap (w + 1)) (WINDOW_MAX * WINDOW_MULT) |>
  else self.

(** *** Sending *)
Definition register_drained (self : SrtlaConnection) (p : DrainedPacket) : SrtlaConnection :=
  match p with
  | (_, Some s, send_time_ms) => register_packet self (i32_wrap s) send_time_ms
  | _ => self
  end.

Definition take_batch (self : SrtlaConnection) (now : Z) : SrtlaConnection * list DrainedPacket :=
  let '(b, batch) := drain (batch_sender self) now in
  let self := self <| batch_sender := b |> in
  if bool_decide (batch = []) then (self, batch)
  else (fold_left register_drained batch self, batch).

Definition keepalive_packet (self : SrtlaConnection) (now : Z) : SrtlaConnection * bytes :=
  let info := {|
    ci_conn_id := u32_wrap (conn_id self);
    ci_window := window self;
    ci_in_flight := in_flight_packets self;
    ci_rtt_ms := f_as_u32 (Kalman.value (kalman_rtt (rtt self)));
    ci_nak_count := u32_wrap (nak_count (congestion self));
    ci_bitrate_bytes_per_sec :=
      f_as_u32 (fdiv (current_bitrate_bps (bitrate self)) (f_of_Z 8)) |} in
  let pkt := create_keepalive_packet_ext info now in
  let self := self <| last_sent := Some now |> <| last_keepalive_sent := Some now |> in
  let self :=
    if negb (waiting_for_keepalive_response (rtt self)) &&
       ((last_rtt_measurement_ms (rtt self) =? 0)
        || (sat_sub now (last_rtt_measurement_ms (rtt self)) >? 3000))
    then self <| rtt ::= fun r => record_keepalive_sent r now |> else self in
  (self, pkt).

Definition note_sent (self : SrtlaConnection) (now : Z) : SrtlaConnection :=
  self <| last_sent := Some now |>.

Definition probe_reg2_packet (self : SrtlaConnection) (probe_id : bytes) (now : Z)
  : SrtlaConnection * bytes :=
  (self <| reconnection ::= fun r =>
       r <| startup_grace_deadline_ms := u64_wrap (now + STARTUP_GRACE_MS) |> |>,
   create_reg2_packet probe_id).

(** *** Readings *)
Definition is_rtt_stable (self : SrtlaConnection) : bool := is_stable (rtt self).
Definition get_smooth_rtt_ms (self : SrtlaConnection) : f64 :=
  fmax (Kalman.value (kalman_rtt (rtt self))) f0.
Definition get_rtt_velocity (self : SrtlaConnection) : f64 := Kalman.velocity (kalman_rtt (rtt self)).
Definition get_rtt_min_ms (self : SrtlaConnection) : f64 := rtt_min_ms (rtt self).
Definition get_rtt_jitter_ms (self : SrtlaConnection) : f64 := rtt_jitter_ms (rtt self).
Definition conn_queue_building_suspected (self : SrtlaConnection) : bool :=
  queue_building_suspected (rtt self).
Definition needs_rtt_measurement (self : SrtlaConnection) (now_ms : Z) : bool :=
  needs_measurement (rtt self) (connected self)
    (connection_established_ms (reconnection self)) now_ms.

Definition needs_keepalive (self : SrtlaConnection) (now_ms : Z) : bool :=
  if negb (connected self) then false
  else match last_keepalive_sent self with
       | None => true
       | Some last => u64_wrap (sat_sub now_ms last + TICK_SLACK_MS) >=? IDLE_TIME * 1000
       end.

Definition conn_perform_window_recovery (self : SrtlaConnection) (now_ms : Z) : SrtlaConnection :=
  let velocity := Kalman.velocity (kalman_rtt (rtt self)) in
  let '(cc, w) :=
    perform_window_recovery (congestion self) (window self) (connected self) velocity now_ms in
  self <| congestion := cc |> <| window := w |>.

(** *** Phase machine *)
Definition record_rtt_probe (self : SrtlaConnection) : SrtlaConnection :=
  match phase self with
  | Warming rtt_probes entered_ms =>
    let rtt_probes := u32_wrap (rtt_probes + 1) in
    self <| phase := if rtt_probes >=? WARMING_RTT_PROBES then Live
                     else Warming rtt_probes entered_ms |>
  | _ => self
  end.

Definition handle_keepalive_echo (self : SrtlaConnection) (data : bytes) (now_ms : Z)
  : res SrtlaConnection :=
  '(r, sample) ← handle_keepalive_response (rtt self) data now_ms;
  let self := self <| rtt := r |> in
  let self := match sample with Some _ => record_rtt_probe self | None => self end in
  echo ← keepalive_echo_rtt_ms data now_ms;
  Ret (match echo with
       | Some _ => self <| last_ack_or_rtt_sample_ms := now_ms |>
       | None => self
       end).

Definition DEGRADED_QUALITY_THRESHOLD : f64 := flit 1 2.
Definition DEGRADED_NAK_BURST_THRESHOLD : Z := 5.

Definition update_phase (self : SrtlaConnection) (now_ms : Z) : SrtlaConnection :=
  let nak_degraded :=
    flt (multiplier (quality_cache self)) DEGRADED_QUALITY_THRESHOLD &&
    (nak_burst_count (congestion self) >=? DEGRADED_NAK_BURST_THRESHOLD) in
  let nak_recovered :=
    fge (multiplier (quality_cache self)) DEGRADED_QUALITY_THRESHOLD &&
    (nak_burst_count (congestion self) <? DEGRADED_NAK_BURST_THRESHOLD) in
  match phase self with
  | Warming _ entered_ms =>
    if sat_sub now_ms entered_ms >=? WARMING_TIMEOUT_MS then self <| phase := Live |> else self
  | Live => if nak_degraded || loss_degraded self then self <| phase := Degraded |> else self
  | Degraded =>
    if nak_recovered && negb (loss_degraded self) then self <| phase := Live |> else self
  | Registering => self
  end.

Definition is_schedulable (self : SrtlaConnection) : bool := phase_is_schedulable (phase self).
Definition phase_weight (self : SrtlaConnection) : f64 := phase_weight_of (phase self).

(** *** Stall latch *)
Definition effective_stall_stale_ms (self : SrtlaConnection) (ceiling_ms : Z) : Z :=
  let srtt := get_smooth_rtt_ms self in
  if fle srtt f0 then ceiling_ms
  else Z.min (Z.max (sat_mul_u64 (f_as_u64 srtt) STALL_STALE_RTT_MULT) STALL_STALE_FLOOR_MS) ceiling_ms.

Definition is_stalled (self : SrtlaConnection) (now_ms min_in_flight stale_ceiling_ms : Z) : bool :=
  connected self && (in_flight_packets self >=? min_in_flight) &&
  negb (last_ack_or_rtt_sample_ms self =? 0) &&
  (sat_sub now_ms (last_ack_or_rtt_sample_ms self) >=? effective_stall_stale_ms self stale_ceiling_ms).

Definition rejoin_ramp_multiplier (self : SrtlaConnection) (now_ms : Z) : f64 :=
  rejoin_ramp_multiplier_of (stall_rejoin_ramp_start_ms self) (stall_rejoin_ramp_ms self) now_ms.

Definition arm_rejoin_ramp (self : SrtlaConnection) (now_ms ramp_ms : Z) (from_stall_gate : bool)
  : SrtlaConnection :=
  if flt (rejoin_ramp_multiplier self now_ms) f1 then self
  else self <| stall_rejoin_ramp_start_ms := now_ms |>
            <| stall_rejoin_ramp_ms := ramp_ms |>
            <| stall_rejoin_ramp_from_stall_gate := from_stall_gate |>.

(** The three questions [update_stall_latch] asks about delivery proof. *)
Definition proof_fully_stale (self : SrtlaConnection) (now_ms stale_ceiling_ms : Z) : bool :=
  negb (last_ack_or_rtt_sample_ms self =? 0) &&
  (sat_sub now_ms (last_ack_or_rtt_sample_ms self) >=? effective_stall_stale_ms self stale_ceiling_ms).

Definition proof_fresh (self : SrtlaConnection) (now_ms stale_ceiling_ms : Z) : bool :=
  let proof_window_ms :=
    Z.max (effective_stall_stale_ms self stale_ceiling_ms) STALL_REJOIN_PROOF_FLOOR_MS in
  negb (last_ack_or_rtt_sample_ms self =? 0) &&
  (sat_sub now_ms (last_ack_or_rtt_sample_ms self) <? proof_window_ms) &&
  delivery_proof_is_timely (get_smooth_rtt_ms self) (delay_budget_ms self).

Definition latch_trips (self : SrtlaConnection) (now_ms min_in_flight stale_ceiling_ms : Z) : bool :=
  is_stalled self now_ms min_in_flight stale_ceiling_ms ||
  (silence_pulled self && proof_fully_stale self now_ms stale_ceiling_ms).

Definition base_dwell_ms (self : SrtlaConnection) (stale_ceiling_ms : Z) : Z :=
  sat_mul_u64 (effective_stall_stale_ms self stale_ceiling_ms) STALL_REJOIN_DWELL_MULT.

Definition rejoin_dwell_ms (self : SrtlaConnection) (stale_ceiling_ms : Z) : Z :=
  sat_mul_u64 (base_dwell_ms self stale_ceiling_ms) (Z.max (stall_rejoin_backoff self) 1).

Definition update_stall_latch (self : SrtlaConnection) (now_ms min_in_flight stale_ceiling_ms : Z)
  : SrtlaConnection :=
  if latch_trips self now_ms min_in_flight stale_ceiling_ms then
    let self :=
      if stall_latched_since_ms self =? 0 then
        let probation_ms :=
          sat_mul_u64 (effective_stall_stale_ms self stale_ceiling_ms) STALL_REJOIN_PROBATION_MULT in
        self <| stall_rejoin_backoff := stall_rejoin_backoff_next (stall_rejoin_backoff self)
                  (stall_released_at_ms self) (sat_sub now_ms (stall_released_at_ms self))
                  probation_ms |>
             <| stall_latched_since_ms := now_ms |>
             <| stall_gate_events ::= fun n => u64_wrap (n + 1) |>
      else self in
    self <| stall_recovery_since_ms := 0 |>
  else if stall_latched_since_ms self =? 0 then self
  else if negb (proof_fresh self now_ms stale_ceiling_ms) then
    self <| stall_recovery_since_ms := 0 |>
  else
    let self := if stall_recovery_since_ms self =? 0
                then self <| stall_recovery_since_ms := now_ms |> else self in
    if sat_sub now_ms (stall_recovery_since_ms self) >=? rejoin_dwell_ms self stale_ceiling_ms then
      let self := self <| stall_latched_since_ms := 0 |>
                       <| stall_recovery_since_ms := 0 |>
                       <| stall_released_at_ms := now_ms |> in
      arm_rejoin_ramp self now_ms (base_dwell_ms self stale_ceiling_ms) true
    else self.

Definition is_quality_excluded (self : SrtlaConnection) : bool := quality_excluded self.

Definition clear_quality_gate_state (self : SrtlaConnection) : SrtlaConnection :=
  self <| quality_excluded := false |> <| sole_carrier := false |>
       <| sole_carrier_excluded := false |> <| sole_carrier_since_ms := 0 |>.

Definition served_rejoin_backoff (self : SrtlaConnection) : Z := Z.max (stall_rejoin_backoff self) 1.
Definition is_rejoin_ramping (self : SrtlaConnection) (now_ms : Z) : bool :=
  flt (rejoin_ramp_multiplier self now_ms) f1.
Definition stall_latched (self : SrtlaConnection) : bool := negb (stall_latched_since_ms self =? 0).

Definition clear_stall_latch (self : SrtlaConnection) : SrtlaConnection :=
  let self := self <| stall_latched_since_ms := 0 |> <| stall_recovery_since_ms := 0 |>
                   <| stall_released_at_ms := 0 |> <| stall_rejoin_backoff := 0 |> in
  if stall_rejoin_ramp_from_stall_gate self then
    self <| stall_rejoin_ramp_start_ms := 0 |> <| stall_rejoin_ramp_ms := 0 |>
         <| stall_rejoin_ramp_from_stall_gate := false |>
  else self.

Definition stall_probe_due (self : SrtlaConnection) : SrtlaConnection * bool :=
  let self := self <| stall_probe_counter ::= fun n => u32_wrap (n + 1) |> in
  if stall_probe_counter self >=? STALL_PROBE_ONE_IN_N
  then (self <| stall_probe_counter := 0 |>, true) else (self, false).

(** *** Silence pull *)
Definition silence_pull_window_ms (self : SrtlaConnection) (stale_ceiling_ms : Z) : Z :=
  let srtt := get_smooth_rtt_ms self in
  let base :=
    if fle srtt f0 then SILENCE_PULL_FLOOR_MS
    else Z.max (sat_mul_u64 (f_as_u64 srtt) SILENCE_PULL_RTT_MULT) SILENCE_PULL_FLOOR_MS in
  Z.min base (effective_stall_stale_ms self stale_ceiling_ms).

Definition is_briefly_silent (self : SrtlaConnection) (now_ms min_in_flight stale_ceiling_ms : Z)
  : bool :=
  if negb (connected self) || (in_flight_packets self <? min_in_flight) then false
  else match last_received self with
       | None => false
       | Some lr => sat_sub now_ms lr >=? silence_pull_window_ms self stale_ceiling_ms
       end.

Definition update_silence_pull (self : SrtlaConnection) (now_ms min_in_flight stale_ceiling_ms : Z)
  : SrtlaConnection :=
  if is_briefly_silent self now_ms min_in_flight stale_ceiling_ms then
    let self := if negb (silence_pulled self)
                then self <| silence_pulls ::= fun n => u64_wrap (n + 1) |> else self in
    self <| silence_pulled := true |>
  else if negb (silence_pulled self) then self
  else
    let window := silence_pull_window_ms self stale_ceiling_ms in
    let spoke := match last_received self with
                 | Some lr => sat_sub now_ms lr <? window | None => false end in
    if spoke || negb (connected self) then self <| silence_pulled := false |> else self.

(** *** Liveness and resets *)
Definition is_timed_out (self : SrtlaConnection) (now_ms : Z) : bool :=
  let now := now_ms in
  if negb (connected self) then
    if (connection_established_ms (reconnection self) =? 0) &&
       (now <? startup_grace_deadline_ms (reconnection self))
    then false
    else match last_received self with
         | None => true
         | Some lr => sat_sub now lr >=? conn_timeout_ms self
         end
  else match last_received self with
       | Some lr => sat_sub now lr >=? conn_timeout_ms self
       | None => false
       end.

Definition clear_pre_registration_state (self : SrtlaConnection) (now_ms : Z) : SrtlaConnection :=
  self <| packet_log := ∅ |> <| probe_log := ∅ |> <| in_flight_packets := 0 |>
       <| highest_acked_seq := NO_ACK_YET |>
       <| congestion ::= congestion_reset |>
       <| batch_sender ::= batch_reset |>
       <| quality_cache := cached_quality_default |>
       <| phase := Warming 0 now_ms |>.

(** Written as one record: the fields not assigned by the code are copied. *)
Definition reset_core_state (self : SrtlaConnection) : SrtlaConnection := {|
  conn_id := conn_id self;
  local_ip := local_ip self;
  connected := false;
  window := WINDOW_DEF * WINDOW_MULT;
  in_flight_packets := 0;
  packet_log := ∅;
  probe_log := ∅;
  highest_acked_seq := NO_ACK_YET;
  last_received := last_received self;
  last_sent := last_sent self;
  last_keepalive_sent := last_keepalive_sent self;
  last_ack_or_rtt_sample_ms := 0;
  stall_gated := false;
  stall_latched_since_ms := 0;
  stall_recovery_since_ms := 0;
  stall_gate_events := stall_gate_events self;
  stall_probe_counter := 0;
  stall_released_at_ms := 0;
  stall_rejoin_backoff := 0;
  stall_rejoin_ramp_start_ms := 0;
  stall_rejoin_ramp_ms := 0;
  stall_rejoin_ramp_from_stall_gate := false;
  sole_carrier := false;
  sole_carrier_since_ms := 0;
  sole_carrier_excluded := false;
  sole_carrier_elections := sole_carrier_elections self;
  silence_pulled := false;
  silence_pulls := silence_pulls self;
  conn_timeout_ms := conn_timeout_ms self;
  delay_budget_ms := delay_budget_ms self;
  rtt := rtt self;
  congestion := congestion self;
  bitrate := bitrate self;
  reconnection := reconnection self;
  quality_cache := quality_cache self;
  batch_sender := batch_reset (batch_sender self);
  phase := Registering;
  weak := weak self;
  weak_reason := weak_reason self;
  quality_excluded := quality_excluded self;
  cc_backing_off := cc_backing_off self;
  cc_target_bps := cc_target_bps self;
  loss_degraded := loss_degraded self;
  link_weight := link_weight self |}.

Definition mark_for_recovery (self : SrtlaConnection) : SrtlaConnection :=
  let self := self <| last_received := None |> <| last_keepalive_sent := None |>
                   <| rtt ::= fun r => r <| last_keepalive_sent_ms := 0 |>
                                         <| waiting_for_keepalive_response := false |> |> in
  let self := reset_core_state self in
  self <| reconnection ::= fun r => r <| startup_grace_deadline_ms := 0 |> |>.

Definition conn_time_since_last_nak_ms (self : SrtlaConnection) (now_ms : Z) : option Z :=
  time_since_last_nak_ms (congestion self) now_ms.
Definition total_nak_count (self : SrtlaConnection) : Z := nak_count (congestion self).
Definition conn_nak_burst_count (self : SrtlaConnection) : Z := nak_burst_count (congestion self).
Definition conn_established_ms (self : SrtlaConnection) : Z :=
  connection_established_ms (reconnection self).

Definition conn_should_attempt_reconnect (self : SrtlaConnection) (now_ms : Z) : bool :=
  should_attempt_reconnect (reconnection self) now_ms.
Definition record_reconnect_attempt (self : SrtlaConnection) (now_ms : Z) : SrtlaConnection :=
  self <| reconnection ::= fun r => record_attempt r now_ms |>.
Definition mark_reconnect_success (self : SrtlaConnection) : SrtlaConnection :=
  self <| reconnection ::= mark_success |>.
Definition calculate_bitrate (self : SrtlaConnection) (now_ms : Z) : SrtlaConnection :=
  self <| bitrate ::= fun b => calculate b now_ms |>.
Definition current_bitrate_mbps (self : SrtlaConnection) : f64 := mbps (bitrate self).
Definition recompute_batch_regime (self : SrtlaConnection) : SrtlaConnection :=
  let regime := from_bps (current_bitrate_bps (bitrate self)) in
  self <| batch_sender ::= fun b => set_regime b regime |>.

Definition reset_for_reconnect (self : SrtlaConnection) (now : Z) : SrtlaConnection :=
  let self := self <| last_received := None |> in
  let self := reset_core_state self in
  self <| congestion ::= congestion_reset |> <| rtt ::= rtt_reset |>
       <| bitrate ::= fun b => bitrate_reset b now |>
       <| reconnection ::= fun r => r <| last_reconnect_attempt_ms := now |> |>.

(** ** The receive path writes into a link (src/sender/uplink_recv.rs)

    The REG3 arm. *)
Definition registered_now (conn : SrtlaConnection) (now : Z) : SrtlaConnection :=
  let conn := clear_pre_registration_state conn now in
  let conn := conn <| connected := true |> <| last_received := Some now |> in
  let conn :=
    if connection_established_ms (reconnection conn) =? 0
    then conn <| reconnection ::= fun r => r <| connection_established_ms := now |> |>
    else conn in
  mark_reconnect_success conn.

(** The REG_ERR arm. *)
Definition registration_refused (conn : SrtlaConnection) : SrtlaConnection :=
  conn <| connected := false |> <| last_received := None |>.

(** Liveness counts for a link that is registered or has never been. *)
Definition refresh_liveness (conn : SrtlaConnection) (now : Z) : SrtlaConnection :=
  if connected conn || (connection_established_ms (reconnection conn) =? 0)
  then conn <| last_received := Some now |> else conn.

(** ** The invariant *)
Definition conn_ok (c : SrtlaConnection) : Prop :=
  in_flight_packets c = log_len (packet_log c) /\
  window_ok (window c) /\
  batch_ok (batch_sender c) /\
  rtt_ok (rtt c) /\
  0 <= stall_rejoin_backoff c <= STALL_REJOIN_BACKOFF_MAX /\
  (connected c = true -> is_schedulable c = true).

(** Every state-changing operation of a connection, with the three ways in
    which the receive path changes one and the settings that a selection pass
    copies into it. *)
Inductive conn_op :=
  | OQueueData (data : bytes) (seq : option Z) (t : Z)
  | OQueueProbe (data : bytes) (seq t : Z)
  | ORegister (seq t : Z)
  | OTakeBatch (now : Z)
  | OKeepalive (now : Z)
  | ONoteSent (now : Z)
  | OProbeReg2 (id : bytes) (now : Z)
  | OSrtAck (ack now : Z) (owns : bool)
  | ONak (seq now : Z)
  | OSrtlaAck (seq : Z) (classic : bool) (now : Z)
  | OSrtlaAckGlobal
  | ORecoverWindow (now : Z)
  | OKeepaliveEcho (data : bytes) (now : Z)
  | OUpdatePhase (now : Z)
  | OSilencePull (now min_in_flight ceiling : Z)
  | OStallLatch (now min_in_flight ceiling : Z)
  | OClearStallLatch
  | OClearQualityGate
  | OArmRamp (now ramp : Z) (from_gate : bool)
  | OProbeDue
  | OClearPreRegistration (now : Z)
  | OMarkForRecovery
  | OReconnectAttempt (now : Z)
  | OReconnectSuccess
  | OBitrate (now : Z)
  | OBatchRegime
  | OResetForReconnect (now : Z)
  | ORegistered (now : Z)
  | ORegistrationRefused
  | ORefreshLiveness (now : Z)
  | OConfigure (timeout budget : Z).

Definition conn_step (c : SrtlaConnection) (op : conn_op) : res SrtlaConnection :=
  match op with
  | OQueueData d s t => Ret (queue_data_packet c d s t).1
  | OQueueProbe d s t => Ret (queue_probe_packet c d s t).1
  | ORegister s t => Ret (register_packet c s t)
  | OTakeBatch now => Ret (take_batch c now).1
  | OKeepalive now => Ret (keepalive_packet c now).1
  | ONoteSent now => Ret (note_sent c now)
  | OProbeReg2 id now => Ret (probe_reg2_packet c id now).1
  | OSrtAck ack now owns => Ret (handle_srt_ack c ack now owns)
  | ONak seq now => Ret (handle_nak c seq now).1
  | OSrtlaAck seq classic now => Ret (handle_srtla_ack_specific c seq classic now).1
  | OSrtlaAckGlobal => Ret (handle_srtla_ack_global c)
  | ORecoverWindow now => Ret (conn_perform_window_recovery c now)
  | OKeepaliveEcho d now => handle_keepalive_echo c d now
  | OUpdatePhase now => Ret (update_phase c now)
  | OSilencePull now mif ceil => Ret (update_silence_pull c now mif ceil)
  | OStallLatch now mif ceil => Ret (update_stall_latch c now mif ceil)
  | OClearStallLatch => Ret (clear_stall_latch c)
  | OClearQualityGate => Ret (clear_quality_gate_state c)
  | OArmRamp now ramp g => Ret (arm_rejoin_ramp c now ramp g)
  | OProbeDue => Ret (stall_probe_due c).1
  | OClearPreRegistration now => Ret (clear_pre_registration_state c now)
  | OMarkForRecovery => Ret (mark_for_recovery c)
  | OReconnectAttempt now => Ret (record_reconnect_attempt c now)
  | OReconnectSuccess => Ret (mark_reconnect_success c)
  | OBitrate now => Ret (calculate_bitrate c now)
  | OBatchRegime => Ret (recompute_batch_regime c)
  | OResetForReconnect now => Ret (reset_for_reconnect c now)
  | ORegistered now => Ret (registered_now c now)
  | ORegistrationRefused => Ret (registration_refused c)
  | ORefreshLiveness now => Ret (refresh_liveness c now)
  | OConfigure timeout budget => Ret (c <| conn_timeout_ms := timeout |> <| delay_budget_ms := budget |>)
  end.

Fixpoint conn_run (c : SrtlaConnection) (ops : list conn_op) : res SrtlaConnection :=
  match ops with
  | [] => Ret c
  | op :: ops => c' ← conn_step c op; conn_run c' ops
  end.

(** ** Each operation keeps the invariant *)
Lemma queue_data_packet_ok c d s t : conn_ok c -> conn_ok (queue_data_packet c d s t).1.
Proof.
  intros (Hi & Hw & Hb & Hr). pose proof (queue_packet_refines (batch_sender c) d s t Hb) as [Hb' _].
  exact (conj Hi (conj Hw (conj Hb' Hr))).
Qed.

Lemma record_probe_frame c s t :
  exists log, record_probe c s t = c <| probe_log := log |>.
Proof. unfold record_probe. destruct (_ >=? _); eexists; reflexivity. Qed.

Lemma queue_probe_packet_ok c d s t : conn_ok c -> conn_ok (queue_probe_packet c d s t).1.
Proof.
  intros (Hi & Hw & Hb & Hr). unfold queue_probe_packet.
  destruct (record_probe_frame (c <| bitrate ::= fun b => update_on_send b (Z.of_nat (length d)) |>)
    (i32_wrap s) t) as [log ->].
  pose proof (queue_packet_refines (batch_sender c) d None t Hb) as [Hb' _].
  exact (conj Hi (conj Hw (conj Hb' Hr))).
Qed.

Lemma register_packet_ok c s t : conn_ok c -> conn_ok (register_packet c s t).
Proof. intros (_ & H). exact (conj eq_refl H). Qed.

Lemma take_batch_ok c now : conn_ok c -> conn_ok (take_batch c now).1.
Proof.
  intros (Hi & Hw & Hb & Hr). unfold take_batch.
  pose proof (drain_refines (batch_sender c) now Hb) as (Hb' & _).
  destruct (drain (batch_sender c) now) as [b batch]. cbn [fst] in Hb'.
  assert (conn_ok (c <| batch_sender := b |>)) as Hok by exact (conj Hi (conj Hw (conj Hb' Hr))).
  case_bool_decide; [done|]. cbn [fst]. clear - Hok. revert Hok.
  generalize (c <| batch_sender := b |>). induction batch as [|p batch IH]; intros c' Hok; [done|].
  cbn [fold_left]. apply IH. destruct p as [[d [s|]] t]; [by apply register_packet_ok|done].
Qed.

Lemma keepalive_packet_ok c now : conn_ok c -> conn_ok (keepalive_packet c now).1.
Proof. intros H. unfold keepalive_packet. by destruct (_ && _). Qed.

Lemma handle_srt_ack_ok c ack now owns : conn_ok c -> conn_ok (handle_srt_ack c ack now owns).
Proof.
  intros H. pose proof H as (Hi & Hw & Hb & Hr & Hrest). unfold handle_srt_ack.
  destruct (_ && _); [exact H|].
  destruct (_ <=? _), owns, (packet_log c !! seq_normalize ack) as [sent|];
    refine (conj eq_refl (conj Hw (conj Hb (conj _ Hrest))));
    first [exact Hr | exact (record_round_trip_ok _ _ _ Hr)].
Qed.

Lemma handle_nak_ok c seq now : conn_ok c -> conn_ok (handle_nak c seq now).1.
Proof.
  intros (Hi & Hw & Hb & Hr). unfold handle_nak. case_bool_decide as E.
  - pose proof (cc_step_window (congestion c) (window c) (EvNak now) Hw) as [Hw' _].
    cbn [cc_step] in Hw'. cbn -[cc_handle_nak delete].
    destruct (cc_handle_nak _ _ _) as [cc w]. exact (conj eq_refl (conj Hw' (conj Hb Hr))).
  - apply eq_None_not_Some in E.
    refine (conj _ (conj Hw (conj Hb Hr))). cbn. by rewrite (delete_id _ _ E).
Qed.

Lemma handle_srtla_ack_specific_ok c seq classic now :
  conn_ok c -> conn_ok (handle_srtla_ack_specific c seq classic now).1.
Proof.
  intros H. pose proof H as (Hi & Hw & Hb & Hr & Hrest). unfold handle_srtla_ack_specific.
  destruct (probe_log c !! seq) as [sent|].
  { exact (conj Hi (conj Hw (conj Hb (conj (record_round_trip_ok _ sent now Hr) Hrest)))). }
  destruct (packet_log c !! seq) as [sent|]; [|exact H].
  cbn -[log_len delete handle_srtla_ack_specific_classic handle_srtla_ack_enhanced record_round_trip].
  set (n := log_len (delete seq (packet_log c))).
  pose proof (cc_step_window (congestion c) (window c) (EvClassicAck n) Hw) as [Hc _].
  pose proof (cc_step_window (congestion c) (window c) (EvEnhancedAck n now) Hw) as [He _].
  pose proof (record_round_trip_ok _ sent now Hr) as Hr'. cbn [cc_step] in Hc, He.
  destruct classic.
  - destruct (handle_srtla_ack_specific_classic _ _ _) as [cc w]. cbn [snd fst] in *.
    exact (conj eq_refl (conj Hc (conj Hb (conj Hr' Hrest)))).
  - destruct (handle_srtla_ack_enhanced _ _ _ _) as [cc w]. cbn [snd fst] in *.
    exact (conj eq_refl (conj He (conj Hb (conj Hr' Hrest)))).
Qed.

Lemma handle_srtla_ack_global_ok c : conn_ok c -> conn_ok (handle_srtla_ack_global c).
Proof.
  intros H. pose proof H as (Hi & Hw & Hr). unfold handle_srtla_ack_global.
  destruct (_ && _); [|exact H]. refine (conj Hi (conj _ Hr)). cbn -[Z.mul]. unfold_window.
  rewrite i32_wrap_id by (unfold_ints; lia). lia.
Qed.

Lemma conn_perform_window_recovery_ok c now :
  conn_ok c -> conn_ok (conn_perform_window_recovery c now).
Proof.
  intros (Hi & Hw & H). unfold conn_perform_window_recovery.
  pose proof (cc_step_window (congestion c) (window c)
    (EvRecovery (connected c) (Kalman.velocity (kalman_rtt (rtt c))) now) Hw) as [Hw' _].
  cbn [cc_step] in Hw'. destruct (perform_window_recovery _ _ _ _ _) as [cc w].
  exact (conj Hi (conj Hw' H)).
Qed.

Lemma record_rtt_probe_frame c :
  exists p, record_rtt_probe c = c <| phase := p |> /\
    (phase_is_schedulable (phase c) = true -> phase_is_schedulable p = true).
Proof.
  unfold record_rtt_probe. destruct (phase c) eqn:E.
  - exists Registering. by destruct c; cbn in *; subst.
  - eexists; split; [done|]. by destruct (_ >=? _).
  - exists Live. by destruct c; cbn in *; subst.
  - exists Degraded. by destruct c; cbn in *; subst.
Qed.

Lemma extract_timestamp_total data : exists o, extract_keepalive_timestamp data = Ret o.
Proof.
  unfold extract_keepalive_timestamp. case_bool_decide as Hl; [by eauto|].
  rewrite get_packet_type_spec. destruct (packet_type_of data); cbn [try_bind]; [|by eauto].
  destruct (negb _); [by eauto|].
  do 10 (destruct data as [|? data]; [cbn in Hl; lia|]).
  cbn [ts_loop idx lookup list_lookup Nat.add mbind res_bind].
  unfold idx; cbn [lookup list_lookup]. eauto.
Qed.

Lemma handle_keepalive_echo_ok c data now :
  conn_ok c -> exists c', handle_keepalive_echo c data now = Ret c' /\ conn_ok c'.
Proof.
  intros (Hi & Hw & Hb & Hr & Hk & Hc).
  unfold handle_keepalive_echo, handle_keepalive_response, keepalive_echo_rtt_ms.
  destruct (extract_timestamp_total data) as [o ->].
  assert (forall r, rtt_ok r -> conn_ok (c <| rtt := r |>)) as H0
    by (intros r H; exact (conj Hi (conj Hw (conj Hb (conj H (conj Hk Hc)))))).
  assert (forall c', conn_ok c' -> conn_ok (record_rtt_probe c')) as H1.
  { intros c' (Hi' & Hw' & Hb' & Hr' & Hk' & Hc'). destruct (record_rtt_probe_frame c') as (p & -> & Hp).
    refine (conj Hi' (conj Hw' (conj Hb' (conj Hr' (conj Hk' _))))). intros ?. by apply Hp, Hc'. }
  assert (forall (c' : SrtlaConnection) (e : option Z), conn_ok c' -> conn_ok
    (match e with Some _ => c' <| last_ack_or_rtt_sample_ms := now |> | None => c' end)) as H2
    by (intros c' []; done).
  destruct (negb _).
  - destruct o as [ts|]; cbn [mbind res_bind try_bind]; eexists; (split; [reflexivity|]);
      [apply H2, H0, Hr|apply H0, Hr].
  - destruct o as [ts|]; cbn [mbind res_bind try_bind].
    + pose proof (record_round_trip_ok (rtt c) ts now Hr) as Hrr.
      destruct (record_round_trip (rtt c) ts now) as [r [m|]]; cbn [fst] in Hrr;
        eexists; (split; [reflexivity|]); apply H2; [apply H1|]; apply H0, Hrr.
    + eexists; split; [reflexivity|]. apply (H0 (rtt c <| waiting_for_keepalive_response := false |>)), Hr.
Qed.

Lemma update_phase_ok c now : conn_ok c -> conn_ok (update_phase c now).
Proof.
  intros (Hi & Hw & Hb & Hr & Hk & Hc). unfold update_phase.
  destruct (phase c) eqn:E; split_ifs; refine (conj Hi (conj Hw (conj Hb (conj Hr (conj Hk _)))));
    first [exact Hc | done].
Qed.

Lemma backoff_next_range b r h p :
  0 <= b -> 1 <= stall_rejoin_backoff_next b r h p <= STALL_REJOIN_BACKOFF_MAX.
Proof.
  intros Hb. unfold stall_rejoin_backoff_next, STALL_REJOIN_BACKOFF_MAX, u32_max, two32.
  split_ifs; bool_to_prop; lia.
Qed.

Lemma arm_rejoin_ramp_ok c now ramp g : conn_ok c -> conn_ok (arm_rejoin_ramp c now ramp g).
Proof. unfold arm_rejoin_ramp. by destruct (flt _ _). Qed.

Lemma backoff_next_bounded b r h p :
  0 <= b -> 0 <= stall_rejoin_backoff_next b r h p <= STALL_REJOIN_BACKOFF_MAX.
Proof. intros Hb. pose proof (backoff_next_range b r h p Hb). lia. Qed.

(** The fields the invariant reads. *)
Lemma conn_ok_frame c c' :
  in_flight_packets c' = in_flight_packets c -> packet_log c' = packet_log c ->
  window c' = window c -> batch_sender c' = batch_sender c -> rtt c' = rtt c ->
  0 <= stall_rejoin_backoff c' <= STALL_REJOIN_BACKOFF_MAX ->
  connected c' = connected c -> phase c' = phase c -> conn_ok c -> conn_ok c'.
Proof.
  intros H1 H2 H3 H4 H5 H6 H7 H8 (Hi & Hw & Hb & Hr & Hk & Hc).
  unfold conn_ok, is_schedulable in *. rewrite H1, H2, H3, H4, H5, H7, H8. done.
Qed.

Lemma stall_latch_trip_ok c now mif ceil :
  conn_ok c -> latch_trips c now mif ceil = true -> conn_ok (update_stall_latch c now mif ceil).
Proof.
  intros H E. pose proof H as (_ & _ & _ & _ & Hk & _). unfold update_stall_latch. rewrite E.
  destruct (_ =? 0).
  - apply (conn_ok_frame c); try reflexivity; try exact H. apply backoff_next_bounded; lia.
  - apply (conn_ok_frame c); try reflexivity; done.
Qed.

Lemma stall_latch_hold_ok c now mif ceil :
  conn_ok c -> latch_trips c now mif ceil = false -> conn_ok (update_stall_latch c now mif ceil).
Proof.
  intros H E. pose proof H as (_ & _ & _ & _ & Hk & _). unfold update_stall_latch. rewrite E.
  destruct (stall_latched_since_ms c =? 0); [exact H|].
  destruct (negb _); [apply (conn_ok_frame c); try reflexivity; done|].
  destruct (stall_recovery_since_ms c =? 0).
  - destruct (_ >=? _); [apply arm_rejoin_ramp_ok|]; apply (conn_ok_frame c); try reflexivity; done.
  - destruct (_ >=? _); [apply arm_rejoin_ramp_ok|exact H].
    apply (conn_ok_frame c); try reflexivity; done.
Qed.

Lemma update_stall_latch_ok c now mif ceil : conn_ok c -> conn_ok (update_stall_latch c now mif ceil).
Proof.
  intros H. destruct (latch_trips c now mif ceil) eqn:E.
  - exact (stall_latch_trip_ok c now mif ceil H E).
  - exact (stall_latch_hold_ok c now mif ceil H E).
Qed.

Lemma clear_stall_latch_ok c : conn_ok c -> conn_ok (clear_stall_latch c).
Proof.
  intros H. unfold clear_stall_latch, STALL_REJOIN_BACKOFF_MAX.
  destruct (stall_rejoin_ramp_from_stall_gate _);
    (apply (conn_ok_frame c); try reflexivity; try exact H; cbn; unfold STALL_REJOIN_BACKOFF_MAX; lia).
Qed.

Lemma window_default_ok : window_ok (WINDOW_DEF * WINDOW_MULT).
Proof. cbv; split; congruence. Qed.

Lemma reset_core_state_ok c : rtt_ok (rtt c) -> conn_ok (reset_core_state c).
Proof.
  intros Hr. refine (conj _ (conj window_default_ok (conj _ (conj Hr (conj _ _))))); done.
Qed.

Lemma rtt_reset_ok r : rtt_ok r -> rtt_ok (rtt_reset r).
Proof. intros (_ & _ & Hf & Hs). repeat split; try done; by exists []. Qed.

(** The six parts of the invariant. *)
Ltac split_ok := split; [|split; [|split; [|split; [|split]]]].

Lemma clear_pre_registration_ok c now : conn_ok c -> conn_ok (clear_pre_registration_state c now).
Proof.
  intros (_ & Hw & _ & Hr & Hk & _).
  unfold conn_ok, is_schedulable, clear_pre_registration_state. cbn -[congestion_reset batch_reset].
  split_ok; first [done | exact Hr].
Qed.

Lemma mark_for_recovery_ok c : conn_ok c -> conn_ok (mark_for_recovery c).
Proof.
  intros (_ & _ & _ & Hr & _). unfold conn_ok, is_schedulable, mark_for_recovery. cbn -[batch_reset].
  split_ok; first [done | exact Hr].
Qed.

Lemma reset_for_reconnect_ok c now : conn_ok c -> conn_ok (reset_for_reconnect c now).
Proof.
  intros (_ & _ & _ & Hr%rtt_reset_ok & _).
  unfold conn_ok, is_schedulable, reset_for_reconnect. cbn -[batch_reset rtt_reset].
  split_ok; first [done | exact Hr].
Qed.

Lemma set_connected_ok c now :
  conn_ok c -> is_schedulable c = true -> conn_ok (c <| connected := true |> <| last_received := Some now |>).
Proof.
  intros (Hi & Hw & Hb & Hr & Hk & _) Hs.
  exact (conj Hi (conj Hw (conj Hb (conj Hr (conj Hk (fun _ => Hs)))))).
Qed.

Lemma reconnection_ok c f : conn_ok c -> conn_ok (c <| reconnection ::= f |>).
Proof. intros H. exact H. Qed.

Lemma registered_now_ok c now : conn_ok c -> conn_ok (registered_now c now).
Proof.
  intros H%(clear_pre_registration_ok c now). unfold registered_now, mark_reconnect_success.
  assert (is_schedulable (clear_pre_registration_state c now) = true) as Hp by reflexivity.
  generalize dependent (clear_pre_registration_state c now). intros c1 H Hp.
  pose proof (set_connected_ok c1 now H Hp) as H2.
  generalize dependent (c1 <| connected := true |> <| last_received := Some now |>). intros c2 H2.
  apply reconnection_ok. destruct (_ =? 0); [by apply reconnection_ok|done].
Qed.

Lemma refresh_liveness_ok c now : conn_ok c -> conn_ok (refresh_liveness c now).
Proof. intros H. unfold refresh_liveness. by destruct (_ || _). Qed.

Lemma registration_refused_ok c : conn_ok c -> conn_ok (registration_refused c).
Proof.
  intros (Hi & Hw & Hb & Hr & Hk & _). unfold conn_ok, is_schedulable. cbn. split_ok; first [done|exact Hr].
Qed.

(** One step of any operation succeeds and keeps the invariant. *)
Lemma conn_step_ok c op : conn_ok c -> exists c', conn_step c op = Ret c' /\ conn_ok c'.
Proof.
  intros H. destruct op; cbn [conn_step];
    try (eexists; split; [reflexivity|]).
  - by apply queue_data_packet_ok.
  - by apply queue_probe_packet_ok.
  - by apply register_packet_ok.
  - by apply take_batch_ok.
  - by apply keepalive_packet_ok.
  - exact H.
  - exact H.
  - by apply handle_srt_ack_ok.
  - by apply handle_nak_ok.
  - by apply handle_srtla_ack_specific_ok.
  - by apply handle_srtla_ack_global_ok.
  - by apply conn_perform_window_recovery_ok.
  - by apply handle_keepalive_echo_ok.
  - by apply update_phase_ok.
  - unfold update_silence_pull. split_ifs; exact H.
  - exact (update_stall_latch_ok c now min_in_flight ceiling H).
  - by apply clear_stall_latch_ok.
  - exact H.
  - by apply arm_rejoin_ramp_ok.
  - unfold stall_probe_due. split_ifs; exact H.
  - by apply clear_pre_registration_ok.
  - by apply mark_for_recovery_ok.
  - exact H.
  - exact H.
  - exact H.
  - destruct H as (Hi & Hw & Hb & Hr). exact (conj Hi (conj Hw (conj Hb Hr))).
  - by apply reset_for_reconnect_ok.
  - by apply registered_now_ok.
  - by apply registration_refused_ok.
  - by apply refresh_liveness_ok.
  - exact H.
Qed.

Lemma new_registering_ok id ip now : conn_ok (new_registering id ip now).
Proof.
  refine (conj eq_refl (conj window_default_ok (conj (conj eq_refl eq_refl)
    (conj rtt_default_ok (conj _ _))))); [cbn; unfold STALL_REJOIN_BACKOFF_MAX; lia|done].
Qed.

Lemma conn_run_ok c ops : conn_ok c -> exists c', conn_run c ops = Ret c' /\ conn_ok c'.
Proof.
  revert c. induction ops as [|op ops IH]; intros c H; [by exists c|].
  destruct (conn_step_ok c op H) as (c' & Hs & Hok). cbn [conn_run]. rewrite Hs. by apply IH.
Qed.

(** ** Theorems *)

(** A link that registers, delivers for a while, stalls with a packet in
    flight, delivers until the latch is released, stalls again within the
    probation, and so on [n] times. *)
Definition delivered (t : Z) : list conn_op :=
  [ORegister 1 (t - 20); OSrtlaAck 1 false t; OStallLatch t 1 300].
Fixpoint flapping (t backoff : Z) (n : nat) : list conn_op :=
  match n with
  | O => []
  | S n => [ORegister 2 (t - 20); OStallLatch t 1 300; OSrtlaAck 2 false (t + 10)] ++
    mjoin (map (fun k => delivered (t + 100 + 100 * Z.of_nat k)) (seq 0 (Z.to_nat (6 * backoff + 1)))) ++
    flapping (t + 500 + 600 * backoff) (Z.min (2 * backoff) 16) n
  end.

(** The runs of the theorem below reach connected links, latched and released
    ones, and the cap of the back-off: it is 1, 2, 4, then 16 and stays there. *)
Example flapping_runs :
  map (fun n => match conn_run (new_registering 1 0 0) (ORegistered 1000 :: delivered 1100 ++ flapping 2000 1 n) with
                | Ret c => Some (connected c, is_schedulable c, stall_rejoin_backoff c, stall_released_at_ms c)
                | Panic => None end) [1%nat; 2%nat; 3%nat; 5%nat; 6%nat] =
  [Some (true, true, 1, 2700); Some (true, true, 2, 4400); Some (true, true, 4, 7300);
   Some (true, true, 16, 22700); Some (true, true, 16, 32800)].
Proof. vm_compute. reflexivity. Qed.

(** C5: from creation on, whatever operations a link goes through (the grant
    and the refusal of its registration among them) and whatever bytes it
    receives, no operation panics and the invariant holds: the in-flight count
    is the size of the packet log, the window stays within its bounds, the send
    queue's vectors are parallel, the RTT windows are sound, the rejoin backoff
    is at most 16 and a connected link is schedulable. *)
Theorem connection_invariant (id ip now : Z) (ops : list conn_op) :
  exists c, conn_run (new_registering id ip now) ops = Ret c /\ conn_ok c.
Proof. apply conn_run_ok, new_registering_ok. Qed.
