(* ===== verification/AckNak.v ===== *)
(** * Acknowledgements (srtla-core/src/connection/ack_nak.rs)

    What the cumulative SRT ACK, the per-packet SRTLA ACK and the NAK do to a
    link's logs.  A cumulative ACK walks the newly acknowledged range or sweeps
    the whole log; the theorem says which entries each removes.  The two agree
    when the log holds only sequences ahead of the last acknowledgement. *)
From S2P Require Import Prelude F64 Wire Seq Filters Rtt Batch Pacing Congestion Config Connection.

(** The log holds sequence numbers ahead of the last cumulative ACK. *)
Definition log_ahead (c : SrtlaConnection) : Prop :=
  forall k t, packet_log c !! k = Some t ->
    is_seq k /\ (highest_acked_seq c <> NO_ACK_YET -> seq_after k (highest_acked_seq c) = true).

(** Whether a cumulative ACK is ignored. *)
Definition ack_is_stale (c : SrtlaConnection) (ack : Z) : bool :=
  negb (highest_acked_seq c =? NO_ACK_YET) && negb (seq_after (seq_normalize ack) (highest_acked_seq c)).

(** Whether it walks the newly acknowledged range instead of sweeping the log. *)
Definition ack_walks (c : SrtlaConnection) (ack : Z) : bool :=
  negb (highest_acked_seq c =? NO_ACK_YET) &&
  (seq_diff (seq_normalize ack) (highest_acked_seq c) <=? TARGETED_REMOVAL_LIMIT).

(** [k] lies in the circular range from [old], exclusive, to [ack]. *)
Definition newly_acked (old ack k : Z) : Prop :=
  is_seq k /\ 1 <= (k - old) mod two31 <= (ack - old) mod two31.

(** The sequences that a cumulative ACK takes out of the log. *)
Definition ack_removes (c : SrtlaConnection) (ack k : Z) : Prop :=
  ack_is_stale c ack = false /\
  if ack_walks c ack then newly_acked (highest_acked_seq c) (seq_normalize ack) k
  else seq_after k (seq_normalize ack) = false.

Global Instance ack_removes_dec c ack k : Decision (ack_removes c ack k).
Proof. unfold ack_removes, newly_acked. destruct (ack_walks c ack); apply _. Defined.

(** ** The walk *)
Lemma remove_walk_lookup n s log k :
  Z.of_nat n < two31 ->
  remove_walk n s log !! k =
    if decide (is_seq k /\ 1 <= (k - s) mod two31 <= Z.of_nat n) then None else log !! k.
Proof.
  revert s log. induction n as [|n IH]; intros s log Hn.
  { cbn. rewrite decide_False; [done|]. lia. }
  cbn [remove_walk]. rewrite IH by lia. rewrite seq_next_mod.
  destruct (decide ((s + 1) mod two31 = k)) as [H1|H1].
  { rewrite H1, lookup_delete_eq. rewrite (decide_True _ _ (P := is_seq k /\ 1 <= (k - s) mod two31 <= _))
      by (unfold is_seq; zlia). by destruct (decide _). }
  rewrite lookup_delete_ne by done.
  destruct (decide (is_seq k /\ 1 <= (k - s) mod two31 <= Z.of_nat (S n))) as [[Hk H]|H].
  - rewrite decide_True; [done|]. split; [done|]. unfold is_seq in *. zlia.
  - rewrite decide_False; [done|]. intros [Hk H2]. apply H. split; [done|]. unfold is_seq in *. zlia.
Qed.

Lemma handle_srt_ack_stale c ack now owns :
  ack_is_stale c ack = true -> handle_srt_ack c ack now owns = c.
Proof. unfold ack_is_stale, handle_srt_ack. by intros ->. Qed.

Lemma filter_after_lookup (log : gmap Z Z) ack k :
  filter (fun kv : Z * Z => seq_after kv.1 ack = true) log !! k =
    if decide (seq_after k ack = false) then None else log !! k.
Proof.
  destruct (decide (seq_after k ack = false)) as [H|H].
  - apply map_lookup_filter_None_2. right. intros t _. cbn. congruence.
  - destruct (log !! k) as [t|] eqn:E.
    + apply map_lookup_filter_Some_2; [done|]. cbn. by apply not_false_iff_true.
    + apply map_lookup_filter_None_2. by left.
Qed.

Lemma handle_srt_ack_log c ack now owns :
  ack_is_stale c ack = false ->
  (forall k, packet_log (handle_srt_ack c ack now owns) !! k =
     if decide (ack_removes c ack k) then None else packet_log c !! k) /\
  highest_acked_seq (handle_srt_ack c ack now owns) = seq_normalize ack.
Proof.
  intros Hs. unfold handle_srt_ack. unfold ack_is_stale in Hs. rewrite Hs.
  assert (forall k, packet_log (if (if highest_acked_seq c =? NO_ACK_YET then i32_max
      else seq_diff (seq_normalize ack) (highest_acked_seq c)) <=? TARGETED_REMOVAL_LIMIT
    then c <| highest_acked_seq := seq_normalize ack |> <| packet_log ::= remove_walk (Z.to_nat
      (if highest_acked_seq c =? NO_ACK_YET then i32_max
       else seq_diff (seq_normalize ack) (highest_acked_seq c))) (highest_acked_seq c) |>
    else c <| highest_acked_seq := seq_normalize ack |>
      <| packet_log ::= filter (fun kv : Z * Z => seq_after kv.1 (seq_normalize ack) = true) |>) !! k =
    if decide (ack_removes c ack k) then None else packet_log c !! k) as Hlog.
  { intros k. assert (forall P Q `{Decision P, Decision Q}, (P <-> Q) -> forall x : option Z,
      (if decide P then None else x) = if decide Q then None else x) as Hiff
      by (intros P Q ? ? HPQ x; destruct (decide P), (decide Q); tauto).
    destruct (highest_acked_seq c =? NO_ACK_YET) eqn:Ef; cbn [negb andb] in *.
    { change (i32_max <=? TARGETED_REMOVAL_LIMIT) with false. cbn -[decide]. rewrite filter_after_lookup. apply Hiff.
      unfold ack_removes, ack_walks, ack_is_stale. rewrite Ef. tauto. }
    pose proof Hs as Hd. apply negb_false_iff, seq_after_iff in Hd.
    destruct (seq_diff (seq_normalize ack) (highest_acked_seq c) <=? TARGETED_REMOVAL_LIMIT) eqn:Ew; cbn -[decide].
    - apply Z.leb_le in Ew as Hw. rewrite remove_walk_lookup by (unfold TARGETED_REMOVAL_LIMIT, two31 in *; lia).
      apply Hiff. unfold ack_removes, ack_walks, ack_is_stale, newly_acked. rewrite Ef, Ew, Hs. cbn [negb andb].
      rewrite Z2Nat.id by lia. rewrite seq_diff_mod in Hd, Hw |- *. unfold TARGETED_REMOVAL_LIMIT in Hw. unfold is_seq. zlia.
    - rewrite filter_after_lookup. apply Hiff. unfold ack_removes, ack_walks, ack_is_stale. rewrite Ef, Ew, Hs. tauto. }
  destruct owns, (packet_log c !! seq_normalize ack); (split; [exact Hlog|]); by destruct (_ <=? _).
Qed.

(** Nothing ahead of the ACK is taken out, and with a log that is ahead of the
    last ACK everything else is. *)
Lemma ack_removes_behind c ack k : ack_removes c ack k -> seq_after k (seq_normalize ack) = false.
Proof.
  unfold ack_removes, ack_walks, ack_is_stale. intros [Hs H]. set (a := seq_normalize ack) in *.
  destruct (highest_acked_seq c =? NO_ACK_YET); cbn [negb andb] in *; [done|].
  destruct (Z.leb_spec (seq_diff a (highest_acked_seq c)) TARGETED_REMOVAL_LIMIT) as [Hw|_]; [|done].
  apply negb_false_iff, seq_after_iff in Hs. destruct H as [Hk H]. apply not_true_iff_false.
  rewrite seq_after_iff. rewrite seq_diff_mod in *. unfold is_seq, TARGETED_REMOVAL_LIMIT in *. zlia.
Qed.

Lemma log_ahead_removes c ack k t :
  log_ahead c -> ack_is_stale c ack = false -> packet_log c !! k = Some t ->
  seq_after k (seq_normalize ack) = false -> ack_removes c ack k.
Proof.
  intros Hl Hs Hk Ha. split; [done|]. unfold ack_walks, ack_is_stale in *. set (a := seq_normalize ack) in *.
  destruct (Hl k t Hk) as [Hseq Haft].
  destruct (Z.eqb_spec (highest_acked_seq c) NO_ACK_YET) as [|Hn]; cbn [negb andb] in *; [done|].
  specialize (Haft Hn). destruct (Z.leb_spec (seq_diff a (highest_acked_seq c)) TARGETED_REMOVAL_LIMIT) as [Hw|_]; [|done].
  apply negb_false_iff, seq_after_iff in Hs. apply seq_after_iff in Haft. apply not_true_iff_false in Ha.
  rewrite seq_after_iff in Ha. rewrite seq_diff_mod in *.
  split; [done|]. unfold is_seq, TARGETED_REMOVAL_LIMIT in *. zlia.
Qed.

(** ** Theorems *)

(** C22: what a cumulative ACK takes out of the packet log, exactly: a stale or
    duplicate one takes nothing; one that advances by at most 64 takes the
    sequences between the previous ACK and this one, so an entry behind the
    previous ACK stays; the first one, or one that advances further, takes every
    sequence that is not ahead of it.  A sequence ahead of the ACK always stays
    with its time, and the in-flight count is the size of the log.  When the log
    was ahead of the previous ACK, what is left is exactly what is ahead of this
    one, by either way, and the log is ahead of this ACK again. *)
Theorem srt_ack_prunes_exactly (c : SrtlaConnection) (ack now : Z) (owns : bool) :
  conn_ok c ->
  let c' := handle_srt_ack c ack now owns in
  let ahead k := seq_after k (seq_normalize ack) = true in
  (forall k, packet_log c' !! k = if decide (ack_removes c ack k) then None else packet_log c !! k) /\
  in_flight_packets c' = log_len (packet_log c') /\
  (forall k, ahead k -> packet_log c' !! k = packet_log c !! k) /\
  (log_ahead c -> ack_is_stale c ack = false ->
     packet_log c' = filter (fun kv : Z * Z => ahead kv.1) (packet_log c) /\ log_ahead c').
Proof.
  intros Hok c' ahead. pose proof (handle_srt_ack_ok c ack now owns Hok) as (Hi & _). fold c' in Hi.
  assert (forall k, packet_log c' !! k = if decide (ack_removes c ack k) then None else packet_log c !! k) as Hlog.
  { intros k. destruct (ack_is_stale c ack) eqn:Es; [|by apply handle_srt_ack_log].
    unfold c'. rewrite handle_srt_ack_stale by done. rewrite decide_False; [done|]. intros [? _]. congruence. }
  split; [exact Hlog|]. split; [exact Hi|]. split.
  { intros k Ha. rewrite Hlog, decide_False; [done|]. intros H%ack_removes_behind. unfold ahead in Ha. congruence. }
  intros Hl Es. destruct (handle_srt_ack_log c ack now owns Es) as [_ Hhi]. fold c' in Hhi.
  assert (packet_log c' = filter (fun kv : Z * Z => ahead kv.1) (packet_log c)) as Hf.
  { apply map_eq. intros k. unfold ahead. rewrite Hlog, filter_after_lookup.
    destruct (packet_log c !! k) as [t|] eqn:Ek; [|by destruct (decide _), (decide _)].
    destruct (decide (ack_removes c ack k)) as [H|H]; destruct (decide (_ = false)) as [H2|H2]; try done.
    - destruct H2. by apply (ack_removes_behind c).
    - destruct H. by apply (log_ahead_removes c ack k t). }
  split; [done|]. unfold log_ahead. rewrite Hhi, Hf.
  intros k t [Hk Haft]%map_lookup_filter_Some. split; [by apply (Hl k t)|]. done.
Qed.

(** The witness's link: three packets in flight around the sequence wrap. *)
Definition ack_demo : SrtlaConnection :=
  new_registering 1 0 0
    <| packet_log := <[0x7fffffff := 10]> (<[0 := 11]> (<[1 := 12]> ∅)) |>
    <| in_flight_packets := 3 |> <| highest_acked_seq := 0x7ffffffe |>.

Lemma ack_demo_ok : conn_ok ack_demo /\ log_ahead ack_demo.
Proof.
  destruct (new_registering_ok 1 0 0) as (_ & Hw & Hb & Hr & Hk & Hc).
  split; [exact (conj eq_refl (conj Hw (conj Hb (conj Hr (conj Hk Hc)))))|].
  intros k t Hkt. cbn in Hkt.
  repeat (apply lookup_insert_Some in Hkt as [[<- <-]|[_ Hkt]];
    [split; [unfold is_seq, two31; lia|intros _; reflexivity]|]).
  by rewrite lookup_empty in Hkt.
Qed.

Lemma srt_ack_prunes_exactly_witness :
  packet_log (handle_srt_ack ack_demo 0 100 true) =
    filter (fun kv : Z * Z => seq_after kv.1 0 = true) (packet_log ack_demo) /\
  in_flight_packets (handle_srt_ack ack_demo 0 100 true) = 1.
Proof.
  destruct ack_demo_ok as [H1 H2].
  destruct (srt_ack_prunes_exactly ack_demo 0 100 true H1) as (_ & _ & _ & H).
  split; [exact (proj1 (H H2 eq_refl))|].
  vm_compute. reflexivity.
Defined.

(** The cumulative ACK feeds the round-trip estimator only on the link that
    carried the acknowledged packet and still had it logged; it never touches
    the window, the congestion state or the outstanding probes. *)
Theorem srt_ack_sample_gated (c : SrtlaConnection) (ack now : Z) (owns : bool) :
  let c' := handle_srt_ack c ack now owns in
  window c' = window c /\ congestion c' = congestion c /\ probe_log c' = probe_log c /\
  rtt c' = match ack_is_stale c ack, owns, packet_log c !! seq_normalize ack with
           | false, true, Some sent => (record_round_trip (rtt c) sent now).1
           | _, _, _ => rtt c
           end.
Proof.
  cbv zeta. destruct (ack_is_stale c ack) eqn:Es.
  { by rewrite handle_srt_ack_stale. }
  unfold ack_is_stale in Es. unfold handle_srt_ack. rewrite Es.
  destruct (_ <=? _), owns, (packet_log c !! seq_normalize ack); done.
Qed.

(** An SRTLA ACK for a duplicate probe proves delivery and samples the RTT
    but leaves the window, the congestion state and the in-flight accounting
    alone; one for a packet this link sent removes exactly that packet; one for
    anything else changes nothing. *)
Theorem srtla_ack_effect (c : SrtlaConnection) (seq : Z) (classic : bool) (now : Z) :
  let '(c', found) := handle_srtla_ack_specific c seq classic now in
  match probe_log c !! seq, packet_log c !! seq with
  | Some sent, _ =>
    found = true /\ window c' = window c /\ congestion c' = congestion c /\
    packet_log c' = packet_log c /\ in_flight_packets c' = in_flight_packets c /\
    probe_log c' = delete seq (probe_log c) /\ last_ack_or_rtt_sample_ms c' = now
  | None, Some sent =>
    found = true /\ packet_log c' = delete seq (packet_log c) /\
    in_flight_packets c' = log_len (delete seq (packet_log c)) /\
    window c' = classic_handle_srtla_ack_specific (window c) (in_flight_packets c') /\
    probe_log c' = probe_log c /\ last_ack_or_rtt_sample_ms c' = now
  | None, None => found = false /\ c' = c
  end.
Proof.
  unfold handle_srtla_ack_specific. destruct (probe_log c !! seq) as [sent|]; [done|].
  destruct (packet_log c !! seq) as [sent|]; [|done].
  cbn -[log_len delete handle_srtla_ack_specific_classic handle_srtla_ack_enhanced record_round_trip].
  destruct classic; done.
Qed.

(** A NAK is charged to a link exactly when the link has the lost packet in
    its log: then the packet leaves the log and the window drops by 100 units
    towards its floor; otherwise the link is unchanged, so a NAK is never
    charged to a link that did not carry the packet. *)
Theorem nak_attribution (c : SrtlaConnection) (seq now : Z) :
  conn_ok c ->
  let '(c', found) := handle_nak c seq now in
  match packet_log c !! seq with
  | Some _ => found = true /\ packet_log c' = delete seq (packet_log c) /\
      in_flight_packets c' = log_len (packet_log c') /\ window c' = Z.max (window c - 100) 1000 /\
      nak_count (congestion c') = sat_i32 (nak_count (congestion c) + 1)
  | None => found = false /\ packet_log c' = packet_log c /\ window c' = window c /\
      congestion c' = congestion c /\ in_flight_packets c' = in_flight_packets c
  end.
Proof.
  intros (Hi & Hw & _). unfold handle_nak. destruct (packet_log c !! seq) as [sent|] eqn:E.
  - rewrite bool_decide_eq_true_2 by (by eexists). cbn -[cc_handle_nak delete log_len].
    pose proof (cc_handle_nak_window (congestion c) (window c) now Hw) as Hnak.
    assert (nak_count (cc_handle_nak (congestion c) (window c) now).1
      = sat_i32 (nak_count (congestion c) + 1)) as Hcnt.
    { unfold cc_handle_nak. cbn -[Z.mul WINDOW_DECR]. split_ifs; done. }
    destruct (cc_handle_nak _ _ _) as [cc w]. done.
  - rewrite bool_decide_eq_false_2 by (by apply eq_None_not_Some). cbn. by rewrite delete_id.
Qed.

Lemma nak_attribution_witness :
  (handle_nak ack_demo 0 100).2 = true /\ window (handle_nak ack_demo 0 100).1 = 19900.
Proof.
  pose proof (nak_attribution ack_demo 0 100 (proj1 ack_demo_ok)) as H.
  destruct (handle_nak ack_demo 0 100) as [c' found]. cbn in H.
  destruct H as (H1 & _ & _ & H2 & _). split; [exact H1|exact H2].
Defined.

(** The documentation of [handle_srt_ack] promises that everything at or before
    the ACK is cleared; a packet registered behind the last acknowledgement is
    not in the walked range and stays in the log. *)
Example ack_leaves_older_packet :
  let c := new_registering 1 0 0 <| packet_log := {[ 90 := 5 ]} |> <| in_flight_packets := 1 |>
             <| highest_acked_seq := 100 |> in
  packet_log (handle_srt_ack c 101 10 false) !! 90 = Some 5 /\
  in_flight_packets (handle_srt_ack c 101 10 false) = 1.
Proof. split; vm_compute; reflexivity. Qed.
