(* ===== verification/StallLatch.v ===== *)
(** * Stall latch, silence pull, ramp and liveness of a link (connection/mod.rs)

    A latched link leaves the rotation at once and comes back only after an
    uninterrupted run of fresh delivery proof that spans the rejoin dwell.
    Between two evaluations of the latch anything else may happen to the link;
    the runs below therefore let every field but the latch's own change
    arbitrarily between the steps. *)
From S2P Require Import Prelude F64 Wire Seq Filters Rtt Batch Pacing Congestion Config Connection.

(** ** One evaluation of the latch *)

(** The latch's own state. *)
Definition latch_state (c : SrtlaConnection) : Z * Z := (stall_latched_since_ms c, stall_recovery_since_ms c).

(** The latch releases exactly here. *)
Lemma latch_release_inv c now mif ceil :
  0 < now -> stall_latched_since_ms c <> 0 ->
  stall_latched_since_ms (update_stall_latch c now mif ceil) = 0 ->
  latch_trips c now mif ceil = false /\ proof_fresh c now ceil = true /\
  rejoin_dwell_ms c ceil <=
    sat_sub now (if stall_recovery_since_ms c =? 0 then now else stall_recovery_since_ms c).
Proof.
  intros Hn Hl. unfold update_stall_latch.
  destruct (latch_trips c now mif ceil) eqn:Et.
  { rewrite (proj2 (Z.eqb_neq _ _) Hl). cbn. lia. }
  rewrite (proj2 (Z.eqb_neq _ _) Hl).
  destruct (proof_fresh c now ceil) eqn:Ef; cbn [negb]; [|cbn; lia].
  destruct (stall_recovery_since_ms c =? 0) eqn:Er.
  - change (rejoin_dwell_ms (c <| stall_recovery_since_ms := now |>) ceil) with (rejoin_dwell_ms c ceil).
    change (stall_recovery_since_ms (c <| stall_recovery_since_ms := now |>)) with now.
    destruct (_ >=? _) eqn:Ed; [|cbn; lia]. rewrite Z.geb_leb, Z.leb_le in Ed. done.
  - destruct (_ >=? _) eqn:Ed; [|cbn; lia]. rewrite Z.geb_leb, Z.leb_le in Ed. done.
Qed.

(** What one evaluation does to the recovery run of a link that stays latched. *)
Lemma latch_hold_inv c now mif ceil :
  0 < now -> stall_latched_since_ms c <> 0 ->
  stall_latched_since_ms (update_stall_latch c now mif ceil) <> 0 ->
  let r := stall_recovery_since_ms (update_stall_latch c now mif ceil) in
  r = 0 \/ (proof_fresh c now ceil = true /\ latch_trips c now mif ceil = false /\
            r = if stall_recovery_since_ms c =? 0 then now else stall_recovery_since_ms c).
Proof.
  intros Hn Hl. unfold update_stall_latch.
  destruct (latch_trips c now mif ceil) eqn:Et.
  { rewrite (proj2 (Z.eqb_neq _ _) Hl). cbn. auto. }
  rewrite (proj2 (Z.eqb_neq _ _) Hl).
  destruct (proof_fresh c now ceil) eqn:Ef; cbn [negb]; [|cbn; auto].
  destruct (stall_recovery_since_ms c =? 0) eqn:Er.
  - destruct (_ >=? _); [|intros _; right; done].
    unfold arm_rejoin_ramp. destruct (flt _ _); cbn; lia.
  - destruct (_ >=? _); [|intros _; right; done].
    unfold arm_rejoin_ramp. destruct (flt _ _); cbn; lia.
Qed.

(** ** Runs *)
Section Runs.
Context (min_in_flight ceiling : Z).

(** [latch_run c tr c']: the latch is evaluated at the times and states of
    [tr], in order; between two evaluations the link changes in any way that
    leaves the latch's own two fields alone. *)
Inductive latch_run : SrtlaConnection -> list (Z * SrtlaConnection) -> SrtlaConnection -> Prop :=
  | run_nil c : latch_run c [] c
  | run_step c tr c1 c2 now :
      latch_run c tr c1 -> latch_state c2 = latch_state c1 ->
      latch_run c (tr ++ [(now, c2)]) (update_stall_latch c2 now min_in_flight ceiling).

(** A stretch of evaluations that all saw fresh proof and no trip. *)
Definition fresh_run (tr : list (Z * SrtlaConnection)) : Prop :=
  Forall (fun '(now, c) => proof_fresh c now ceiling = true /\
            latch_trips c now min_in_flight ceiling = false) tr.

Lemma fresh_run_app t1 t2 : fresh_run t1 -> fresh_run t2 -> fresh_run (t1 ++ t2).
Proof. apply Forall_app_2. Qed.

(** The recovery stamp of a latched link is the time of an evaluation since
    which all saw fresh proof. *)
Lemma recovery_stamp_sound c tr c' :
  stall_latched_since_ms c <> 0 -> stall_recovery_since_ms c = 0 ->
  Forall (fun '(now, _) => 0 < now) tr ->
  latch_run c tr c' ->
  Forall (fun '(now, s) => stall_latched_since_ms s <> 0) tr ->
  stall_latched_since_ms c' <> 0 ->
  stall_recovery_since_ms c' = 0 \/
  exists pre s post, tr = pre ++ (stall_recovery_since_ms c', s) :: post /\
    fresh_run ((stall_recovery_since_ms c', s) :: post).
Proof.
  intros Hl Hr Hpos Hrun. induction Hrun as [c|c tr c1 c2 now Hrun IH Hst]; [by auto|].
  intros Hlat Hl'. apply Forall_app in Hpos as [Hpos Hnow]. apply Forall_app in Hlat as [Hlat Hlat2].
  apply Forall_cons in Hnow as [Hnow _]. apply Forall_cons in Hlat2 as [Hlat2 _].
  unfold latch_state in Hst. injection Hst as Hst1 Hst2.
  assert (stall_latched_since_ms c1 <> 0) as Hl1 by congruence.
  specialize (IH Hl Hr Hpos Hlat Hl1).
  destruct (latch_hold_inv c2 now min_in_flight ceiling Hnow Hlat2 Hl') as [H0|(Hf & Ht & Hrec)]; [by auto|].
  right. rewrite Hrec, Hst2. destruct (Z.eqb_spec (stall_recovery_since_ms c1) 0) as [E|E].
  - exists tr, c2, []. split; [done|]. repeat constructor; done.
  - destruct IH as [?|(pre & s & post & -> & Hfr)]; [done|].
    exists pre, s, (post ++ [(now, c2)]). split; [by rewrite <- app_assoc|].
    apply (fresh_run_app (_ :: post)); [done|]. repeat constructor; done.
Qed.
End Runs.

(** ** Theorems *)

(** C31: a latched link is released only after an uninterrupted run of
    evaluations that all saw fresh and timely delivery proof and no new stall,
    from some evaluation up to the releasing one, spanning at least the rejoin
    dwell (twice the staleness window times the backoff). *)
Theorem latch_release_needs_dwell (mif ceil : Z) (c c1 c2 : SrtlaConnection)
    (tr : list (Z * SrtlaConnection)) (now : Z) :
  stall_latched_since_ms c <> 0 -> stall_recovery_since_ms c = 0 ->
  Forall (fun '(t, s) => 0 < t /\ stall_latched_since_ms s <> 0) tr -> 0 < now ->
  latch_run mif ceil c tr c1 -> latch_state c2 = latch_state c1 -> stall_latched_since_ms c1 <> 0 ->
  stall_latched_since_ms (update_stall_latch c2 now mif ceil) = 0 ->
  exists pre t0 s0 post, tr ++ [(now, c2)] = pre ++ (t0, s0) :: post /\
    fresh_run mif ceil ((t0, s0) :: post) /\ rejoin_dwell_ms c2 ceil <= sat_sub now t0.
Proof.
  intros Hl Hr Htr Hnow Hrun Hst Hl1 Hrel. unfold latch_state in Hst. injection Hst as Hst1 Hst2.
  assert (stall_latched_since_ms c2 <> 0) as Hl2 by congruence.
  destruct (latch_release_inv c2 now mif ceil Hnow Hl2 Hrel) as (Ht & Hf & Hd).
  assert (Forall (fun '(t, _) => 0 < t) tr) as Hpos
    by (eapply Forall_impl; [exact Htr|]; intros [] [? ?]; done).
  assert (Forall (fun '(_, s) => stall_latched_since_ms s <> 0) tr) as Hlat
    by (eapply Forall_impl; [exact Htr|]; intros [] [? ?]; done).
  assert (fresh_run mif ceil [(now, c2)]) as Hlast by (repeat constructor; done).
  rewrite Hst2 in Hd. destruct (Z.eqb_spec (stall_recovery_since_ms c1) 0) as [E|E].
  - exists tr, now, c2, []. done.
  - destruct (recovery_stamp_sound mif ceil c tr c1 Hl Hr Hpos Hrun Hlat Hl1)
      as [?|(pre & s & post & -> & Hfr)]; [done|].
    exists pre, (stall_recovery_since_ms c1), s, (post ++ [(now, c2)]).
    split; [by rewrite <- app_assoc|]. split; [|done].
    by apply (fresh_run_app _ _ (_ :: post)).
Qed.

(** A latched link whose proof is fresh, for the witness. *)
Definition latched_demo (proof recovery : Z) : SrtlaConnection :=
  new_registering 1 0 0 <| stall_latched_since_ms := 1000 |> <| connected := true |>
    <| phase := Live |> <| last_ack_or_rtt_sample_ms := proof |>
    <| stall_recovery_since_ms := recovery |>.

Lemma latch_release_needs_dwell_witness :
  exists pre t0 s0 post, [(2000, latched_demo 1900 0)] ++ [(8000, latched_demo 7900 2000)]
      = pre ++ (t0, s0) :: post /\
    fresh_run 32 3000 ((t0, s0) :: post) /\
    rejoin_dwell_ms (latched_demo 7900 2000) 3000 <= sat_sub 8000 t0.
Proof.
  apply (latch_release_needs_dwell 32 3000 (latched_demo 1900 0)
    (update_stall_latch (latched_demo 1900 0) 2000 32 3000) (latched_demo 7900 2000)).
  - vm_compute. discriminate.
  - reflexivity.
  - constructor; [|constructor]. split; [lia|]. vm_compute. discriminate.
  - lia.
  - apply (run_step 32 3000 _ [] (latched_demo 1900 0) (latched_demo 1900 0) 2000);
      [constructor|reflexivity].
  - vm_compute. reflexivity.
  - vm_compute. discriminate.
  - vm_compute. reflexivity.
Defined.

(** The rejoin backoff after an engagement is 1 when the link never
    rejoined or its last rejoin outlasted the probation, and otherwise the
    double of the previous one, never above 16. *)
Theorem backoff_law (b released held probation : Z) :
  0 <= b <= STALL_REJOIN_BACKOFF_MAX ->
  stall_rejoin_backoff_next b released held probation =
    if (released =? 0) || (probation <=? held) then 1
    else Z.min STALL_REJOIN_BACKOFF_MAX (2 * Z.max b 1).
Proof.
  unfold stall_rejoin_backoff_next, STALL_REJOIN_BACKOFF_MAX, u32_max, two32. intros Hb.
  rewrite Z.geb_leb. destruct (_ || _); [done|]. destruct (Z.leb_spec b 1); lia.
Qed.

Lemma backoff_law_witness : stall_rejoin_backoff_next 8 100 50 3000 = 16.
Proof. rewrite (backoff_law 8 100 50 3000); [reflexivity|]. unfold STALL_REJOIN_BACKOFF_MAX; lia. Defined.

(** Calling the probe cadence [n] times, counting the probes due. *)
Fixpoint probe_calls (n : nat) (c : SrtlaConnection) : SrtlaConnection * Z :=
  match n with
  | O => (c, 0)
  | S n => let '(c, due) := stall_probe_due c in
           let '(c, k) := probe_calls n c in (c, (if due : bool then 1 else 0) + k)
  end.

Lemma stall_probe_due_spec c :
  0 <= stall_probe_counter c < STALL_PROBE_ONE_IN_N ->
  exists c', stall_probe_due c = (c', stall_probe_counter c =? 99) /\
    stall_probe_counter c' = if stall_probe_counter c =? 99 then 0 else stall_probe_counter c + 1.
Proof.
  unfold STALL_PROBE_ONE_IN_N, stall_probe_due. cbn -[u32_wrap]. intros Hc.
  rewrite u32_wrap_id by (unfold_ints; lia). unfold STALL_PROBE_ONE_IN_N.
  destruct (Z.geb_spec (stall_probe_counter c + 1) 100), (Z.eqb_spec (stall_probe_counter c) 99);
    try lia; by eexists.
Qed.

Lemma probe_calls_count n c :
  0 <= stall_probe_counter c < STALL_PROBE_ONE_IN_N ->
  (probe_calls n c).2 = (stall_probe_counter c + Z.of_nat n) / STALL_PROBE_ONE_IN_N.
Proof.
  revert c. induction n as [|n IH]; intros c Hc; cbn [probe_calls].
  { cbn. symmetry. apply Z.div_small. lia. }
  destruct (stall_probe_due_spec c Hc) as (c1 & -> & Hc1). unfold STALL_PROBE_ONE_IN_N in *.
  specialize (IH c1). destruct (probe_calls n c1) as [c2 k]. cbn [snd] in *. rewrite IH, Hc1.
  - destruct (Z.eqb_spec (stall_probe_counter c) 99); zlia.
  - rewrite Hc1. destruct (Z.eqb_spec (stall_probe_counter c) 99); lia.
Qed.

(** Of any number of routed packets a gated link is offered, exactly one in
    a hundred becomes a duplicate probe. *)
Theorem probe_cadence (c : SrtlaConnection) (n : nat) :
  stall_probe_counter c = 0 -> (probe_calls n c).2 = Z.of_nat n / STALL_PROBE_ONE_IN_N.
Proof.
  intros Hc. rewrite probe_calls_count by (rewrite Hc; unfold STALL_PROBE_ONE_IN_N; lia).
  by rewrite Hc, Z.add_0_l.
Qed.

Lemma probe_cadence_witness : (probe_calls 250 (new_registering 1 0 0)).2 = 2.
Proof. rewrite (probe_cadence (new_registering 1 0 0) 250); reflexivity. Defined.

(** The rejoin ramp always gives a rejoining link a share between 5% and
    100% of its natural score, whatever the clock says. *)
Theorem ramp_in_range (start ramp now : Z) :
  ramp < two64 ->
  fle STALL_REJOIN_RAMP_FLOOR (rejoin_ramp_multiplier_of start ramp now) = true /\
  fle (rejoin_ramp_multiplier_of start ramp now) f1 = true.
Proof.
  intros Hr. unfold rejoin_ramp_multiplier_of.
  assert (fle STALL_REJOIN_RAMP_FLOOR f1 = true) as Hle by (vm_compute; reflexivity).
  destruct (_ || _); [split; [exact Hle|vm_compute; reflexivity]|].
  destruct (Z.geb_spec (sat_sub now start) ramp); [split; [exact Hle|vm_compute; reflexivity]|].
  apply fclamp_range; [|exact Hle].
  apply fadd_num; [vm_compute; reflexivity|]. apply fmul_num; [vm_compute; reflexivity..|].
  assert (0 <= sat_sub now start) as Hs by (unfold sat_sub; lia).
  destruct (f_of_Z_finite ramp) as (m & e & ->); [lia|]. apply fdiv_num.
  destruct (decide (sat_sub now start = 0)) as [->|Hne]; [reflexivity|].
  destruct (f_of_Z_finite (sat_sub now start)) as (m2 & e2 & ->); [lia|done].
Qed.

Lemma ramp_in_range_witness :
  fle STALL_REJOIN_RAMP_FLOOR (rejoin_ramp_multiplier_of 1000 2000 1500) = true.
Proof. apply (ramp_in_range 1000 2000 1500). unfold two64; lia. Defined.

(** Putting a link into recovery takes it out of the rotation at once: it
    scores -1, is not schedulable, is already timed out, and has nothing in
    flight or queued; the counters of its life survive. *)
Theorem mark_for_recovery_isolates (c : SrtlaConnection) (now : Z) :
  0 <= now ->
  let c' := mark_for_recovery c in
  get_score c' = -1 /\ is_schedulable c' = false /\ is_timed_out c' now = true /\
  in_flight_packets c' = 0 /\ packet_log c' = ∅ /\ pending (batch_sender c') = [] /\
  stall_gate_events c' = stall_gate_events c /\ silence_pulls c' = silence_pulls c /\
  nak_count (congestion c') = nak_count (congestion c).
Proof.
  intros Hn. cbv zeta. split_and!; try reflexivity.
  unfold is_timed_out, mark_for_recovery. cbn -[batch_reset].
  rewrite (proj2 (Z.ltb_ge now 0)) by done. by rewrite andb_false_r.
Qed.

Lemma mark_for_recovery_isolates_witness :
  is_timed_out (mark_for_recovery (new_registering 1 0 50)) 100 = true.
Proof. apply (mark_for_recovery_isolates (new_registering 1 0 50) 100). lia. Defined.
