(* ===== verification/Classifier.v ===== *)
(** * The weak-link classifier (selection/classifier.rs)

    Once per housekeeping tick every link is judged: late against a delay tier
    cut from the stream's delay budget, or starved of its share of the
    throughput.  [WeakLinkFilter] remembers five numbers per link id between
    ticks.  [judge_link] is the body of the third pass for one link, as a
    function of what the filter remembers about it ([LinkHistory]); [classify]
    is the whole pass over the links.

    The theorems: a delay verdict is given exactly when the link was late on
    two ticks in a row, and no link is held out for lack of traffic for more
    than 240 ticks without a re-test. *)
From S2P Require Import Prelude F64 Filters Rtt Pacing Config Connection.

Definition TARGET_BEST_SAFE_CAP_MS : Z := 2500.
Definition TARGET_MAX_CAP_MS : Z := 5000.
Definition RTT_TO_DELAY_BUDGET_MULT : f64 := f_of_Z 3.
Definition MIN_BUDGET_MS : Z := 500.
Definition MAX_BUDGET_MS : Z := 5000.
Definition MAX_NEGOTIATED_BUDGET_MS : Z := 20000.
Definition SHARE_85_PERMILLE : Z := 850.
Definition SHARE_50_PERMILLE : Z := 500.
Definition SHARE_25_PERMILLE : Z := 250.
Definition ENTER_FAIR_SHARE_NUMERATOR : Z := 250.
Definition LEAVE_FAIR_SHARE_NUMERATOR : Z := 750.
Definition MIN_TOTAL_BPS_FOR_CLASSIFICATION : f64 := f_of_Z 100000.
Definition WEAK_SUSTAIN_TICKS : Z := 2.
Definition PROBATION_INTERVAL_TICKS : Z := 15.
Definition PROBATION_WINDOW_TICKS : Z := 3.
Definition PROBATION_BACKOFF_MAX : Z := 16.

(** [saturating_mul] of the 32-bit type. *)
Definition sat_mul_u32 (a b : Z) : Z := Z.min u32_max (a * b).

Definition probation_backoff_next (backoff : Z) : Z :=
  let doubled := if backoff <=? 1 then 2 else sat_mul_u32 backoff 2 in
  Z.min doubled PROBATION_BACKOFF_MAX.

(** ** The delay budget and its tiers *)
Definition derive_max_delay_budget (longest_rtt_ms : Z) : Z :=
  let raw := f_as_u32 (fmul (f_of_Z longest_rtt_ms) RTT_TO_DELAY_BUDGET_MULT) in
  clamp_Z raw MIN_BUDGET_MS MAX_BUDGET_MS.

Definition stream_delay_budget_ms (negotiated_latency_ms longest_rtt_ms : Z) : Z :=
  if negotiated_latency_ms =? 0 then derive_max_delay_budget longest_rtt_ms
  else clamp_Z (sat_mul_u32 negotiated_latency_ms 2) MIN_BUDGET_MS MAX_NEGOTIATED_BUDGET_MS.

Definition target_best_delay_ms (est_ms : Z) : Z := Z.min (est_ms * 40 / 100) TARGET_BEST_SAFE_CAP_MS.
Definition target_safe_delay_ms (est_ms : Z) : Z := Z.min (est_ms * 50 / 100) TARGET_BEST_SAFE_CAP_MS.
Definition target_max_delay_ms (est_ms : Z) : Z := Z.min (est_ms * 60 / 100) TARGET_MAX_CAP_MS.

Definition pick_tier (total_bps best_bps safe_bps max_bps : f64) (best_delay safe_delay max_delay : Z) : Z :=
  let pm bps := f_as_u64 (fdiv (fmul bps (f_of_Z 1000)) total_bps) in
  let best_pm := pm best_bps in
  let safe_pm := pm safe_bps in
  let max_pm := pm max_bps in
  if best_pm >? SHARE_85_PERMILLE then best_delay
  else if safe_pm >? SHARE_85_PERMILLE then safe_delay
  else if max_pm >? SHARE_85_PERMILLE then
    if best_pm >? SHARE_50_PERMILLE then best_delay
    else if safe_pm >? SHARE_50_PERMILLE then safe_delay
    else if max_pm >? SHARE_50_PERMILLE then max_delay
    else if best_pm >? SHARE_25_PERMILLE then best_delay
    else if safe_pm >? SHARE_25_PERMILLE then safe_delay
    else max_delay
  else max_delay.

(** ** Results and memory *)
Record LinkClassification := mkClass {
  lc_conn_id : Z; lc_weak : bool; lc_reason : WeakReason; lc_share_permille : Z; lc_threshold_permille : Z }.

Record ClassificationResult := mkResult {
  selected_delay_ms : Z; estimated_max_delay_ms : Z; per_link : list LinkClassification }.

Record WeakLinkFilter := mkFilter {
  prev_weak : gmap Z bool;
  delay_weak_streak : gmap Z Z;
  weak_streak : gmap Z Z;
  probation_ticks : gmap Z Z;
  probation_backoff : gmap Z Z }.

Definition filter_new : WeakLinkFilter := mkFilter ∅ ∅ ∅ ∅ ∅.

(** What the filter remembers about one link, [unwrap_or] applied. *)
Record LinkHistory := mkHistory {
  h_was_weak : bool; h_delay_streak : Z; h_streak : Z; h_probation : Z; h_backoff : Z }.

Definition history_none : LinkHistory := mkHistory false 0 0 0 0.

Definition history (self : WeakLinkFilter) (id : Z) : LinkHistory :=
  mkHistory (default false (prev_weak self !! id)) (default 0 (delay_weak_streak self !! id))
    (default 0 (weak_streak self !! id)) (default 0 (probation_ticks self !! id))
    (default 0 (probation_backoff self !! id)).

Definition remember (self : WeakLinkFilter) (id : Z) (h : LinkHistory) : WeakLinkFilter :=
  mkFilter (<[id := h_was_weak h]> (prev_weak self)) (<[id := h_delay_streak h]> (delay_weak_streak self))
    (<[id := h_streak h]> (weak_streak self)) (<[id := h_probation h]> (probation_ticks self))
    (<[id := h_backoff h]> (probation_backoff self)).

(** ** Signals of one link *)
Definition link_bps (conn : SrtlaConnection) : f64 := fmax (current_bitrate_bps (bitrate conn)) f0.
Definition link_rtt_ms (conn : SrtlaConnection) : Z := f_as_u32 (get_smooth_rtt_ms conn).

Definition delay_signal (conn : SrtlaConnection) (selected_delay : Z) : option WeakReason :=
  if link_rtt_ms conn >? selected_delay then Some HighRtt
  else if conn_queue_building_suspected conn then Some QueueBuilding
  else None.

(** The probation re-test: the three remembered numbers and the verdict. *)
Definition probation_step (delay_weak weak : bool) (reason : WeakReason) (probation streak backoff : Z)
  : (bool * WeakReason) * (Z * Z * Z) :=
  let share_weak := weak && match reason with LowShare | NoTraffic => true | _ => false end in
  if (probation >? 0) && delay_weak then ((weak, reason), (0, 0, backoff))
  else if probation >? 0 then ((false, Healthy), (probation - 1, 0, backoff))
  else if share_weak then
    let streak := sat_add_u32 streak 1 in
    let interval := sat_mul_u32 PROBATION_INTERVAL_TICKS (Z.max backoff 1) in
    if streak >=? interval
    then ((weak, reason), (PROBATION_WINDOW_TICKS, 0, probation_backoff_next backoff))
    else ((weak, reason), (probation, streak, backoff))
  else ((weak, reason), (probation, 0, if negb weak then 1 else backoff)).

(** The third pass for one connected link.  [default Healthy] is the [unwrap] of
    the signal: a streak of two needs a signal, so it never sees [None]. *)
Definition judge_link (h : LinkHistory) (conn : SrtlaConnection) (total_bps : f64) (selected_delay n_connected : Z)
  : LinkClassification * LinkHistory :=
  let enter_threshold_permille := ENTER_FAIR_SHARE_NUMERATOR / n_connected in
  let leave_threshold_permille := LEAVE_FAIR_SHARE_NUMERATOR / n_connected in
  let bps := link_bps conn in
  let share_permille :=
    if fgt total_bps f0
    then f_as_u32 (fclamp (fdiv (fmul bps (f_of_Z 1000)) total_bps) f0 (f_of_Z 1000))
    else 0 in
  let was_weak := h_was_weak h in
  let threshold := if was_weak then leave_threshold_permille else enter_threshold_permille in
  let signal := delay_signal conn selected_delay in
  let delay_streak := match signal with Some _ => sat_add_u32 (h_delay_streak h) 1 | None => 0 end in
  let delay_weak := delay_streak >=? WEAK_SUSTAIN_TICKS in
  let '(weak, reason) :=
    if delay_weak then (true, default Healthy signal)
    else if feq bps f0 then (true, NoTraffic)
    else if was_weak && (share_permille <? leave_threshold_permille) then (true, LowShare)
    else if negb was_weak && (share_permille <? enter_threshold_permille) then (true, LowShare)
    else (false, Healthy) in
  let '((weak, reason), (probation, streak, backoff)) :=
    probation_step delay_weak weak reason (h_probation h) (h_streak h) (h_backoff h) in
  (mkClass (conn_id conn) weak reason share_permille threshold,
   mkHistory weak delay_streak streak probation backoff).

(** ** The passes *)
Definition gather (conns : list SrtlaConnection) : f64 * Z * Z :=
  fold_left (fun '(total_bps, longest_rtt_ms, connected_count) conn =>
    if negb (connected conn) then (total_bps, longest_rtt_ms, connected_count)
    else
      let rtt_ms := link_rtt_ms conn in
      (fadd total_bps (link_bps conn),
       if rtt_ms >? longest_rtt_ms then rtt_ms else longest_rtt_ms,
       connected_count + 1)) conns (f0, 0, 0).

Definition bucket (conns : list SrtlaConnection) (target_best target_safe target_max : Z) : f64 * f64 * f64 :=
  fold_left (fun '(best, safe, max) conn =>
    if negb (connected conn) then (best, safe, max)
    else
      let bps := link_bps conn in
      let rtt_ms := link_rtt_ms conn in
      (if rtt_ms <=? target_best then fadd best bps else best,
       if rtt_ms <=? target_safe then fadd safe bps else safe,
       if rtt_ms <=? target_max then fadd max bps else max)) conns (f0, f0, f0).

Definition judge_step (self : WeakLinkFilter) (total_bps : f64) (selected_delay n_connected : Z)
    (acc : WeakLinkFilter * list LinkClassification) (conn : SrtlaConnection)
  : WeakLinkFilter * list LinkClassification :=
  let '(next, out) := acc in
  if negb (connected conn) then (next, out ++ [mkClass (conn_id conn) false Healthy 0 0])
  else
    let '(e, h) := judge_link (history self (conn_id conn)) conn total_bps selected_delay n_connected in
    (remember next (conn_id conn) h, out ++ [e]).

Definition classify (self : WeakLinkFilter) (conns : list SrtlaConnection) (negotiated_latency_ms : Z)
  : WeakLinkFilter * ClassificationResult :=
  let '(total_bps, longest_rtt_ms, connected_count) := gather conns in
  if flt total_bps MIN_TOTAL_BPS_FOR_CLASSIFICATION || (connected_count =? 0) then
    (filter_new, mkResult 0 0 (map (fun conn => mkClass (conn_id conn) false Bypassed 0 0) conns))
  else
    let estimated := stream_delay_budget_ms negotiated_latency_ms longest_rtt_ms in
    let target_best := target_best_delay_ms estimated in
    let target_safe := target_safe_delay_ms estimated in
    let target_max := target_max_delay_ms estimated in
    let '(best, safe, max) := bucket conns target_best target_safe target_max in
    let selected_delay := pick_tier total_bps best safe max target_best target_safe target_max in
    let '(next, out) :=
      fold_left (judge_step self total_bps selected_delay connected_count) conns (filter_new, []) in
    (next, mkResult selected_delay estimated out).

(** The verdict on one link, found by id as the main loop does. *)
Definition verdict (id : Z) (r : ClassificationResult) : option LinkClassification :=
  List.find (fun e => lc_conn_id e =? id) (per_link r).

(** ** Runs of ticks *)
Definition tick_input : Type := list SrtlaConnection * Z.

Fixpoint classifier_run (f : WeakLinkFilter) (ticks : list tick_input) : list (tick_input * ClassificationResult) :=
  match ticks with
  | [] => []
  | t :: rest => let '(f', r) := classify f t.1 t.2 in (t, r) :: classifier_run f' rest
  end.

(** Link ids are unique in every list the loop passes in. *)
Definition unique_ids (t : tick_input) : Prop := NoDup (map conn_id t.1).

(** The link was judged on this tick and one of its delay signals was up. *)
Definition late (id : Z) (o : tick_input * ClassificationResult) : bool :=
  (0 <? estimated_max_delay_ms o.2) &&
  existsb (fun c => (conn_id c =? id) && connected c && bool_decide (is_Some (delay_signal c (selected_delay_ms o.2)))) o.1.1.

Definition delay_verdict (id : Z) (r : ClassificationResult) : bool :=
  match verdict id r with Some e => lc_weak e && is_delay (lc_reason e) | None => false end.

Definition share_verdict (id : Z) (r : ClassificationResult) : bool :=
  match verdict id r with
  | Some e => lc_weak e && bool_decide (lc_reason e = LowShare \/ lc_reason e = NoTraffic)
  | None => false
  end.

(** ** The effect of a tick on one link *)
Section Fold.
Context (self : WeakLinkFilter) (total : f64) (delay n : Z).

Definition judged (c : SrtlaConnection) : LinkClassification :=
  if connected c then (judge_link (history self (conn_id c)) c total delay n).1
  else mkClass (conn_id c) false Healthy 0 0.

Lemma judge_link_id h c : lc_conn_id (judge_link h c total delay n).1 = conn_id c.
Proof.
  unfold judge_link. destruct (if _ : bool then _ else _) as [w r].
  destruct (probation_step _ _ _ _ _ _) as [[w' r'] [[p s] b]]. done.
Qed.

Lemma judged_id c : lc_conn_id (judged c) = conn_id c.
Proof. unfold judged. destruct (connected c); [apply judge_link_id|done]. Qed.

Lemma history_remember f id h id' :
  history (remember f id h) id' = if decide (id' = id) then h else history f id'.
Proof.
  unfold history, remember; cbn. destruct (decide (id' = id)) as [->|Hne].
  - rewrite !lookup_insert_eq. by destruct h.
  - by rewrite !lookup_insert_ne.
Qed.

Lemma judge_step_eq acc c :
  judge_step self total delay n acc c =
    (if connected c then remember acc.1 (conn_id c) (judge_link (history self (conn_id c)) c total delay n).2 else acc.1,
     acc.2 ++ [judged c]).
Proof.
  unfold judge_step, judged. destruct acc as [next out]. destruct (connected c); [|done].
  by destruct (judge_link _ c total delay n).
Qed.

Lemma judge_fold_out conns acc :
  (fold_left (judge_step self total delay n) conns acc).2 = acc.2 ++ map judged conns.
Proof.
  revert acc. induction conns as [|c conns IH]; intros acc; cbn [fold_left map]; [by rewrite app_nil_r|].
  rewrite IH, judge_step_eq. cbn. by rewrite <- app_assoc.
Qed.

Lemma judge_fold_skip conns acc id :
  (forall c, c ∈ conns -> conn_id c = id -> connected c = false) ->
  history (fold_left (judge_step self total delay n) conns acc).1 id = history acc.1 id.
Proof.
  revert acc. induction conns as [|c conns IH]; intros acc Hc; cbn [fold_left]; [done|].
  rewrite IH by (intros; apply Hc; [by right|done]). rewrite judge_step_eq; cbn.
  destruct (connected c) eqn:E; [|done]. rewrite history_remember. destruct (decide _) as [->|]; [|done].
  rewrite (Hc c) in E; [done|by left|done].
Qed.

Lemma judge_fold_hit conns acc c :
  NoDup (map conn_id conns) -> c ∈ conns -> connected c = true ->
  history (fold_left (judge_step self total delay n) conns acc).1 (conn_id c) =
    (judge_link (history self (conn_id c)) c total delay n).2.
Proof.
  revert acc. induction conns as [|d conns IH]; intros acc Hnd Hin Hc; [by apply elem_of_nil in Hin|].
  cbn [map] in Hnd. apply NoDup_cons in Hnd as [Hd Hnd]. cbn [fold_left].
  apply elem_of_cons in Hin as [->|Hin]; [|by apply IH].
  rewrite judge_fold_skip.
  - rewrite judge_step_eq; cbn. rewrite Hc, history_remember. by destruct (decide _).
  - intros e He Hid. destruct Hd. rewrite <- Hid. by apply list_elem_of_fmap_2.
Qed.

Lemma find_judged conns c :
  NoDup (map conn_id conns) -> c ∈ conns ->
  List.find (fun e => lc_conn_id e =? conn_id c) (map judged conns) = Some (judged c).
Proof.
  induction conns as [|d conns IH]; intros Hnd Hin; [by apply elem_of_nil in Hin|].
  cbn [map] in Hnd. apply NoDup_cons in Hnd as [Hd Hnd]. cbn [map List.find]. rewrite judged_id.
  apply elem_of_cons in Hin as [->|Hin]; [by rewrite Z.eqb_refl|].
  destruct (Z.eqb_spec (conn_id d) (conn_id c)) as [E|_]; [|by apply IH].
  destruct Hd. rewrite E. by apply list_elem_of_fmap_2.
Qed.
End Fold.

Lemma find_quiet (l : list LinkClassification) id :
  (forall e, e ∈ l -> lc_conn_id e = id -> lc_weak e = false) ->
  match List.find (fun e => lc_conn_id e =? id) l with Some e => lc_weak e = false | None => True end.
Proof.
  intros H. destruct (List.find _ l) as [e|] eqn:E; [|done]. apply find_some in E as [E1 E2].
  apply H; [by apply list_elem_of_In|lia].
Qed.

Lemma clamp_range x lo hi : lo <= hi -> lo <= clamp_Z x lo hi <= hi.
Proof. unfold clamp_Z. lia. Qed.

Lemma stream_budget_range neg rtt : 500 <= stream_delay_budget_ms neg rtt <= 20000.
Proof.
  unfold stream_delay_budget_ms, derive_max_delay_budget, MIN_BUDGET_MS, MAX_BUDGET_MS, MAX_NEGOTIATED_BUDGET_MS.
  destruct (neg =? 0); match goal with |- context [clamp_Z ?x ?l ?h] => pose proof (clamp_range x l h) end; lia.
Qed.

(** The tick as one link sees it: not judged (absent, not connected or
    bypassed), or judged from its history. *)
Inductive link_tick (f : WeakLinkFilter) (t : tick_input) (id : Z) : Prop :=
| LT_skip (Hsome : forall c, c ∈ t.1 -> conn_id c = id -> connected c = true ->
              estimated_max_delay_ms (classify f t.1 t.2).2 = 0)
    (Hhist : history (classify f t.1 t.2).1 id = history_none)
    (Hquiet : match verdict id (classify f t.1 t.2).2 with Some e => lc_weak e = false | None => True end)
| LT_judged c total n (Hin : c ∈ t.1) (Hid : conn_id c = id) (Hconn : connected c = true)
    (Hest : 0 < estimated_max_delay_ms (classify f t.1 t.2).2)
    (Hhist : history (classify f t.1 t.2).1 id =
       (judge_link (history f id) c total (selected_delay_ms (classify f t.1 t.2).2) n).2)
    (Hv : verdict id (classify f t.1 t.2).2 =
       Some (judge_link (history f id) c total (selected_delay_ms (classify f t.1 t.2).2) n).1).

Lemma connected_dec (conns : list SrtlaConnection) id :
  (exists c, c ∈ conns /\ conn_id c = id /\ connected c = true) \/
  (forall c, c ∈ conns -> conn_id c = id -> connected c = false).
Proof.
  induction conns as [|d conns IH].
  - right. intros c Hc. by apply elem_of_nil in Hc.
  - destruct IH as [(c & H1 & H2)|IH]; [left; exists c; split; [by right|done]|].
    destruct (decide (conn_id d = id /\ connected d = true)) as [H|H]; [left; exists d; split; [by left|done]|].
    right. intros c Hc Hid. apply elem_of_cons in Hc as [->|Hc]; [|by apply IH].
    destruct (connected d); [|done]. by destruct H.
Qed.

Lemma classify_link f t id : unique_ids t -> link_tick f t id.
Proof.
  unfold unique_ids. intros Hu. destruct t as [conns neg]; cbn [fst snd] in *.
  destruct (connected_dec conns id) as [(c & Hin & Hid & Hc)|Hoff].
  - destruct (flt (gather conns).1.1 MIN_TOTAL_BPS_FOR_CLASSIFICATION || ((gather conns).2 =? 0)) eqn:Eb.
    + apply LT_skip; cbn [fst snd]; unfold classify; destruct (gather conns) as [[total rtt] n]; cbn [fst snd] in Eb; rewrite Eb;
        [done..|].
      apply find_quiet. cbn. intros e He _. apply list_elem_of_fmap in He as (d & -> & _). done.
    + destruct (gather conns) as [[total rtt] n] eqn:Eg. subst id.
      apply LT_judged with c total n; cbn [fst snd]; try done; unfold classify; rewrite Eg; cbn [fst snd] in Eb; rewrite Eb;
        destruct (bucket _ _ _ _) as [[b s] m]; set (d := pick_tier _ _ _ _ _ _ _);
        destruct (fold_left _ _ _) as [next out] eqn:Ef; cbn.
      * pose proof (stream_budget_range neg rtt). lia.
      * pose proof (judge_fold_hit f total d n conns (filter_new, []) c Hu Hin Hc) as H. by rewrite Ef in H.
      * pose proof (judge_fold_out f total d n conns (filter_new, [])) as H. rewrite Ef in H. cbn in H.
        unfold verdict; cbn. rewrite H, find_judged by done. unfold judged. by rewrite Hc.
  - apply LT_skip; cbn [fst snd]; [intros c H1 H2 H3; by rewrite (Hoff c H1 H2) in H3|..];
      unfold classify; destruct (gather conns) as [[total rtt] n]; destruct (_ || _); try done.
    + destruct (bucket _ _ _ _) as [[b s] m]. set (d := pick_tier _ _ _ _ _ _ _).
      pose proof (judge_fold_skip f total d n conns (filter_new, []) id Hoff) as H.
      destruct (fold_left _ _ _). exact H.
    + apply find_quiet. cbn. intros e He _. apply list_elem_of_fmap in He as (d & -> & _). done.
    + destruct (bucket _ _ _ _) as [[b s] m]. set (d := pick_tier _ _ _ _ _ _ _).
      pose proof (judge_fold_out f total d n conns (filter_new, [])) as H.
      destruct (fold_left _ _ _) as [next out]. cbn in H. subst out.
      apply find_quiet. cbn. intros e He Hid. apply list_elem_of_fmap in He as (c & -> & Hc).
      rewrite judged_id in Hid. unfold judged. by rewrite (Hoff c Hc Hid).
Qed.

(** ** What one judgement does to a link's memory *)
Definition share_weak (e : LinkClassification) : Prop :=
  lc_weak e = true /\ (lc_reason e = LowShare \/ lc_reason e = NoTraffic).

Definition history_ok (h : LinkHistory) : Prop :=
  0 <= h_delay_streak h <= u32_max /\ 0 <= h_streak h /\ 0 <= h_probation h /\ 0 <= h_backoff h <= 16.

Lemma probation_backoff_range b : 0 <= b <= 16 -> 0 <= probation_backoff_next b <= 16.
Proof.
  intros H. unfold probation_backoff_next, sat_mul_u32, PROBATION_BACKOFF_MAX. unfold_ints.
  destruct (b <=? 1); lia.
Qed.

Lemma interval_eq b : 0 <= b <= 16 -> sat_mul_u32 PROBATION_INTERVAL_TICKS (Z.max b 1) = 15 * Z.max b 1.
Proof. intros H. unfold sat_mul_u32, PROBATION_INTERVAL_TICKS. unfold_ints. lia. Qed.

(** The re-test machine: a share verdict outside a window either lengthens the
    streak or opens the window; nothing else is a share verdict. *)
Lemma probation_step_spec dw w r p s b :
  0 <= s -> 0 <= p -> 0 <= b <= 16 ->
  let '((w', r'), (p', s', b')) := probation_step dw w r p s b in
  (0 <= s' /\ 0 <= p' /\ 0 <= b' <= 16) /\
  (w' = true /\ (r' = LowShare \/ r' = NoTraffic) -> (dw = true -> r <> LowShare /\ r <> NoTraffic) ->
    p = 0 /\ (p' = 3 \/ (p' = 0 /\ s' = s + 1 /\ s' < 240))).
Proof.
  intros Hs Hp Hb. unfold probation_step. pose proof (probation_backoff_range b Hb). rewrite interval_eq by done.
  destruct (Z.gtb_spec p 0); cbn [andb].
  - destruct dw; (split; [lia|]).
    + intros [_ [-> | ->]] Hd; destruct (Hd eq_refl); congruence.
    + intros [[=] _].
  - unfold PROBATION_WINDOW_TICKS, sat_add_u32.
    destruct (w && _) eqn:Esw.
    + destruct (Z.geb_spec (Z.min u32_max (s + 1)) (15 * Z.max b 1)); (split; [unfold_ints; lia|]); intros _ _.
      * split; [lia|by left].
      * split; [lia|right]. unfold_ints; lia.
    + split; [destruct (negb w); lia|]. intros [-> [-> | ->]]; done.
Qed.

Section Judge.
Context (h : LinkHistory) (c : SrtlaConnection) (total : f64) (delay n : Z).
Hypothesis Hok : history_ok h.

Lemma judge_link_history :
  h_delay_streak (judge_link h c total delay n).2 =
    match delay_signal c delay with Some _ => sat_add_u32 (h_delay_streak h) 1 | None => 0 end.
Proof using.
  unfold judge_link. destruct (if _ : bool then _ else _) as [w r].
  by destruct (probation_step _ _ _ _ _ _) as [[w' r'] [[p s] b]].
Qed.

Lemma judge_link_spec :
  history_ok (judge_link h c total delay n).2 /\
  (share_weak (judge_link h c total delay n).1 ->
    h_probation h = 0 /\
    let h' := (judge_link h c total delay n).2 in
    (h_probation h' = 3 \/ (h_probation h' = 0 /\ h_streak h' = h_streak h + 1 /\ h_streak h' < 240))).
Proof using Hok.
  destruct Hok as (Hd & Hs & Hp & Hb). unfold judge_link.
  set (ds := match delay_signal c delay with Some _ => _ | None => _ end).
  assert (0 <= ds <= u32_max) as Hds by (unfold ds; destruct (delay_signal c delay); unfold_ints; lia).
  destruct (if _ : bool then _ else _) as [w r] eqn:Ewr.
  assert ((ds >=? WEAK_SUSTAIN_TICKS) = true -> r <> LowShare /\ r <> NoTraffic) as Hr.
  { intros E. rewrite E in Ewr. injection Ewr as _ <-. unfold ds in E.
    unfold delay_signal in *. destruct (_ >? _); [done|]. by destruct (conn_queue_building_suspected c). }
  pose proof (probation_step_spec (ds >=? WEAK_SUSTAIN_TICKS) w r _ _ _ Hs Hp Hb) as H.
  destruct (probation_step _ _ _ _ _ _) as [[w' r'] [[p s] b]]. destruct H as [H1 H2].
  split; [unfold history_ok; cbn; lia|]. intros Hsw. exact (H2 Hsw Hr).
Qed.

(** A delay verdict is the second delay signal in a row, window or not. *)
Lemma judge_link_delay :
  (let e := (judge_link h c total delay n).1 in lc_weak e && is_delay (lc_reason e)) =
    bool_decide (is_Some (delay_signal c delay)) && (1 <=? h_delay_streak h).
Proof using Hok.
  destruct Hok as (Hd & _ & _ & _). unfold judge_link, WEAK_SUSTAIN_TICKS.
  destruct (delay_signal c delay) as [sig|] eqn:Es; cbn [default].
  - assert (is_delay sig = true) as Hsig
      by (unfold delay_signal in Es; destruct (_ >? _); [|destruct (conn_queue_building_suspected c)]; by simplify_eq).
    rewrite bool_decide_eq_true_2 by done. cbn [andb].
    destruct (Z.leb_spec 1 (h_delay_streak h)) as [H|H].
    + replace (sat_add_u32 (h_delay_streak h) 1 >=? 2) with true by (unfold_ints; lia).
      unfold probation_step. rewrite andb_true_r. destruct (_ >? 0); cbn; [done|].
      by destruct sig.
    + replace (sat_add_u32 (h_delay_streak h) 1 >=? 2) with false by (unfold_ints; lia).
      unfold probation_step. rewrite andb_false_r. repeat (case_match; simplify_eq; try done).
  - rewrite bool_decide_eq_false_2 by (by intros [? [=]]). cbn [andb].
    replace (0 >=? 2) with false by done.
    unfold probation_step. rewrite andb_false_r. repeat (case_match; simplify_eq; try done).
Qed.
End Judge.

Definition filter_ok (f : WeakLinkFilter) : Prop := forall id, history_ok (history f id).

Lemma history_new id : history filter_new id = history_none.
Proof.
  unfold history, filter_new. cbn [prev_weak delay_weak_streak weak_streak probation_ticks probation_backoff].
  by rewrite !lookup_empty.
Qed.

Lemma filter_new_ok : filter_ok filter_new.
Proof. intros id. rewrite history_new. unfold history_ok; cbn. unfold_ints. lia. Qed.

Lemma classify_filter_ok f t : unique_ids t -> filter_ok f -> filter_ok (classify f t.1 t.2).1.
Proof.
  intros Hu Hf id. destruct (classify_link f t id Hu) as [_ -> _|c total n _ _ _ _ -> _].
  - apply (filter_new_ok id).
  - by apply judge_link_spec.
Qed.

Lemma classifier_run_cons f t ts :
  classifier_run f (t :: ts) = (t, (classify f t.1 t.2).2) :: classifier_run (classify f t.1 t.2).1 ts.
Proof. cbn. by destruct (classify f t.1 t.2). Qed.

Lemma classifier_run_length f ts : length (classifier_run f ts) = length ts.
Proof. revert f. induction ts as [|t ts IH]; intros f; [done|]. rewrite classifier_run_cons. cbn. by rewrite IH. Qed.

Lemma share_verdict_weak id r :
  share_verdict id r = true -> exists e, verdict id r = Some e /\ share_weak e.
Proof.
  unfold share_verdict. destruct (verdict id r) as [e|]; [|done]. intros H.
  apply andb_true_iff in H as [H1 H2%bool_decide_eq_true]. by exists e.
Qed.

(** Consecutive share verdicts use up the streak that is left to the re-test. *)
Lemma share_run_bound f ticks id :
  filter_ok f -> Forall unique_ids ticks ->
  Forall (fun o => share_verdict id o.2 = true) (classifier_run f ticks) ->
  Z.of_nat (length ticks) <= Z.max 1 (240 - h_streak (history f id)) /\
  (ticks <> [] -> h_probation (history f id) = 0).
Proof.
  revert f. induction ticks as [|t ts IH]; intros f Hf Hu Hall; [cbn; split; [lia|done]|].
  apply Forall_cons in Hu as [Hu Hus]. rewrite classifier_run_cons in Hall.
  apply Forall_cons in Hall as [H1 Hall]. cbn [snd] in H1.
  destruct (IH _ (classify_filter_ok f t Hu Hf) Hus Hall) as [IHl IHp].
  apply share_verdict_weak in H1 as (e & He & Hweak).
  destruct (classify_link f t id Hu) as [_ _ Hq|c total n _ _ _ _ Hh Hv].
  { rewrite He in Hq. destruct Hweak; congruence. }
  rewrite Hv in He. injection He as <-.
  destruct (judge_link_spec (history f id) c total (selected_delay_ms (classify f t.1 t.2).2) n (Hf id)) as [_ Hj].
  destruct (Hj Hweak) as [Hp Hcase]. split; [|done]. rewrite <- Hh in Hcase. cbn [length].
  destruct Hcase as [H3|(_ & Hs & Hlt)].
  - destruct ts as [|t2 ts]; [cbn; lia|]. specialize (IHp ltac:(done)). lia.
  - lia.
Qed.

Lemma classifier_run_app f ts1 ts2 :
  exists f', classifier_run f (ts1 ++ ts2) = classifier_run f ts1 ++ classifier_run f' ts2 /\
    (Forall unique_ids ts1 -> filter_ok f -> filter_ok f').
Proof.
  revert f. induction ts1 as [|t ts IH]; intros f; [by exists f|].
  destruct (IH (classify f t.1 t.2).1) as (f' & H1 & H2). exists f'. split.
  - cbn [app]. rewrite !classifier_run_cons, H1. done.
  - intros Hu Hf. apply Forall_cons in Hu as [Hu Hus]. apply H2; [done|]. by apply classify_filter_ok.
Qed.

(** C16: no link is starved for good.  Among any 241 ticks in a row of a run of
    the classifier, whatever the links measure, there is one on which a given
    link is not held out for low share or no traffic: the probation window
    opens at the latest after 240 such verdicts (15 ticks, doubled up to 16
    times), so real traffic re-tests the link. *)
Theorem no_share_starvation (before window : list tick_input) (id : Z) :
  Forall unique_ids (before ++ window) -> (241 <= length window)%nat ->
  exists k o, classifier_run filter_new (before ++ window) !! (length before + k)%nat = Some o /\
    share_verdict id o.2 = false.
Proof.
  intros Hu Hlen. apply Forall_app in Hu as [Hu1 Hu2].
  destruct (classifier_run_app filter_new before window) as (f & -> & Hf).
  specialize (Hf Hu1 filter_new_ok).
  destruct (decide (Forall (fun o => share_verdict id o.2 = true) (classifier_run f window))) as [Hall|Hn].
  - destruct (share_run_bound f window id Hf Hu2 Hall) as [H _]. pose proof (Hf id) as (_ & Hs & _). lia.
  - apply not_Forall_Exists in Hn; [|apply _]. apply Exists_exists in Hn as (o & Ho & Hv).
    apply list_elem_of_lookup in Ho as [k Hk]. exists k, o. split; [|by apply not_true_iff_false].
    rewrite lookup_app_r by (rewrite classifier_run_length; lia). rewrite classifier_run_length.
    by replace (length before + k - length before)%nat with k by lia.
Qed.

(** Two links of 9.9 and 0.1 Mbit/s: the second is held out for its share. *)
Definition busy (id bps : Z) : SrtlaConnection :=
  new_registering id 0 0 <| connected := true |> <| phase := Live |>
    <| bitrate ::= fun b => b <| current_bitrate_bps := f_of_Z bps |> |>.
Definition starved_tick : tick_input := ([busy 1 9900000; busy 2 100000], 0).

Lemma starved_unique : unique_ids starved_tick.
Proof. apply NoDup_cons. split; [|apply NoDup_singleton]. by intros [=]%list_elem_of_singleton. Qed.

Lemma no_share_starvation_witness :
  map (fun o => share_verdict 2 o.2) (classifier_run filter_new [starved_tick; starved_tick]) = [true; true] /\
  exists k o, classifier_run filter_new ([starved_tick] ++ replicate 241 starved_tick) !! (1 + k)%nat = Some o /\
    share_verdict 2 o.2 = false.
Proof.
  split; [vm_compute; reflexivity|].
  apply (no_share_starvation [starved_tick] (replicate 241 starved_tick) 2).
  - constructor; [apply starved_unique|]. apply Forall_replicate, starved_unique.
  - rewrite length_replicate. lia.
Defined.

(** ** Delay verdicts *)
Lemma existsb_unique (conns : list SrtlaConnection) (p : SrtlaConnection -> bool) c :
  NoDup (map conn_id conns) -> c ∈ conns -> connected c = true ->
  existsb (fun d => (conn_id d =? conn_id c) && connected d && p d) conns = p c.
Proof.
  intros Hnd Hin Hc. apply eq_iff_eq_true. rewrite existsb_exists. split.
  - intros (d & Hd%list_elem_of_In & H). apply andb_true_iff in H as [[H%Z.eqb_eq _]%andb_true_iff Hp].
    apply list_elem_of_lookup in Hd as [i Hi], Hin as [j Hj].
    replace c with d; [done|].
    assert (i = j) as -> by (eapply (NoDup_lookup (map conn_id conns)); [done|by rewrite list_lookup_fmap, Hi|
      by rewrite list_lookup_fmap, Hj; cbn; rewrite H]). congruence.
  - intros Hp. exists c. split; [by apply list_elem_of_In|]. by rewrite Z.eqb_refl, Hc.
Qed.

Lemma delay_streak_late f t id : filter_ok f -> unique_ids t ->
  let '(f', r) := classify f t.1 t.2 in
  late id (t, r) = (1 <=? h_delay_streak (history f' id)) /\
  delay_verdict id r = late id (t, r) && (1 <=? h_delay_streak (history f id)).
Proof.
  intros Hf Hu. destruct (classify f t.1 t.2) as [f' r] eqn:E. pose proof (Hf id) as Hok.
  destruct (classify_link f t id Hu) as [Hno Hh Hq|c total n Hin <- Hc Hest Hh Hv]; rewrite E in *; cbn [fst snd] in *.
  - assert (late id (t, r) = false) as ->.
    { apply not_true_iff_false. unfold late. cbn [fst snd]. intros [He Hx]%andb_true_iff.
      apply existsb_exists in Hx as (c & Hin%list_elem_of_In & H).
      apply andb_true_iff in H as [[H%Z.eqb_eq Hc]%andb_true_iff _]. specialize (Hno c Hin H Hc). lia. }
    rewrite Hh. split; [done|]. unfold delay_verdict. destruct (verdict id r) as [e|]; [by rewrite Hq|done].
  - assert (late (conn_id c) (t, r) = bool_decide (is_Some (delay_signal c (selected_delay_ms r)))) as ->.
    { unfold late. cbn [fst snd]. rewrite (proj2 (Z.ltb_lt _ _) Hest). cbn [andb]. by rewrite existsb_unique. }
    split; [|unfold delay_verdict; rewrite Hv; by apply (judge_link_delay (history f (conn_id c)))].
    rewrite Hh, judge_link_history. destruct Hok as (Hd & _).
    destruct (delay_signal c (selected_delay_ms r)); [|done]. rewrite bool_decide_eq_true_2 by done. unfold_ints. lia.
Qed.

(** Late on the tick before position [k] of a run that began with memory [m]. *)
Definition late_before (m : bool) (id : Z) (rs : list (tick_input * ClassificationResult)) (k : nat) : bool :=
  match k with O => m | S j => match rs !! j with Some p => late id p | None => false end end.

Lemma delay_run f ticks id k o :
  filter_ok f -> Forall unique_ids ticks -> classifier_run f ticks !! k = Some o ->
  delay_verdict id o.2 = late id o && late_before (1 <=? h_delay_streak (history f id)) id (classifier_run f ticks) k.
Proof.
  revert f k. induction ticks as [|t ts IH]; intros f k Hf Hu Ho; [done|].
  apply Forall_cons in Hu as [Hu Hus]. pose proof (delay_streak_late f t id Hf Hu) as Hd.
  pose proof (classify_filter_ok f t Hu Hf) as Hf'. rewrite classifier_run_cons in *.
  destruct (classify f t.1 t.2) as [f' r]. cbn [fst snd] in *. destruct Hd as [Hl Hd].
  destruct k as [|k]; cbn in Ho; [injection Ho as <-; exact Hd|].
  rewrite (IH f' k Hf' Hus Ho). f_equal. destruct k; cbn; [by rewrite Hl|done].
Qed.

(** C15: exactly a sustained delay demotes a link.  On every tick of a run, a
    link is declared weak for delay (RTT over the chosen tier, or a standing
    queue) if and only if it was late on this tick and on the tick before; a
    one-tick blip never demotes it, and a probation window never hides a link
    that stays late. *)
Theorem delay_verdict_iff (ticks : list tick_input) (id : Z) (k : nat) (o : tick_input * ClassificationResult) :
  Forall unique_ids ticks -> classifier_run filter_new ticks !! k = Some o ->
  delay_verdict id o.2 = late id o && late_before false id (classifier_run filter_new ticks) k.
Proof.
  intros Hu Ho. rewrite (delay_run filter_new ticks id k o filter_new_ok Hu Ho). by rewrite history_new.
Qed.

(** A link at 900 ms beside a healthy one at 50 ms: late against the tiers of a
    120 ms receive buffer. *)
Definition slow_link (c : SrtlaConnection) (ms : Z) : SrtlaConnection :=
  c <| rtt ::= fun r => r <| kalman_rtt ::= fun k => Kalman.update k (f_of_Z ms) |> |>.
Definition delay_ticks : list tick_input :=
  map (fun ms => ([slow_link (busy 1 9000000) 50; slow_link (busy 2 1000000) ms], 120)) [900; 50; 900; 900; 50].

Lemma delay_verdict_iff_witness :
  map (fun o => delay_verdict 2 o.2) (classifier_run filter_new delay_ticks) = [false; false; false; true; false] /\
  exists o, classifier_run filter_new delay_ticks !! 3%nat = Some o /\
    late 2 o && late_before false 2 (classifier_run filter_new delay_ticks) 3 = true.
Proof.
  split; [vm_compute; reflexivity|].
  destruct (classifier_run filter_new delay_ticks !! 3%nat) as [o|] eqn:E.
  - exists o. split; [reflexivity|]. rewrite <- (delay_verdict_iff delay_ticks 2 3 o); [|..|exact E].
    + revert E. vm_compute. intros [= <-]. reflexivity.
    + unfold delay_ticks. repeat constructor; first [by intros [=]%list_elem_of_singleton|by intros ?%elem_of_nil].
  - apply lookup_ge_None in E. rewrite classifier_run_length in E. cbn in E. lia.
Defined.

(** ** The tier cascade *)

(** The cascade without its last step: the tightest tier that carries more than
    85% of the throughput, where the widest one qualifies a tighter one with
    more than 50% is preferred, else the widest. *)
Definition tier_ref (best_pm safe_pm max_pm best_delay safe_delay max_delay : Z) : Z :=
  if 850 <? best_pm then best_delay
  else if 850 <? safe_pm then safe_delay
  else if (850 <? max_pm) && (500 <? best_pm) then best_delay
  else if (850 <? max_pm) && (500 <? safe_pm) then safe_delay
  else max_delay.

(** The tier cascade has no 25% step.  For all throughputs, the delay tier
    the classifier picks is the one of the cascade with the 85% and 50% cutoffs
    alone, because the widest tier always passes the 50% test once it passed the
    85% one; and whatever the links measure the tier of a tick that is not
    bypassed lies between 200 ms and 5 s, so a link below 200 ms is never
    declared late by it. *)
Theorem tier_cascade :
  (forall total best safe max d1 d2 d3,
    let pm bps := f_as_u64 (fdiv (fmul bps (f_of_Z 1000)) total) in
    pick_tier total best safe max d1 d2 d3 = tier_ref (pm best) (pm safe) (pm max) d1 d2 d3) /\
  (forall f conns neg, let r := (classify f conns neg).2 in
    estimated_max_delay_ms r = 0 \/ 200 <= selected_delay_ms r <= 5000).
Proof.
  assert (forall total best safe max d1 d2 d3,
    let pm bps := f_as_u64 (fdiv (fmul bps (f_of_Z 1000)) total) in
    pick_tier total best safe max d1 d2 d3 = tier_ref (pm best) (pm safe) (pm max) d1 d2 d3) as Hpick.
  { intros total best safe max d1 d2 d3 pm. unfold pick_tier. cbv zeta. fold (pm best) (pm safe) (pm max). clearbody pm.
    unfold tier_ref, SHARE_85_PERMILLE, SHARE_50_PERMILLE, SHARE_25_PERMILLE. rewrite !Z.gtb_ltb.
    destruct (850 <? pm best); [done|]. destruct (850 <? pm safe); [done|].
    destruct (Z.ltb_spec 850 (pm max)); cbn [andb]; [|done].
    destruct (500 <? pm best); [done|]. destruct (500 <? pm safe); [done|].
    by rewrite (proj2 (Z.ltb_lt 500 (pm max))) by lia. }
  split; [exact Hpick|]. intros f conns neg. unfold classify. destruct (gather conns) as [[total rtt] n].
  destruct (_ || _); [by left|]. right. pose proof (stream_budget_range neg rtt) as Hb.
  set (est := stream_delay_budget_ms neg rtt) in *. destruct (bucket _ _ _ _) as [[b s] m].
  rewrite Hpick. set (d := tier_ref _ _ _ _ _ _).
  assert (200 <= d <= 5000) as Hd; [|by destruct (fold_left _ _ _)].
  unfold d, tier_ref, target_best_delay_ms, target_safe_delay_ms, target_max_delay_ms, TARGET_BEST_SAFE_CAP_MS, TARGET_MAX_CAP_MS.
  repeat case_match; zlia.
Qed.
