(* ===== verification/Selection.v ===== *)
(** * Link selection (srtla-core/src/selection/{mod,classic,enhanced,quality}.rs, priority.rs)

    For every packet the scheduler drives the stall gate, then ranks the links
    in classic or enhanced mode.  A pass reads and updates the links in place;
    here it maps the list of links to a new list and the chosen index.  The
    exponential of the C library is a parameter of the quality score: none of
    the theorems below depends on its values. *)
From S2P Require Import Prelude F64 Wire Seq Filters Rtt Batch Pacing Congestion Config Connection.

(** ** quality.rs *)
Definition STARTUP_GRACE_PERIOD_MS : Z := 30000.
Definition PERFECT_CONNECTION_BONUS : f64 := flit 11 10.
Definition STARTUP_NAK_PENALTY : f64 := flit 98 100.
Definition HALF_LIFE_MS : f64 := f_of_Z 2000.
Definition MAX_PENALTY : f64 := flit 5 10.
Definition NAK_BURST_THRESHOLD : Z := 5.
Definition NAK_BURST_MAX_AGE_MS : Z := 3000.
Definition NAK_BURST_PENALTY : f64 := flit 7 10.
Definition RTT_BONUS_THRESHOLD_MS : f64 := f_of_Z 200.
Definition MIN_RTT_MS : f64 := f_of_Z 50.
Definition MAX_RTT_BONUS : f64 := flit 103 100.

Definition calculate_rtt_bonus (conn : SrtlaConnection) : f64 :=
  let smooth_rtt := get_smooth_rtt_ms conn in
  if fle smooth_rtt f0 then f1
  else
    let rtt_factor := fmin (fdiv RTT_BONUS_THRESHOLD_MS (fmax smooth_rtt MIN_RTT_MS)) MAX_RTT_BONUS in
    fmax rtt_factor f1.

(** ** enhanced.rs: constants and helpers *)
Definition ASSUMED_SRT_PAYLOAD_BYTES : Z := 1316.
Definition IN_FLIGHT_CAP_BDP_MULT : f64 := flit 15 10.
Definition SWITCH_THRESHOLD : f64 := flit 11 10.
Definition CC_SOFT_CAP_FLOOR : f64 := flit 1 10.
Definition GATED_LINK_PENALTY : f64 := flit 2 100.
Definition SOLE_CARRIER_MARGIN : f64 := flit 2 1.
Definition SOLE_CARRIER_MIN_HOLD_MS : Z := 2000.
Definition HELD_OUT_REJOIN_RAMP_MS : Z := 2000.
Definition f64_MAX : f64 := SFmax_float 53 1024.

Definition sole_carrier_handover (incumbent_rtt_ms challenger_rtt_ms : f64)
    (held_for_ms hold_min_ms : Z) (margin : f64) : bool :=
  if held_for_ms <? hold_min_ms then false
  else if negb (is_finite incumbent_rtt_ms) || negb (is_finite challenger_rtt_ms) then false
  else if fle incumbent_rtt_ms f0 || fle challenger_rtt_ms f0 then false
  else fle (fmul challenger_rtt_ms margin) incumbent_rtt_ms.

Definition release_sole_carrier (c : SrtlaConnection) (current_time_ms : Z) : SrtlaConnection :=
  let c :=
    if sole_carrier_excluded c then
      arm_rejoin_ramp c current_time_ms HELD_OUT_REJOIN_RAMP_MS false <| sole_carrier_excluded := false |>
    else c in
  c <| sole_carrier := false |>.

(** A link that could carry payload now. *)
Definition candidate (current_time_ms : Z) (c : SrtlaConnection) : bool :=
  negb (is_timed_out c current_time_ms) && is_schedulable c && negb (stall_gated c).

(** The scan of the election: incumbent, best measured, best unmeasured. *)
Record election := mkElection {
  el_incumbent : option (nat * SrtlaConnection);
  el_measured : option (nat * f64);
  el_unmeasured : option (nat * Z) }.

Definition election_step (now : Z) (st : election) (i : nat) (c : SrtlaConnection) : election :=
  if negb (candidate now c) then st
  else
    let rtt := get_smooth_rtt_ms c in
    let st :=
      if fgt rtt f0 then
        if match el_measured st with None => true | Some (_, best) => flt rtt best end
        then mkElection (el_incumbent st) (Some (i, rtt)) (el_unmeasured st) else st
      else
        let score := get_score c in
        if match el_unmeasured st with None => true | Some (_, best) => score >? best end
        then mkElection (el_incumbent st) (el_measured st) (Some (i, score)) else st in
    if sole_carrier c then mkElection (Some (i, c)) (el_measured st) (el_unmeasured st) else st.

(** [for (i, x) in l.iter().enumerate()]: fold with the index. *)
Fixpoint foldi {A B : Type} (f : B -> nat -> A -> B) (i : nat) (l : list A) (b : B) : B :=
  match l with
  | [] => b
  | x :: l => foldi f (S i) l (f b i x)
  end.

Definition election_keep (now : Z) (st : election) : option nat :=
  let best :=
    match el_measured st, el_unmeasured st with
    | Some (i, _), _ => Some i
    | None, Some (i, _) => Some i
    | None, None => None
    end in
  let best_rtt := match el_measured st with Some (_, rtt) => rtt | None => f64_MAX end in
  match el_incumbent st, best with
  | Some (inc, c), Some b =>
    if negb (Nat.eqb b inc) then
      let inc_rtt := get_smooth_rtt_ms c in
      let held_for := sat_sub now (sole_carrier_since_ms c) in
      if sole_carrier_handover inc_rtt best_rtt held_for SOLE_CARRIER_MIN_HOLD_MS SOLE_CARRIER_MARGIN
      then Some b else Some inc
    else Some inc
  | Some (inc, _), None => Some inc
  | None, b => b
  end.

(** The update of one link after the election. *)
Definition election_apply (now : Z) (keep : option nat) (handover : bool) (i : nat)
    (c : SrtlaConnection) : SrtlaConnection :=
  if bool_decide (Some i = keep) then
    let c := if sole_carrier_excluded c
             then arm_rejoin_ramp c now HELD_OUT_REJOIN_RAMP_MS false else c in
    let c :=
      if negb (sole_carrier c) then
        let c := c <| sole_carrier := true |> in
        let c := if handover || (sole_carrier_since_ms c =? 0)
                 then c <| sole_carrier_since_ms := now |> else c in
        if handover then c <| sole_carrier_elections ::= fun n => u64_wrap (n + 1) |> else c
      else c in
    c <| sole_carrier_excluded := false |>
  else
    let c := c <| sole_carrier := false |> in
    let c := if handover then c <| sole_carrier_since_ms := 0 |> else c in
    c <| sole_carrier_excluded := bool_decide (is_Some keep) && candidate now c |>.

Definition elect_sole_carrier (conns : list SrtlaConnection) (current_time_ms : Z)
    (any_quality_ok : bool) : list SrtlaConnection * option nat :=
  if any_quality_ok then (map (fun c => release_sole_carrier c current_time_ms) conns, None)
  else
    let st := foldi (election_step current_time_ms) 0 conns (mkElection None None None) in
    let keep := election_keep current_time_ms st in
    let handover :=
      match el_incumbent st, keep with
      | Some (inc, _), Some k => negb (Nat.eqb inc k)
      | _, _ => false
      end in
    (imap (election_apply current_time_ms keep handover) conns, keep).

Definition in_flight_cap_packets (cc_target_bps : Z) (rtt_min_ms : f64) : option Z :=
  if cc_target_bps =? 0 then None
  else
    let rtt_ms := if is_finite rtt_min_ms && fgt rtt_min_ms f0 then rtt_min_ms else f1 in
    let bdp_bytes :=
      fmul (fdiv (fmul (f_of_Z cc_target_bps) (fdiv rtt_ms (f_of_Z 1000))) (f_of_Z 8))
           IN_FLIGHT_CAP_BDP_MULT in
    let cap := fmax (f_floor (fdiv bdp_bytes (f_of_Z ASSUMED_SRT_PAYLOAD_BYTES))) f1 in
    Some (f_as_i32 (fmin cap (f_of_Z i32_max))).

Definition in_flight_cap_exceeded (c : SrtlaConnection) : bool :=
  match in_flight_cap_packets (cc_target_bps c) (get_rtt_min_ms c) with
  | Some cap => in_flight_packets c >? cap
  | None => false
  end.

Definition cc_soft_cap_multiplier (conn : SrtlaConnection) : f64 :=
  let cap := cc_target_bps conn in
  if cap =? 0 then f1
  else
    let measured := current_bitrate_bps (bitrate conn) in
    if fle measured f0 then f1
    else
      let cap_f := f_of_Z cap in
      let headroom := fmax (fsub cap_f measured) f0 in
      fclamp (fdiv headroom cap_f) CC_SOFT_CAP_FLOOR f1.

(** ** classic.rs *)
Definition weighted_score (c : SrtlaConnection) : Z :=
  let score := get_score c in
  if (link_weight c <=? 1) || (score <=? 0) then score
  else f_as_i32 (f32_mul (f32_of_Z score) (weight_multiplier c)).

Definition classic_step (now_ms : Z) (st : option nat * Z) (i : nat) (c : SrtlaConnection)
  : option nat * Z :=
  let '(best_idx, best_score) := st in
  if is_timed_out c now_ms || negb (is_schedulable c) || stall_gated c then st
  else
    let score := weighted_score c in
    if score >? best_score then (Some i, score) else st.

Definition classic_select_connection (conns : list SrtlaConnection) (now_ms : Z) : option nat :=
  (foldi (classic_step now_ms) 0 conns (None, -1)).1.

(** ** Enhanced selection *)
Definition unconstrained (now : Z) (c : SrtlaConnection) : bool :=
  negb (is_timed_out c now) && is_schedulable c && negb (weak c) && negb (loss_degraded c) &&
  negb (stall_gated c) && negb (in_flight_cap_exceeded c).

Definition quality_ok (now : Z) (c : SrtlaConnection) : bool :=
  negb (is_timed_out c now) && is_schedulable c && negb (weak c) && negb (loss_degraded c) &&
  negb (stall_gated c).

(** The exclusion pass on one link. *)
Definition exclusion_apply (now : Z) (any_unconstrained : bool) (carrier : option nat) (i : nat)
    (c : SrtlaConnection) : SrtlaConnection :=
  let schedulable := negb (is_timed_out c now) && is_schedulable c && negb (stall_gated c) in
  let late := loss_degraded c || (weak c && is_delay (weak_reason c)) in
  let excluded :=
    schedulable && ((any_unconstrained && late)
                    || (bool_decide (is_Some carrier) && negb (bool_decide (Some i = carrier)))) in
  let c := if quality_excluded c && negb excluded
           then arm_rejoin_ramp c now HELD_OUT_REJOIN_RAMP_MS false else c in
  c <| quality_excluded := excluded |>.

(** The links the scoring loop does not skip. *)
Definition rankable (now : Z) (any_unconstrained : bool) (c : SrtlaConnection) : bool :=
  negb (is_timed_out c now || negb (is_schedulable c) || stall_gated c) &&
  negb (quality_excluded c) && negb (any_unconstrained && in_flight_cap_exceeded c).

Section Quality.
(** [f64::exp]. *)
Context (exp : f64 -> f64).

Definition calculate_quality_multiplier (conn : SrtlaConnection) (current_time_ms : Z) : f64 :=
  let connection_age_ms := sat_sub current_time_ms (conn_established_ms conn) in
  if connection_age_ms <? STARTUP_GRACE_PERIOD_MS then
    if total_nak_count conn =? 0 then PERFECT_CONNECTION_BONUS else STARTUP_NAK_PENALTY
  else
    let quality_mult :=
      match conn_time_since_last_nak_ms conn current_time_ms with
      | Some nak_age_ms =>
        let decay_factor := exp (fdiv (fneg (f_of_Z nak_age_ms)) HALF_LIFE_MS) in
        let penalty := fmul MAX_PENALTY decay_factor in
        let mult := fsub f1 penalty in
        if (conn_nak_burst_count conn >=? NAK_BURST_THRESHOLD) && (nak_age_ms <? NAK_BURST_MAX_AGE_MS)
        then fmul mult NAK_BURST_PENALTY else mult
      | None => if total_nak_count conn =? 0 then PERFECT_CONNECTION_BONUS else f1
      end in
    fmul quality_mult (calculate_rtt_bonus conn).

Definition get_cached_quality_multiplier (self : SrtlaConnection) (current_time_ms : Z)
  : SrtlaConnection * f64 :=
  let self :=
    if sat_sub current_time_ms (last_calculated_ms (quality_cache self)) >=? QUALITY_CACHE_INTERVAL_MS
    then self <| quality_cache :=
           mkCachedQuality (calculate_quality_multiplier self current_time_ms) current_time_ms |>
    else self in
  (self, multiplier (quality_cache self)).

(** The score of one ranked link; refreshes its quality cache. *)
Definition rank_score (now : Z) (enable_quality any_unconstrained : bool) (c : SrtlaConnection)
  : SrtlaConnection * f64 :=
  let quality_gated := any_unconstrained && weak c in
  let gate_mult := if quality_gated then GATED_LINK_PENALTY else f1 in
  let base := fmul (fmul (f_of_Z (get_score c)) (phase_weight c)) (rejoin_ramp_multiplier c now) in
  let cap_mult := cc_soft_cap_multiplier c in
  if negb enable_quality then (c, fmul (fmul base cap_mult) gate_mult)
  else
    let '(c, quality_mult) := get_cached_quality_multiplier c now in
    (c, fmul (fmul (fmul base quality_mult) cap_mult) gate_mult).

Record ranking := mkRanking {
  rk_conns : list SrtlaConnection;
  rk_best_idx : option nat;
  rk_best_score : f64;
  rk_current_score : option f64 }.

Definition rank_step (now : Z) (enable_quality any_unconstrained : bool) (last_idx : option nat)
    (st : ranking) (i : nat) (c : SrtlaConnection) : ranking :=
  if negb (rankable now any_unconstrained c) then
    mkRanking (rk_conns st ++ [c]) (rk_best_idx st) (rk_best_score st) (rk_current_score st)
  else
    let '(c, score) := rank_score now enable_quality any_unconstrained c in
    let current_score := if bool_decide (Some i = last_idx) then Some score else rk_current_score st in
    if fgt score (rk_best_score st)
    then mkRanking (rk_conns st ++ [c]) (Some i) score current_score
    else mkRanking (rk_conns st ++ [c]) (rk_best_idx st) (rk_best_score st) current_score.

(** The choice after the scoring loop: stay on the current link unless the best
    is 10% better. *)
Definition apply_hysteresis (last_idx : option nat) (st : ranking) : option nat :=
  match last_idx, rk_current_score st with
  | Some last, Some current =>
    if negb (bool_decide (rk_best_idx st = Some last)) &&
       flt (rk_best_score st) (fmul current SWITCH_THRESHOLD)
    then Some last else rk_best_idx st
  | _, _ => rk_best_idx st
  end.

Definition enhanced_select_connection (conns : list SrtlaConnection) (last_idx : option nat)
    (current_time_ms : Z) (enable_quality : bool) : list SrtlaConnection * option nat :=
  let any_unconstrained := existsb (unconstrained current_time_ms) conns in
  let any_quality_ok := existsb (quality_ok current_time_ms) conns in
  let '(conns, carrier) := elect_sole_carrier conns current_time_ms any_quality_ok in
  let conns := imap (exclusion_apply current_time_ms any_unconstrained carrier) conns in
  let st := foldi (rank_step current_time_ms enable_quality any_unconstrained last_idx) 0 conns
              (mkRanking [] None (f_of_Z (-1)) None) in
  (rk_conns st, apply_hysteresis last_idx st).

(** ** selection/mod.rs *)
Definition gate_refresh (config : ConfigSnapshot) (c : SrtlaConnection) : SrtlaConnection :=
  c <| conn_timeout_ms := cfg_conn_timeout_ms config |>
    <| delay_budget_ms := cfg_negotiated_latency_ms config |>.

Definition gate_off (c : SrtlaConnection) : SrtlaConnection :=
  clear_stall_latch (c <| stall_gated := false |> <| silence_pulled := false |>).

Definition gate_drive (now : Z) (config : ConfigSnapshot) (c : SrtlaConnection) : SrtlaConnection :=
  let min_in_flight := cfg_stall_min_in_flight config in
  let stale_ceiling_ms := cfg_stall_ack_stale_ms config in
  update_stall_latch (update_silence_pull c now min_in_flight stale_ceiling_ms) now
    min_in_flight stale_ceiling_ms.

Definition healthy (now : Z) (c : SrtlaConnection) : bool :=
  negb (is_timed_out c now) && is_schedulable c && negb (stall_latched c) && negb (silence_pulled c).

Definition apply_stall_gate (conns : list SrtlaConnection) (current_time_ms : Z)
    (config : ConfigSnapshot) : list SrtlaConnection :=
  let conns := map (gate_refresh config) conns in
  if negb (cfg_stall_deselect config) then map gate_off conns
  else
    let conns := map (gate_drive current_time_ms config) conns in
    let any_healthy := existsb (healthy current_time_ms) conns in
    map (fun c => c <| stall_gated := any_healthy && (stall_latched c || silence_pulled c) |>) conns.

Definition select_connection_idx (conns : list SrtlaConnection) (last_idx : option nat)
    (current_time_ms : Z) (config : ConfigSnapshot) : list SrtlaConnection * option nat :=
  let conns := apply_stall_gate conns current_time_ms config in
  match cfg_mode config with
  | Classic =>
    let conns := map clear_quality_gate_state conns in
    (conns, classic_select_connection conns current_time_ms)
  | Enhanced =>
    enhanced_select_connection conns last_idx current_time_ms (effective_quality_enabled config)
  end.
End Quality.

(** ** priority.rs *)
Definition PROTO_MAGIC : Z := 0xc1.
Definition DATAGRAM_LEN : nat := 5.

(** The shared atomic cells of the critical window. *)
Record CriticalWindow := mkCritical {
  deadline_ms : Z; windows_received : Z; malformed_datagrams : Z }.
Definition critical_new : CriticalWindow := mkCritical 0 0 0.

Definition extend_to (self : CriticalWindow) (deadline : Z) : CriticalWindow :=
  mkCritical (Z.max (deadline_ms self) deadline) (u64_wrap (windows_received self + 1))
    (malformed_datagrams self).
Definition is_critical_now (self : CriticalWindow) (now_ms : Z) : bool := deadline_ms self >? now_ms.
Definition record_malformed (self : CriticalWindow) : CriticalWindow :=
  mkCritical (deadline_ms self) (windows_received self) (u64_wrap (malformed_datagrams self + 1)).

Definition override_eligible (now_ms : Z) (conn : SrtlaConnection) : bool :=
  negb (negb (connected conn) || negb (is_schedulable conn) || is_timed_out conn now_ms
        || stall_gated conn || is_quality_excluded conn).

Record override_scan := mkOverride {
  ov_best_idx : option nat; ov_best_quality : f64; ov_first : option f64;
  ov_all_equal : bool; ov_eligible : Z }.

Definition override_step (now_ms : Z) (st : override_scan) (i : nat) (conn : SrtlaConnection)
  : override_scan :=
  if negb (override_eligible now_ms conn) then st
  else
    let q := multiplier (quality_cache conn) in
    let eligible := ov_eligible st + 1 in
    let '(first, all_equal) :=
      match ov_first st with
      | None => (Some q, ov_all_equal st)
      | Some f => (Some f, if negb (feq f q) then false else ov_all_equal st)
      end in
    if fgt q (ov_best_quality st)
    then mkOverride (Some i) q first all_equal eligible
    else mkOverride (ov_best_idx st) (ov_best_quality st) first all_equal eligible.

Definition select_best_quality_idx (conns : list SrtlaConnection) (now_ms : Z) : option nat :=
  let st := foldi (override_step now_ms) 0 conns (mkOverride None (S754_infinity true) None true 0) in
  if (ov_eligible st >? 1) && ov_all_equal st then None else ov_best_idx st.

Definition select_best_path_override_idx (conns : list SrtlaConnection) (now_ms : Z)
    (mode : SchedulingMode) : option nat :=
  if is_classic mode then None else select_best_quality_idx conns now_ms.
