(* ===== verification/SelectionSpec.v ===== *)
(** * Theorems about link selection

    The stall gate never gates the last usable link; classic mode returns the
    first link of highest weighted score; enhanced mode ranks a pool that is
    never empty while a link could carry, picks the best score up to the 10%
    hysteresis, and keeps at most one sole carrier; the best-path override only
    ever picks an eligible link. *)
From S2P Require Import Prelude F64 Wire Seq Filters Rtt Batch Pacing Congestion Config Connection Selection.

(** ** Indexed folds *)
Lemma foldi_inv {A B : Type} (P : list A -> B -> Prop) (f : B -> nat -> A -> B) (l : list A) (b0 : B) :
  P [] b0 ->
  (forall pre x b, P pre b -> P (pre ++ [x]) (f b (length pre) x)) ->
  P l (foldi f 0 l b0).
Proof.
  intros H0 Hs.
  assert (forall pre b, P pre b -> P (pre ++ l) (foldi f (length pre) l b)) as Hgen.
  { induction l as [|x l IH]; intros pre b Hb; cbn [foldi]; [by rewrite app_nil_r|].
    specialize (IH (pre ++ [x]) (f b (length pre) x) (Hs _ _ _ Hb)).
    rewrite length_app, Nat.add_1_r, <- app_assoc in IH. exact IH. }
  exact (Hgen [] b0 H0).
Qed.

(** A property of all elements of a grown list. *)
Lemma lookup_snoc_inv {A : Type} (pre : list A) x j y :
  (pre ++ [x]) !! j = Some y -> pre !! j = Some y \/ (j = length pre /\ y = x).
Proof.
  intros [H|[Hj H]]%lookup_app_Some; [by left|]. right.
  destruct (j - length pre)%nat eqn:E; [|done]. cbn in H. injection H as ->. split; [lia|done].
Qed.

Lemma lookup_snoc_last {A : Type} (pre : list A) x : (pre ++ [x]) !! length pre = Some x.
Proof. by rewrite lookup_app_r, Nat.sub_diag by done. Qed.

Lemma lookup_snoc_old {A : Type} (pre : list A) x j y :
  pre !! j = Some y -> (pre ++ [x]) !! j = Some y.
Proof. intros H. by apply lookup_app_l_Some. Qed.

#[export] Hint Resolve lookup_snoc_last lookup_snoc_old : srtla.

(** ** Stall gate *)

(** The eligibility test is blind to the gate flag. *)
Lemma candidate_spec now c :
  candidate now c = true <->
  is_timed_out c now = false /\ is_schedulable c = true /\ stall_gated c = false.
Proof. unfold candidate. rewrite !andb_true_iff, !negb_true_iff. tauto. Qed.

Lemma candidate_gate now c b :
  candidate now (c <| stall_gated := b |>) = negb (is_timed_out c now) && is_schedulable c && negb b.
Proof. reflexivity. Qed.

Lemma gate_off_gated c : stall_gated (gate_off c) = false.
Proof.
  unfold gate_off, clear_stall_latch. cbn. by destruct (stall_rejoin_ramp_from_stall_gate c).
Qed.

(** C6: the stall gate never takes the last usable link: when any link is
    gated, some link that is alive, schedulable, neither latched nor pulled is
    left un-gated; only latched or silence-pulled links are ever gated; with the
    guard switched off none is. *)
Theorem stall_gate_safe (conns : list SrtlaConnection) (now : Z) (config : ConfigSnapshot) :
  Forall (fun c => stall_gated c = true ->
    cfg_stall_deselect config = true /\ (stall_latched c || silence_pulled c) = true /\
    Exists (fun h => candidate now h = true /\ stall_latched h = false /\ silence_pulled h = false)
      (apply_stall_gate conns now config))
    (apply_stall_gate conns now config).
Proof.
  unfold apply_stall_gate. destruct (cfg_stall_deselect config); cbn [negb].
  - set (driven := map (gate_drive now config) _).
    apply Forall_forall. intros c Hc Hg.
    apply list_elem_of_In, in_map_iff in Hc as (c0 & <- & Hin). cbn in Hg.
    apply andb_true_iff in Hg as [Hany Hl]. split; [done|]. split; [exact Hl|].
    apply existsb_exists in Hany as (h & Hh & Hhealthy).
    apply Exists_exists. eexists. split; [apply list_elem_of_In, in_map, Hh|].
    unfold healthy in Hhealthy. rewrite !andb_true_iff, !negb_true_iff in Hhealthy.
    destruct Hhealthy as [[[Ht Hs] Hlat] Hpull].
    split; [|exact (conj Hlat Hpull)].
    by rewrite candidate_gate, Ht, Hs, Hlat, Hpull, andb_false_r.
  - apply Forall_forall. intros c Hc Hg.
    apply list_elem_of_In, in_map_iff in Hc as (c0 & <- & Hin). by rewrite gate_off_gated in Hg.
Qed.

(** ** Classic mode *)
Definition classic_eligible (now : Z) (c : SrtlaConnection) : bool :=
  negb (is_timed_out c now || negb (is_schedulable c) || stall_gated c).

(** What the classic loop knows of the links it has seen. *)
Definition classic_best (now : Z) (pre : list SrtlaConnection) (st : option nat * Z) : Prop :=
  match st.1 with
  | None => st.2 = -1 /\
      (forall j c, pre !! j = Some c -> classic_eligible now c = true -> weighted_score c <= -1)
  | Some i => -1 < st.2 /\ (exists c, pre !! i = Some c /\ classic_eligible now c = true /\ weighted_score c = st.2) /\
      (forall j c, pre !! j = Some c -> classic_eligible now c = true ->
         weighted_score c <= st.2 /\ ((j < i)%nat -> weighted_score c < st.2))
  end.

Lemma classic_best_step now pre c st :
  classic_best now pre st -> classic_best now (pre ++ [c]) (classic_step now st (length pre) c).
Proof.
  destruct st as [best s]. unfold classic_best, classic_step, classic_eligible. cbn [fst snd].
  intros Hinv. destruct (is_timed_out c now || negb (is_schedulable c) || stall_gated c) eqn:E.
  { cbn [fst snd]. destruct best as [i|].
    - destruct Hinv as (H0 & (c1 & H1 & H2 & H3) & Hall). split; [done|]. split; [eauto with srtla|].
      intros j c' [Hj|[-> ->]]%lookup_snoc_inv; [by apply Hall|by rewrite E].
    - destruct Hinv as [H0 Hall]. split; [done|].
      intros j c' [Hj|[-> ->]]%lookup_snoc_inv; [by apply (Hall j)|by rewrite E]. }
  destruct (Z.gtb_spec (weighted_score c) s) as [Hs|Hs]; cbn [fst snd].
  - assert (-1 < weighted_score c /\ forall j c', pre !! j = Some c' ->
      negb (is_timed_out c' now || negb (is_schedulable c') || stall_gated c') = true ->
      weighted_score c' < weighted_score c) as [Hpos Hlt].
    { destruct best as [i|].
      - destruct Hinv as (H0 & _ & Hall). split; [lia|]. intros j c' Hj He.
        pose proof (proj1 (Hall j c' Hj He)). lia.
      - destruct Hinv as [-> Hall]. split; [lia|]. intros j c' Hj He. specialize (Hall j c' Hj He). lia. }
    split; [done|]. split; [exists c; rewrite E; eauto with srtla|].
    intros j c' [Hj|[-> ->]]%lookup_snoc_inv He; [specialize (Hlt j c' Hj He); lia|lia].
  - destruct best as [i|].
    + destruct Hinv as (H0 & (c1 & H1 & H2 & H3) & Hall). split; [done|]. split; [eauto with srtla|].
      intros j c' [Hj|[-> ->]]%lookup_snoc_inv He; [by apply Hall|].
      split; [lia|]. intros Hlt. apply lookup_lt_Some in H1. lia.
    + destruct Hinv as [-> Hall]. split; [done|].
      intros j c' [Hj|[-> ->]]%lookup_snoc_inv He; [by apply (Hall j)|lia].
Qed.

Lemma classic_scan conns now : classic_best now conns (foldi (classic_step now) 0 conns (None, -1)).
Proof.
  apply (foldi_inv (classic_best now)); [split; [done|by intros j c]|]. intros. by apply classic_best_step.
Qed.

(** C30: classic mode returns the first link of highest weighted score among the
    links that are alive, schedulable and not gated, and nothing exactly when
    every such link scores below zero, which is when none is connected. *)
Theorem classic_first_argmax (conns : list SrtlaConnection) (now : Z) :
  match classic_select_connection conns now with
  | Some i => exists c, conns !! i = Some c /\ classic_eligible now c = true /\ 0 <= weighted_score c /\
      forall j c', conns !! j = Some c' -> classic_eligible now c' = true ->
        weighted_score c' <= weighted_score c /\ ((j < i)%nat -> weighted_score c' < weighted_score c)
  | None => forall j c', conns !! j = Some c' -> classic_eligible now c' = true -> weighted_score c' < 0
  end.
Proof.
  pose proof (classic_scan conns now) as H.
  unfold classic_select_connection, classic_best in *.
  destruct (foldi (classic_step now) 0 conns (None, -1)) as [[i|] s]; cbn [fst snd] in *.
  - destruct H as (Hs & (c & H1 & H2 & <-) & Hall). exists c. split; [done|]. split; [done|].
    split; [lia|done].
  - destruct H as [-> Hall]. intros j c' Hj He. specialize (Hall j c' Hj He). lia.
Qed.

(** ** Sole-carrier election *)

(** What the scan knows of the links it has seen. *)
Definition election_inv (now : Z) (pre : list SrtlaConnection) (st : election) : Prop :=
  (forall i c, el_incumbent st = Some (i, c) -> pre !! i = Some c /\ candidate now c = true /\ sole_carrier c = true) /\
  (forall i r, el_measured st = Some (i, r) -> exists c, pre !! i = Some c /\ candidate now c = true) /\
  (forall i r, el_unmeasured st = Some (i, r) -> exists c, pre !! i = Some c /\ candidate now c = true) /\
  ((exists j c, pre !! j = Some c /\ candidate now c = true) ->
     el_measured st <> None \/ el_unmeasured st <> None) /\
  ((exists j c, pre !! j = Some c /\ candidate now c = true /\ sole_carrier c = true) ->
     el_incumbent st <> None).

Lemma election_inv_step now pre c st :
  election_inv now pre st -> election_inv now (pre ++ [c]) (election_step now st (length pre) c).
Proof.
  intros (Hinc & Hm & Hu & Hex & Hexi). unfold election_step.
  destruct (candidate now c) eqn:Ec; cbn [negb].
  2:{ split_and!.
      - intros i c' H. destruct (Hinc i c' H) as (? & ? & ?). eauto with srtla.
      - intros i r H. destruct (Hm i r H) as (? & ? & ?). eauto with srtla.
      - intros i r H. destruct (Hu i r H) as (? & ? & ?). eauto with srtla.
      - intros (j & c' & [Hj|[-> ->]]%lookup_snoc_inv & Hc); [apply Hex; eauto|congruence].
      - intros (j & c' & [Hj|[-> ->]]%lookup_snoc_inv & Hc & ?); [apply Hexi; eauto 10|congruence]. }
  set (st1 := if fgt (get_smooth_rtt_ms c) f0 then _ else _).
  assert (el_incumbent st1 = el_incumbent st /\
    (forall i r, el_measured st1 = Some (i, r) -> exists c', (pre ++ [c]) !! i = Some c' /\ candidate now c' = true) /\
    (forall i r, el_unmeasured st1 = Some (i, r) -> exists c', (pre ++ [c]) !! i = Some c' /\ candidate now c' = true) /\
    (el_measured st1 <> None \/ el_unmeasured st1 <> None)) as (Hi1 & Hm1 & Hu1 & Hex1).
  { assert (forall i r, el_measured st = Some (i, r) -> exists c', (pre ++ [c]) !! i = Some c' /\ candidate now c' = true) as Hm'
      by (intros i r H; destruct (Hm i r H) as (? & ? & ?); eauto with srtla).
    assert (forall i r, el_unmeasured st = Some (i, r) -> exists c', (pre ++ [c]) !! i = Some c' /\ candidate now c' = true) as Hu'
      by (intros i r H; destruct (Hu i r H) as (? & ? & ?); eauto with srtla).
    unfold st1. destruct (fgt _ _).
    - destruct (el_measured st) as [[im rm]|] eqn:Em; [destruct (flt _ _)|];
        cbn; rewrite ?Em; split_and!; try done; try (by left); try (intros i r [= <- <-]; eauto with srtla).
    - destruct (el_unmeasured st) as [[iu ru]|] eqn:Eu; [destruct (_ >? _)|];
        cbn; rewrite ?Eu; split_and!; try done; try (by right); try (intros i r [= <- <-]; eauto with srtla). }
  clearbody st1. destruct (sole_carrier c) eqn:Es; cbn; split_and!; try done.
  - intros i c' [= <- <-]. eauto with srtla.
  - intros i c' H. rewrite Hi1 in H. destruct (Hinc i c' H) as (? & ? & ?). eauto with srtla.
  - rewrite Hi1. intros (j & c' & [Hj|[-> ->]]%lookup_snoc_inv & Hc & ?); [apply Hexi; eauto 10|congruence].
Qed.

Lemma election_scan now conns :
  election_inv now conns (foldi (election_step now) 0 conns (mkElection None None None)).
Proof.
  apply (foldi_inv (election_inv now)); [|intros; by apply election_inv_step].
  split_and!; cbn; try done; by intros (j & c & H & _).
Qed.

(** The elected link is a candidate, and there is one when a candidate exists. *)
Lemma election_keep_spec now conns st :
  election_inv now conns st ->
  (forall k, election_keep now st = Some k -> exists c, conns !! k = Some c /\ candidate now c = true) /\
  ((exists j c, conns !! j = Some c /\ candidate now c = true) -> election_keep now st <> None).
Proof.
  intros (Hinc & Hm & Hu & Hex & _). unfold election_keep.
  set (best := match el_measured st with Some _ => _ | None => _ end).
  assert (forall b, best = Some b -> exists c, conns !! b = Some c /\ candidate now c = true) as Hbest.
  { unfold best. intros b. destruct (el_measured st) as [[im rm]|] eqn:Em; [intros [= <-]; by apply (Hm im rm)|].
    destruct (el_unmeasured st) as [[iu ru]|] eqn:Eu; [intros [= <-]; by apply (Hu iu ru)|done]. }
  assert ((exists j c, conns !! j = Some c /\ candidate now c = true) -> best <> None) as Hsome.
  { intros He. unfold best. destruct (el_measured st) as [[]|], (el_unmeasured st) as [[]|]; try done.
    by destruct (Hex He). }
  clearbody best. destruct (el_incumbent st) as [[inc c]|] eqn:Ei.
  - destruct (Hinc inc c eq_refl) as (H1 & H2 & _).
    destruct best as [b|]; [|split; [intros k [= <-]; eauto|done]].
    destruct (negb _); [destruct (sole_carrier_handover _ _ _ _ _)|];
      (split; [intros k [= <-]; eauto|done]).
  - split; [exact Hbest|exact Hsome].
Qed.

(** Fields of a link the election and the ramp leave alone. *)
Definition same_link (c c' : SrtlaConnection) : Prop :=
  (forall now, is_timed_out c' now = is_timed_out c now) /\ is_schedulable c' = is_schedulable c /\
  stall_gated c' = stall_gated c /\ weak c' = weak c /\ weak_reason c' = weak_reason c /\
  loss_degraded c' = loss_degraded c /\ in_flight_cap_exceeded c' = in_flight_cap_exceeded c.

Lemma same_link_refl c : same_link c c.
Proof. by repeat split. Qed.

Lemma same_link_trans a b c : same_link a b -> same_link b c -> same_link a c.
Proof.
  intros (H1 & H2 & H3 & H4 & H5 & H6 & H7) (G1 & G2 & G3 & G4 & G5 & G6 & G7).
  repeat split; intros; congruence.
Qed.

Lemma same_link_arm c now r g : same_link c (arm_rejoin_ramp c now r g).
Proof. unfold arm_rejoin_ramp. destruct (flt _ _); by repeat split. Qed.

Lemma arm_sole_carrier c now r g : sole_carrier (arm_rejoin_ramp c now r g) = sole_carrier c.
Proof. unfold arm_rejoin_ramp. by destruct (flt _ _). Qed.

Lemma release_same now c : same_link c (release_sole_carrier c now) /\
  sole_carrier (release_sole_carrier c now) = false.
Proof.
  unfold release_sole_carrier. split; [|by destruct (sole_carrier_excluded c)].
  destruct (sole_carrier_excluded c); [|by repeat split].
  exact (same_link_trans _ _ _ (same_link_arm c now HELD_OUT_REJOIN_RAMP_MS false)
    ltac:(by repeat split)).
Qed.

Lemma election_apply_same now keep h i c :
  same_link c (election_apply now keep h i c) /\
  sole_carrier (election_apply now keep h i c) = bool_decide (Some i = keep).
Proof.
  unfold election_apply. case_bool_decide as E.
  - set (c1 := if sole_carrier_excluded c then _ else c).
    assert (same_link c c1 /\ sole_carrier c1 = sole_carrier c) as [H1 H2]
      by (unfold c1; destruct (sole_carrier_excluded c);
          [split; [apply same_link_arm|apply arm_sole_carrier]|split; [apply same_link_refl|done]]).
    clearbody c1. split.
    + apply (same_link_trans _ _ _ H1). destruct (negb (sole_carrier c1)); [|by repeat split].
      destruct h; [by repeat split|]. cbn [orb]. destruct (_ =? 0); by repeat split.
    + destruct (sole_carrier c1) eqn:Es; cbn [negb]; [exact Es|].
      destruct h; [done|]. cbn [orb]. by destruct (_ =? 0).
  - destruct h; (split; [by repeat split|done]).
Qed.

(** ** The candidate pool *)
Definition excluded_formula (now : Z) (au : bool) (carrier : option nat) (i : nat) (c : SrtlaConnection) : bool :=
  candidate now c && ((au && (loss_degraded c || (weak c && is_delay (weak_reason c))))
    || (bool_decide (is_Some carrier) && negb (bool_decide (Some i = carrier)))).

Lemma exclusion_apply_spec now au carrier i c :
  same_link c (exclusion_apply now au carrier i c) /\
  quality_excluded (exclusion_apply now au carrier i c) = excluded_formula now au carrier i c /\
  sole_carrier (exclusion_apply now au carrier i c) = sole_carrier c.
Proof.
  unfold exclusion_apply, excluded_formula, candidate.
  set (e := negb (is_timed_out c now) && is_schedulable c && negb (stall_gated c) && _). clearbody e.
  destruct (quality_excluded c && negb e).
  - split; [|split; [done|apply arm_sole_carrier]].
    exact (same_link_trans _ _ _ (same_link_arm c now HELD_OUT_REJOIN_RAMP_MS false) ltac:(by repeat split)).
  - split; [by repeat split|done].
Qed.

Lemma same_link_candidate now c c' : same_link c c' -> candidate now c' = candidate now c.
Proof. intros (H1 & H2 & H3 & _). unfold candidate. by rewrite H1, H2, H3. Qed.

(** A link that is a candidate, not excluded and not over a binding cap is
    ranked. *)
Lemma rankable_intro now au c :
  candidate now c = true -> quality_excluded c = false ->
  au && in_flight_cap_exceeded c = false -> rankable now au c = true.
Proof.
  intros (H1 & H2 & H3)%candidate_spec H4 H5. unfold rankable. by rewrite H1, H2, H3, H4, H5.
Qed.

Lemma existsb_lookup {A : Type} (f : A -> bool) l :
  existsb f l = true <-> exists i x, l !! i = Some x /\ f x = true.
Proof.
  rewrite existsb_exists. split.
  - intros (x & Hin & Hf). apply list_elem_of_In, list_elem_of_lookup in Hin as [i Hi]. eauto.
  - intros (i & x & Hi & Hf). exists x. split; [|done]. apply list_elem_of_In, list_elem_of_lookup. eauto.
Qed.

Lemma unconstrained_quality_ok now c : unconstrained now c = true -> quality_ok now c = true.
Proof. unfold unconstrained. intros H. by apply andb_true_iff in H as [H _]. Qed.

Lemma quality_ok_candidate now c : quality_ok now c = true ->
  candidate now c = true /\ weak c = false /\ loss_degraded c = false.
Proof.
  unfold quality_ok, candidate. rewrite !andb_true_iff, !negb_true_iff. tauto.
Qed.

(** The links after the election: same links, one carrier at most. *)
Lemma elect_lookup conns now ok conns1 carrier i c1 :
  elect_sole_carrier conns now ok = (conns1, carrier) -> conns1 !! i = Some c1 ->
  exists c, conns !! i = Some c /\ same_link c c1 /\ (sole_carrier c1 = true -> carrier = Some i).
Proof.
  unfold elect_sole_carrier. destruct ok; intros [= <- <-] Hi.
  - rewrite list_lookup_fmap in Hi. apply fmap_Some in Hi as (c & Hc & ->). exists c.
    destruct (release_same now c) as [Hs Hf]. split; [done|]. split; [done|]. by rewrite Hf.
  - rewrite list_lookup_imap in Hi. apply fmap_Some in Hi as (c & Hc & ->). exists c.
    set (k := election_keep _ _) in *. set (h := match el_incumbent _ with Some _ => _ | None => _ end) in *.
    destruct (election_apply_same now k h i c) as [Hs Hf]. split; [done|]. split; [done|].
    rewrite Hf. intros H%bool_decide_eq_true. done.
Qed.

Lemma elect_lookup_fwd conns now ok conns1 carrier i c :
  elect_sole_carrier conns now ok = (conns1, carrier) -> conns !! i = Some c ->
  exists c1, conns1 !! i = Some c1 /\ same_link c c1.
Proof.
  unfold elect_sole_carrier. destruct ok; intros [= <- <-] Hi.
  - exists (release_sole_carrier c now). split; [by rewrite list_lookup_fmap, Hi|]. apply release_same.
  - eexists. split; [by rewrite list_lookup_imap, Hi|]. apply election_apply_same.
Qed.

(** C20: enhanced mode never empties its own pool: whenever some link is alive,
    schedulable and not stall-gated, the quality exclusions, the sole-carrier
    election and the in-flight cap together leave at least one link to rank. *)
Theorem enhanced_pool_never_empty (conns conns1 : list SrtlaConnection) (now : Z) (carrier : option nat) :
  existsb (candidate now) conns = true ->
  elect_sole_carrier conns now (existsb (quality_ok now) conns) = (conns1, carrier) ->
  existsb (rankable now (existsb (unconstrained now) conns))
    (imap (exclusion_apply now (existsb (unconstrained now) conns) carrier) conns1) = true.
Proof.
  intros Hcand Hel. set (au := existsb (unconstrained now) conns).
  assert (forall i c, conns !! i = Some c -> candidate now c = true ->
    (au = true -> loss_degraded c = false /\ weak c = false /\ in_flight_cap_exceeded c = false) ->
    carrier = None \/ carrier = Some i ->
    existsb (rankable now au) (imap (exclusion_apply now au carrier) conns1) = true) as Hpick.
  { intros i c Hi Hc Hau Hcar. destruct (elect_lookup_fwd _ _ _ _ _ _ _ Hel Hi) as (c1 & Hi1 & Hs1).
    destruct (exclusion_apply_spec now au carrier i c1) as (Hs2 & Hex & _).
    pose proof (same_link_trans _ _ _ Hs1 Hs2) as Hs.
    apply existsb_lookup. exists i, (exclusion_apply now au carrier i c1).
    split; [by rewrite list_lookup_imap, Hi1|]. apply rankable_intro.
    - by rewrite (same_link_candidate now c).
    - rewrite Hex. unfold excluded_formula. destruct Hs1 as (_ & _ & _ & Hw & Hr & Hd & _).
      rewrite Hw, Hr, Hd. apply andb_false_iff; right. apply orb_false_iff; split.
      + destruct au; [|done]. by destruct (Hau eq_refl) as (-> & -> & _).
      + destruct Hcar as [-> | ->]; [done|]. rewrite (bool_decide_eq_true_2 (Some i = Some i)) by done.
        by rewrite andb_false_r.
    - destruct Hs as (_ & _ & _ & _ & _ & _ & ->). destruct au; [|done].
      by destruct (Hau eq_refl) as (_ & _ & ->). }
  destruct (existsb (quality_ok now) conns) eqn:Hq.
  - assert (carrier = None) as Hcar by (unfold elect_sole_carrier in Hel; congruence).
    destruct au eqn:Hau.
    + pose proof Hau as (i & c & Hi & Hu)%existsb_lookup.
      destruct (quality_ok_candidate now c (unconstrained_quality_ok now c Hu)) as (H1 & H2 & H3).
      apply (Hpick i c Hi H1); [|by left]. intros _.
      unfold unconstrained in Hu. rewrite !andb_true_iff, !negb_true_iff in Hu. tauto.
    + apply existsb_lookup in Hcand as (i & c & Hi & Hc). apply (Hpick i c Hi Hc); [done|by left].
  - assert (au = false) as Hau.
    { apply not_true_iff_false. intros (i & c & Hi & Hu%unconstrained_quality_ok)%existsb_lookup.
      apply not_true_iff_false in Hq. apply Hq, existsb_lookup. eauto. }
    unfold elect_sole_carrier in Hel. injection Hel as _ Hk.
    destruct (election_keep_spec now conns _ (election_scan now conns)) as [Hkc Hks].
    rewrite Hk in Hkc, Hks.
    destruct carrier as [k|]; [|by destruct Hks; [apply existsb_lookup|]].
    destruct (Hkc k eq_refl) as (c & Hi & Hc). apply (Hpick k c Hi Hc); [by rewrite Hau|by right].
Qed.

(** A live link, for the witnesses. *)
Definition live_link (id win : Z) : SrtlaConnection :=
  new_registering id 0 0 <| connected := true |> <| phase := Live |> <| window := win |>
    <| last_received := Some 900 |>.

Definition weak_pool : list SrtlaConnection :=
  [live_link 1 20000 <| weak := true |>; live_link 2 30000 <| weak := true |>].

Lemma enhanced_pool_never_empty_witness :
  existsb (rankable 1000 (existsb (unconstrained 1000) weak_pool))
    (imap (exclusion_apply 1000 (existsb (unconstrained 1000) weak_pool)
             (elect_sole_carrier weak_pool 1000 (existsb (quality_ok 1000) weak_pool)).2)
       (elect_sole_carrier weak_pool 1000 (existsb (quality_ok 1000) weak_pool)).1) = true.
Proof.
  apply (enhanced_pool_never_empty weak_pool); [vm_compute; reflexivity|apply surjective_pairing].
Defined.

(** After a selection pass at most one link holds the sole-carrier role,
    and while the election is on it is the elected link. *)
Theorem sole_carrier_unique (conns conns1 : list SrtlaConnection) (now : Z) (au ok : bool)
    (carrier : option nat) (i j : nat) (ci cj : SrtlaConnection) :
  elect_sole_carrier conns now ok = (conns1, carrier) ->
  imap (exclusion_apply now au carrier) conns1 !! i = Some ci ->
  imap (exclusion_apply now au carrier) conns1 !! j = Some cj ->
  sole_carrier ci = true -> sole_carrier cj = true -> i = j /\ carrier = Some i.
Proof.
  intros Hel. rewrite !list_lookup_imap.
  intros (c1 & H1 & ->)%fmap_Some (c2 & H2 & ->)%fmap_Some.
  destruct (exclusion_apply_spec now au carrier i c1) as (_ & _ & ->).
  destruct (exclusion_apply_spec now au carrier j c2) as (_ & _ & ->).
  intros Hs1 Hs2.
  destruct (elect_lookup _ _ _ _ _ _ _ Hel H1) as (_ & _ & _ & G1).
  destruct (elect_lookup _ _ _ _ _ _ _ Hel H2) as (_ & _ & _ & G2).
  specialize (G1 Hs1). specialize (G2 Hs2). split; congruence.
Qed.

Lemma sole_carrier_unique_witness :
  exists c, imap (exclusion_apply 1000 false (Some 1%nat))
      (elect_sole_carrier weak_pool 1000 false).1 !! 1%nat = Some c /\ (1 = 1)%nat /\
      (elect_sole_carrier weak_pool 1000 false).2 = Some 1%nat.
Proof.
  eexists. split; [reflexivity|].
  eapply (sole_carrier_unique weak_pool _ 1000 false false _ 1 1);
    [apply surjective_pairing|vm_compute; reflexivity|vm_compute; reflexivity|reflexivity|reflexivity].
Defined.

(** No RTT is twice the largest number: an unmeasured challenger never wins. *)
Lemma unmeasured_never_wins rtt :
  is_finite rtt = true -> fle (fmul f64_MAX SOLE_CARRIER_MARGIN) rtt = false.
Proof.
  replace (fmul f64_MAX SOLE_CARRIER_MARGIN) with (S754_infinity false) by (vm_compute; reflexivity).
  by destruct rtt as [[]|[]| |[]].
Qed.

(** The role is sticky: a carrier that is still a candidate keeps it for at
    least two seconds, and afterwards loses it only to a link whose smoothed
    RTT is measured and at most half its own. *)
Theorem sole_carrier_sticky (now : Z) (st : election) (inc : nat) (c : SrtlaConnection) (k : nat) :
  el_incumbent st = Some (inc, c) -> election_keep now st = Some k -> k <> inc ->
  SOLE_CARRIER_MIN_HOLD_MS <= sat_sub now (sole_carrier_since_ms c) /\
  exists rtt, el_measured st = Some (k, rtt) /\
    flt f0 rtt = true /\ fle (fmul rtt SOLE_CARRIER_MARGIN) (get_smooth_rtt_ms c) = true.
Proof.
  intros Hi Hk Hne. unfold election_keep in Hk. rewrite Hi in Hk.
  set (best_rtt := match el_measured st with Some _ => _ | None => f64_MAX end) in Hk.
  destruct (match el_measured st with Some _ => _ | None => _ end) as [b|] eqn:Eb in Hk;
    [|congruence].
  destruct (negb _); [|congruence].
  destruct (sole_carrier_handover _ _ _ _ _) eqn:Eh; [|congruence]. injection Hk as ->.
  unfold sole_carrier_handover in Eh. destruct (Z.ltb_spec (sat_sub now (sole_carrier_since_ms c)) SOLE_CARRIER_MIN_HOLD_MS); [done|].
  destruct (is_finite (get_smooth_rtt_ms c)) eqn:F1; [|done].
  destruct (is_finite best_rtt) eqn:F2; [|done]. cbn [negb orb] in Eh.
  destruct (fle (get_smooth_rtt_ms c) f0 || fle best_rtt f0) eqn:Ez; [done|].
  apply orb_false_iff in Ez as [_ Ez]. split; [done|]. exists best_rtt. split; [|split; [|exact Eh]].
  - unfold best_rtt in *. destruct (el_measured st) as [[im rm]|]; [congruence|].
    by rewrite (unmeasured_never_wins _ F1) in Eh.
  - apply fle_false_flt; [|done|exact Ez]. unfold is_finite in F2.
    by destruct (is_nan best_rtt).
Qed.

(** A carrier of 300 ms elected at 1 s, and a challenger of 100 ms. *)
Definition slow_carrier : SrtlaConnection :=
  live_link 1 20000 <| sole_carrier := true |> <| sole_carrier_since_ms := 1000 |>
    <| rtt := update_estimate rtt_default 300 0 |>.

Lemma sole_carrier_sticky_witness :
  election_keep 4000 (mkElection (Some (0%nat, slow_carrier)) (Some (1%nat, f_of_Z 100)) None) = Some 1%nat /\
  SOLE_CARRIER_MIN_HOLD_MS <= sat_sub 4000 (sole_carrier_since_ms slow_carrier).
Proof.
  split; [vm_compute; reflexivity|].
  apply (sole_carrier_sticky 4000 (mkElection (Some (0%nat, slow_carrier)) (Some (1%nat, f_of_Z 100)) None)
           0 slow_carrier 1); [reflexivity|vm_compute; reflexivity|done].
Defined.

(** ** Ranking and hysteresis *)
Section Ranking.
Context (exp : f64 -> f64) (now : Z) (enable_quality any_unconstrained : bool) (last_idx : option nat).

Abbreviation score c := ((rank_score exp now enable_quality any_unconstrained c).2).
Abbreviation ranked c := (rankable now any_unconstrained c = true).

(** [b] is the first ranked link of the highest score [s]; with none above -1
    there is no such link and [s] is -1. *)
Definition top_ranked (pool : list SrtlaConnection) (b : option nat) (s : f64) : Prop :=
  (forall j c, pool !! j = Some c -> ranked c -> fgt (score c) s = false) /\
  match b with
  | Some i => fgt s (f_of_Z (-1)) = true /\
      (exists c, pool !! i = Some c /\ ranked c /\ score c = s) /\
      (forall j c, pool !! j = Some c -> ranked c -> (j < i)%nat -> fge (score c) s = false)
  | None => s = f_of_Z (-1)
  end.

(** [top_ranked] names one link only. *)
Lemma top_ranked_unique pool b1 s1 b2 s2 :
  top_ranked pool b1 s1 -> top_ranked pool b2 s2 -> b1 = b2 /\ s1 = s2.
Proof.
  assert (forall i s1 s2, top_ranked pool (Some i) s1 -> top_ranked pool None s2 -> False) as Hn.
  { intros i s s' (_ & Hs & (c & Hc & Hr & He) & _) [Hall ->]. specialize (Hall i c Hc Hr). congruence. }
  intros H1 H2. destruct b1 as [i|], b2 as [j|]; [|by destruct (Hn i s1 s2)|by destruct (Hn j s2 s1)|].
  - destruct H1 as (A1 & P1 & (c1 & L1 & R1 & <-) & F1), H2 as (A2 & P2 & (c2 & L2 & R2 & <-) & F2).
    assert (i = j) as ->; [|split; congruence].
    assert (is_nan (score c1) = false /\ is_nan (score c2) = false) as [N1 N2]
      by (split; [exact (proj2 (flt_not_nan _ _ P1))|exact (proj2 (flt_not_nan _ _ P2))]).
    destruct (Nat.lt_trichotomy i j) as [H|[H|H]]; [|done|].
    + specialize (F2 i c1 L1 R1 H). specialize (A1 j c2 L2 R2). unfold fge, fgt in *.
      pose proof (fle_false_flt _ _ N2 N1 F2) as G. unfold flt in G. congruence.
    + specialize (F1 j c2 L2 R2 H). specialize (A2 i c1 L1 R1). unfold fge, fgt in *.
      pose proof (fle_false_flt _ _ N1 N2 F1) as G. unfold flt in G. congruence.
  - destruct H1 as [_ ->], H2 as [_ ->]. done.
Qed.

(** What the scoring loop knows of the links it has seen. *)
Definition ranking_inv (pre : list SrtlaConnection) (st : ranking) : Prop :=
  is_nan (rk_best_score st) = false /\
  top_ranked pre (rk_best_idx st) (rk_best_score st) /\
  (forall s, rk_current_score st = Some s ->
     exists i c, last_idx = Some i /\ pre !! i = Some c /\ ranked c /\ score c = s) /\
  (forall i c, last_idx = Some i -> pre !! i = Some c -> ranked c -> rk_current_score st = Some (score c)).

Lemma top_ranked_skip pre c b s :
  top_ranked pre b s -> (ranked c -> fgt (score c) s = false) -> top_ranked (pre ++ [c]) b s.
Proof.
  intros [Hall Hb] Hc. split.
  - intros j c' [Hj|[-> ->]]%lookup_snoc_inv Hr; [by apply (Hall j)|by apply Hc].
  - destruct b as [i|]; [|done]. destruct Hb as (Hs & (d & Hd & Hr & He) & Hf). split; [done|].
    split; [eauto with srtla|]. intros j c' [Hj|[-> ->]]%lookup_snoc_inv Hr' Hlt; [by apply (Hf j)|].
    apply lookup_lt_Some in Hd. lia.
Qed.

Lemma top_ranked_beat pre c b s :
  is_nan s = false -> top_ranked pre b s -> ranked c -> fgt (score c) s = true ->
  top_ranked (pre ++ [c]) (Some (length pre)) (score c).
Proof.
  intros Hn [Hall Hb] Hr Hg. assert (forall j c', pre !! j = Some c' -> ranked c' -> fge (score c') (score c) = false) as Hge.
  { intros j c' Hj Hr'. specialize (Hall j c' Hj Hr'). apply not_true_iff_false. intros H.
    apply not_true_iff_false in Hall. apply Hall. unfold fgt, fge in *. by apply (flt_le_trans _ (score c)). }
  split; [|split; [|split]].
  - intros j c' [Hj|[-> ->]]%lookup_snoc_inv Hr'; [|apply flt_irrefl].
    specialize (Hge j c' Hj Hr'). apply not_true_iff_false. intros H. apply not_true_iff_false in Hge.
    apply Hge. unfold fgt, fge in *. by apply flt_le.
  - destruct b as [i|]; [|by destruct Hb]. destruct Hb as (Hs & _). unfold fgt in *. by apply (flt_trans _ s).
  - exists c. eauto with srtla.
  - intros j c' [Hj|[-> _]]%lookup_snoc_inv Hr' Hlt; [by apply (Hge j)|lia].
Qed.

Lemma ranking_inv_step pre c st :
  ranking_inv pre st ->
  ranking_inv (pre ++ [c]) (rank_step exp now enable_quality any_unconstrained last_idx st (length pre) c).
Proof.
  intros (Hn & Htop & Hcur & Hlast). unfold rank_step.
  assert (forall s, rk_current_score st = Some s ->
    exists i c', last_idx = Some i /\ (pre ++ [c]) !! i = Some c' /\ ranked c' /\ score c' = s) as Hcur'.
  { intros s Hs. destruct (Hcur s Hs) as (i & c' & ? & ? & ? & ?). eauto 10 with srtla. }
  destruct (rankable now any_unconstrained c) eqn:Er; cbn [negb].
  2:{ split; [done|]. split; [apply top_ranked_skip; [done|congruence]|]. split; [done|].
      intros i c' Hl [Hj|[-> ->]]%lookup_snoc_inv Hr; [by apply (Hlast i)|congruence]. }
  destruct (rank_score exp now enable_quality any_unconstrained c) as [c1 s] eqn:Es.
  assert (s = score c) as Hs by (by rewrite Es). clear Es.
  set (cur := if bool_decide (Some (length pre) = last_idx) then Some s else rk_current_score st).
  assert ((forall s', cur = Some s' ->
      exists i c', last_idx = Some i /\ (pre ++ [c]) !! i = Some c' /\ ranked c' /\ score c' = s') /\
    (forall i c', last_idx = Some i -> (pre ++ [c]) !! i = Some c' -> ranked c' -> cur = Some (score c'))) as Hcur2.
  { unfold cur. case_bool_decide as E.
    - split; [intros s' [= <-]; exists (length pre), c; eauto with srtla|].
      intros i c' Hl Hi _. assert (i = length pre) as -> by congruence.
      rewrite lookup_snoc_last in Hi. congruence.
    - split; [exact Hcur'|]. intros i c' Hl [Hj|[-> _]]%lookup_snoc_inv Hr; [by apply (Hlast i)|congruence]. }
  clearbody cur. destruct (fgt s (rk_best_score st)) eqn:Eg; cbn.
  - split; [exact (proj2 (flt_not_nan (rk_best_score st) s Eg))|]. split; [|exact Hcur2].
    rewrite Hs in Eg |- *. by apply (top_ranked_beat pre c _ _ Hn Htop).
  - split; [done|]. split; [|exact Hcur2]. apply top_ranked_skip; [done|by rewrite <- Hs].
Qed.

Lemma ranking_scan conns :
  ranking_inv conns (foldi (rank_step exp now enable_quality any_unconstrained last_idx) 0 conns
    (mkRanking [] None (f_of_Z (-1)) None)).
Proof.
  apply (foldi_inv ranking_inv); [|intros; by apply ranking_inv_step].
  by split_and!.
Qed.

(** The choice from any scan that satisfies the invariant: the top link, or
    the previous one exactly when it is ranked and the top score is below 1.1
    times its score. *)
Definition stays (pool : list SrtlaConnection) (s : f64) (l : nat) : Prop :=
  exists c, last_idx = Some l /\ pool !! l = Some c /\ ranked c /\ flt s (fmul (score c) SWITCH_THRESHOLD) = true.

Lemma hysteresis_choice conns st :
  ranking_inv conns st ->
  (forall l, stays conns (rk_best_score st) l -> apply_hysteresis last_idx st = Some l) /\
  ((forall l, ~ stays conns (rk_best_score st) l) -> apply_hysteresis last_idx st = rk_best_idx st).
Proof.
  intros (_ & _ & Hcur & Hlast). unfold apply_hysteresis. split.
  - intros l (c & Hl & Hc & Hr & Hlt). rewrite Hl. rewrite (Hlast l c Hl Hc Hr), Hlt, andb_true_r.
    by case_bool_decide as E; [rewrite E|].
  - intros Hno. destruct last_idx as [l|] eqn:El; [|done]. destruct (rk_current_score st) as [s|] eqn:Es; [|done].
    destruct (Hcur s eq_refl) as (i & c & [= <-] & Hi & Hr & <-).
    destruct (flt _ _) eqn:Elt; [|by rewrite andb_false_r]. exfalso. apply (Hno l). by exists c.
Qed.

Lemma hysteresis_spec conns st :
  ranking_inv conns st ->
  match apply_hysteresis last_idx st with
  | None => forall j c, conns !! j = Some c -> ranked c -> fgt (score c) (f_of_Z (-1)) = false
  | Some i => exists c, conns !! i = Some c /\ ranked c /\
      ((forall j c', conns !! j = Some c' -> ranked c' -> fgt (score c') (score c) = false) \/
       (last_idx = Some i /\ forall j c', conns !! j = Some c' -> ranked c' ->
          fge (score c') (fmul (score c) SWITCH_THRESHOLD) = false))
  end.
Proof.
  intros (Hn & [Hall Hbest] & Hcur & _).
  assert (match rk_best_idx st with
    | None => forall j c, conns !! j = Some c -> ranked c -> fgt (score c) (f_of_Z (-1)) = false
    | Some i => exists c, conns !! i = Some c /\ ranked c /\
        ((forall j c', conns !! j = Some c' -> ranked c' -> fgt (score c') (score c) = false) \/
         (last_idx = Some i /\ forall j c', conns !! j = Some c' -> ranked c' ->
            fge (score c') (fmul (score c) SWITCH_THRESHOLD) = false)) end) as Hb.
  { destruct (rk_best_idx st) as [i|].
    - destruct Hbest as (_ & (c & ? & ? & Hs) & _). exists c. split; [done|]. split; [done|]. left. by rewrite Hs.
    - by rewrite <- Hbest. }
  unfold apply_hysteresis. destruct last_idx as [l|]; [|done].
  destruct (rk_current_score st) as [s|]; [|done].
  destruct (negb _ && flt (rk_best_score st) _) eqn:E; [|done].
  apply andb_true_iff in E as [_ Elt]. destruct (Hcur s eq_refl) as (i & c & [= <-] & Hi & Hr & Hs).
  exists c. split; [done|]. split; [done|]. right. split; [done|].
  intros j c' Hj Hr'. rewrite Hs. apply not_true_iff_false. intros Hge.
  specialize (Hall j c' Hj Hr'). apply not_true_iff_false in Hall. apply Hall.
  unfold fge, fgt in *. by apply (flt_le_trans _ _ _ Elt).
Qed.
End Ranking.

(** The links as the scoring loop of a pass sees them. *)
Definition enhanced_pool (conns : list SrtlaConnection) (now : Z) : list SrtlaConnection :=
  let '(conns1, carrier) := elect_sole_carrier conns now (existsb (quality_ok now) conns) in
  imap (exclusion_apply now (existsb (unconstrained now) conns) carrier) conns1.

Lemma enhanced_pool_lookup conns now i c :
  enhanced_pool conns now !! i = Some c -> exists c0, conns !! i = Some c0 /\ same_link c0 c.
Proof.
  unfold enhanced_pool.
  destruct (elect_sole_carrier conns now _) as [conns1 carrier] eqn:Hel.
  rewrite list_lookup_imap. intros (c1 & H1 & ->)%fmap_Some.
  destruct (elect_lookup _ _ _ _ _ _ _ Hel H1) as (c0 & H0 & Hs & _). exists c0. split; [done|].
  exact (same_link_trans _ _ _ Hs (proj1 (exclusion_apply_spec _ _ _ _ _))).
Qed.

Lemma rankable_candidate now au c : rankable now au c = true -> candidate now c = true.
Proof.
  unfold rankable, candidate. rewrite !andb_true_iff, !negb_true_iff, !orb_false_iff, negb_false_iff. tauto.
Qed.

(** The choice of a pass, from its pool. *)
Lemma enhanced_choice exp conns last_idx now enable_quality :
  let au := existsb (unconstrained now) conns in
  exists st, ranking_inv exp now enable_quality au last_idx (enhanced_pool conns now) st /\
    (enhanced_select_connection exp conns last_idx now enable_quality).2 = apply_hysteresis last_idx st.
Proof.
  intros au. unfold enhanced_select_connection, enhanced_pool. fold au.
  destruct (elect_sole_carrier conns now _) as [conns1 carrier].
  eexists. split; [apply ranking_scan|reflexivity].
Qed.

(** C7: the choice of enhanced mode is exactly this.  Among the links that are
    alive, schedulable, not gated and not excluded, let the top link be the
    first one of highest score (there is none when no score is above -1, and
    then the top score counts as -1).  The choice stays on the link of the
    previous packet if that link is ranked and the top score is below 1.1 times
    its own, and is the top link otherwise.  So the chosen link is a candidate,
    and no ranked link beats it, unless it is the previous one, and then none
    reaches 1.1 times its score.  This holds for every exponential function. *)
Theorem enhanced_choice_best (exp : f64 -> f64) (conns : list SrtlaConnection) (last_idx : option nat)
    (now : Z) (enable_quality : bool) :
  let au := existsb (unconstrained now) conns in
  let score c := (rank_score exp now enable_quality au c).2 in
  let pool := enhanced_pool conns now in
  let others (bad : SrtlaConnection -> bool) := forall j c', pool !! j = Some c' ->
    rankable now au c' = true -> bad c' = false in
  let choice := (enhanced_select_connection exp conns last_idx now enable_quality).2 in
  match choice with
  | None => others (fun c' => fgt (score c') (f_of_Z (-1)))
  | Some i => exists c0 c, conns !! i = Some c0 /\ candidate now c0 = true /\
      pool !! i = Some c /\ rankable now au c = true /\
      (others (fun c' => fgt (score c') (score c)) \/
       last_idx = Some i /\ others (fun c' => fge (score c') (fmul (score c) SWITCH_THRESHOLD)))
  end /\
  exists top s, top_ranked exp now enable_quality au pool top s /\
    (forall l, stays exp now enable_quality au last_idx pool s l -> choice = Some l) /\
    ((forall l, ~ stays exp now enable_quality au last_idx pool s l) -> choice = top).
Proof.
  intros au score pool others choice.
  destruct (enhanced_choice exp conns last_idx now enable_quality) as (st & Hst & Hc). unfold choice. rewrite Hc.
  split; [|exists (rk_best_idx st), (rk_best_score st); split; [apply Hst|by apply hysteresis_choice]].
  pose proof (hysteresis_spec _ _ _ _ _ _ _ Hst) as H.
  destruct (apply_hysteresis last_idx st) as [i|]; [|exact H].
  destruct H as (c & Hi & Hr & Hopt). destruct (enhanced_pool_lookup conns now i c Hi) as (c0 & H0 & Hs).
  exists c0, c. split; [done|]. split; [|done].
  rewrite <- (same_link_candidate now c0 c Hs). by apply (rankable_candidate now au).
Qed.

(** ** Best-path override *)
Abbreviation cached_quality c := (multiplier (quality_cache c)).

Definition override_inv (now : Z) (pre : list SrtlaConnection) (st : override_scan) : Prop :=
  is_nan (ov_best_quality st) = false /\
  (forall j c, pre !! j = Some c -> override_eligible now c = true ->
     fgt (cached_quality c) (ov_best_quality st) = false) /\
  match ov_best_idx st with
  | Some i => exists c, pre !! i = Some c /\ override_eligible now c = true /\
      cached_quality c = ov_best_quality st
  | None => ov_best_quality st = S754_infinity true
  end /\
  ov_eligible st = Z.of_nat (length (List.filter (override_eligible now) pre)) /\
  (ov_first st = None -> ov_all_equal st = true /\ ov_eligible st = 0) /\
  (forall f, ov_first st = Some f -> ov_all_equal st = true ->
     forall j c, pre !! j = Some c -> override_eligible now c = true ->
       is_nan (cached_quality c) = false -> feq f (cached_quality c) = true).

Lemma feq_refl a : is_nan a = false -> feq a a = true.
Proof.
  intros H. unfold feq, SFeqb. destruct a as [[]|[]| |[] m e]; try done; cbn;
    by rewrite Z.compare_refl, Pos.compare_cont_refl.
Qed.

Lemma filter_snoc_length {A : Type} (f : A -> bool) pre x :
  length (List.filter f (pre ++ [x])) = (length (List.filter f pre) + if f x then 1 else 0)%nat.
Proof. rewrite List.filter_app, length_app. cbn. by destruct (f x). Qed.

Lemma override_first_step now pre c st :
  override_inv now pre st -> override_eligible now c = true ->
  let q := cached_quality c in
  let p := match ov_first st with
           | None => (Some q, ov_all_equal st)
           | Some f => (Some f, if negb (feq f q) then false else ov_all_equal st)
           end in
  p.1 <> None /\
  (forall f, p.1 = Some f -> p.2 = true ->
     forall j c', (pre ++ [c]) !! j = Some c' -> override_eligible now c' = true ->
       is_nan (cached_quality c') = false -> feq f (cached_quality c') = true).
Proof.
  intros (_ & _ & _ & Hcount & Hnone & Heq) He q. cbn zeta.
  destruct (ov_first st) as [f|] eqn:Ef; cbn [fst snd].
  - split; [done|]. intros f' [= <-]. destruct (feq f q) eqn:Efq; [|done]. cbn [negb]. intros Hae j c'.
    intros [Hj|[-> ->]]%lookup_snoc_inv Hc' Hn; [by apply (Heq f eq_refl Hae j)|exact Efq].
  - split; [done|]. intros f' [= <-] Hae j c' [Hj|[-> ->]]%lookup_snoc_inv Hc' Hn; [|by apply feq_refl].
    destruct (Hnone eq_refl) as [_ H0]. rewrite Hcount in H0. exfalso.
    assert (In c' (List.filter (override_eligible now) pre)) as Hin.
    { apply filter_In. split; [|done]. apply list_elem_of_In, list_elem_of_lookup. eauto. }
    by destruct (List.filter _ pre).
Qed.

Lemma override_inv_step now pre c st :
  override_inv now pre st -> override_inv now (pre ++ [c]) (override_step now st (length pre) c).
Proof.
  intros Hinv. pose proof Hinv as (Hn & Hall & Hbest & Hcount & Hnone & Heq). unfold override_step.
  assert (match ov_best_idx st with
    | Some i => exists c', (pre ++ [c]) !! i = Some c' /\ override_eligible now c' = true /\
        cached_quality c' = ov_best_quality st
    | None => ov_best_quality st = S754_infinity true end) as Hbest'.
  { destruct (ov_best_idx st); [|done]. destruct Hbest as (c' & ? & ? & ?). eauto with srtla. }
  pose proof (filter_snoc_length (override_eligible now) pre c) as Hlen.
  destruct (override_eligible now c) eqn:Er; cbn [negb].
  2:{ split_and!; try done.
      - intros j c' [Hj|[-> ->]]%lookup_snoc_inv Hr; [by apply (Hall j)|congruence].
      - rewrite Hlen, Hcount. lia.
      - intros f Hf Ha j c' [Hj|[-> ->]]%lookup_snoc_inv Hr; [by apply (Heq f Hf Ha j)|congruence]. }
  destruct (override_first_step now pre c st Hinv Er) as [Hsome Hfirst].
  destruct (match ov_first st with Some _ => _ | None => _ end) as [first ae]. cbn [fst snd] in *.
  destruct (fgt (cached_quality c) (ov_best_quality st)) eqn:Eg; split_and!; cbn; try done; try lia.
  - exact (proj2 (flt_not_nan (ov_best_quality st) _ Eg)).
  - intros j c' [Hj|[-> ->]]%lookup_snoc_inv Hr; [|apply flt_irrefl].
    specialize (Hall j c' Hj Hr). apply not_true_iff_false. intros H.
    apply not_true_iff_false in Hall. apply Hall. unfold fgt in *. by apply (flt_trans _ (cached_quality c)).
  - exists c. eauto with srtla.
  - intros j c' [Hj|[-> ->]]%lookup_snoc_inv Hr; [by apply (Hall j)|done].
Qed.

(** The override for critical packets picks, outside classic mode, an
    eligible link no eligible link beats on cached quality; it abstains exactly
    in classic mode, when no eligible link has a quality above minus infinity,
    or when at least two are eligible and their qualities are equal. *)
Theorem override_picks_best (conns : list SrtlaConnection) (now : Z) (mode : SchedulingMode) :
  match select_best_path_override_idx conns now mode with
  | Some i => mode <> Classic /\ exists c, conns !! i = Some c /\ override_eligible now c = true /\
      forall j c', conns !! j = Some c' -> override_eligible now c' = true ->
        fgt (cached_quality c') (cached_quality c) = false
  | None => mode = Classic \/
      (forall j c', conns !! j = Some c' -> override_eligible now c' = true ->
         fgt (cached_quality c') (S754_infinity true) = false) \/
      ((1 < length (List.filter (override_eligible now) conns))%nat /\
       exists f, forall j c', conns !! j = Some c' -> override_eligible now c' = true ->
         is_nan (cached_quality c') = false -> feq f (cached_quality c') = true)
  end.
Proof.
  assert (override_inv now conns (foldi (override_step now) 0 conns
            (mkOverride None (S754_infinity true) None true 0))) as H.
  { apply (foldi_inv (override_inv now)); [|intros; by apply override_inv_step].
    by split_and!. }
  unfold select_best_path_override_idx, select_best_quality_idx.
  destruct mode; cbn [is_classic]; [by left|].
  set (st := foldi _ _ _ _) in *. clearbody st.
  destruct H as (Hn & Hall & Hbest & Hcount & Hnone & Heq).
  destruct ((ov_eligible st >? 1) && ov_all_equal st) eqn:E.
  - apply andb_true_iff in E as [H1 Hae]. right; right. split; [lia|].
    destruct (ov_first st) as [f|] eqn:Ef; [by exists f; apply Heq|]. destruct (Hnone eq_refl). lia.
  - destruct (ov_best_idx st) as [i|].
    + split; [done|]. destruct Hbest as (c & Hi & He & Hq). exists c. split; [done|]. split; [done|].
      by rewrite Hq.
    + right; left. by rewrite <- Hbest.
Qed.
