(* ===== verification/SelectionFrame.v ===== *)
(** * What a selection pass leaves alone

    A pass of the scheduler rewrites the gate, election, ramp and quality-cache
    fields of the links and nothing else: identity, packet log, window, batch
    queue, RTT state and registration stay.  So the connection invariant
    survives it, and the sender theorems can reason about payload without
    opening the scheduler. *)
From S2P Require Import Prelude F64 Wire Seq Filters Rtt Batch Pacing Congestion Config Connection Selection SelectionSpec.

(** The fields a pass keeps, and the one bound it maintains. *)
Record sel_frame (c c' : SrtlaConnection) : Prop := mkSelFrame {
  sf_in_flight : in_flight_packets c' = in_flight_packets c;
  sf_log : packet_log c' = packet_log c;
  sf_window : window c' = window c;
  sf_batch : batch_sender c' = batch_sender c;
  sf_rtt : rtt c' = rtt c;
  sf_connected : connected c' = connected c;
  sf_phase : phase c' = phase c;
  sf_id : conn_id c' = conn_id c;
  sf_received : last_received c' = last_received c;
  sf_backoff : 0 <= stall_rejoin_backoff c <= STALL_REJOIN_BACKOFF_MAX ->
    0 <= stall_rejoin_backoff c' <= STALL_REJOIN_BACKOFF_MAX }.

Global Instance sel_frame_preorder : PreOrder sel_frame.
Proof.
  split.
  - intros c. by constructor.
  - intros a b c [] []. constructor; try congruence. auto.
Qed.

Lemma sel_frame_ok c c' : sel_frame c c' -> conn_ok c -> conn_ok c'.
Proof.
  intros [] H. apply (conn_ok_frame c); try done. apply sf_backoff0. by destruct H as (_ & _ & _ & _ & Hk & _).
Qed.

Ltac frame_done := constructor; try reflexivity; let H := fresh in intros H; exact H.

Lemma frame_arm c now r g : sel_frame c (arm_rejoin_ramp c now r g).
Proof. unfold arm_rejoin_ramp. destruct (flt _ _); frame_done. Qed.

Lemma frame_clear_latch c : sel_frame c (clear_stall_latch c).
Proof.
  unfold clear_stall_latch. destruct (stall_rejoin_ramp_from_stall_gate _);
    (constructor; try reflexivity; intros _; cbn; unfold STALL_REJOIN_BACKOFF_MAX; lia).
Qed.

Lemma frame_silence c now mif ceil : sel_frame c (update_silence_pull c now mif ceil).
Proof.
  unfold update_silence_pull. destruct (is_briefly_silent c now mif ceil).
  - destruct (negb _); frame_done.
  - destruct (negb _); [frame_done|]. destruct (_ || _); frame_done.
Qed.

Lemma frame_stall_latch c now mif ceil : sel_frame c (update_stall_latch c now mif ceil).
Proof.
  unfold update_stall_latch. destruct (latch_trips c now mif ceil).
  - destruct (stall_latched_since_ms c =? 0); [|frame_done].
    constructor; try reflexivity. intros [H _]. cbn. by apply backoff_next_bounded.
  - destruct (stall_latched_since_ms c =? 0); [frame_done|].
    destruct (negb _); [frame_done|].
    set (c1 := if stall_recovery_since_ms c =? 0 then _ else c).
    assert (sel_frame c c1) as H1 by (unfold c1; destruct (stall_recovery_since_ms c =? 0); frame_done).
    clearbody c1. destruct (_ >=? _); [|exact H1].
    etrans; [exact H1|]. etrans; [|apply frame_arm]. frame_done.
Qed.

Lemma frame_release c now : sel_frame c (release_sole_carrier c now).
Proof.
  unfold release_sole_carrier. destruct (sole_carrier_excluded c); [|frame_done].
  etrans; [apply (frame_arm c now HELD_OUT_REJOIN_RAMP_MS false)|]. frame_done.
Qed.

Lemma frame_election now keep h i c : sel_frame c (election_apply now keep h i c).
Proof.
  unfold election_apply. case_bool_decide.
  - set (c1 := if sole_carrier_excluded c then _ else c).
    assert (sel_frame c c1) as H1 by (unfold c1; destruct (sole_carrier_excluded c); [apply frame_arm|frame_done]).
    clearbody c1. etrans; [exact H1|]. destruct (negb (sole_carrier c1)); [|frame_done].
    destruct h; cbn [orb]; [frame_done|]. destruct (_ =? 0); frame_done.
  - destruct h; frame_done.
Qed.

Lemma frame_exclusion now au carrier i c : sel_frame c (exclusion_apply now au carrier i c).
Proof.
  unfold exclusion_apply. destruct (quality_excluded c && _); [|frame_done].
  etrans; [apply (frame_arm c now HELD_OUT_REJOIN_RAMP_MS false)|]. frame_done.
Qed.

Lemma frame_rank_score exp now eq au c : sel_frame c (rank_score exp now eq au c).1.
Proof.
  unfold rank_score, get_cached_quality_multiplier. destruct (negb eq); [frame_done|].
  destruct (_ >=? _); frame_done.
Qed.

(** ** Lifting to the whole bond *)
Lemma frame_map f conns : (forall c, sel_frame c (f c)) -> Forall2 sel_frame conns (map f conns).
Proof. intros Hf. induction conns; constructor; auto. Qed.

Lemma frame_imap f conns : (forall i c, sel_frame c (f i c)) -> Forall2 sel_frame conns (imap f conns).
Proof. revert f. induction conns as [|c conns IH]; intros f Hf; constructor; [apply Hf|]. apply IH. intros. apply Hf. Qed.

Lemma frame_trans a b c : Forall2 sel_frame a b -> Forall2 sel_frame b c -> Forall2 sel_frame a c.
Proof.
  intros H. revert c. induction H as [|x y a b Hxy _ IH]; intros c Hc; inversion Hc; subst; constructor;
    [by etrans|by apply IH].
Qed.

Lemma frame_gate conns now config : Forall2 sel_frame conns (apply_stall_gate conns now config).
Proof.
  unfold apply_stall_gate. eapply frame_trans; [apply (frame_map (gate_refresh config)); intros c; unfold gate_refresh; frame_done|].
  destruct (negb _).
  - apply frame_map. intros c. unfold gate_off. etrans; [|apply frame_clear_latch]. frame_done.
  - eapply frame_trans; [apply (frame_map (gate_drive now config)); intros c; unfold gate_drive; etrans; [apply frame_silence|apply frame_stall_latch]|].
    apply frame_map. intros c. frame_done.
Qed.

Lemma frame_elect conns now ok : Forall2 sel_frame conns (elect_sole_carrier conns now ok).1.
Proof.
  unfold elect_sole_carrier. destruct ok; [apply frame_map; intros c; apply frame_release|].
  apply frame_imap. intros i c. apply frame_election.
Qed.

Lemma frame_ranking exp now eq au last conns :
  Forall2 sel_frame conns (rk_conns (foldi (rank_step exp now eq au last) 0 conns (mkRanking [] None (f_of_Z (-1)) None))).
Proof.
  apply (foldi_inv (fun pre st => Forall2 sel_frame pre (rk_conns st))); [constructor|].
  intros pre c st H. unfold rank_step.
  assert (forall c', sel_frame c c' -> Forall2 sel_frame (pre ++ [c]) (rk_conns st ++ [c'])) as Hsnoc
    by (intros c' Hc; apply Forall2_app; [done|constructor; [done|constructor]]).
  destruct (negb _); [cbn; apply Hsnoc; reflexivity|].
  pose proof (frame_rank_score exp now eq au c) as Hr.
  destruct (rank_score exp now eq au c) as [c' s]. destruct (fgt _ _); cbn; by apply Hsnoc.
Qed.

Lemma frame_select exp conns last now config :
  Forall2 sel_frame conns (select_connection_idx exp conns last now config).1.
Proof.
  unfold select_connection_idx. eapply frame_trans; [apply (frame_gate conns now config)|].
  destruct (cfg_mode config); cbn [fst].
  - apply frame_map. intros c. unfold clear_quality_gate_state. frame_done.
  - unfold enhanced_select_connection. set (cs := apply_stall_gate conns now config). clearbody cs.
    pose proof (frame_elect cs now (existsb (quality_ok now) cs)) as He.
    destruct (elect_sole_carrier cs now _) as [cs1 carrier]. cbn [fst] in *.
    eapply frame_trans; [exact He|]. eapply frame_trans; [apply (frame_imap (exclusion_apply now (existsb (unconstrained now) cs) carrier)); intros i c; apply frame_exclusion|].
    apply frame_ranking.
Qed.

(** The chosen index is in range. *)
Lemma foldi_classic_range now conns :
  match classic_select_connection conns now with Some i => (i < length conns)%nat | None => True end.
Proof.
  unfold classic_select_connection.
  apply (foldi_inv (fun pre st => match st.1 with Some i => (i < length pre)%nat | None => True end)); [done|].
  intros pre c [best s] H. unfold classic_step. cbn [fst] in *. rewrite length_app. cbn.
  assert (match best with Some i => (i < length pre + 1)%nat | None => True end) by (destruct best; [lia|done]).
  destruct (_ || _); [done|]. destruct (_ >? _); cbn; [lia|done].
Qed.

Lemma hysteresis_range exp now eq au last conns :
  match apply_hysteresis last (foldi (rank_step exp now eq au last) 0 conns (mkRanking [] None (f_of_Z (-1)) None)) with
  | Some i => (i < length conns)%nat | None => True end.
Proof.
  pose proof (hysteresis_spec exp now eq au last conns _ (ranking_scan exp now eq au last conns)) as H.
  destruct (apply_hysteresis _ _) as [i|]; [|done]. destruct H as (c & Hi & _). by apply lookup_lt_Some in Hi.
Qed.

Lemma select_range exp conns last now config i :
  (select_connection_idx exp conns last now config).2 = Some i -> (i < length conns)%nat.
Proof.
  unfold select_connection_idx. pose proof (Forall2_length _ _ _ (frame_gate conns now config)) as Hl.
  destruct (cfg_mode config); cbn [snd].
  - pose proof (foldi_classic_range now (map clear_quality_gate_state (apply_stall_gate conns now config))) as H.
    rewrite length_map in H. intros E. rewrite E in H. lia.
  - unfold enhanced_select_connection. set (cs := apply_stall_gate conns now config) in *. clearbody cs.
    pose proof (Forall2_length _ _ _ (frame_elect cs now (existsb (quality_ok now) cs))) as He.
    destruct (elect_sole_carrier cs now _) as [cs1 carrier]. cbn [fst snd] in *.
    pose proof (hysteresis_range exp now (effective_quality_enabled config) (existsb (unconstrained now) cs) last
      (imap (exclusion_apply now (existsb (unconstrained now) cs) carrier) cs1)) as H.
    intros E. rewrite E, length_imap in H. lia.
Qed.

Lemma override_range conns now mode i :
  select_best_path_override_idx conns now mode = Some i -> (i < length conns)%nat.
Proof.
  unfold select_best_path_override_idx, select_best_quality_idx. destruct (is_classic mode); [done|].
  assert (match ov_best_idx (foldi (override_step now) 0 conns (mkOverride None (S754_infinity true) None true 0)) with
    | Some i => (i < length conns)%nat | None => True end) as H.
  { apply (foldi_inv (fun pre st => match ov_best_idx st with Some i => (i < length pre)%nat | None => True end)); [done|].
    intros pre c st H. unfold override_step. rewrite length_app. cbn [length].
    assert (match ov_best_idx st with Some i => (i < length pre + 1)%nat | None => True end) by (destruct (ov_best_idx st); [lia|done]).
    destruct (negb _); [done|]. destruct (match ov_first st with Some _ => _ | None => _ end) as [f e].
    destruct (fgt _ _); cbn; [lia|done]. }
  destruct (_ && _); [done|]. intros E. by rewrite E in H.
Qed.
