(* ===== verification/LinkCc.v ===== *)
(** * The per-link congestion controller (selection/link_cc.rs)

    One [LinkCongestionState] per link id turns round-trip samples, byte and
    NAK counters into a soft cap [lk_target_bps], a state of the cap machine
    and a latched loss verdict.  [link_round] is what [tick_all] does to one
    link on a housekeeping tick.  [exp] of the loss average is a parameter.

    The theorems here are about the cap: its float arithmetic is an integer law,
    and how far a round can move it. *)
From Stdlib Require Import Sorting.Sorted.
From S2P Require Import Prelude F64 F64Int Filters Rtt Pacing Congestion Connection Selection.

Definition LOSS_WINDOW_MS : Z := 1000.
Definition LOSS_BACKOFF_PERMILLE : Z := 5.
Definition BACKOFF_PERMILLE : Z := 850.
Definition BACKOFF_MIN_LOAD_PERMILLE : Z := 300.
Definition BACKOFF_EFFICACY_TICKS : Z := 3.
Definition BACKOFF_EFFICACY_IMPROVEMENT_PERMILLE : Z := 800.
Definition LOSS_UNCONGESTIVE_RETEST_TICKS : Z := 30.
Definition AI_STEP_PERMILLE : Z := 20.
Definition HAI_STEP_PERMILLE : Z := 60.
Definition FAST_RECOVERY_STEP_PERMILLE : Z := 40.
Definition FAST_RECOVERY_TICKS : Z := 5.
Definition DRAIN_RTT_INFLATION : f64 := f_of_Z 2.
Definition DRAIN_PERMILLE : Z := 750.
Definition HAI_VARIANCE_FRACTION : f64 := flit 1 10.
Definition RTT_HOLD_FACTOR : f64 := flit 3 2.
Definition MIN_TARGET_BPS : Z := 100000.
Definition MAX_TARGET_BPS : Z := 200000000.
Definition INITIAL_TARGET_BPS : Z := 1000000.
Definition LOSS_EWMA_TAU_MS : f64 := f_of_Z 2000.
Definition LOSS_DEGRADE_ENTER : f64 := flit 55 100.
Definition LOSS_DEGRADE_CLEAR : f64 := flit 25 100.
Definition LOSS_DEGRADE_SUSTAIN_MS : Z := 4000.
Definition CC_RTT_MIN_WINDOW_MS : Z := 30000.
Definition CC_OUTLIER_FACTOR : f64 := f_of_Z 4.

Inductive CcState := Bootstrap | Climbing | Holding | BackingOff | Drain.
Global Instance CcState_eq_dec : EqDecision CcState.
Proof. solve_decision. Defined.

Inductive ClimbMode := ClimbNormal | ClimbHai | ClimbFastRecovery.

Record LossSample := mkLoss { ls_ts_ms : Z; ls_lost : Z; ls_sent : Z }.

Record LinkCongestionState := mkLink {
  lk_state : CcState;
  lk_climb_mode : ClimbMode;
  lk_target_bps : Z;
  lk_rtt_ewma_ms : f64;
  lk_rtt_var_ms : f64;
  lk_rtt_min_ms : f64;
  lk_rtt_min_stamp_ms : Z;
  lk_last_rtt_update_ms : Z;
  lk_loss_samples : list LossSample;
  lk_window_lost : Z;
  lk_window_sent : Z;
  lk_fast_recovery_ticks : Z;
  lk_prev_bytes_sent_total : Z;
  lk_prev_nak_total : Z;
  lk_traffic_baseline_set : bool;
  lk_loss_ewma : f64;
  lk_loss_ewma_last_ms : Z;
  lk_loss_high_since_ms : Z;
  lk_loss_degraded : bool;
  lk_backoff_ticks : Z;
  lk_backoff_entry_loss_pm : Z;
  lk_loss_uncongestive : bool;
  lk_uncongestive_ticks : Z }.

Global Instance eta_link : Eta LinkCongestionState := fun s =>
  mkLink (lk_state s) (lk_climb_mode s) (lk_target_bps s) (lk_rtt_ewma_ms s) (lk_rtt_var_ms s)
    (lk_rtt_min_ms s) (lk_rtt_min_stamp_ms s) (lk_last_rtt_update_ms s) (lk_loss_samples s)
    (lk_window_lost s) (lk_window_sent s) (lk_fast_recovery_ticks s) (lk_prev_bytes_sent_total s)
    (lk_prev_nak_total s) (lk_traffic_baseline_set s) (lk_loss_ewma s) (lk_loss_ewma_last_ms s)
    (lk_loss_high_since_ms s) (lk_loss_degraded s) (lk_backoff_ticks s) (lk_backoff_entry_loss_pm s)
    (lk_loss_uncongestive s) (lk_uncongestive_ticks s).

Definition link_default : LinkCongestionState :=
  mkLink Bootstrap ClimbNormal MIN_TARGET_BPS f0 f0 f_inf 0 0 [] 0 0 0 0 0 false f0 0 0 false 0 0 false 0.

(** ** Round trips *)
Definition update_rtt_min (self : LinkCongestionState) (rtt_ms : f64) (now_ms : Z) : LinkCongestionState :=
  let stale := sat_sub now_ms (lk_rtt_min_stamp_ms self) >? CC_RTT_MIN_WINDOW_MS in
  if negb (is_finite (lk_rtt_min_ms self)) || flt rtt_ms (lk_rtt_min_ms self) || stale
  then self <| lk_rtt_min_ms := rtt_ms |> <| lk_rtt_min_stamp_ms := now_ms |>
  else self.

Definition record_rtt (self : LinkCongestionState) (rtt_ms : f64) (now_ms : Z) : LinkCongestionState :=
  if negb (is_finite rtt_ms) || fle rtt_ms f0 then self
  else
    let age_ms := sat_sub now_ms (lk_last_rtt_update_ms self) in
    if feq (lk_rtt_ewma_ms self) f0 || (age_ms >=? 2000) then
      let self := self <| lk_rtt_ewma_ms := rtt_ms |> <| lk_rtt_var_ms := f0 |>
                       <| lk_last_rtt_update_ms := now_ms |> in
      update_rtt_min self rtt_ms now_ms
    else
      let '(w_new, w_old) :=
        if age_ms >=? 1000 then (f1, f1)
        else if age_ms >=? 500 then (f1, f_of_Z 4)
        else if age_ms >=? 250 then (f1, f_of_Z 8)
        else (f1, f_of_Z 16) in
      let denom := fadd w_new w_old in
      let prev := lk_rtt_ewma_ms self in
      let self := self <| lk_rtt_ewma_ms := fdiv (fadd (fmul rtt_ms w_new) (fmul prev w_old)) denom |> in
      let dev := fabs (fsub rtt_ms prev) in
      let self := self <| lk_rtt_var_ms :=
        fdiv (fadd (fmul dev f1) (fmul (lk_rtt_var_ms self) (f_of_Z 3))) (f_of_Z 4) |> in
      update_rtt_min self rtt_ms now_ms <| lk_last_rtt_update_ms := now_ms |>.

(** ** The loss window *)
Fixpoint evict_loop (cutoff : Z) (samples : list LossSample) (sent lost : Z) : list LossSample * Z * Z :=
  match samples with
  | front :: rest =>
    if ls_ts_ms front <? cutoff
    then evict_loop cutoff rest (sat_sub sent (ls_sent front)) (sat_sub lost (ls_lost front))
    else (samples, sent, lost)
  | [] => (samples, sent, lost)
  end.

Definition evict_expired (self : LinkCongestionState) (now_ms : Z) : LinkCongestionState :=
  let cutoff := sat_sub now_ms LOSS_WINDOW_MS in
  let '(samples, sent, lost) :=
    evict_loop cutoff (lk_loss_samples self) (lk_window_sent self) (lk_window_lost self) in
  self <| lk_loss_samples := samples |> <| lk_window_sent := sent |> <| lk_window_lost := lost |>.

Definition record_loss (self : LinkCongestionState) (sent lost now_ms : Z) : LinkCongestionState :=
  let self := self <| lk_loss_samples ::= fun l => l ++ [mkLoss now_ms lost sent] |>
                   <| lk_window_sent ::= fun w => sat_add_u32 w sent |>
                   <| lk_window_lost ::= fun w => sat_add_u32 w lost |> in
  evict_expired self now_ms.

Definition observe_traffic (self : LinkCongestionState) (bytes_sent_total nak_total now_ms : Z)
  : LinkCongestionState :=
  if negb (lk_traffic_baseline_set self) then
    self <| lk_prev_bytes_sent_total := bytes_sent_total |> <| lk_prev_nak_total := nak_total |>
         <| lk_traffic_baseline_set := true |>
  else
    let delta_bytes := sat_sub bytes_sent_total (lk_prev_bytes_sent_total self) in
    let delta_nak := Z.max (sat_i32 (nak_total - lk_prev_nak_total self)) 0 in
    let self := self <| lk_prev_bytes_sent_total := bytes_sent_total |> <| lk_prev_nak_total := nak_total |> in
    if (delta_bytes =? 0) && (delta_nak =? 0) then self
    else
      let sent_pkts := Z.min (delta_bytes / ASSUMED_SRT_PAYLOAD_BYTES) u32_max in
      let lost_pkts := delta_nak in
      let sent_pkts := Z.max sent_pkts (if lost_pkts >? 0 then 1 else 0) in
      record_loss self sent_pkts lost_pkts now_ms.

Definition loss_permille (self : LinkCongestionState) : Z :=
  if lk_window_sent self =? 0 then 0
  else Z.min (sat_mul_u64 (lk_window_lost self) 1000 / lk_window_sent self) 1000000.

(** ** The cap machine *)
Definition update_backoff_efficacy (self : LinkCongestionState) (loss_high : bool) (loss_pm : Z)
  : LinkCongestionState :=
  if negb loss_high then
    self <| lk_backoff_ticks := 0 |> <| lk_backoff_entry_loss_pm := 0 |>
         <| lk_loss_uncongestive := false |> <| lk_uncongestive_ticks := 0 |>
  else if lk_loss_uncongestive self then
    let self := self <| lk_uncongestive_ticks ::= fun n => u32_wrap (n + 1) |> in
    if lk_uncongestive_ticks self >=? LOSS_UNCONGESTIVE_RETEST_TICKS then
      self <| lk_loss_uncongestive := false |> <| lk_uncongestive_ticks := 0 |>
           <| lk_backoff_ticks := 0 |> <| lk_backoff_entry_loss_pm := loss_pm |>
    else self
  else if negb (bool_decide (lk_state self = BackingOff)) then
    self <| lk_backoff_ticks := 0 |> <| lk_backoff_entry_loss_pm := loss_pm |>
  else
    let self := self <| lk_backoff_ticks ::= fun n => u32_wrap (n + 1) |> in
    if lk_backoff_ticks self <? BACKOFF_EFFICACY_TICKS then self
    else
      let improved := loss_pm * 1000 <? lk_backoff_entry_loss_pm self * BACKOFF_EFFICACY_IMPROVEMENT_PERMILLE in
      if improved then self <| lk_backoff_ticks := 0 |> <| lk_backoff_entry_loss_pm := loss_pm |>
      else self <| lk_loss_uncongestive := true |> <| lk_uncongestive_ticks := 0 |>.

Definition pick_climb_mode (self : LinkCongestionState) : ClimbMode :=
  if lk_fast_recovery_ticks self >? 0 then ClimbFastRecovery
  else if fgt (lk_rtt_ewma_ms self) f0
          && fle (lk_rtt_var_ms self) (fmul (lk_rtt_ewma_ms self) HAI_VARIANCE_FRACTION)
       then ClimbHai
  else ClimbNormal.

Definition step_permille (mode : ClimbMode) : Z :=
  match mode with
  | ClimbNormal => AI_STEP_PERMILLE
  | ClimbHai => HAI_STEP_PERMILLE
  | ClimbFastRecovery => FAST_RECOVERY_STEP_PERMILLE
  end.

Definition clamp_target (x : Z) : Z := Z.max MIN_TARGET_BPS (Z.min MAX_TARGET_BPS x).

Definition rtt_inflation (self : LinkCongestionState) : f64 :=
  if is_finite (lk_rtt_min_ms self) && fgt (lk_rtt_min_ms self) f0
  then fdiv (lk_rtt_ewma_ms self) (lk_rtt_min_ms self)
  else f1.

(** A throughput sample, clamped against the running estimate. *)
Definition sane_observed (self : LinkCongestionState) (observed_bps : Z) : Z :=
  let baseline := f_of_Z (Z.max (lk_target_bps self) INITIAL_TARGET_BPS) in
  f_as_u64 (fmin (f_of_Z observed_bps) (fmul CC_OUTLIER_FACTOR baseline)).

Definition seed_target (self : LinkCongestionState) (sane : Z) : LinkCongestionState :=
  if lk_target_bps self =? MIN_TARGET_BPS
  then self <| lk_target_bps := clamp_target (Z.max sane INITIAL_TARGET_BPS) |>
  else self.

Definition next_cc_state (loss_high loaded uncongestive : bool) (inflation : f64) : CcState :=
  if loss_high && loaded && negb uncongestive then BackingOff
  else if fge inflation DRAIN_RTT_INFLATION then Drain
  else if fgt inflation RTT_HOLD_FACTOR then Holding
  else Climbing.

(** The match on the next state: the new cap, before the final clamp. *)
Definition next_target (self : LinkCongestionState) (prev_state next_state : CcState) (mode : ClimbMode) (sane : Z) : f64 :=
  let prev := f_of_Z (lk_target_bps self) in
  match next_state with
  | Bootstrap | Holding => prev
  | Climbing =>
    let step := fdiv (fmul prev (f_of_Z (step_permille mode))) (f_of_Z 1000) in
    let measured_cap := fmul (f_of_Z sane) (f_of_Z 2) in
    if sane >? 0
    then fadd (fmax prev (f_of_Z MIN_TARGET_BPS)) (fmax (fmin step (fsub measured_cap prev)) f0)
    else prev
  | BackingOff =>
    let decreased := fdiv (fmul prev (f_of_Z BACKOFF_PERMILLE)) (f_of_Z 1000) in
    let delivered_floor := fmin (f_of_Z sane) prev in
    fmax decreased delivered_floor
  | Drain =>
    if negb (bool_decide (prev_state = Drain))
    then fdiv (fmul prev (f_of_Z DRAIN_PERMILLE)) (f_of_Z 1000)
    else prev
  end.

Section Exp.
Context (exp : f64 -> f64).

Definition update_loss_ewma (self : LinkCongestionState) (loss_pm now_ms : Z) : LinkCongestionState :=
  let inst := fclamp (fdiv (f_of_Z loss_pm) (f_of_Z 1000)) f0 f1 in
  let self :=
    if lk_loss_ewma_last_ms self =? 0 then self <| lk_loss_ewma := inst |>
    else
      let dt := f_of_Z (sat_sub now_ms (lk_loss_ewma_last_ms self)) in
      let alpha := fsub f1 (exp (fdiv (fneg dt) LOSS_EWMA_TAU_MS)) in
      self <| lk_loss_ewma ::= fun e => fadd e (fmul (fsub inst e) alpha) |> in
  let self := self <| lk_loss_ewma_last_ms := now_ms |> in
  if fgt (lk_loss_ewma self) LOSS_DEGRADE_ENTER then
    if lk_loss_high_since_ms self =? 0 then self <| lk_loss_high_since_ms := now_ms |>
    else if sat_sub now_ms (lk_loss_high_since_ms self) >=? LOSS_DEGRADE_SUSTAIN_MS
    then self <| lk_loss_degraded := true |>
    else self
  else
    let self := self <| lk_loss_high_since_ms := 0 |> in
    if flt (lk_loss_ewma self) LOSS_DEGRADE_CLEAR then self <| lk_loss_degraded := false |> else self.

(** The second half of a tick, from the signals. *)
Definition settle (self : LinkCongestionState) (next_state : CcState) (sane : Z) : LinkCongestionState :=
  let prev_state := lk_state self in
  let self :=
    match prev_state, next_state with
    | (BackingOff | Drain), Climbing => self <| lk_fast_recovery_ticks := FAST_RECOVERY_TICKS |>
    | _, _ => self
    end in
  let self := self <| lk_state := next_state |> in
  let mode := match next_state with Climbing => pick_climb_mode self | _ => ClimbNormal end in
  let self := self <| lk_climb_mode := mode |> in
  let next := next_target self prev_state next_state mode sane in
  let self := self <| lk_target_bps := clamp_target (f_as_u64 next) |> in
  self <| lk_fast_recovery_ticks ::= fun n =>
    if bool_decide (next_state = Climbing) then sat_sub n 1 else 0 |>.

Definition tick (self : LinkCongestionState) (observed_bps now_ms : Z) : LinkCongestionState :=
  let self := evict_expired self now_ms in
  if negb (is_finite (lk_rtt_ewma_ms self)) || feq (lk_rtt_ewma_ms self) f0 then
    self <| lk_state := Bootstrap |> <| lk_climb_mode := ClimbNormal |> <| lk_target_bps := MIN_TARGET_BPS |>
  else
    let loss_pm := loss_permille self in
    let self := update_loss_ewma self loss_pm now_ms in
    let inflation := rtt_inflation self in
    let sane := sane_observed self observed_bps in
    let self := seed_target self sane in
    let loaded := sane * 1000 >=? lk_target_bps self * BACKOFF_MIN_LOAD_PERMILLE in
    let loss_high := loss_pm >? LOSS_BACKOFF_PERMILLE in
    let self := update_backoff_efficacy self loss_high loss_pm in
    settle self (next_cc_state loss_high loaded (lk_loss_uncongestive self) inflation) sane.

(** ** The controller of all links *)
Record LinkCcSnapshot := mkCcSnapshot {
  sn_state : CcState; sn_climb_mode : ClimbMode; sn_target_bps : Z; sn_rtt_ewma_ms : f64; sn_rtt_var_ms : f64;
  sn_rtt_min_ms : f64; sn_loss_permille : Z; sn_loss_ewma : f64; sn_loss_degraded : bool }.

Definition snapshot_of (self : LinkCongestionState) : LinkCcSnapshot :=
  mkCcSnapshot (lk_state self) (lk_climb_mode self) (lk_target_bps self) (lk_rtt_ewma_ms self) (lk_rtt_var_ms self)
    (if is_finite (lk_rtt_min_ms self) then lk_rtt_min_ms self else f0)
    (loss_permille self) (lk_loss_ewma self) (lk_loss_degraded self).

(** What one link's state sees of its connection on a tick. *)
Record LinkInput := mkInput { in_rtt_ms : f64; in_bytes_sent : Z; in_naks : Z; in_bps : f64; in_now : Z }.

Definition link_input (conn : SrtlaConnection) (now_ms : Z) : LinkInput :=
  mkInput (get_smooth_rtt_ms conn) (bytes_sent_total (bitrate conn)) (total_nak_count conn)
    (current_bitrate_bps (bitrate conn)) now_ms.

Definition link_round (self : LinkCongestionState) (i : LinkInput) : LinkCongestionState :=
  let self := if fgt (in_rtt_ms i) f0 then record_rtt self (in_rtt_ms i) (in_now i) else self in
  let self := observe_traffic self (in_bytes_sent i) (in_naks i) (in_now i) in
  tick self (f_as_u64 (fmax (in_bps i) f0)) (in_now i).

(** [per_conn] of the controller, the snapshots of the links alive, and the
    collection of the entries of links that are gone. *)
Definition LinkCcController : Type := gmap Z LinkCongestionState.

Definition tick_all (per_conn : LinkCcController) (connections : list SrtlaConnection) (now_ms : Z)
  : LinkCcController * gmap Z LinkCcSnapshot :=
  let '(per_conn, alive) :=
    fold_left (fun '(per_conn, alive) conn =>
      let entry := default link_default (per_conn !! conn_id conn) in
      let entry := link_round entry (link_input conn now_ms) in
      (<[conn_id conn := entry]> per_conn, <[conn_id conn := snapshot_of entry]> alive))
      connections (per_conn, ∅) in
  (filter (fun '(id, _) => is_Some (alive !! id)) per_conn, alive).
End Exp.

(** ** The integer law of the cap *)
Definition sane_ref (target observed_bps : Z) : Z := Z.min observed_bps (4 * Z.max target INITIAL_TARGET_BPS).

Definition seed_ref (target sane : Z) : Z :=
  if target =? MIN_TARGET_BPS then clamp_target (Z.max sane INITIAL_TARGET_BPS) else target.

Definition target_ref (target : Z) (prev_state next_state : CcState) (mode : ClimbMode) (sane : Z) : Z :=
  match next_state with
  | Bootstrap | Holding => target
  | Climbing =>
    if 0 <? sane then target + Z.max 0 (Z.min (target * step_permille mode / 1000) (2 * sane - target)) else target
  | BackingOff => Z.max (target * 850 / 1000) (Z.min sane target)
  | Drain => if bool_decide (prev_state = Drain) then target else target * 750 / 1000
  end.

Definition target_in_range (t : Z) : Prop := MIN_TARGET_BPS <= t <= MAX_TARGET_BPS.

Lemma clamp_target_range x : target_in_range (clamp_target x).
Proof. unfold target_in_range, clamp_target, MIN_TARGET_BPS, MAX_TARGET_BPS. lia. Qed.

Lemma sane_observed_ref self obs :
  target_in_range (lk_target_bps self) -> 0 <= obs < two64 ->
  sane_observed self obs = sane_ref (lk_target_bps self) obs.
Proof.
  unfold target_in_range, MIN_TARGET_BPS, MAX_TARGET_BPS. intros Ht Ho.
  unfold sane_observed, sane_ref, CC_OUTLIER_FACTOR, INITIAL_TARGET_BPS.
  rewrite !(f_of_Z_int (Z.max _ _)), (f_of_Z_int 4), fmul_int by lia.
  destruct (fmin_int_big obs (4 * Z.max (lk_target_bps self) 1000000)) as [H1 H2]; [lia..|].
  rewrite f_as_u64_small, H2; [done|done|]. rewrite H2. unfold two64. lia.
Qed.

(** [x * pm / 1000] of the controller is the integer quotient. *)
Lemma scaled_int t pm : 0 < t <= MAX_TARGET_BPS -> 0 < pm <= 1000 ->
  fdiv (fmul (f_of_Z t) (f_of_Z pm)) (f_of_Z 1000) = fdiv (fint false (t * pm)) (fint false 1000) /\
  0 < t * pm < 2 ^ 40.
Proof.
  unfold MAX_TARGET_BPS. intros Ht Hp. rewrite !(f_of_Z_int t), !(f_of_Z_int pm), (f_of_Z_int 1000), fmul_int by nia.
  split; [done|nia].
Qed.

Lemma scaled_small t pm : 0 < t <= MAX_TARGET_BPS -> 0 < pm <= 1000 ->
  small_num (fdiv (fmul (f_of_Z t) (f_of_Z pm)) (f_of_Z 1000)) /\
  f_trunc (fdiv (fmul (f_of_Z t) (f_of_Z pm)) (f_of_Z 1000)) = t * pm / 1000.
Proof. intros Ht Hp. destruct (scaled_int t pm Ht Hp) as [-> H]. apply fdiv_small; lia. Qed.

Lemma int_small t : 0 <= t < 2 ^ 53 -> small_num (f_of_Z t) /\ f_trunc (f_of_Z t) = t.
Proof.
  intros Ht. destruct (Z.eq_dec t 0) as [->|H]; [split; [constructor|done]|].
  rewrite f_of_Z_int by lia. split; [apply fint_small; lia|apply f_trunc_int; lia].
Qed.

(** The growth of a climbing tick. *)
Lemma climb_int t pm sane : 0 < t <= MAX_TARGET_BPS -> 0 < pm <= 1000 -> 0 < sane < 2 ^ 50 ->
  let next := fadd (f_of_Z t)
    (fmax (fmin (fdiv (fmul (f_of_Z t) (f_of_Z pm)) (f_of_Z 1000))
                (fsub (fmul (f_of_Z sane) (f_of_Z 2)) (f_of_Z t))) f0) in
  small_num next /\ f_trunc next = t + Z.max 0 (Z.min (t * pm / 1000) (2 * sane - t)).
Proof.
  unfold MAX_TARGET_BPS. intros Ht Hp Hs. destruct (scaled_int t pm Ht Hp) as [-> Hn].
  destruct (fdiv_small (t * pm) 1000 Hn ltac:(lia)) as [Hsm Htr].
  destruct (fdiv_int (t * pm) 1000 Hn ltac:(lia)) as (m & e & Heq & Hm & He & Hlo & Hup).
  rewrite Heq in *. clear Heq.
  rewrite (f_of_Z_int t), (f_of_Z_int sane), (f_of_Z_int 2), fmul_int, fsub_int by lia. cbn zeta.
  assert (0 <= t * pm / 1000 < 2 ^ 39) as HK by (split; [apply Z.div_pos; lia|apply Z.div_lt_upper_bound; lia]).
  destruct (Z.eqb_spec (sane * 2) t) as [E|Hne].
  { change (fmax (fmin (S754_finite false m e) (S754_zero false)) f0) with f0.
    change (fadd (fint false t) f0) with (fint false t). split; [apply fint_small; lia|]. rewrite f_trunc_int by lia. lia. }
  destruct (Z.ltb_spec t (sane * 2)) as [Hlt|Hge].
  - pose proof (fint_small (sane * 2 - t) ltac:(lia)) as Hd. pose proof (f_trunc_int (sane * 2 - t) ltac:(lia)) as Td.
    unfold fmin. cbn [is_nan fint]. fold (fint false (sane * 2 - t)).
    destruct (flt (fint false (sane * 2 - t)) (S754_finite false m e)) eqn:E.
    + apply flt_le, f_trunc_mono in E; [|done..]. rewrite Td, Htr in E.
      change (fmax (fint false (sane * 2 - t)) f0) with (fint false (sane * 2 - t)).
      destruct (fadd_int t (sane * 2 - t)) as [H1 H2]; [lia..|]. split; [done|]. rewrite H2. lia.
    + apply flt_false_fle, f_trunc_mono in E; [|done..]. rewrite Td, Htr in E.
      change (fmax (S754_finite false m e) f0) with (S754_finite false m e).
      destruct (fadd_int_frac t m e (t * pm / 1000)) as [H1 H2]; [lia..|]. split; [done|]. rewrite H2. lia.
  - change (fmax (fmin (S754_finite false m e) (fint true (t - sane * 2))) f0) with f0.
    change (fadd (fint false t) f0) with (fint false t). split; [apply fint_small; lia|]. rewrite f_trunc_int by lia. lia.
Qed.

Lemma step_permille_range mode : 0 < step_permille mode <= 60.
Proof. by destruct mode. Qed.

Lemma next_target_ref self ps ns mode sane :
  target_in_range (lk_target_bps self) -> 0 <= sane < 2 ^ 50 ->
  f_as_u64 (next_target self ps ns mode sane) = target_ref (lk_target_bps self) ps ns mode sane.
Proof.
  intros Ht Hs. assert (0 < lk_target_bps self <= MAX_TARGET_BPS) as Hp
    by (unfold target_in_range, MIN_TARGET_BPS in Ht; lia).
  set (t := lk_target_bps self) in *.
  enough (small_num (next_target self ps ns mode sane) /\
          f_trunc (next_target self ps ns mode sane) = target_ref t ps ns mode sane /\
          target_ref t ps ns mode sane < two64) as (H1 & H2 & H3) by (by rewrite f_as_u64_small, H2 by (by rewrite ?H2)).
  unfold MAX_TARGET_BPS in *.
  destruct (int_small t) as [St Tt]; [lia|]. destruct (int_small sane) as [Ss Ts]; [lia|].
  assert (forall pm, 0 < pm <= 1000 -> 0 <= t * pm / 1000 <= t) as Hdiv.
  { intros pm Hpm. split; [apply Z.div_pos; lia|]. apply Z.div_le_upper_bound; nia. }
  unfold next_target, target_ref. fold t. destruct ns.
  - split; [done|]. split; [done|unfold two64; lia].
  - destruct (Z.gtb_spec sane 0); destruct (Z.ltb_spec 0 sane); try lia.
    + pose proof (step_permille_range mode). destruct (climb_int t (step_permille mode) sane) as [C1 C2]; [unfold MAX_TARGET_BPS; lia..|].
      replace (fmax (f_of_Z t) (f_of_Z MIN_TARGET_BPS)) with (f_of_Z t).
      * split; [done|]. split; [done|]. specialize (Hdiv (step_permille mode)). unfold two64. lia.
      * unfold fmax, MIN_TARGET_BPS. destruct (int_small 100000) as [Sm Tm]; [lia|].
        rewrite !small_not_nan by done. destruct (flt _ _) eqn:E; [|done].
        apply flt_le, f_trunc_mono in E as E'; [|done..]. rewrite Tt, Tm in E'.
        unfold target_in_range, MIN_TARGET_BPS in Ht. f_equal. lia.
    + split; [done|]. split; [done|unfold two64; lia].
  - split; [done|]. split; [done|unfold two64; lia].
  - unfold BACKOFF_PERMILLE. destruct (scaled_small t 850) as [S1 T1]; [unfold MAX_TARGET_BPS; lia..|].
    destruct (fmin_trunc (f_of_Z sane) (f_of_Z t)) as [S2 T2]; [done..|].
    destruct (fmax_trunc _ _ S1 S2) as [S3 T3]. split; [done|]. rewrite T3, T1, T2, Ts, Tt. split; [done|].
    specialize (Hdiv 850). unfold two64. lia.
  - unfold DRAIN_PERMILLE. destruct (bool_decide (ps = Drain)); cbn [negb].
    + split; [done|]. split; [done|unfold two64; lia].
    + destruct (scaled_small t 750) as [S1 T1]; [unfold MAX_TARGET_BPS; lia..|]. split; [done|]. rewrite T1. split; [done|].
      specialize (Hdiv 750). unfold two64. lia.
Qed.

(** ** What the parts of a tick leave alone *)
Record cap_frame (a b : LinkCongestionState) : Prop := mkCapFrame {
  cf_state : lk_state b = lk_state a;
  cf_target : lk_target_bps b = lk_target_bps a;
  cf_rtt : lk_rtt_ewma_ms b = lk_rtt_ewma_ms a }.

Global Instance cap_frame_trans : Transitive cap_frame.
Proof. intros a b c [] []. constructor; congruence. Qed.

(** Split a chain of conditional updates and close each frame by reflexivity. *)
Ltac cap_done := repeat case_match; by constructor.

Lemma evict_frame self now : cap_frame self (evict_expired self now).
Proof. unfold evict_expired. destruct (evict_loop _ _ _ _) as [[l s] n]. by constructor. Qed.

Lemma efficacy_frame self high pm : cap_frame self (update_backoff_efficacy self high pm).
Proof. unfold update_backoff_efficacy. cap_done. Qed.

Lemma loss_ewma_frame exp self pm now : cap_frame self (update_loss_ewma exp self pm now).
Proof. unfold update_loss_ewma. cap_done. Qed.

Lemma record_rtt_frame self rtt now :
  lk_state (record_rtt self rtt now) = lk_state self /\ lk_target_bps (record_rtt self rtt now) = lk_target_bps self.
Proof. unfold record_rtt, update_rtt_min. repeat case_match; done. Qed.

Lemma observe_frame self bytes naks now : cap_frame self (observe_traffic self bytes naks now).
Proof.
  unfold observe_traffic. destruct (negb _); [by constructor|]. destruct (_ && _); [by constructor|].
  unfold record_loss. etransitivity; [|apply evict_frame]. by constructor.
Qed.

(** The link has a usable round-trip average, so a tick is not a bootstrap. *)
Definition has_rtt (self : LinkCongestionState) : bool :=
  is_finite (lk_rtt_ewma_ms self) && negb (feq (lk_rtt_ewma_ms self) f0).

Lemma settle_spec self ns sane :
  target_in_range (lk_target_bps self) -> 0 <= sane < 2 ^ 50 ->
  lk_state (settle self ns sane) = ns /\
  lk_target_bps (settle self ns sane) =
    clamp_target (target_ref (lk_target_bps self) (lk_state self) ns (lk_climb_mode (settle self ns sane)) sane).
Proof.
  intros Ht Hs. unfold settle.
  set (s1 := match lk_state self, ns with (BackingOff | Drain), Climbing => _ | _, _ => _ end).
  assert (lk_target_bps s1 = lk_target_bps self) as E1 by (unfold s1; by destruct (lk_state self), ns).
  split; [done|]. cbn [lk_target_bps lk_climb_mode upd lk_state]. f_equal. rewrite next_target_ref; cbn; rewrite ?E1; done.
Qed.

Lemma seed_spec self sane : target_in_range (lk_target_bps self) ->
  lk_target_bps (seed_target self sane) = seed_ref (lk_target_bps self) sane /\
  target_in_range (seed_ref (lk_target_bps self) sane) /\ lk_state (seed_target self sane) = lk_state self.
Proof.
  intros Ht. unfold seed_target, seed_ref. destruct (_ =? _); [|done]. split; [done|]. split; [apply clamp_target_range|done].
Qed.

Lemma sane_ref_range t obs : target_in_range t -> 0 <= obs -> 0 <= sane_ref t obs < 2 ^ 50.
Proof. unfold target_in_range, sane_ref, MIN_TARGET_BPS, MAX_TARGET_BPS, INITIAL_TARGET_BPS. lia. Qed.

(** A tick in two halves: everything up to the verdict on the loss, with its
    frame, and the settlement of the cap. *)
Definition judged_loss (exp : f64 -> f64) (self : LinkCongestionState) (observed_bps now_ms : Z) : LinkCongestionState :=
  let self := evict_expired self now_ms in
  let loss_pm := loss_permille self in
  let self := update_loss_ewma exp self loss_pm now_ms in
  update_backoff_efficacy (seed_target self (sane_observed self observed_bps)) (loss_pm >? LOSS_BACKOFF_PERMILLE) loss_pm.

Definition chosen_state (exp : f64 -> f64) (self : LinkCongestionState) (observed_bps now_ms : Z) : CcState :=
  let sane := sane_ref (lk_target_bps self) observed_bps in
  next_cc_state (loss_permille (evict_expired self now_ms) >? LOSS_BACKOFF_PERMILLE)
    (sane * 1000 >=? seed_ref (lk_target_bps self) sane * BACKOFF_MIN_LOAD_PERMILLE)
    (lk_loss_uncongestive (judged_loss exp self observed_bps now_ms))
    (rtt_inflation (update_loss_ewma exp (evict_expired self now_ms)
      (loss_permille (evict_expired self now_ms)) now_ms)).

Lemma tick_settle exp self obs now :
  has_rtt self = true -> target_in_range (lk_target_bps self) -> 0 <= obs < two64 ->
  let sane := sane_ref (lk_target_bps self) obs in
  lk_target_bps (judged_loss exp self obs now) = seed_ref (lk_target_bps self) sane /\
  lk_state (judged_loss exp self obs now) = lk_state self /\
  tick exp self obs now = settle (judged_loss exp self obs now) (chosen_state exp self obs now) sane.
Proof.
  intros Hr Ht Ho sane. unfold tick, chosen_state, judged_loss. cbv zeta. fold sane.
  pose proof (evict_frame self now) as F1. set (s1 := evict_expired self now) in *.
  pose proof (loss_ewma_frame exp s1 (loss_permille s1) now) as F2. set (s2 := update_loss_ewma exp s1 _ now) in *.
  pose proof (transitivity F1 F2) as [Fs Ft Fr]. destruct F1 as [_ _ Fr1].
  unfold has_rtt in Hr. rewrite <- Fr1 in Hr. apply andb_true_iff in Hr as [H1 H2]. rewrite H1. cbn [negb].
  apply negb_true_iff in H2. rewrite H2. cbn [orb].
  assert (sane_observed s2 obs = sane) as Hs.
  { rewrite sane_observed_ref; [by rewrite Ft|by rewrite Ft|done]. }
  rewrite Hs. destruct (seed_spec s2 sane) as (E1 & _ & E3); [by rewrite Ft|]. rewrite Ft in E1. rewrite E1.
  pose proof (efficacy_frame (seed_target s2 sane) (loss_permille s1 >? LOSS_BACKOFF_PERMILLE) (loss_permille s1)) as [G1 G2 _].
  split; [rewrite G2; exact E1|]. split; [rewrite G1, E3; exact Fs|]. reflexivity.
Qed.

(** C17: the float arithmetic of the soft cap is an integer law.  On a tick of a
    link that has a round-trip average, the new cap is exactly: the old one
    (seeded from the clamped throughput sample on the first tick), grown by
    the integer permille step but not past twice the sample while climbing,
    cut to 85% but not below the delivered rate while backing off, cut once to
    75% on entering a drain, else kept; clamped to [100 kbit/s, 200 Mbit/s].
    No rounding of binary64 is visible. *)
Theorem target_law (exp : f64 -> f64) (self : LinkCongestionState) (obs now : Z) :
  has_rtt self = true -> target_in_range (lk_target_bps self) -> 0 <= obs < two64 ->
  let sane := sane_ref (lk_target_bps self) obs in
  let self' := tick exp self obs now in
  lk_target_bps self' =
    clamp_target (target_ref (seed_ref (lk_target_bps self) sane) (lk_state self) (lk_state self') (lk_climb_mode self') sane).
Proof.
  intros Hr Ht Ho sane self'. unfold self'.
  destruct (tick_settle exp self obs now Hr Ht Ho) as (E1 & E2 & ->). fold sane in E1 |- *.
  destruct (settle_spec (judged_loss exp self obs now) (chosen_state exp self obs now) sane) as [-> ->].
  - rewrite E1. apply (seed_spec self); done.
  - apply sane_ref_range; [done|lia].
  - by rewrite E1, E2.
Qed.

(** A link at 40 ms whose second tick sees 3.3 Mbit/s against a 5 Mbit/s cap. *)
Definition warm_link : LinkCongestionState :=
  record_rtt link_default (f_of_Z 40) 1000 <| lk_target_bps := 5000001 |>.

Lemma target_law_witness :
  has_rtt warm_link = true /\
  lk_target_bps (tick (fun _ => f1) warm_link 3300000 2000) = 5300001 /\
  lk_target_bps (tick (fun _ => f1) warm_link 3300000 2000) =
    clamp_target (target_ref (seed_ref 5000001 (sane_ref 5000001 3300000)) Bootstrap
      (lk_state (tick (fun _ => f1) warm_link 3300000 2000))
      (lk_climb_mode (tick (fun _ => f1) warm_link 3300000 2000)) (sane_ref 5000001 3300000)).
Proof.
  split; [vm_compute; reflexivity|]. split; [vm_compute; reflexivity|].
  apply (target_law (fun _ => f1) warm_link 3300000 2000).
  - vm_compute. reflexivity.
  - vm_compute. split; discriminate.
  - vm_compute. split; [discriminate|reflexivity].
Defined.

(** ** Runs of rounds *)
Definition link_run (exp : f64 -> f64) (inputs : list LinkInput) : LinkCongestionState :=
  fold_left (link_round exp) inputs link_default.

(** The state a round hands to [tick]. *)
Definition link_sampled (self : LinkCongestionState) (i : LinkInput) : LinkCongestionState :=
  observe_traffic (if fgt (in_rtt_ms i) f0 then record_rtt self (in_rtt_ms i) (in_now i) else self)
    (in_bytes_sent i) (in_naks i) (in_now i).

Definition round_bps (i : LinkInput) : Z := f_as_u64 (fmax (in_bps i) f0).

Lemma link_round_tick exp self i : link_round exp self i = tick exp (link_sampled self i) (round_bps i) (in_now i).
Proof. reflexivity. Qed.

Lemma link_sampled_frame self i :
  lk_state (link_sampled self i) = lk_state self /\ lk_target_bps (link_sampled self i) = lk_target_bps self.
Proof.
  unfold link_sampled. pose proof (record_rtt_frame self (in_rtt_ms i) (in_now i)) as [R1 R2].
  destruct (fgt (in_rtt_ms i) f0);
    match goal with |- context [observe_traffic ?s ?b ?n ?t] => destruct (observe_frame s b n t) as [O1 O2 _] end;
    rewrite O1, O2; done.
Qed.

Lemma round_bps_range i : 0 <= round_bps i < two64.
Proof. pose proof (f_cast_range 0 u64_max (fmax (in_bps i) f0)). unfold round_bps, f_as_u64. unfold_ints. lia. Qed.

Lemma tick_bootstrap exp self obs now : has_rtt self = false ->
  lk_state (tick exp self obs now) = Bootstrap /\ lk_target_bps (tick exp self obs now) = MIN_TARGET_BPS.
Proof.
  intros H. unfold tick. destruct (evict_frame self now) as [_ _ E]. cbv zeta. rewrite !E.
  unfold has_rtt in H.
  destruct (is_finite (lk_rtt_ewma_ms self)); cbn [negb andb orb] in *; [|done].
  apply negb_false_iff in H. by rewrite H.
Qed.

Lemma tick_target_range exp self obs now : target_in_range (lk_target_bps self) -> 0 <= obs < two64 ->
  target_in_range (lk_target_bps (tick exp self obs now)).
Proof.
  intros Ht Ho. destruct (has_rtt self) eqn:E.
  - destruct (tick_settle exp self obs now E Ht Ho) as (E1 & E2 & ->).
    destruct (settle_spec (judged_loss exp self obs now) (chosen_state exp self obs now)
                (sane_ref (lk_target_bps self) obs)) as [_ ->].
    + rewrite E1. by apply (seed_spec self).
    + apply sane_ref_range; [done|lia].
    + apply clamp_target_range.
  - destruct (tick_bootstrap exp self obs now E) as [_ ->]. unfold target_in_range, MIN_TARGET_BPS, MAX_TARGET_BPS. lia.
Qed.

Lemma link_run_range exp inputs : target_in_range (lk_target_bps (link_run exp inputs)).
Proof.
  unfold link_run. assert (target_in_range (lk_target_bps link_default)) as H by (vm_compute; split; discriminate).
  revert H. generalize link_default. induction inputs as [|i inputs IH]; intros s Hs; [done|].
  cbn [fold_left]. apply IH. rewrite link_round_tick. apply tick_target_range; [|apply round_bps_range].
  by destruct (link_sampled_frame s i) as [_ ->].
Qed.

(** How far a round can move the cap.  After any history of rounds, the
    next round leaves the cap within its bounds.  Measured from the cap before
    it, or from the fresh seed when that stood at the floor: while backing off
    it never raises the cap and never puts it below what the link is
    delivering; while climbing it never lowers the cap, grows it by at most 6%
    and never past twice the delivered rate; holding keeps it; a drain cuts at
    most a quarter; and without a round-trip sample it is the floor. *)
Theorem cap_moves (exp : f64 -> f64) (inputs : list LinkInput) (i : LinkInput) :
  let self := link_run exp inputs in
  let self' := link_round exp self i in
  let sane := sane_ref (lk_target_bps self) (round_bps i) in
  let t := seed_ref (lk_target_bps self) sane in
  target_in_range (lk_target_bps self') /\
  match lk_state self' with
  | Bootstrap => lk_target_bps self' = MIN_TARGET_BPS
  | Climbing => t <= lk_target_bps self' <= Z.max t (2 * sane) /\ lk_target_bps self' <= t + t * 60 / 1000
  | Holding => lk_target_bps self' = t
  | BackingOff => Z.min sane t <= lk_target_bps self' <= t
  | Drain => t * 750 / 1000 <= lk_target_bps self' <= t
  end.
Proof.
  intros self self' sane t. pose proof (link_run_range exp inputs) as Ht. fold self in Ht.
  destruct (link_sampled_frame self i) as [Fs Ft]. pose proof (round_bps_range i) as Ho.
  unfold self'. rewrite link_round_tick. set (s := link_sampled self i) in *.
  assert (target_in_range (lk_target_bps s)) as Hts by (by rewrite Ft).
  split; [by apply tick_target_range|].
  destruct (has_rtt s) eqn:E.
  - destruct (tick_settle exp s (round_bps i) (in_now i) E Hts Ho) as (E1 & E2 & Et).
    rewrite Ft in E1, Et. fold sane in E1, Et. fold t in E1.
    assert (target_in_range t) as Htt by (by apply (seed_spec self)).
    assert (0 <= sane < 2 ^ 50) as Hsn by (apply sane_ref_range; [done|lia]).
    destruct (settle_spec (judged_loss exp s (round_bps i) (in_now i)) (chosen_state exp s (round_bps i) (in_now i)) sane)
      as [S1 S2]; [by rewrite E1|done|].
    rewrite <- Et, E1, E2 in S2. rewrite <- Et in S1. rewrite S1, S2. clear S1 S2 E1 E2 Et.
    pose proof (step_permille_range (lk_climb_mode (tick exp s (round_bps i) (in_now i)))) as Hpm.
    set (pm := step_permille _) in *. unfold target_in_range, MIN_TARGET_BPS, MAX_TARGET_BPS in *.
    assert (0 <= t * pm / 1000 <= t * 60 / 1000) as Hd1 by (split; [apply Z.div_pos; nia|apply Z.div_le_mono; nia]).
    assert (forall k, 0 <= k <= 1000 -> t * k / 1000 <= t) as Hd2 by (intros k Hk; apply Z.div_le_upper_bound; nia).
    pose proof (Hd2 850 ltac:(lia)). pose proof (Hd2 750 ltac:(lia)).
    destruct (chosen_state exp s (round_bps i) (in_now i)) eqn:Ec; unfold target_ref, clamp_target, MIN_TARGET_BPS, MAX_TARGET_BPS; fold pm.
    + unfold chosen_state, next_cc_state in Ec. repeat case_match; discriminate.
    + destruct (Z.ltb_spec 0 sane); lia.
    + lia.
    + lia.
    + destruct (bool_decide _); lia.
  - destruct (tick_bootstrap exp s (round_bps i) (in_now i) E) as [-> ->]. done.
Qed.

(** Rounds two seconds apart, so that every round-trip sample counts in full,
    without any traffic: the path alternates between 10 ms and 30 ms. *)
Definition idle_round (k : Z) : LinkInput :=
  mkInput (f_of_Z (if Z.odd k then 10 else 30)) 0 0 f0 (2000 * k).
Definition idle_rounds : list LinkInput := map (fun k => idle_round (Z.of_nat k)) (seq 1 18).

(** A cap that was cut to the floor jumps back to 1 Mbit/s.  The floor
    doubles as the mark of a link that was never seeded, so the tick after a cut
    that reached the floor seeds the cap anew: here an idle link, which the
    drains of a bouncing path brought down to 100 kbit/s, has its cap raised
    tenfold by a climbing tick that measured no traffic at all. *)
Theorem floor_is_reseeded :
  let s := link_run (fun _ => f1) idle_rounds in
  let s' := link_round (fun _ => f1) s (idle_round 19) in
  Forall (fun i => in_bps i = f0 /\ in_bytes_sent i = 0) (idle_rounds ++ [idle_round 19]) /\
  lk_target_bps (link_run (fun _ => f1) (take 2 idle_rounds)) = 750000 /\
  (lk_state s = Drain /\ lk_target_bps s = MIN_TARGET_BPS) /\
  (lk_state s' = Climbing /\ lk_target_bps s' = INITIAL_TARGET_BPS).
Proof.
  cbv zeta. split; [|vm_compute; auto].
  apply Forall_app. split; [|by apply Forall_singleton]. apply Forall_map, Forall_true. done.
Qed.
