(* ===== verification/LinkLoss.v ===== *)
(** * The loss side of the congestion controller (selection/link_cc.rs)

    Theorems about runs of [link_round]: cuts that do not relieve the loss
    stop, the loss window holds exactly the samples of the last second, and the
    loss verdict needs four seconds of high loss. *)
From Stdlib Require Import Sorting.Sorted.
From S2P Require Import Prelude F64 Selection LinkCc.

(** ** Cuts that do not help stop *)

(** The loss verdict's registers and the windowed loss. *)
Definition verdict_of (s : LinkCongestionState) : Z * Z * bool * Z :=
  (lk_backoff_ticks s, lk_backoff_entry_loss_pm s, lk_loss_uncongestive s, loss_permille s).

Lemma verdict_eq a b : verdict_of a = verdict_of b ->
  lk_backoff_ticks a = lk_backoff_ticks b /\ lk_backoff_entry_loss_pm a = lk_backoff_entry_loss_pm b /\
  lk_loss_uncongestive a = lk_loss_uncongestive b /\ loss_permille a = loss_permille b.
Proof. unfold verdict_of. intros H. injection H. auto. Qed.

Lemma settle_verdict self ns sane : verdict_of (settle self ns sane) = verdict_of self.
Proof. unfold settle, verdict_of, loss_permille. by destruct (lk_state self), ns. Qed.

Lemma loss_ewma_verdict exp self pm now : verdict_of (update_loss_ewma exp self pm now) = verdict_of self.
Proof. unfold update_loss_ewma, verdict_of. repeat case_match; reflexivity. Qed.

Lemma seed_verdict self sane : verdict_of (seed_target self sane) = verdict_of self.
Proof. unfold seed_target. by destruct (_ =? _). Qed.

Lemma evict_verdict self now :
  lk_backoff_ticks (evict_expired self now) = lk_backoff_ticks self /\
  lk_backoff_entry_loss_pm (evict_expired self now) = lk_backoff_entry_loss_pm self /\
  lk_loss_uncongestive (evict_expired self now) = lk_loss_uncongestive self.
Proof. unfold evict_expired. by destruct (evict_loop _ _ _ _) as [[l s] n]. Qed.

(** While backing off, the verdict is open and the efficacy count below three. *)
Definition backoff_inv (s : LinkCongestionState) : Prop :=
  lk_state s = BackingOff -> lk_loss_uncongestive s = false /\ 0 <= lk_backoff_ticks s <= 2.

(** The efficacy test on a tick that ends up backing off. *)
Lemma efficacy_cases self pm :
  backoff_inv self ->
  let self' := update_backoff_efficacy self true pm in
  lk_loss_uncongestive self' = false ->
  (lk_backoff_ticks self' = 0 /\ lk_backoff_entry_loss_pm self' = pm /\
     (lk_state self = BackingOff -> lk_backoff_ticks self = 2 /\ pm * 1000 < lk_backoff_entry_loss_pm self * 800)) \/
  (lk_state self = BackingOff /\ lk_backoff_ticks self' = lk_backoff_ticks self + 1 /\ lk_backoff_ticks self' <= 2 /\
     lk_backoff_entry_loss_pm self' = lk_backoff_entry_loss_pm self).
Proof.
  intros Hinv. cbv zeta. unfold update_backoff_efficacy, BACKOFF_EFFICACY_TICKS, BACKOFF_EFFICACY_IMPROVEMENT_PERMILLE.
  cbn [negb]. destruct (lk_loss_uncongestive self) eqn:Eu.
  - destruct (_ >=? _); cbn; [|congruence]. intros _. left. split; [done|]. split; [done|].
    intros Hb. destruct (Hinv Hb). congruence.
  - destruct (bool_decide (lk_state self = BackingOff)) eqn:Eb; cbn [negb].
    + apply bool_decide_eq_true in Eb. destruct (Hinv Eb) as [_ Hr].
      assert (u32_wrap (lk_backoff_ticks self + 1) = lk_backoff_ticks self + 1) as Ew by (apply u32_wrap_id; unfold is_u32; unfold_ints; lia).
      cbn. rewrite Ew. destruct (Z.ltb_spec (lk_backoff_ticks self + 1) 3); cbn; [intros _; right; split_and!; [done|done|lia|done]|].
      destruct (Z.ltb_spec (pm * 1000) (lk_backoff_entry_loss_pm self * 800)); cbn; [|congruence].
      intros _. left. split; [done|]. split; [done|]. intros _. lia.
    + apply bool_decide_eq_false in Eb. cbn. intros _. left. done.
Qed.

Lemma next_state_backing high loaded unc infl :
  next_cc_state high loaded unc infl = BackingOff -> high = true /\ unc = false.
Proof. unfold next_cc_state. destruct high, loaded, unc; cbn; try done; repeat case_match; discriminate. Qed.

Definition in_range (s : LinkCongestionState) : Prop := target_in_range (lk_target_bps s).

Lemma sampled_verdict s i :
  lk_backoff_ticks (link_sampled s i) = lk_backoff_ticks s /\
  lk_backoff_entry_loss_pm (link_sampled s i) = lk_backoff_entry_loss_pm s /\
  lk_loss_uncongestive (link_sampled s i) = lk_loss_uncongestive s.
Proof.
  unfold link_sampled. set (r := if fgt _ _ then _ else _).
  assert (lk_backoff_ticks r = lk_backoff_ticks s /\ lk_backoff_entry_loss_pm r = lk_backoff_entry_loss_pm s /\
    lk_loss_uncongestive r = lk_loss_uncongestive s) as (<- & <- & <-).
  { unfold r, record_rtt, update_rtt_min. repeat case_match; done. }
  unfold observe_traffic, record_loss. destruct (negb _); [done|]. destruct (_ && _); [done|].
  match goal with |- context [evict_expired ?a ?b] => destruct (evict_verdict a b) as (-> & -> & ->) end. done.
Qed.

(** The state the efficacy test sees, and the loss it is given. *)
Lemma judged_loss_verdict exp s obs now :
  exists x, judged_loss exp s obs now =
      update_backoff_efficacy x (loss_permille (evict_expired s now) >? 5) (loss_permille (evict_expired s now)) /\
    lk_state x = lk_state s /\ lk_backoff_ticks x = lk_backoff_ticks s /\
    lk_backoff_entry_loss_pm x = lk_backoff_entry_loss_pm s /\ lk_loss_uncongestive x = lk_loss_uncongestive s /\
    loss_permille (judged_loss exp s obs now) = loss_permille (evict_expired s now).
Proof.
  unfold judged_loss. cbv zeta. set (e := evict_expired s now). set (w := update_loss_ewma exp e _ now).
  set (x := seed_target w _). exists x. split; [reflexivity|].
  destruct (evict_frame s now) as [Es _ _], (evict_verdict s now) as (V1 & V2 & V3). fold e in Es, V1, V2, V3.
  destruct (loss_ewma_frame exp e (loss_permille e) now) as [Ws _ _]. fold w in Ws.
  pose proof (loss_ewma_verdict exp e (loss_permille e) now) as Wv. fold w in Wv.
  pose proof (seed_verdict w (sane_observed w obs)) as Sv. fold x in Sv. rewrite Wv in Sv. apply verdict_eq in Sv as (S1 & S2 & S3 & S4).
  assert (lk_state x = lk_state w) as Sx by (unfold x, seed_target; by destruct (_ =? _)).
  split; [congruence|]. split; [congruence|]. split; [congruence|]. split; [congruence|].
  rewrite <- S4. unfold update_backoff_efficacy. repeat case_match; reflexivity.
Qed.

(** One round that ends up backing off, from the state before it. *)
Lemma round_backing exp s i :
  in_range s -> backoff_inv s -> lk_state (link_round exp s i) = BackingOff ->
  let s' := link_round exp s i in
  5 < loss_permille s' /\ lk_loss_uncongestive s' = false /\
  ((lk_backoff_ticks s' = 0 /\ lk_backoff_entry_loss_pm s' = loss_permille s' /\
      (lk_state s = BackingOff -> lk_backoff_ticks s = 2 /\ loss_permille s' * 1000 < lk_backoff_entry_loss_pm s * 800)) \/
   (lk_state s = BackingOff /\ lk_backoff_ticks s' = lk_backoff_ticks s + 1 /\ lk_backoff_ticks s' <= 2 /\
      lk_backoff_entry_loss_pm s' = lk_backoff_entry_loss_pm s)).
Proof.
  unfold in_range. intros Ht Hinv Hb. cbv zeta. rewrite link_round_tick in *.
  destruct (link_sampled_frame s i) as [Fs Ft], (sampled_verdict s i) as (V1 & V2 & V3).
  set (x := link_sampled s i) in *. rewrite <- Fs, <- V1, <- V2.
  assert (backoff_inv x) as Hix by (unfold backoff_inv in *; rewrite Fs, V1, V3; done). rewrite <- Ft in Ht.
  clearbody x. clear Fs Ft V1 V2 V3 Hinv s. pose proof (round_bps_range i) as Ho.
  destruct (has_rtt x) eqn:Er; [|destruct (tick_bootstrap exp x (round_bps i) (in_now i) Er); congruence].
  destruct (tick_settle exp x (round_bps i) (in_now i) Er Ht Ho) as (E1 & E2 & Et). rewrite Et in *.
  destruct (settle_spec (judged_loss exp x (round_bps i) (in_now i)) (chosen_state exp x (round_bps i) (in_now i))
    (sane_ref (lk_target_bps x) (round_bps i))) as [Hst _];
    [rewrite E1; by apply (seed_spec x)|apply sane_ref_range; [done|lia]|].
  rewrite Hst in Hb. apply next_state_backing in Hb as [Hh Hu].
  pose proof (settle_verdict (judged_loss exp x (round_bps i) (in_now i)) (chosen_state exp x (round_bps i) (in_now i))
    (sane_ref (lk_target_bps x) (round_bps i))) as Hv.
  apply verdict_eq in Hv as (-> & -> & -> & ->).
  destruct (judged_loss_verdict exp x (round_bps i) (in_now i)) as (y & Ej & Ys & Y1 & Y2 & Y3 & ->).
  unfold LOSS_BACKOFF_PERMILLE in Hh. rewrite Hh in Ej. rewrite <- Ys, <- Y1, <- Y2.
  split; [lia|]. split; [done|]. rewrite Ej in Hu |- *. apply efficacy_cases; [|done].
  unfold backoff_inv in *. by rewrite Ys, Y1, Y3.
Qed.

Lemma backoff_inv_round exp s i : in_range s -> backoff_inv s -> backoff_inv (link_round exp s i).
Proof.
  intros Ht Hi Hb. destruct (round_backing exp s i Ht Hi Hb) as (_ & Hu & [(-> & _)|(Hs & -> & H & _)]); (split; [done|lia]) || idtac.
  split; [done|]. destruct (Hi Hs). lia.
Qed.

Lemma link_run_inv exp inputs : in_range (link_run exp inputs) /\ backoff_inv (link_run exp inputs).
Proof.
  split; [apply link_run_range|]. unfold link_run. revert inputs. apply rev_ind; [discriminate|].
  intros i inputs IH. rewrite fold_left_app. apply backoff_inv_round; [apply link_run_range|done].
Qed.

(** The states after each of a list of rounds. *)
Fixpoint link_states (exp : f64 -> f64) (s : LinkCongestionState) (inputs : list LinkInput) : list LinkCongestionState :=
  match inputs with
  | [] => []
  | i :: rest => let s' := link_round exp s i in s' :: link_states exp s' rest
  end.

Lemma not_falling s (l : list LinkCongestionState) :
  Forall (fun x => lk_state x = BackingOff) l -> Forall (Z.le (loss_permille s)) (map loss_permille l) ->
  Forall (fun x => lk_state x = BackingOff /\ loss_permille s <= loss_permille x) l.
Proof. induction l; intros H1 H2; inversion H1; inversion H2; constructor; auto. Qed.

(** Rounds that may still back off with loss that does not fall: at most three
    after the efficacy count was re-armed at the present loss. *)
Lemma cuts_from exp s inputs :
  in_range s -> backoff_inv s -> lk_state s = BackingOff -> 5 < loss_permille s ->
  Forall (fun x => lk_state x = BackingOff /\ loss_permille s <= loss_permille x) (link_states exp s inputs) ->
  StronglySorted Z.le (map loss_permille (link_states exp s inputs)) ->
  (length inputs <= (if decide (lk_backoff_entry_loss_pm s <= loss_permille s)%Z then 2 - Z.to_nat (lk_backoff_ticks s)
                     else 5 - Z.to_nat (lk_backoff_ticks s)))%nat.
Proof.
  revert s. induction inputs as [|i rest IH]; intros s Ht Hi Hb Hl Hall Hsort; [cbn; lia|].
  cbn [link_states] in Hall, Hsort. set (s' := link_round exp s i) in *.
  apply Forall_cons in Hall as [[Hb' Hle] Hall]. cbn [map] in Hsort. apply StronglySorted_inv in Hsort as [Hsort Hhd].
  destruct (round_backing exp s i Ht Hi Hb') as (Hl' & _ & Hcase). fold s' in Hl', Hcase.
  destruct (Hi Hb) as [_ Hr].
  assert (in_range s') as Ht'.
  { unfold in_range, s'. rewrite link_round_tick. apply tick_target_range; [|apply round_bps_range].
    by destruct (link_sampled_frame s i) as [_ ->]. }
  assert (Forall (fun x => lk_state x = BackingOff /\ loss_permille s' <= loss_permille x) (link_states exp s' rest)) as Hall'.
  { eapply not_falling; [|exact Hhd]. eapply Forall_impl; [exact Hall|]. by intros x []. }
  specialize (IH s' Ht' (backoff_inv_round exp s i Ht Hi) Hb' ltac:(lia) Hall' Hsort). cbn [length].
  destruct Hcase as [(Hk & He & Him)|(_ & Hk & Hk2 & He)]; rewrite He in IH.
  - destruct (Him Hb) as [H2 Himp]. rewrite Hk in IH. rewrite decide_True in IH by lia.
    rewrite decide_False by lia. lia.
  - rewrite Hk in IH. destruct (decide (lk_backoff_entry_loss_pm s <= loss_permille s)).
    + rewrite decide_True in IH by lia. lia.
    + destruct (decide _) in IH; lia.
Qed.

(** The cap is not ratcheted down by loss that a lower cap does not cure.
    After any history, consecutive rounds that all back off while the windowed
    loss does not fall number at most five: then the loss is declared not
    congestive and the cutting stops. *)
Theorem cuts_bounded (exp : f64 -> f64) (before inputs : list LinkInput) :
  let states := link_states exp (link_run exp before) inputs in
  Forall (fun x => lk_state x = BackingOff) states ->
  StronglySorted Z.le (map loss_permille states) ->
  (length inputs <= 5)%nat.
Proof.
  destruct inputs as [|i rest]; [cbn; lia|]. cbn [link_states].
  destruct (link_run_inv exp before) as [Ht Hi]. set (s := link_run exp before) in *. set (s1 := link_round exp s i).
  intros Hall Hsort. apply Forall_cons in Hall as [Hb Hall]. cbn [map] in Hsort.
  apply StronglySorted_inv in Hsort as [Hsort Hhd].
  destruct (round_backing exp s i Ht Hi Hb) as (Hl & _ & Hcase). fold s1 in Hl, Hcase.
  assert (in_range s1) as Ht1.
  { unfold in_range, s1. rewrite link_round_tick. apply tick_target_range; [|apply round_bps_range].
    by destruct (link_sampled_frame s i) as [_ ->]. }
  pose proof (backoff_inv_round exp s i Ht Hi) as Hi1. fold s1 in Hi1. destruct (Hi1 Hb) as [_ Hr1].
  assert (length rest <= 4)%nat; [|cbn; lia].
  pose proof (cuts_from exp s1 rest Ht1 Hi1 Hb Hl (not_falling _ _ Hall Hhd) Hsort) as H.
  destruct Hcase as [(Hk & He & _)|(Hs & Hk & _ & _)].
  - rewrite He, decide_True in H by lia. lia.
  - destruct (Hi Hs). destruct (decide _) in H; lia.
Qed.

(** A link at 40 ms and 8 Mbit/s that loses a tenth of its packets for ever. *)
Definition lossy_round (k : Z) : LinkInput :=
  mkInput (f_of_Z 40) (k * 1316000) (k * 100) (f_of_Z 8000000) (1000 * k).
Definition lossy_warmup : list LinkInput := [lossy_round 1].
Definition lossy_rounds : list LinkInput := map lossy_round [2; 3; 4].

Lemma cuts_bounded_witness :
  map lk_state (link_states (fun _ => f1) (link_run (fun _ => f1) lossy_warmup) (lossy_rounds ++ [lossy_round 5])) =
    [BackingOff; BackingOff; BackingOff; Climbing] /\
  map loss_permille (link_states (fun _ => f1) (link_run (fun _ => f1) lossy_warmup) lossy_rounds) = [100; 100; 100] /\
  (length lossy_rounds <= 5)%nat.
Proof.
  split; [vm_compute; reflexivity|]. split; [vm_compute; reflexivity|].
  apply (cuts_bounded (fun _ => f1) lossy_warmup lossy_rounds).
  - vm_compute. repeat constructor.
  - vm_compute. repeat constructor; discriminate.
Defined.

(** ** The loss window holds the samples of the last second *)
Definition sum_sent (l : list LossSample) : Z := foldr (fun x acc => ls_sent x + acc) 0 l.
Definition sum_lost (l : list LossSample) : Z := foldr (fun x acc => ls_lost x + acc) 0 l.

(** The sample that two consecutive readings of the counters stand for. *)
Definition sample_between (a b : LinkInput) : option LossSample :=
  let bytes := Z.max 0 (in_bytes_sent b - in_bytes_sent a) in
  let naks := Z.max 0 (sat_i32 (in_naks b - in_naks a)) in
  if (bytes =? 0) && (naks =? 0) then None
  else Some (mkLoss (in_now b) naks (Z.max (Z.min (bytes / 1316) u32_max) (if naks >? 0 then 1 else 0))).

Fixpoint samples_of (a : LinkInput) (inputs : list LinkInput) : list LossSample :=
  match inputs with
  | [] => []
  | b :: rest => option_list (sample_between a b) ++ samples_of b rest
  end.

Definition recent (now : Z) (l : list LossSample) : list LossSample :=
  filter (fun x => Z.max 0 (now - 1000) <= ls_ts_ms x) l.

Definition sample_ok (x : LossSample) : Prop := 0 <= ls_sent x /\ 0 <= ls_lost x.

Lemma sum_app l1 l2 : sum_sent (l1 ++ l2) = sum_sent l1 + sum_sent l2 /\ sum_lost (l1 ++ l2) = sum_lost l1 + sum_lost l2.
Proof. unfold sum_sent, sum_lost. induction l1; cbn; lia. Qed.

Lemma sum_nonneg l : Forall sample_ok l -> 0 <= sum_sent l /\ 0 <= sum_lost l.
Proof. unfold sample_ok, sum_sent, sum_lost. induction 1; cbn; lia. Qed.

Lemma sum_cons x l : sum_sent (x :: l) = ls_sent x + sum_sent l /\ sum_lost (x :: l) = ls_lost x + sum_lost l.
Proof. done. Qed.

Lemma sum_recent now l : Forall sample_ok l -> sum_sent (recent now l) <= sum_sent l /\ sum_lost (recent now l) <= sum_lost l.
Proof.
  unfold recent. induction 1 as [|x l Hx Hl IH]; [cbn; lia|]. unfold sample_ok in Hx. rewrite filter_cons.
  destruct (sum_cons x l) as [-> ->]. destruct (decide _); [|lia].
  match goal with |- context [sum_sent (x :: ?r)] => destruct (sum_cons x r) as [-> ->] end. lia.
Qed.

Lemma recent_all now l : Forall (fun x => Z.max 0 (now - 1000) <= ls_ts_ms x) l -> recent now l = l.
Proof. unfold recent. induction 1; [done|]. rewrite filter_cons_True by done. by f_equal. Qed.

(** On samples in order of time the eviction loop is the filter. *)
Lemma evict_loop_recent now l :
  Forall sample_ok l -> StronglySorted Z.le (map ls_ts_ms l) ->
  evict_loop (sat_sub now LOSS_WINDOW_MS) l (sum_sent l) (sum_lost l) =
    (recent now l, sum_sent (recent now l), sum_lost (recent now l)).
Proof.
  unfold sat_sub, LOSS_WINDOW_MS. induction l as [|x l IH]; intros Hok Hs; [done|].
  apply Forall_cons in Hok as [Hx Hok]. cbn [map] in Hs. apply StronglySorted_inv in Hs as [Hs Hx'].
  destruct (sum_nonneg l Hok). destruct Hx. cbn [evict_loop].
  destruct (Z.ltb_spec (ls_ts_ms x) (Z.max 0 (now - 1000))) as [Hlt|Hge].
  - unfold recent. rewrite filter_cons_False by lia. fold (recent now l). rewrite <- IH by done.
    destruct (sum_cons x l) as [-> ->]. f_equal; unfold sat_sub; lia.
  - rewrite recent_all; [done|]. constructor; [done|]. apply Forall_forall. intros y Hy.
    rewrite Forall_forall in Hx'. pose proof (Hx' (ls_ts_ms y) (list_elem_of_fmap_2 ls_ts_ms l y Hy)). lia.
Qed.

(** The fields the window is made of. *)
Record traffic_frame (a b : LinkCongestionState) : Prop := mkTrafficFrame {
  tf_samples : lk_loss_samples b = lk_loss_samples a;
  tf_sent : lk_window_sent b = lk_window_sent a;
  tf_lost : lk_window_lost b = lk_window_lost a;
  tf_bytes : lk_prev_bytes_sent_total b = lk_prev_bytes_sent_total a;
  tf_nak : lk_prev_nak_total b = lk_prev_nak_total a;
  tf_set : lk_traffic_baseline_set b = lk_traffic_baseline_set a }.

Lemma record_rtt_traffic self rtt now : traffic_frame self (record_rtt self rtt now).
Proof. unfold record_rtt, update_rtt_min. cap_done. Qed.

Lemma tick_traffic exp self obs now : traffic_frame (evict_expired self now) (tick exp self obs now).
Proof.
  unfold tick. cbv zeta. set (e := evict_expired self now). clearbody e. destruct (_ || _); [by constructor|].
  set (w := update_loss_ewma exp e _ now).
  assert (traffic_frame e w) as [] by (unfold w, update_loss_ewma; cap_done).
  set (x := seed_target w _). assert (traffic_frame w x) as [] by (unfold x, seed_target; cap_done).
  match goal with |- context [update_backoff_efficacy x ?a ?b] => set (y := update_backoff_efficacy x a b) end.
  assert (traffic_frame x y) as [] by (unfold y, update_backoff_efficacy; cap_done).
  clearbody y x w. assert (forall ns o, traffic_frame y (settle y ns o)) as Hs
    by (intros ns o; unfold settle; by destruct (lk_state y), ns).
  match goal with |- context [settle y ?a ?b] => destruct (Hs a b) end. constructor; congruence.
Qed.

(** The window after a round read as [a], for the samples [h] recorded so far. *)
Record window_inv (s : LinkCongestionState) (a : LinkInput) (h : list LossSample) : Prop := mkWindowInv {
  wi_set : lk_traffic_baseline_set s = true;
  wi_bytes : lk_prev_bytes_sent_total s = in_bytes_sent a;
  wi_nak : lk_prev_nak_total s = in_naks a;
  wi_samples : lk_loss_samples s = recent (in_now a) h;
  wi_sent : lk_window_sent s = sum_sent (recent (in_now a) h);
  wi_lost : lk_window_lost s = sum_lost (recent (in_now a) h) }.

(** Samples in order of time, none later than [now]. *)
Definition history_upto (now : Z) (h : list LossSample) : Prop :=
  Forall sample_ok h /\ StronglySorted Z.le (map ls_ts_ms h) /\ Forall (fun x => ls_ts_ms x <= now) h.

Fixpoint clock_ordered (a : LinkInput) (inputs : list LinkInput) : Prop :=
  match inputs with [] => True | b :: rest => in_now a <= in_now b /\ clock_ordered b rest end.

Lemma recent_recent now now' h : now <= now' -> recent now' (recent now h) = recent now' h.
Proof.
  intros H. unfold recent. induction h as [|x h IH]; [done|]. rewrite !filter_cons.
  destruct (decide (Z.max 0 (now - 1000) <= ls_ts_ms x)), (decide (Z.max 0 (now' - 1000) <= ls_ts_ms x));
    rewrite ?filter_cons_True, ?filter_cons_False, ?IH by lia; try done. lia.
Qed.

Lemma Forall_recent (P : LossSample -> Prop) now h : Forall P h -> Forall P (recent now h).
Proof. rewrite !Forall_forall. intros H x [_ Hx]%list_elem_of_filter. auto. Qed.

Lemma history_recent now now' h : history_upto now h -> history_upto now (recent now' h).
Proof.
  intros (H1 & H2 & H3).
  split; [by apply Forall_recent|]. split; [|by apply Forall_recent]. unfold recent.
  clear H1 H3. induction h as [|x h IH]; [done|]. cbn [map] in H2. apply StronglySorted_inv in H2 as [H2 Hx].
  rewrite filter_cons. destruct (decide _); [|by apply IH]. cbn [map]. constructor; [by apply IH|].
  rewrite Forall_forall in Hx. apply Forall_forall. intros t Ht. apply Hx.
  apply list_elem_of_fmap in Ht as (y & -> & Hy). apply list_elem_of_filter in Hy as [_ Hy]. by apply list_elem_of_fmap_2.
Qed.

Lemma history_snoc now x h : history_upto now h -> sample_ok x -> now <= ls_ts_ms x -> history_upto (ls_ts_ms x) (h ++ [x]).
Proof.
  intros (H1 & H2 & H3) Hx Hn. split; [apply Forall_app; split; [done|by apply Forall_singleton]|]. split.
  - clear H1. induction h as [|y h IH]; [by repeat constructor|]. cbn [map app] in *.
    apply StronglySorted_inv in H2 as [H2 Hy]. apply Forall_cons in H3 as [Hyn H3]. constructor; [by apply IH|].
    rewrite map_app. apply Forall_app. split; [done|]. apply Forall_singleton. lia.
  - apply Forall_app. split; [|by apply Forall_singleton]. eapply Forall_impl; [exact H3|]. cbn. lia.
Qed.

(** Eviction on a window that is exact. *)
Lemma evict_recent s now h :
  history_upto now h -> lk_loss_samples s = h -> lk_window_sent s = sum_sent h -> lk_window_lost s = sum_lost h ->
  let s' := evict_expired s now in
  lk_loss_samples s' = recent now h /\ lk_window_sent s' = sum_sent (recent now h) /\
  lk_window_lost s' = sum_lost (recent now h) /\ lk_prev_bytes_sent_total s' = lk_prev_bytes_sent_total s /\
  lk_prev_nak_total s' = lk_prev_nak_total s /\ lk_traffic_baseline_set s' = lk_traffic_baseline_set s.
Proof.
  intros (H1 & H2 & _) E1 E2 E3. cbv zeta. unfold evict_expired. rewrite E1, E2, E3. by rewrite evict_loop_recent.
Qed.

Lemma sample_between_ok a b x : sample_between a b = Some x -> sample_ok x /\ ls_ts_ms x = in_now b.
Proof.
  unfold sample_between. destruct (_ && _); [done|]. intros [= <-]. split; [|done]. unfold sample_ok. cbn [ls_sent ls_lost].
  assert (0 <= Z.max 0 (in_bytes_sent b - in_bytes_sent a) / 1316) by (apply Z.div_pos; lia).
  unfold u32_max, two32. split; [|lia]. etransitivity; [|apply Z.le_max_l]. lia.
Qed.

Lemma tick_window exp s obs now h :
  history_upto now h -> lk_loss_samples s = h -> lk_window_sent s = sum_sent h -> lk_window_lost s = sum_lost h ->
  let s' := tick exp s obs now in
  lk_loss_samples s' = recent now h /\ lk_window_sent s' = sum_sent (recent now h) /\
  lk_window_lost s' = sum_lost (recent now h) /\ lk_prev_bytes_sent_total s' = lk_prev_bytes_sent_total s /\
  lk_prev_nak_total s' = lk_prev_nak_total s /\ lk_traffic_baseline_set s' = lk_traffic_baseline_set s.
Proof.
  intros Hh E1 E2 E3. destruct (evict_recent s now h Hh E1 E2 E3) as (F1 & F2 & F3 & F4 & F5 & F6).
  destruct (tick_traffic exp s obs now) as [T1 T2 T3 T4 T5 T6]. cbv zeta. split_and!; congruence.
Qed.

(** What a reading of the counters does to an exact window. *)
Lemma observe_window r a b h :
  window_inv r a h -> history_upto (in_now a) h -> in_now a <= in_now b ->
  sum_sent (h ++ option_list (sample_between a b)) <= u32_max ->
  sum_lost (h ++ option_list (sample_between a b)) <= u32_max ->
  exists h', let o := observe_traffic r (in_bytes_sent b) (in_naks b) (in_now b) in
    lk_loss_samples o = h' /\ lk_window_sent o = sum_sent h' /\ lk_window_lost o = sum_lost h' /\
    lk_prev_bytes_sent_total o = in_bytes_sent b /\ lk_prev_nak_total o = in_naks b /\
    lk_traffic_baseline_set o = true /\ history_upto (in_now b) h' /\
    recent (in_now b) h' = recent (in_now b) (h ++ option_list (sample_between a b)).
Proof.
  intros [W1 W2 W3 W4 W5 W6] Hh Hab Hs Hl.
  assert (forall l, history_upto (in_now a) l -> history_upto (in_now b) l) as Hlater.
  { intros l (H1 & H2 & H3). split; [done|]. split; [done|]. eapply Forall_impl; [exact H3|]. cbn. lia. }
  pose proof (history_recent (in_now a) (in_now a) h Hh) as Hr.
  pose proof (sample_between_ok a b) as Hx. cbv zeta. unfold observe_traffic. rewrite W1, W2, W3. cbn [negb].
  unfold sample_between in *. unfold sat_sub. unfold ASSUMED_SRT_PAYLOAD_BYTES.
  rewrite (Z.max_comm (sat_i32 (in_naks b - in_naks a)) 0).
  set (bytes := Z.max 0 (in_bytes_sent b - in_bytes_sent a)) in *. set (naks := Z.max 0 (sat_i32 _)) in *.
  destruct ((bytes =? 0) && (naks =? 0)).
  - exists (recent (in_now a) h). change (option_list None) with (@nil LossSample). rewrite app_nil_r. cbn. rewrite W4, W5, W6.
    split_and!; try done; [by apply Hlater|by apply recent_recent].
  - set (x := mkLoss (in_now b) naks _) in *. destruct (Hx x eq_refl) as [Hxo Hxt]. change (option_list (Some x)) with [x] in *.
    destruct (sum_app h [x]) as [A1 A2]. rewrite A1 in Hs. rewrite A2 in Hl.
    destruct (sum_app (recent (in_now a) h) [x]) as [B1 B2]. destruct (sum_recent (in_now a) h) as [C1 C2]; [apply Hh|].
    assert (history_upto (in_now b) (recent (in_now a) h ++ [x])) as Hhx.
    { pose proof (history_snoc (in_now a) x _ Hr Hxo ltac:(lia)) as H. by rewrite Hxt in H. }
    unfold record_loss. set (p := _ <| lk_window_lost ::= _ |>).
    destruct (sum_cons x []) as [D1 D2]. change (sum_sent []) with 0 in D1. change (sum_lost []) with 0 in D2.
    destruct (evict_recent p (in_now b) (recent (in_now a) h ++ [x]) Hhx) as (F1 & F2 & F3 & F4 & F5 & F6).
    + unfold p; cbn. by rewrite W4.
    + unfold p; cbn. rewrite W5, B1, D1. change (ls_sent x) with (Z.max (Z.min (bytes / 1316) u32_max) (if naks >? 0 then 1 else 0)) in *. unfold sat_add_u32. lia.
    + unfold p; cbn. rewrite W6, B2, D2. change (ls_lost x) with naks in *. unfold sat_add_u32. lia.
    + exists (recent (in_now b) (recent (in_now a) h ++ [x])). split_and!; [exact F1|exact F2|exact F3|by rewrite F4|by rewrite F5|by rewrite F6|by apply history_recent|].
      rewrite recent_recent by lia. unfold recent at 1 3. rewrite !filter_app. f_equal.
      by apply recent_recent.
Qed.

(** A round keeps the window exact, as long as the counters do not saturate. *)
Lemma round_window exp s a b h :
  window_inv s a h -> history_upto (in_now a) h -> in_now a <= in_now b ->
  sum_sent (h ++ option_list (sample_between a b)) <= u32_max ->
  sum_lost (h ++ option_list (sample_between a b)) <= u32_max ->
  window_inv (link_round exp s b) b (h ++ option_list (sample_between a b)) /\
  history_upto (in_now b) (h ++ option_list (sample_between a b)).
Proof.
  intros [W1 W2 W3 W4 W5 W6] Hh Hab Hs Hl. split.
  - rewrite link_round_tick. unfold link_sampled. set (r := if fgt _ _ then _ else _).
    assert (traffic_frame s r) as [] by (unfold r; destruct (fgt _ _); [apply record_rtt_traffic|by constructor]).
    assert (window_inv r a h) as Hr by (constructor; congruence). clearbody r.
    destruct (observe_window r a b h Hr Hh Hab Hs Hl) as (h' & O1 & O2 & O3 & O4 & O5 & O6 & O7 & O8).
    destruct (tick_window exp _ (round_bps b) (in_now b) h' O7 O1 O2 O3) as (T1 & T2 & T3 & T4 & T5 & T6).
    rewrite O8 in T1, T2, T3. constructor; congruence.
  - destruct (sample_between a b) as [x|] eqn:E.
    + change (option_list (Some x)) with [x]. apply sample_between_ok in E as [Hx Ht]. rewrite <- Ht.
      apply history_snoc with (in_now a); [done|done|lia].
    + change (option_list None) with (@nil LossSample). rewrite app_nil_r. destruct Hh as (H1 & H2 & H3). split; [done|]. split; [done|].
      eapply Forall_impl; [exact H3|]. cbn. lia.
Qed.

Lemma samples_of_ok b rest : Forall sample_ok (samples_of b rest).
Proof.
  revert b. induction rest as [|c rest IH]; intros b; cbn [samples_of]; [done|]. apply Forall_app. split; [|apply IH].
  destruct (sample_between b c) as [x|] eqn:E; [|done]. apply Forall_singleton. by apply sample_between_ok in E as [].
Qed.

Lemma run_window exp s a inputs h :
  window_inv s a h -> history_upto (in_now a) h -> clock_ordered a inputs ->
  sum_sent (h ++ samples_of a inputs) <= u32_max -> sum_lost (h ++ samples_of a inputs) <= u32_max ->
  window_inv (fold_left (link_round exp) inputs s) (List.last inputs a) (h ++ samples_of a inputs).
Proof.
  revert s a h. induction inputs as [|b rest IH]; intros s a h Hw Hh Hc Hs Hl; cbn [samples_of fold_left] in *.
  { by rewrite app_nil_r. }
  destruct Hc as [Hab Hc]. rewrite app_assoc in *.
  destruct (sum_nonneg _ (samples_of_ok b rest)) as [N1 N2].
  destruct (sum_app (h ++ option_list (sample_between a b)) (samples_of b rest)) as [E1 E2].
  destruct (round_window exp s a b h Hw Hh Hab) as [Hw' Hh']; [lia..|].
  replace (List.last (b :: rest) a) with (List.last rest b); [by apply IH|].
  clear. destruct rest as [|c rest]; [done|]. revert b c. induction rest as [|d rest IH]; intros b c; [done|].
  change (List.last (d :: rest) b = List.last (d :: rest) a). destruct rest; [done|]. apply (IH b d).
Qed.

(** C18: the loss ratio is measured over exactly the last second.  After rounds
    at non-decreasing times, the window of a link holds the samples its byte
    and NAK counters stand for (bytes in packets of 1316, at least one packet
    when NAKs arrive, nothing for an idle round) whose time is within 1000 ms
    of the last round, and the running totals are their sums, as long as the
    link's totals fit 32 bits; the loss ratio is computed from those sums. *)
Theorem loss_window_refines (exp : f64 -> f64) (a : LinkInput) (inputs : list LinkInput) :
  clock_ordered a inputs -> sum_sent (samples_of a inputs) <= u32_max -> sum_lost (samples_of a inputs) <= u32_max ->
  let s := link_run exp (a :: inputs) in
  let w := recent (in_now (List.last inputs a)) (samples_of a inputs) in
  lk_loss_samples s = w /\ lk_window_sent s = sum_sent w /\ lk_window_lost s = sum_lost w /\
  loss_permille s = if sum_sent w =? 0 then 0 else Z.min (sum_lost w * 1000 / sum_sent w) 1000000.
Proof.
  intros Hc Hs Hl s w.
  assert (window_inv (link_round exp link_default a) a []) as H0.
  { rewrite link_round_tick. unfold link_sampled. set (r := if fgt _ _ then _ else _).
    assert (traffic_frame link_default r) as [R1 R2 R3 _ _ R6]
      by (unfold r; destruct (fgt _ _); [apply record_rtt_traffic|by constructor]).
    clearbody r. unfold observe_traffic. rewrite R6. cbn [negb lk_traffic_baseline_set link_default].
    set (o := r <| lk_prev_bytes_sent_total := _ |> <| lk_prev_nak_total := _ |> <| lk_traffic_baseline_set := _ |>).
    destruct (tick_window exp o (round_bps a) (in_now a) []) as (T1 & T2 & T3 & T4 & T5 & T6);
      [by repeat constructor|done..|]. constructor; [by rewrite T6|by rewrite T4|by rewrite T5|done..]. }
  destruct (run_window exp _ a inputs [] H0) as [_ _ _ H1 H2 H3]; [by repeat constructor|done..|].
  change (fold_left (link_round exp) inputs (link_round exp link_default a)) with s in *.
  change ([] ++ samples_of a inputs) with (samples_of a inputs) in *. fold w in H1, H2, H3.
  split_and!; [exact H1|exact H2|exact H3|]. unfold loss_permille. rewrite H2, H3. unfold sat_mul_u64.
  rewrite (Z.min_r u64_max); [done|]. unfold w.
  pose proof (sum_recent (in_now (List.last inputs a)) _ (samples_of_ok a inputs)). unfold_ints. lia.
Qed.

Lemma loss_window_refines_witness :
  let s := link_run (fun _ => f1) (lossy_round 1 :: map lossy_round [2; 3; 4; 5]) in
  lk_window_sent s = 2000 /\
  lk_window_sent s =
    sum_sent (recent (in_now (List.last (map lossy_round [2; 3; 4; 5]) (lossy_round 1)))
      (samples_of (lossy_round 1) (map lossy_round [2; 3; 4; 5]))).
Proof.
  split; [vm_compute; reflexivity|].
  apply (loss_window_refines (fun _ => f1) (lossy_round 1) (map lossy_round [2; 3; 4; 5])).
  - vm_compute. repeat split; discriminate.
  - vm_compute. discriminate.
  - vm_compute. discriminate.
Defined.

(** ** The loss verdict needs four seconds of high loss *)
Definition latch_of (s : LinkCongestionState) : f64 * Z * bool :=
  (lk_loss_ewma s, lk_loss_high_since_ms s, lk_loss_degraded s).

Lemma latch_eq a b : latch_of a = latch_of b ->
  lk_loss_ewma a = lk_loss_ewma b /\ lk_loss_high_since_ms a = lk_loss_high_since_ms b /\
  lk_loss_degraded a = lk_loss_degraded b.
Proof. unfold latch_of. intros H. injection H. auto. Qed.

Lemma sampled_latch s i : latch_of (link_sampled s i) = latch_of s.
Proof.
  unfold link_sampled. set (r := if fgt _ _ then _ else _).
  assert (latch_of r = latch_of s) as <- by (unfold r, record_rtt, update_rtt_min; repeat case_match; done).
  clearbody r. unfold observe_traffic, record_loss, evict_expired. repeat case_match; done.
Qed.

(** The high-loss and recovered readings of the loss average. *)
Definition loss_is_high (s : LinkCongestionState) : bool := fgt (lk_loss_ewma s) LOSS_DEGRADE_ENTER.
Definition loss_is_clear (s : LinkCongestionState) : bool := flt (lk_loss_ewma s) LOSS_DEGRADE_CLEAR.

Definition latch_step (now : Z) (s s' : LinkCongestionState) : Prop :=
  latch_of s' = latch_of s \/
  if loss_is_high s' then
    if lk_loss_high_since_ms s =? 0
    then lk_loss_high_since_ms s' = now /\ lk_loss_degraded s' = lk_loss_degraded s
    else lk_loss_high_since_ms s' = lk_loss_high_since_ms s /\
      lk_loss_degraded s' = lk_loss_degraded s || (4000 <=? now - lk_loss_high_since_ms s)
  else lk_loss_high_since_ms s' = 0 /\ lk_loss_degraded s' = lk_loss_degraded s && negb (loss_is_clear s').

Lemma loss_ewma_latch exp w pm now : latch_step now w (update_loss_ewma exp w pm now).
Proof.
  right. unfold update_loss_ewma. cbv zeta. set (x := _ <| lk_loss_ewma_last_ms := now |>).
  assert (lk_loss_high_since_ms x = lk_loss_high_since_ms w /\ lk_loss_degraded x = lk_loss_degraded w) as [<- <-]
    by (unfold x; by destruct (_ =? _)).
  clearbody x. unfold LOSS_DEGRADE_SUSTAIN_MS, sat_sub. destruct (fgt (lk_loss_ewma x) LOSS_DEGRADE_ENTER) eqn:Eh.
  - destruct (Z.eqb_spec (lk_loss_high_since_ms x) 0) as [E|E].
    + unfold loss_is_high. cbn. rewrite Eh. done.
    + destruct (Z.geb_spec (Z.max 0 (now - lk_loss_high_since_ms x)) 4000) as [H|H]; unfold loss_is_high; cbn; rewrite Eh.
      * split; [done|]. rewrite (proj2 (Z.leb_le _ _)) by lia. by rewrite orb_true_r.
      * split; [done|]. rewrite (proj2 (Z.leb_gt _ _)) by lia. by rewrite orb_false_r.
  - destruct (flt (lk_loss_ewma (x <| lk_loss_high_since_ms := 0 |>)) LOSS_DEGRADE_CLEAR) eqn:Ec;
      unfold loss_is_high, loss_is_clear; cbn in *; rewrite Eh, Ec; cbn; by rewrite ?andb_false_r, ?andb_true_r.
Qed.

Lemma settle_latch self ns sane : latch_of (settle self ns sane) = latch_of self.
Proof. unfold settle. by destruct (lk_state self), ns. Qed.

Lemma efficacy_latch self high pm : latch_of (update_backoff_efficacy self high pm) = latch_of self.
Proof. unfold update_backoff_efficacy. by repeat case_match. Qed.

Lemma seed_latch self sane : latch_of (seed_target self sane) = latch_of self.
Proof. unfold seed_target. by destruct (_ =? _). Qed.

Lemma round_latch exp s i : latch_step (in_now i) s (link_round exp s i).
Proof.
  rewrite link_round_tick. pose proof (sampled_latch s i) as Hs. set (x := link_sampled s i) in *.
  clearbody x. unfold tick. cbv zeta.
  assert (latch_of (evict_expired x (in_now i)) = latch_of x) as He by (unfold evict_expired; by repeat case_match).
  set (e := evict_expired x (in_now i)) in *. clearbody e. rewrite Hs in He. clear Hs x.
  destruct (_ || _); [left; exact He|].
  pose proof (loss_ewma_latch exp e (loss_permille e) (in_now i)) as Hl. set (w := update_loss_ewma exp e _ _) in *.
  match goal with |- context [settle ?y ?a ?b] => pose proof (settle_latch y a b) as Hw; revert Hw; generalize (settle y a b) end.
  rewrite efficacy_latch, seed_latch.
  clearbody w. intros s' Hw. apply latch_eq in He as (E1 & E2 & E3), Hw as (W1 & W2 & W3).
  unfold latch_step, loss_is_high, loss_is_clear, latch_of in *. rewrite W1, W2, W3, <- E1, <- E2, <- E3. exact Hl.
Qed.

(** Each round with its time and the state it leaves. *)
Fixpoint link_trace (exp : f64 -> f64) (s : LinkCongestionState) (inputs : list LinkInput) : list (Z * LinkCongestionState) :=
  match inputs with
  | [] => []
  | i :: rest => let s' := link_round exp s i in (in_now i, s') :: link_trace exp s' rest
  end.

Definition high_entry (e : Z * LinkCongestionState) : Prop := loss_is_high e.2 = true.

(** A stretch of high readings at least four seconds long, not cleared since. *)
Definition sustained_high (t : list (Z * LinkCongestionState)) : Prop :=
  exists pre x mid y post, t = pre ++ [x] ++ mid ++ [y] ++ post /\ Forall high_entry ([x] ++ mid ++ [y]) /\
    4000 <= y.1 - x.1 /\ Forall (fun e => loss_is_clear e.2 = false) ([y] ++ post).

Record latch_inv (t : list (Z * LinkCongestionState)) (s : LinkCongestionState) : Prop := mkLatchInv {
  li_since : lk_loss_high_since_ms s <> 0 ->
    exists pre x mid, t = pre ++ [x] ++ mid /\ x.1 = lk_loss_high_since_ms s /\ Forall high_entry ([x] ++ mid);
  li_degraded : lk_loss_degraded s = true -> sustained_high t;
  li_last : lk_loss_degraded s = true -> loss_is_clear s = false;
  li_high : lk_loss_high_since_ms s <> 0 -> loss_is_high s = true }.

Lemma high_not_clear s : loss_is_high s = true -> loss_is_clear s = false.
Proof.
  unfold loss_is_high, loss_is_clear, fgt. intros H. apply not_true_iff_false. intros Hc.
  assert (flt LOSS_DEGRADE_ENTER LOSS_DEGRADE_CLEAR = true) as E by (eapply flt_trans; [exact H|exact Hc]).
  vm_compute in E. discriminate.
Qed.

Lemma sustained_snoc t e : sustained_high t -> loss_is_clear e.2 = false -> sustained_high (t ++ [e]).
Proof.
  intros (pre & x & mid & y & post & -> & Hh & Ht & Hc) He. exists pre, x, mid, y, (post ++ [e]).
  split; [by rewrite <- !app_assoc|]. split; [done|]. split; [done|]. rewrite app_assoc. apply Forall_app. split; [done|].
  by apply Forall_singleton.
Qed.

Lemma since_snoc t e since :
  high_entry e ->
  (exists pre x mid, t = pre ++ [x] ++ mid /\ x.1 = since /\ Forall high_entry ([x] ++ mid)) ->
  exists pre x mid, t ++ [e] = pre ++ [x] ++ mid /\ x.1 = since /\ Forall high_entry ([x] ++ mid).
Proof.
  intros He (pre & x & mid & -> & Hx & Hh). exists pre, x, (mid ++ [e]). split; [by rewrite <- !app_assoc|]. split; [done|].
  rewrite app_assoc. apply Forall_app. split; [done|]. by apply Forall_singleton.
Qed.

Lemma latch_inv_step t s now s' :
  0 < now -> latch_inv t s -> latch_step now s s' -> latch_inv (t ++ [(now, s')]) s'.
Proof.
  intros Hn [I1 I2 I3 I4] [Heq|Hstep].
  - apply latch_eq in Heq as (E1 & E2 & E3).
    assert (loss_is_high s' = loss_is_high s /\ loss_is_clear s' = loss_is_clear s) as [Eh Ec]
      by (unfold loss_is_high, loss_is_clear; by rewrite E1).
    constructor; rewrite ?E2, ?E3, ?Eh, ?Ec; try done.
    + intros H. apply since_snoc; [unfold high_entry; cbn; rewrite Eh; auto|auto].
    + intros H. apply sustained_snoc; [auto|]. cbn. rewrite Ec. auto.
  - destruct (loss_is_high s') eqn:Eh.
    + pose proof (high_not_clear s' Eh) as Ec. destruct (Z.eqb_spec (lk_loss_high_since_ms s) 0) as [E0|E0].
      * destruct Hstep as [E1 E2]. constructor; rewrite ?E1, ?E2; try done.
        -- intros _. exists t, (now, s'), []. split; [done|]. split; [done|]. by apply Forall_singleton.
        -- intros H. apply sustained_snoc; auto.
      * destruct Hstep as [E1 E2]. constructor; rewrite ?E1; try done.
        -- intros H. apply since_snoc; auto.
        -- rewrite E2. intros [H|H%Z.leb_le]%orb_true_iff; [apply sustained_snoc; auto|].
           destruct (I1 E0) as (pre & x & mid & -> & Hx & Hh). exists pre, x, mid, (now, s'), [].
           split; [by rewrite <- !app_assoc|]. split; [rewrite app_assoc; apply Forall_app; split; [done|by apply Forall_singleton]|].
           split; [cbn; lia|]. by apply Forall_singleton.
    + destruct Hstep as [E1 E2]. constructor; rewrite ?E1, ?E2; try done.
      * intros [H1 H2]%andb_true_iff. apply negb_true_iff in H2. apply sustained_snoc; auto.
      * intros [H1 H2]%andb_true_iff. by apply negb_true_iff in H2.
Qed.

(** The loss verdict that demotes a link is never a blip.  If a link is
    flagged loss-degraded after a run of rounds (at positive times), then the
    run contains a stretch of rounds, first and last at least four seconds
    apart, on all of which the loss average was above 0.55, and on no round
    since then was it below 0.25. *)
Theorem degraded_needs_sustain (exp : f64 -> f64) (inputs : list LinkInput) :
  Forall (fun i => 0 < in_now i) inputs ->
  lk_loss_degraded (link_run exp inputs) = true -> sustained_high (link_trace exp link_default inputs).
Proof.
  intros Hpos. unfold link_run.
  assert (forall t s, latch_inv t s ->
    latch_inv (t ++ link_trace exp s inputs) (fold_left (link_round exp) inputs s)) as Hrun.
  { induction Hpos as [|i rest Hi Hrest IH]; intros t s Hs; cbn [link_trace fold_left]; [by rewrite app_nil_r|].
    change (t ++ _ :: ?l) with (t ++ [(in_now i, link_round exp s i)] ++ l). rewrite app_assoc. apply IH.
    apply latch_inv_step with s; [done|done|apply round_latch]. }
  destruct (Hrun [] link_default) as [_ H _ _]; [by constructor|exact H].
Qed.

(** Six rounds at one-second spacing that lose three packets in four. *)
Definition dying_rounds : list LinkInput :=
  map (fun k => mkInput (f_of_Z 40) (k * 1316000) (k * 750) (f_of_Z 8000000) (1000 * k)) [1; 2; 3; 4; 5; 6; 7; 8].

Lemma degraded_needs_sustain_witness :
  lk_loss_degraded (link_run (fun _ => f0) (take 5 dying_rounds)) = false /\
  sustained_high (link_trace (fun _ => f0) link_default dying_rounds).
Proof.
  split; [vm_compute; reflexivity|]. apply (degraded_needs_sustain (fun _ => f0) dying_rounds).
  - repeat constructor.
  - vm_compute. reflexivity.
Defined.
