(* ===== verification/Registration.v ===== *)
(** * Registration (srtla-core/src/registration/{mod,probing}.rs)

    The REG1/REG2/REG3 handshake with the receiver: RTT probing picks the
    uplink of the first REG1, one REG1 is in flight at a time, the REG2 answer
    installs the receiver's id and is broadcast, and each uplink that was sent a
    REG2 holds a one-shot grant for a REG3.  The frames carry no authentication,
    so the theorems are about forged ones: a REG3 or REG_ERR that answers
    nothing in flight changes no handshake state, a REG3 grant is spent once,
    and the id only ever comes from the uplink that was asked.  Random bytes are
    arguments of the operations that draw them. *)
From S2P Require Import Prelude F64 Wire Seq Filters Rtt Batch Pacing Congestion Config Connection.

Inductive RegistrationEvent := RegNgp | Reg2 | Reg3 | RegErr.
Global Instance RegistrationEvent_eq_dec : EqDecision RegistrationEvent.
Proof. solve_decision. Defined.

Record OutOfPhaseCounters := mkOutOfPhase { oop_reg3 : Z; oop_reg_err : Z }.
Global Instance eta_oop : Eta OutOfPhaseCounters := fun r => mkOutOfPhase (oop_reg3 r) (oop_reg_err r).

Record RegDriverSends := mkSends {
  reg1 : option (nat * bytes);
  broadcast_reg2 : option bytes }.
Global Instance eta_sends : Eta RegDriverSends := fun r => mkSends (reg1 r) (broadcast_reg2 r).

(** ** probing.rs: state *)
Inductive ProbingState := NotStarted | Probing | WaitingForProbes | Complete.
Global Instance ProbingState_eq_dec : EqDecision ProbingState.
Proof. solve_decision. Defined.

Record ProbeResult := mkProbe { pr_conn_idx : nat; pr_probe_sent_ms : Z; pr_rtt_ms : option Z }.
Global Instance eta_probe : Eta ProbeResult := fun r => mkProbe (pr_conn_idx r) (pr_probe_sent_ms r) (pr_rtt_ms r).

(** ** The manager *)
Record SrtlaRegistrationManager := mkReg {
  srtla_id : bytes;
  pending_reg2_idx : option nat;
  pending_timeout_at_ms : Z;
  active_connections : nat;
  has_connected : bool;
  broadcast_reg2_pending : bool;
  reg1_target_idx : option nat;
  reg1_next_send_at_ms : Z;
  probing_state : ProbingState;
  probe_id : bytes;
  probe_results : list ProbeResult;
  awaiting_reg3 : list nat;
  connected_snapshot : list bool;
  out_of_phase : OutOfPhaseCounters }.

Global Instance eta_reg : Eta SrtlaRegistrationManager := fun r =>
  mkReg (srtla_id r) (pending_reg2_idx r) (pending_timeout_at_ms r) (active_connections r)
    (has_connected r) (broadcast_reg2_pending r) (reg1_target_idx r) (reg1_next_send_at_ms r)
    (probing_state r) (probe_id r) (probe_results r) (awaiting_reg3 r) (connected_snapshot r)
    (out_of_phase r).

(** [id] and [pid] are the random bytes drawn. *)
Definition reg_new (id pid : bytes) : SrtlaRegistrationManager := {|
  srtla_id := id;
  pending_reg2_idx := None;
  pending_timeout_at_ms := 0;
  active_connections := 0;
  has_connected := false;
  broadcast_reg2_pending := false;
  reg1_target_idx := None;
  reg1_next_send_at_ms := 0;
  probing_state := NotStarted;
  probe_id := pid;
  probe_results := [];
  awaiting_reg3 := [];
  connected_snapshot := [];
  out_of_phase := mkOutOfPhase 0 0 |}.

(** [half] is the re-randomized second half of the id, [pid] the probe id. *)
Definition reset_for_rehome (self : SrtlaRegistrationManager) (half pid : bytes)
  : SrtlaRegistrationManager :=
  self <| srtla_id := take (SRTLA_ID_LEN / 2) (srtla_id self) ++ half |>
       <| pending_reg2_idx := None |>
       <| pending_timeout_at_ms := 0 |>
       <| active_connections := 0%nat |>
       <| broadcast_reg2_pending := false |>
       <| reg1_target_idx := None |>
       <| reg1_next_send_at_ms := 0 |>
       <| awaiting_reg3 := [] |>
       <| connected_snapshot := [] |>
       <| probing_state := NotStarted |>
       <| probe_id := pid |>
       <| probe_results := [] |>.

(** ** REG3 grants *)
Definition contains (l : list nat) (i : nat) : bool := bool_decide (i ∈ l).

Definition arm_reg3_grant (self : SrtlaRegistrationManager) (conn_idx : nat)
  : SrtlaRegistrationManager :=
  if negb (contains (awaiting_reg3 self) conn_idx)
  then self <| awaiting_reg3 ::= fun l => l ++ [conn_idx] |> else self.

Definition revoke_reg3_grant (self : SrtlaRegistrationManager) (conn_idx : nat)
  : SrtlaRegistrationManager :=
  self <| awaiting_reg3 ::= List.filter (fun i => negb (Nat.eqb i conn_idx)) |>.

Definition is_connected_snapshot (self : SrtlaRegistrationManager) (conn_idx : nat) : bool :=
  default false (connected_snapshot self !! conn_idx).

(** ** Building packets *)
Definition build_reg1_for (self : SrtlaRegistrationManager) (conn_idx : nat) (now : Z)
  : SrtlaRegistrationManager * bytes :=
  let pkt := create_reg1_packet (srtla_id self) in
  (self <| pending_reg2_idx := Some conn_idx |>
        <| reg1_target_idx := Some conn_idx |>
        <| pending_timeout_at_ms := u64_wrap (now + REG2_TIMEOUT * 1000) |>
        <| reg1_next_send_at_ms := u64_wrap (now + 1000) |>, pkt).

Definition build_reg2 (self : SrtlaRegistrationManager) (conn_idx : nat)
  : SrtlaRegistrationManager * bytes :=
  let pkt := create_reg2_packet (srtla_id self) in
  (arm_reg3_grant self conn_idx, pkt).

(** ** probing.rs: operations *)
Definition probe_all (pid : bytes) (now : Z) (connections : list SrtlaConnection)
  : list (SrtlaConnection * bytes) :=
  map (fun c => probe_reg2_packet c pid now) connections.

Definition start_probing (self : SrtlaRegistrationManager) (connections : list SrtlaConnection) (now : Z)
  : SrtlaRegistrationManager * list SrtlaConnection * list (nat * bytes) :=
  if negb (bool_decide (probing_state self = NotStarted)) || bool_decide (0 < active_connections self)%nat
  then (self, connections, [])
  else
    let self := self <| probing_state := Probing |> <| probe_results := [] |> in
    let probed := probe_all (probe_id self) now connections in
    let self := self <| probe_results := imap (fun i _ => mkProbe i now None) connections |> in
    let self :=
      if negb (bool_decide (probe_results self = [])) then
        self <| probing_state := WaitingForProbes |>
             <| pending_timeout_at_ms := u64_wrap (now + 2000) |>
      else self <| probing_state := Complete |> in
    (self, probed.*1, imap (fun i p => (i, p.2)) probed).

(** [iter_mut().find(..)] and the update of the found entry. *)
Fixpoint answer_probe (conn_idx : nat) (now : Z) (rs : list ProbeResult) : list ProbeResult :=
  match rs with
  | [] => []
  | r :: rs =>
    if Nat.eqb (pr_conn_idx r) conn_idx then
      match pr_rtt_ms r with
      | None => r <| pr_rtt_ms := Some (sat_sub now (pr_probe_sent_ms r)) |> :: rs
      | Some _ => r :: rs
      end
    else r :: answer_probe conn_idx now rs
  end.

Definition handle_probe_response (self : SrtlaRegistrationManager) (conn_idx : nat) (now : Z)
  : SrtlaRegistrationManager :=
  if negb (bool_decide (probing_state self = WaitingForProbes)) then self
  else self <| probe_results ::= answer_probe conn_idx now |>.

(** [filter(rtt_ms.is_some()).min_by_key(rtt_ms.unwrap())]: the first of the
    answered probes with the least RTT. *)
Fixpoint best_probe (rs : list ProbeResult) (best : option (ProbeResult * Z)) : option (ProbeResult * Z) :=
  match rs with
  | [] => best
  | r :: rs =>
    match pr_rtt_ms r with
    | None => best_probe rs best
    | Some rtt =>
      match best with
      | Some (_, b) => best_probe rs (if rtt <? b then Some (r, rtt) else best)
      | None => best_probe rs (Some (r, rtt))
      end
    end
  end.

(** [now] is the clock read by the function. *)
Definition check_probing_complete (self : SrtlaRegistrationManager) (now : Z)
  : SrtlaRegistrationManager * bool :=
  if negb (bool_decide (probing_state self = WaitingForProbes)) then (self, false)
  else
    let all_responded := forallb (fun r => bool_decide (is_Some (pr_rtt_ms r))) (probe_results self) in
    let timed_out := now >=? pending_timeout_at_ms self in
    if all_responded || timed_out then
      let target := match best_probe (probe_results self) None with
                    | Some (best, _) => pr_conn_idx best
                    | None => 0%nat
                    end in
      let self := self <| reg1_target_idx := Some target |> <| reg1_next_send_at_ms := now |> in
      (self <| probing_state := Complete |> <| pending_timeout_at_ms := 0 |>, true)
    else (self, false).

Definition is_probing (self : SrtlaRegistrationManager) : bool :=
  match probing_state self with Probing | WaitingForProbes => true | _ => false end.

(** ** Incoming frames *)
Definition handle_reg_ngp (self : SrtlaRegistrationManager) (conn_idx : nat) (now_ms : Z)
  : SrtlaRegistrationManager :=
  if bool_decide (probing_state self = WaitingForProbes) then handle_probe_response self conn_idx now_ms
  else if Nat.eqb (active_connections self) 0 && bool_decide (pending_reg2_idx self = None) then
    self <| reg1_target_idx := Some conn_idx |> <| reg1_next_send_at_ms := now_ms |>
  else self.

Definition handle_reg2 (self : SrtlaRegistrationManager) (conn_idx : nat) (buf : bytes) (now_ms : Z)
  : SrtlaRegistrationManager :=
  if bool_decide (length buf < 2 + SRTLA_ID_LEN)%nat then self
  else if bool_decide (pending_reg2_idx self = Some conn_idx) then
    self <| srtla_id := take SRTLA_ID_LEN (drop 2 buf) |>
         <| pending_reg2_idx := None |>
         <| pending_timeout_at_ms := u64_wrap (now_ms + REG3_TIMEOUT * 1000) |>
         <| broadcast_reg2_pending := true |>
         <| reg1_target_idx := None |>
         <| reg1_next_send_at_ms := 0 |>
  else self.

Definition handle_reg3 (self : SrtlaRegistrationManager) (conn_idx : nat)
  : SrtlaRegistrationManager * bool :=
  if negb (contains (awaiting_reg3 self) conn_idx)
  then (self <| out_of_phase ::= fun o => o <| oop_reg3 ::= fun n => sat_add_u64 n 1 |> |>, false)
  else (revoke_reg3_grant self conn_idx <| has_connected := true |>, true).

Definition handle_reg_err (self : SrtlaRegistrationManager) (conn_idx : nat) (now_ms : Z)
  : SrtlaRegistrationManager * bool :=
  let awaiting2 := bool_decide (pending_reg2_idx self = Some conn_idx) in
  let awaiting3 := contains (awaiting_reg3 self) conn_idx in
  if negb awaiting2 && negb awaiting3
  then (self <| out_of_phase ::= fun o => o <| oop_reg_err ::= fun n => sat_add_u64 n 1 |> |>, false)
  else
    let self :=
      if awaiting2 then
        self <| pending_reg2_idx := None |>
             <| pending_timeout_at_ms := 0 |>
             <| reg1_target_idx := None |>
             <| reg1_next_send_at_ms := u64_wrap (now_ms + REG2_TIMEOUT * 1000) |>
      else self in
    (revoke_reg3_grant self conn_idx, true).

Definition process_registration_packet (self : SrtlaRegistrationManager) (conn_idx : nat) (buf : bytes)
    (now_ms : Z) : res (SrtlaRegistrationManager * option RegistrationEvent) :=
  pt ← get_packet_type buf;
  match pt with
  | Some t =>
    if t =? SRTLA_TYPE_REG_NGP then Ret (handle_reg_ngp self conn_idx now_ms, Some RegNgp)
    else if t =? SRTLA_TYPE_REG2 then Ret (handle_reg2 self conn_idx buf now_ms, Some Reg2)
    else if t =? SRTLA_TYPE_REG3 then
      let '(self, ok) := handle_reg3 self conn_idx in Ret (self, if ok then Some Reg3 else None)
    else if t =? SRTLA_TYPE_REG_ERR then
      let '(self, ok) := handle_reg_err self conn_idx now_ms in Ret (self, if ok then Some RegErr else None)
    else Ret (self, None)
  | None => Ret (self, None)
  end.

(** ** The driver *)
Definition reg_driver_pending_sends (self : SrtlaRegistrationManager) (connection_count : nat) (now : Z)
  : SrtlaRegistrationManager * RegDriverSends :=
  let sends := mkSends None None in
  let '(self, sends) :=
    if Nat.eqb (active_connections self) 0 then
      match reg1_target_idx self with
      | Some idx =>
        if bool_decide (pending_reg2_idx self = None) && (now >=? reg1_next_send_at_ms self) then
          let pkt := create_reg1_packet (srtla_id self) in
          (self <| pending_reg2_idx := Some idx |>
                <| pending_timeout_at_ms := u64_wrap (now + REG2_TIMEOUT * 1000) |>
                <| reg1_next_send_at_ms := u64_wrap (now + REG2_TIMEOUT * 1000) |>,
           sends <| reg1 := Some (idx, pkt) |>)
        else (self, sends)
      | None => (self, sends)
      end
    else (self, sends) in
  if broadcast_reg2_pending self then
    let pkt := create_reg2_packet (srtla_id self) in
    let self :=
      foldl (fun self idx => if is_connected_snapshot self idx then self else arm_reg3_grant self idx)
        self (seq 0 connection_count) in
    (self <| broadcast_reg2_pending := false |>, sends <| broadcast_reg2 := Some pkt |>)
  else (self, sends).

Definition reg1_if_ngp_immediate (self : SrtlaRegistrationManager) (conn_idx : nat) (now : Z)
  : SrtlaRegistrationManager * option bytes :=
  if Nat.eqb (active_connections self) 0 && bool_decide (pending_reg2_idx self = None) &&
     bool_decide (reg1_target_idx self = Some conn_idx) && (now >=? reg1_next_send_at_ms self)
  then let '(self, pkt) := build_reg1_for self conn_idx now in (self, Some pkt)
  else (self, None).

Definition update_active_connections (self : SrtlaRegistrationManager)
    (connections : list SrtlaConnection) : SrtlaRegistrationManager :=
  self <| active_connections := length (List.filter connected connections) |>
       <| connected_snapshot := map connected connections |>.

Definition clear_pending_if_timed_out (self : SrtlaRegistrationManager) (now_ms_value : Z)
  : SrtlaRegistrationManager * option nat :=
  match pending_reg2_idx self with
  | Some idx =>
    if negb (pending_timeout_at_ms self =? 0) && (now_ms_value >=? pending_timeout_at_ms self) then
      (self <| pending_reg2_idx := None |>
            <| pending_timeout_at_ms := 0 |>
            <| reg1_target_idx := None |>
            <| reg1_next_send_at_ms := now_ms_value |>, Some idx)
    else (self, None)
  | None => (self, None)
  end.

(** ** Histories of the manager *)
Inductive reg_op :=
  | ROpRehome (half pid : bytes)
  | ROpReg1 (conn_idx : nat) (now : Z)
  | ROpReg2 (conn_idx : nat)
  | ROpStartProbing (connections : list SrtlaConnection) (now : Z)
  | ROpCheckProbing (now : Z)
  | ROpPacket (conn_idx : nat) (buf : bytes) (now : Z)
  | ROpDriver (connection_count : nat) (now : Z)
  | ROpNgpImmediate (conn_idx : nat) (now : Z)
  | ROpUpdateActive (connections : list SrtlaConnection)
  | ROpClearPending (now : Z).

Definition reg_step (self : SrtlaRegistrationManager) (op : reg_op)
  : res (SrtlaRegistrationManager * option RegistrationEvent) :=
  match op with
  | ROpRehome half pid => Ret (reset_for_rehome self half pid, None)
  | ROpReg1 i now => Ret ((build_reg1_for self i now).1, None)
  | ROpReg2 i => Ret ((build_reg2 self i).1, None)
  | ROpStartProbing cs now => Ret ((start_probing self cs now).1.1, None)
  | ROpCheckProbing now => Ret ((check_probing_complete self now).1, None)
  | ROpPacket i buf now => process_registration_packet self i buf now
  | ROpDriver n now => Ret ((reg_driver_pending_sends self n now).1, None)
  | ROpNgpImmediate i now => Ret ((reg1_if_ngp_immediate self i now).1, None)
  | ROpUpdateActive cs => Ret (update_active_connections self cs, None)
  | ROpClearPending now => Ret ((clear_pending_if_timed_out self now).1, None)
  end.

(** REG2 packets the step queues for uplink [i] that open its gate. *)
Definition reg2_queued (self : SrtlaRegistrationManager) (op : reg_op) (i : nat) : nat :=
  match op with
  | ROpReg2 j => if Nat.eqb i j then 1 else 0
  | ROpDriver n _ =>
    if broadcast_reg2_pending self && Nat.ltb i n && negb (is_connected_snapshot self i) then 1 else 0
  | _ => 0
  end.

(** REG3 frames the step accepts on uplink [i]. *)
Definition reg3_accepted (op : reg_op) (ev : option RegistrationEvent) (i : nat) : nat :=
  match op with
  | ROpPacket j _ _ => if Nat.eqb i j && bool_decide (ev = Some Reg3) then 1 else 0
  | _ => 0
  end.

(** A run counts, for uplink [i], the REG2s queued and the REG3s accepted. *)
Fixpoint reg_run (self : SrtlaRegistrationManager) (ops : list reg_op) (i : nat)
  : res (SrtlaRegistrationManager * nat * nat) :=
  match ops with
  | [] => Ret (self, 0%nat, 0%nat)
  | op :: ops =>
    '(self', ev) ← reg_step self op;
    '(final, queued, accepted) ← reg_run self' ops i;
    Ret (final, (reg2_queued self op i + queued)%nat, (reg3_accepted op ev i + accepted)%nat)
  end.

Definition grant (self : SrtlaRegistrationManager) (i : nat) : nat :=
  if contains (awaiting_reg3 self) i then 1 else 0.

(** ** Grants *)
Lemma grant_arm self i j : grant (arm_reg3_grant self j) i = (if Nat.eqb i j then 1 else grant self i)%nat.
Proof.
  unfold arm_reg3_grant, grant, contains.
  destruct (bool_decide (j ∈ awaiting_reg3 self)) eqn:E; cbn.
  - destruct (Nat.eqb_spec i j) as [->|]; [by rewrite E|done].
  - destruct (Nat.eqb_spec i j) as [->|Hn].
    + rewrite bool_decide_eq_true_2; [done|]. apply elem_of_app. right. by apply list_elem_of_singleton.
    + rewrite (bool_decide_ext _ (i ∈ awaiting_reg3 self)); [done|].
      rewrite elem_of_app, list_elem_of_singleton. tauto.
Qed.

Lemma grant_revoke self i j :
  grant (revoke_reg3_grant self j) i = (if Nat.eqb i j then 0 else grant self i)%nat.
Proof.
  unfold revoke_reg3_grant, grant, contains. cbn.
  destruct (Nat.eqb_spec i j) as [->|Hn].
  - rewrite bool_decide_eq_false_2; [done|]. rewrite list_elem_of_In, filter_In, Nat.eqb_refl. by intros [_ ?].
  - rewrite (bool_decide_ext _ (i ∈ awaiting_reg3 self)); [done|].
    rewrite !list_elem_of_In, filter_In. apply Nat.eqb_neq in Hn. rewrite Hn. cbn. tauto.
Qed.

Lemma snapshot_arm self i j : is_connected_snapshot (arm_reg3_grant self j) i = is_connected_snapshot self i.
Proof. unfold arm_reg3_grant. by destruct (negb _). Qed.

Definition arm_step (self : SrtlaRegistrationManager) (idx : nat) : SrtlaRegistrationManager :=
  if is_connected_snapshot self idx then self else arm_reg3_grant self idx.

Lemma grant_broadcast self n i :
  grant (foldl arm_step self (seq 0 n)) i =
    (if Nat.ltb i n && negb (is_connected_snapshot self i) then 1 else grant self i)%nat /\
  is_connected_snapshot (foldl arm_step self (seq 0 n)) i = is_connected_snapshot self i.
Proof.
  induction n as [|n [IH1 IH2]]; [done|].
  rewrite seq_S, foldl_app. cbn [foldl]. set (s := foldl arm_step self (seq 0 n)) in *.
  unfold arm_step. cbn [Nat.add].
  assert (Nat.ltb i (S n) = Nat.ltb i n || Nat.eqb i n) as ->.
  { destruct (Nat.eqb_spec i n), (Nat.ltb_spec i n), (Nat.ltb_spec i (S n)); done || lia. }
  destruct (is_connected_snapshot s n) eqn:Es.
  - rewrite IH1. split; [|done]. destruct (Nat.eqb_spec i n) as [->|]; [|by rewrite orb_false_r].
    rewrite <- IH2, Es. by rewrite !andb_false_r.
  - rewrite grant_arm, snapshot_arm, IH1. split; [|done].
    destruct (Nat.eqb_spec i n) as [->|]; [|by rewrite orb_false_r].
    rewrite orb_true_r, <- IH2, Es. done.
Qed.

(** One step spends at most what it was granted. *)
Lemma reg_step_grant self op self' ev i :
  reg_step self op = Ret (self', ev) ->
  (reg3_accepted op ev i + grant self' i <= grant self i + reg2_queued self op i)%nat.
Proof.
  assert (forall s' : SrtlaRegistrationManager, awaiting_reg3 s' = awaiting_reg3 self -> grant s' i = grant self i) as Hg
    by (intros s' H; unfold grant; by rewrite H).
  assert (forall s' : SrtlaRegistrationManager, awaiting_reg3 s' = awaiting_reg3 self ->
    (0 + grant s' i <= grant self i + 0)%nat) as Hsame by (intros s' H; rewrite (Hg s' H); lia).
  destruct op; cbn [reg_step reg3_accepted reg2_queued].
  - intros [= <- <-]. assert (grant (reset_for_rehome self half pid) i = 0%nat) as -> by done. lia.
  - intros [= <- <-]. by apply Hsame.
  - intros [= <- <-]. cbn [build_reg2 fst]. rewrite grant_arm. destruct (Nat.eqb i conn_idx); lia.
  - intros [= <- <-]. apply Hsame. unfold start_probing. destruct (_ || _); [done|]. cbn [fst].
    by destruct (negb _).
  - intros [= <- <-]. apply Hsame. unfold check_probing_complete. destruct (negb _); [done|].
    by destruct (_ || _).
  - unfold process_registration_packet. rewrite get_packet_type_spec. cbn [mbind res_bind].
    assert (forall e : option RegistrationEvent, e <> Some Reg3 ->
      (if Nat.eqb i conn_idx && bool_decide (e = Some Reg3) then 1 else 0)%nat = 0%nat) as Hno
      by (intros e He; rewrite bool_decide_eq_false_2, andb_false_r by done; done).
    destruct (packet_type_of buf) as [t|]; [|intros [= <- <-]; rewrite Hno by done; by apply Hsame].
    destruct (t =? _).
    { intros [= <- <-]. rewrite Hno by done. apply Hsame. unfold handle_reg_ngp, handle_probe_response. by split_ifs. }
    destruct (t =? _).
    { intros [= <- <-]. rewrite Hno by done. apply Hsame. unfold handle_reg2. by split_ifs. }
    destruct (t =? _).
    { unfold handle_reg3. destruct (contains (awaiting_reg3 self) conn_idx) eqn:Ec; cbn [negb]; intros [= <- <-].
      - change (grant _ i) with (grant (revoke_reg3_grant self conn_idx) i) at 1. rewrite grant_revoke.
        destruct (Nat.eqb_spec i conn_idx) as [->|]; [|cbn; lia]. rewrite bool_decide_eq_true_2 by done. unfold grant. rewrite Ec. done.
      - rewrite Hno by done. by apply Hsame. }
    destruct (t =? _); [|intros [= <- <-]; rewrite Hno by done; by apply Hsame].
    unfold handle_reg_err. destruct (negb _ && negb _); intros [= <- <-]; rewrite Hno by done.
    + by apply Hsame.
    + rewrite grant_revoke. destruct (Nat.eqb i conn_idx); [lia|]. rewrite Hg; [lia|]. by split_ifs.
  - intros [= <- <-]. unfold reg_driver_pending_sends.
    set (st := if Nat.eqb (active_connections self) 0 then _ else _).
    assert (awaiting_reg3 st.1 = awaiting_reg3 self /\ broadcast_reg2_pending st.1 = broadcast_reg2_pending self /\
      connected_snapshot st.1 = connected_snapshot self) as (H1 & H2 & H3).
    { unfold st. destruct (Nat.eqb _ _); [|done]. destruct (reg1_target_idx self); [|done].
      by destruct (_ && _). }
    clearbody st. destruct st as [s sends]. cbn [fst snd] in *. rewrite H2.
    destruct (broadcast_reg2_pending self); cbn [fst andb]; [|by apply Hsame].
    change (grant _ i) with (grant (foldl arm_step s (seq 0 connection_count)) i) at 1.
    rewrite (proj1 (grant_broadcast s connection_count i)), (Hg s H1).
    unfold is_connected_snapshot. rewrite H3. destruct (_ && _); lia.
  - intros [= <- <-]. apply Hsame. unfold reg1_if_ngp_immediate. by destruct (_ && _).
  - intros [= <- <-]. by apply Hsame.
  - intros [= <- <-]. apply Hsame. unfold clear_pending_if_timed_out. destruct (pending_reg2_idx self); [|done].
    by destruct (_ && _).
Qed.

Lemma reg_run_grant ops : forall self i final queued accepted,
  reg_run self ops i = Ret (final, queued, accepted) ->
  (accepted + grant final i <= grant self i + queued)%nat.
Proof.
  induction ops as [|op ops IH]; cbn [reg_run]; intros self i final queued accepted.
  - intros [= <- <- <-]. lia.
  - destruct (reg_step self op) as [[self' ev]|] eqn:Es; cbn; [|done].
    destruct (reg_run self' ops i) as [[[f q] a]|] eqn:Er; cbn; [|done].
    intros [= <- <- <-]. pose proof (reg_step_grant _ _ _ _ i Es). specialize (IH _ _ _ _ _ Er). lia.
Qed.

(** No history panics. *)
Lemma reg_run_total ops : forall self i, exists r, reg_run self ops i = Ret r.
Proof.
  induction ops as [|op ops IH]; intros self i; [by eexists|].
  assert (exists self' ev, reg_step self op = Ret (self', ev)) as (self' & ev & Hs).
  { destruct op; cbn [reg_step]; try (by do 2 eexists). unfold process_registration_packet.
    rewrite get_packet_type_spec. cbn [mbind res_bind]. destruct (packet_type_of buf); [|by do 2 eexists].
    repeat destruct (_ =? _); try (by do 2 eexists).
    - destruct (handle_reg3 self conn_idx). by do 2 eexists.
    - destruct (handle_reg_err self conn_idx now). by do 2 eexists. }
  destruct (IH self' i) as [[[f q] a] Hr]. cbn [reg_run]. rewrite Hs. cbn. rewrite Hr. by eexists.
Qed.

(** C8: a REG3 is accepted at most once per REG2 sent: over any history of a
    fresh manager, frames from any source included, no operation panics and the
    REG3s accepted on an uplink never outnumber the REG2s that were queued for
    it while it was not connected. *)
Theorem reg3_one_shot (id pid : bytes) (ops : list reg_op) (i : nat) :
  exists final queued accepted,
    reg_run (reg_new id pid) ops i = Ret (final, queued, accepted) /\ (accepted <= queued)%nat.
Proof.
  destruct (reg_run_total ops (reg_new id pid) i) as [[[final queued] accepted] H].
  exists final, queued, accepted. split; [done|]. apply reg_run_grant in H. change (grant (reg_new id pid) i) with 0%nat in H. lia.
Qed.

(** ** Forged frames *)

(** The handshake state a frame on another uplink must not touch. *)
Definition handshake (self : SrtlaRegistrationManager) :=
  (srtla_id self, pending_reg2_idx self, pending_timeout_at_ms self, reg1_target_idx self,
   reg1_next_send_at_ms self, broadcast_reg2_pending self).

(** C27: a frame received on uplink [i] never touches another uplink's
    handshake: it leaves every other uplink's REG3 grant alone, and while the
    REG1 in flight is another uplink's (or none is in flight on [i] and the
    frame is a REG3 or REG_ERR) the id, the pending slot, its timeout, the REG1
    target and the broadcast flag stay.  A REG3 or REG_ERR that answers nothing
    in flight on [i] reports no event and changes only a rejection counter. *)
Theorem forged_frame_isolated (self self' : SrtlaRegistrationManager) (i j : nat) (buf : bytes) (now : Z)
    (ev : option RegistrationEvent) :
  process_registration_packet self i buf now = Ret (self', ev) ->
  (i <> j -> grant self' j = grant self j) /\
  (i <> j -> pending_reg2_idx self = Some j -> handshake self' = handshake self) /\
  (grant self i = 0%nat -> pending_reg2_idx self <> Some i ->
   packet_type_of buf = Some SRTLA_TYPE_REG3 \/ packet_type_of buf = Some SRTLA_TYPE_REG_ERR ->
   ev = None /\ self' = self <| out_of_phase := out_of_phase self' |>).
Proof.
  unfold process_registration_packet. rewrite get_packet_type_spec. cbn [mbind res_bind].
  intros H.
  assert (forall s' : SrtlaRegistrationManager, awaiting_reg3 s' = awaiting_reg3 self -> grant s' j = grant self j) as Hg
    by (intros s' Ha; unfold grant; by rewrite Ha).
  destruct (packet_type_of buf) as [t|]; [|injection H as <- <-; split_and!; [done|done|by intros _ _ [|]]].
  destruct (Z.eqb_spec t SRTLA_TYPE_REG_NGP) as [Et|H1]; [subst t|].
  { injection H as <- <-. split_and!; [| |intros _ _ [[=]|[=]]].
    - intros _. apply Hg. unfold handle_reg_ngp, handle_probe_response. by split_ifs.
    - intros _ Hp. unfold handle_reg_ngp, handle_probe_response. rewrite Hp.
      rewrite (bool_decide_eq_false_2 (Some j = None)) by done. rewrite andb_false_r. by split_ifs. }
  destruct (Z.eqb_spec t SRTLA_TYPE_REG2) as [Et|H2]; [subst t|].
  { injection H as <- <-. split_and!; [| |intros _ _ [[=]|[=]]].
    - intros _. apply Hg. unfold handle_reg2. by split_ifs.
    - intros Hn Hp. unfold handle_reg2. rewrite Hp, (bool_decide_eq_false_2 (Some j = Some i)) by congruence. by split_ifs. }
  destruct (Z.eqb_spec t SRTLA_TYPE_REG3) as [Et|H3]; [subst t|].
  { unfold handle_reg3 in H. destruct (contains (awaiting_reg3 self) i) eqn:Ec; cbn [negb] in H; injection H as <- <-.
    - split_and!; [|done|unfold grant; by rewrite Ec].
      intros Hn. change (grant (revoke_reg3_grant self i) j = grant self j). rewrite grant_revoke.
      destruct (Nat.eqb_spec j i); congruence.
    - split_and!; [intros _; by apply Hg|done|done]. }
  destruct (Z.eqb_spec t SRTLA_TYPE_REG_ERR) as [Et|H4]; [subst t|].
  2:{ injection H as <- <-. split_and!; [done|done|]. intros _ _ [[=]|[=]]; congruence. }
  unfold handle_reg_err in H.
  destruct (bool_decide (pending_reg2_idx self = Some i)) eqn:Ep;
    [apply bool_decide_eq_true in Ep|apply bool_decide_eq_false in Ep]; cbn [negb andb] in H.
  - injection H as <- <-. split_and!; [|congruence|done].
    intros Hn. rewrite grant_revoke. destruct (Nat.eqb_spec j i); [congruence|]. by apply Hg.
  - destruct (contains (awaiting_reg3 self) i) eqn:Ec; cbn [negb] in H; injection H as <- <-.
    + split_and!; [|done|unfold grant; by rewrite Ec].
      intros Hn. rewrite grant_revoke. destruct (Nat.eqb_spec j i); congruence.
    + split_and!; [intros _; by apply Hg|done|done].
Qed.

Definition id_a : bytes := replicate 256 7.

Lemma forged_frame_isolated_witness :
  let self := (build_reg1_for (reg_new id_a id_a) 1 0).1 in
  exists self', process_registration_packet self 0 [0x92; 0x10] 5 = Ret (self', None) /\
    handshake self' = handshake self /\ self' = self <| out_of_phase := out_of_phase self' |>.
Proof.
  intros self. eexists. split; [vm_compute; reflexivity|].
  match goal with |- handshake ?s = _ /\ _ =>
    destruct (forged_frame_isolated self s 0 1 [0x92; 0x10] 5 None) as (_ & H1 & H2) end;
    [vm_compute; reflexivity|].
  split; [apply H1; [done|reflexivity]|]. apply H2; [reflexivity|done|right; reflexivity].
Defined.

(** The connection id changes only by a REG2 of full length received on the
    uplink whose REG1 is in flight; it is then the 256 bytes after its type,
    the broadcast is armed, and the slot is free again.  A re-home keeps the
    sender's half. *)
Theorem id_only_from_asked (self self' : SrtlaRegistrationManager) (i : nat) (buf : bytes) (now : Z)
    (ev : option RegistrationEvent) :
  process_registration_packet self i buf now = Ret (self', ev) -> srtla_id self' <> srtla_id self ->
  packet_type_of buf = Some SRTLA_TYPE_REG2 /\ pending_reg2_idx self = Some i /\
  (2 + SRTLA_ID_LEN <= length buf)%nat /\ srtla_id self' = take SRTLA_ID_LEN (drop 2 buf) /\
  length (srtla_id self') = SRTLA_ID_LEN /\
  broadcast_reg2_pending self' = true /\ pending_reg2_idx self' = None /\ reg1_target_idx self' = None /\
  (forall half pid, length half = 128%nat ->
     take 128 (srtla_id (reset_for_rehome self' half pid)) = take 128 (srtla_id self')).
Proof.
  unfold process_registration_packet. rewrite get_packet_type_spec. cbn [mbind res_bind].
  intros H Hid. destruct (packet_type_of buf) as [t|]; [|congruence].
  destruct (Z.eqb_spec t SRTLA_TYPE_REG_NGP).
  { injection H as <- <-. destruct Hid. unfold handle_reg_ngp, handle_probe_response. by split_ifs. }
  destruct (Z.eqb_spec t SRTLA_TYPE_REG2) as [Et|?]; [subst t|].
  - injection H as <- <-. unfold handle_reg2 in *.
    case_bool_decide as Hl; [done|]. case_bool_decide as Hp; [|done].
    assert (length (take SRTLA_ID_LEN (drop 2 buf)) = SRTLA_ID_LEN) as Hlen
      by (rewrite length_take, length_drop; unfold SRTLA_ID_LEN in *; lia).
    split_and!; try done; [unfold SRTLA_ID_LEN in *; lia|].
    intros half pid Hh.
    change (take 128 (take 128 (take SRTLA_ID_LEN (drop 2 buf)) ++ half) = take 128 (take SRTLA_ID_LEN (drop 2 buf))).
    rewrite take_app_le, take_take; [done|]. rewrite length_take, Hlen. unfold SRTLA_ID_LEN. lia.
  - destruct (t =? SRTLA_TYPE_REG3).
    { unfold handle_reg3 in H. destruct (negb _); injection H as <- <-; done. }
    destruct (t =? SRTLA_TYPE_REG_ERR); [|congruence].
    unfold handle_reg_err in H. destruct (negb _ && _); injection H as <- <-; [done|].
    destruct Hid. by destruct (bool_decide _).
Qed.

Lemma id_only_from_asked_witness :
  let self := (build_reg1_for (reg_new id_a id_a) 1 0).1 in
  let buf := 0x92 :: 0x01 :: replicate 256 9 in
  exists self' ev, process_registration_packet self 1 buf 5 = Ret (self', ev) /\
    srtla_id self' = take SRTLA_ID_LEN (drop 2 buf) /\ broadcast_reg2_pending self' = true.
Proof.
  intros self buf. do 2 eexists. split; [vm_compute; reflexivity|].
  match goal with |- srtla_id ?s = _ /\ _ =>
    destruct (id_only_from_asked self s 1 buf 5 (Some Reg2)) as (_ & _ & _ & H1 & _ & H2 & _) end;
    [vm_compute; reflexivity|vm_compute; discriminate|]. split; [exact H1|exact H2].
Defined.

(** ** Probing *)
Definition probe_best (rs : list ProbeResult) (b : option (ProbeResult * Z)) : Prop :=
  match b with
  | None => Forall (fun r => pr_rtt_ms r = None) rs
  | Some (r, m) => exists pre post, rs = pre ++ r :: post /\ pr_rtt_ms r = Some m /\
      Forall (fun r' => forall x, pr_rtt_ms r' = Some x -> m < x) pre /\
      Forall (fun r' => forall x, pr_rtt_ms r' = Some x -> m <= x) post
  end.

Lemma best_probe_spec rs : forall seen b, probe_best seen b -> probe_best (seen ++ rs) (best_probe rs b).
Proof.
  induction rs as [|r rs IH]; intros seen b Hb; cbn [best_probe]; [by rewrite app_nil_r|].
  replace (seen ++ r :: rs) with ((seen ++ [r]) ++ rs) by (by rewrite <- app_assoc).
  destruct (pr_rtt_ms r) as [m|] eqn:Er.
  - destruct b as [[b mb]|]; apply IH.
    + destruct Hb as (pre & post & -> & Hb & Hpre & Hpost). destruct (Z.ltb_spec m mb) as [Hlt|Hge].
      * exists (pre ++ b :: post), []. split_and!; try done.
        apply Forall_app. split; [|apply Forall_cons; split; [intros x; rewrite Hb; intros [= <-]; lia|]].
        -- eapply Forall_impl; [exact Hpre|]. intros r' H x Hx. specialize (H x Hx). lia.
        -- eapply Forall_impl; [exact Hpost|]. intros r' H x Hx. specialize (H x Hx). lia.
      * exists pre, (post ++ [r]). split_and!; try done; [by rewrite <- app_assoc|].
        apply Forall_app. split; [done|]. apply Forall_singleton. intros x. rewrite Er. intros [= <-]. lia.
    + exists seen, []. split_and!; try done.
      eapply Forall_impl; [exact Hb|]. intros r' H x Hx. cbn in H. congruence.
  - apply IH. destruct b as [[b mb]|].
    + destruct Hb as (pre & post & -> & Hb & Hpre & Hpost). exists pre, (post ++ [r]).
      split_and!; try done; [by rewrite <- app_assoc|].
      apply Forall_app. split; [done|]. apply Forall_singleton. intros x. by rewrite Er.
    + apply Forall_app. split; [done|]. by apply Forall_singleton.
Qed.

(** Probing ends exactly when every probe was answered or the two seconds
    are over, and then targets the first REG1 at the earliest probed uplink of
    least RTT, or at uplink 0 when none answered. *)
Theorem probing_picks_fastest (self self' : SrtlaRegistrationManager) (now : Z) (done : bool) :
  probing_state self = WaitingForProbes -> check_probing_complete self now = (self', done) ->
  (done = true <-> Forall (fun r => is_Some (pr_rtt_ms r)) (probe_results self) \/
                   pending_timeout_at_ms self <= now) /\
  (done = false -> self' = self) /\
  (done = true -> probing_state self' = Complete /\ reg1_next_send_at_ms self' = now /\
   exists target, reg1_target_idx self' = Some target /\
     (Forall (fun r => pr_rtt_ms r = None) (probe_results self) /\ target = 0%nat \/
      exists pre r post m, probe_results self = pre ++ r :: post /\ pr_conn_idx r = target /\
        pr_rtt_ms r = Some m /\
        Forall (fun r' => forall x, pr_rtt_ms r' = Some x -> m < x) pre /\
        Forall (fun r' => forall x, pr_rtt_ms r' = Some x -> m <= x) post)).
Proof.
  intros Hw. unfold check_probing_complete. rewrite Hw, bool_decide_eq_true_2 by reflexivity. cbn [negb].
  pose proof (best_probe_spec (probe_results self) [] None (Forall_nil_2 _)) as Hb. cbn [app] in Hb.
  destruct (forallb _ _ || _) eqn:E; intros [= <- <-].
  - split; [|split; [done|intros _; split; [done|split; [done|]]]].
    + split; [intros _|done]. apply orb_true_iff in E as [E|E]; [left|right; lia].
      apply Forall_forall. intros r Hr. rewrite forallb_forall in E.
      by apply (bool_decide_eq_true_1 _ (E r (proj1 (list_elem_of_In _ _) Hr))).
    + eexists. split; [reflexivity|]. destruct (best_probe (probe_results self) None) as [[r m]|].
      * right. destruct Hb as (pre & post & H). exists pre, r, post, m. tauto.
      * by left.
  - split; [|split; done]. split; [done|]. apply orb_false_iff in E as [E1 E2].
    intros [Hall|Ht]; [|lia]. rewrite <- E1. apply forallb_forall. intros r Hr.
    apply bool_decide_eq_true_2. rewrite Forall_forall in Hall. by apply Hall, list_elem_of_In.
Qed.

(** Three probes; the second and the third answer in 40 ms, the first in 90. *)
Definition probed : SrtlaRegistrationManager :=
  let self := (start_probing (reg_new id_a id_a)
    [new_registering 1 0 0; new_registering 2 0 0; new_registering 3 0 0] 100).1.1 in
  handle_probe_response (handle_probe_response (handle_probe_response self 1 140) 2 140) 0 190.

Lemma probing_picks_fastest_witness :
  exists self', check_probing_complete probed 200 = (self', true) /\ reg1_target_idx self' = Some 1%nat.
Proof.
  eexists. split; [vm_compute; reflexivity|].
  match goal with |- reg1_target_idx ?s = _ =>
    destruct (probing_picks_fastest probed s 200 true) as (_ & _ & H) end;
    [vm_compute; reflexivity|vm_compute; reflexivity|].
  destruct (H eq_refl) as (_ & _ & target & Ht & _). vm_compute in Ht |- *. reflexivity.
Defined.
