(* ===== verification/Tracker.v ===== *)
(** * Sequence tracking (src/sender/sequence.rs)

    The fixed ring that remembers which link sent which sequence number.  The
    abstract specification is the history of operations: a lookup returns the
    link of the last insertion of that very sequence number, as long as no
    later insertion took its slot, its link was not removed, and it is not
    older than five seconds. *)
From S2P Require Import Prelude.

Definition SEQ_TRACKING_SIZE : nat := Z.to_nat 16384.
Definition SEQ_TRACKING_MASK : Z := Z.of_nat SEQ_TRACKING_SIZE - 1.
Definition SEQUENCE_TRACKING_MAX_AGE_MS : Z := 5000.

Record SequenceTrackingEntry := mkEntry { te_conn_id : Z; te_timestamp_ms : Z; te_seq : Z }.
Definition entry_default : SequenceTrackingEntry := mkEntry 0 0 0.

Definition is_expired (self : SequenceTrackingEntry) (current_time_ms : Z) : bool :=
  sat_sub current_time_ms (te_timestamp_ms self) >? SEQUENCE_TRACKING_MAX_AGE_MS.

Definition is_valid (self : SequenceTrackingEntry) (seq current_time_ms : Z) : bool :=
  negb (te_conn_id self =? 0) && (te_seq self =? seq) && negb (is_expired self current_time_ms).

Record SequenceTracker := mkTracker { entries : list SequenceTrackingEntry; count : Z }.
Global Instance eta_tracker : Eta SequenceTracker := fun r => mkTracker (entries r) (count r).

Definition tracker_new : SequenceTracker := mkTracker (replicate SEQ_TRACKING_SIZE entry_default) 0.

(** [(seq as usize) & SEQ_TRACKING_MASK]. *)
Definition slot_of (seq : Z) : nat := Z.to_nat (Z.land seq SEQ_TRACKING_MASK).

Definition tracker_insert (self : SequenceTracker) (seq conn_id timestamp_ms : Z) : res SequenceTracker :=
  let idx := slot_of seq in
  match entries self !! idx with
  | None => Panic
  | Some entry =>
    let self := if te_conn_id entry =? 0 then self <| count ::= fun n => sat_add_u64 n 1 |> else self in
    Ret (self <| entries ::= <[idx := mkEntry conn_id timestamp_ms seq]> |>)
  end.

Definition tracker_get (self : SequenceTracker) (seq current_time_ms : Z) : res (option Z) :=
  match entries self !! slot_of seq with
  | None => Panic
  | Some entry => Ret (if is_valid entry seq current_time_ms then Some (te_conn_id entry) else None)
  end.

Definition remove_entry (conn_id : Z) (e : SequenceTrackingEntry) : SequenceTrackingEntry :=
  if te_conn_id e =? conn_id then entry_default else e.

Definition remove_connection (self : SequenceTracker) (conn_id : Z) : SequenceTracker :=
  mkTracker (map (remove_entry conn_id) (entries self))
    (foldl (fun n e => if te_conn_id e =? conn_id then sat_sub n 1 else n) (count self) (entries self)).

(** ** Histories *)
Inductive tracker_op :=
  | TInsert (seq conn_id timestamp_ms : Z)
  | TRemove (conn_id : Z).

Definition tracker_step (self : SequenceTracker) (op : tracker_op) : res SequenceTracker :=
  match op with
  | TInsert s c t => tracker_insert self s c t
  | TRemove c => Ret (remove_connection self c)
  end.

Fixpoint tracker_run (self : SequenceTracker) (ops : list tracker_op) : res SequenceTracker :=
  match ops with
  | [] => Ret self
  | op :: ops => self' ← tracker_step self op; tracker_run self' ops
  end.

(** Whether an operation leaves the entry of [seq] by [conn_id] in place. *)
Definition keeps (seq conn_id : Z) (op : tracker_op) : bool :=
  match op with
  | TInsert s _ _ => negb (Nat.eqb (slot_of s) (slot_of seq))
  | TRemove c => negb (c =? conn_id)
  end.

Lemma slot_of_bound s : (slot_of s < SEQ_TRACKING_SIZE)%nat.
Proof.
  unfold slot_of, SEQ_TRACKING_MASK, SEQ_TRACKING_SIZE. rewrite Z2Nat.id by lia.
  change (16384 - 1) with (Z.ones 14).
  rewrite Z.land_ones by lia. pose proof (Z.mod_pos_bound s (2 ^ 14) ltac:(lia)).
  change (2 ^ 14) with 16384 in *. lia.
Qed.

Definition tracker_ok (self : SequenceTracker) : Prop := length (entries self) = SEQ_TRACKING_SIZE.

Lemma tracker_step_slot self op i :
  tracker_ok self -> (i < SEQ_TRACKING_SIZE)%nat ->
  exists self' e, tracker_step self op = Ret self' /\ tracker_ok self' /\ entries self !! i = Some e /\
    entries self' !! i = Some (match op with
      | TInsert s c t => if Nat.eqb (slot_of s) i then mkEntry c t s else e
      | TRemove c => remove_entry c e
      end).
Proof.
  intros Hok Hi. unfold tracker_ok in *.
  destruct (lookup_lt_is_Some_2 (entries self) i ltac:(lia)) as [e He].
  destruct op as [s c t|c]; cbn [tracker_step].
  - unfold tracker_insert. destruct (lookup_lt_is_Some_2 (entries self) (slot_of s)) as [e' He'];
      [rewrite Hok; apply slot_of_bound|]. rewrite He'.
    eexists _, e. split; [reflexivity|]. destruct (te_conn_id e' =? 0); cbn; rewrite length_insert;
      (split; [done|]; split; [done|]; destruct (Nat.eqb_spec (slot_of s) i) as [<-|Hn];
       [by apply list_lookup_insert_eq; rewrite Hok; apply slot_of_bound|by rewrite list_lookup_insert_ne]).
  - eexists _, e. split; [reflexivity|]. cbn. rewrite length_map, list_lookup_fmap, He. done.
Qed.

(** A removed connection owns nothing, and removing another gives it nothing. *)
Lemma removed_not_found t id s now : tracker_get (remove_connection t id) s now <> Ret (Some id).
Proof.
  unfold tracker_get, remove_connection, remove_entry. cbn. rewrite list_lookup_fmap.
  destruct (entries t !! slot_of s) as [e|]; [|done]. cbn. destruct (Z.eqb_spec (te_conn_id e) id); [done|].
  destruct (is_valid e s now); congruence.
Qed.

Lemma removed_stays t id id' s now :
  tracker_get t s now <> Ret (Some id) -> tracker_get (remove_connection t id') s now <> Ret (Some id).
Proof.
  unfold tracker_get, remove_connection, remove_entry. cbn. rewrite list_lookup_fmap.
  destruct (entries t !! slot_of s) as [e|]; [|done]. cbn. by destruct (te_conn_id e =? id').
Qed.

(** What a slot holds after a history: empty, or the last insertion into it. *)
Definition slot_inv (i : nat) (hist : list tracker_op) (e : SequenceTrackingEntry) : Prop :=
  te_conn_id e <> 0 -> exists pre post, hist = pre ++ TInsert (te_seq e) (te_conn_id e) (te_timestamp_ms e) :: post /\
    slot_of (te_seq e) = i /\ forallb (keeps (te_seq e) (te_conn_id e)) post = true.

(** Conversely an insertion that was kept is what the slot holds. *)
Definition slot_kept (i : nat) (hist : list tracker_op) (e : SequenceTrackingEntry) : Prop :=
  forall pre s c t post, hist = pre ++ TInsert s c t :: post -> slot_of s = i -> c <> 0 ->
    forallb (keeps s c) post = true -> e = mkEntry c t s.

Lemma keeps_snoc s c post op :
  forallb (keeps s c) (post ++ [op]) = forallb (keeps s c) post && keeps s c op.
Proof. rewrite forallb_app. cbn. by rewrite andb_true_r. Qed.

Lemma slot_inv_step i hist e op :
  slot_inv i hist e ->
  slot_inv i (hist ++ [op]) (match op with
      | TInsert s c t => if Nat.eqb (slot_of s) i then mkEntry c t s else e
      | TRemove c => remove_entry c e
      end).
Proof.
  intros Hinv. unfold slot_inv in *. destruct op as [s c t|c].
  - destruct (Nat.eqb_spec (slot_of s) i) as [Hs|Hn]; [intros _; by exists hist, []|].
    intros Hc. destruct (Hinv Hc) as (pre & post & -> & Hi & Hk). exists pre, (post ++ [TInsert s c t]).
    split; [by rewrite <- app_assoc|]. split; [done|]. rewrite keeps_snoc, Hk. cbn.
    apply negb_true_iff, Nat.eqb_neq. congruence.
  - unfold remove_entry. destruct (Z.eqb_spec (te_conn_id e) c) as [Hc|Hn]; [done|].
    intros H0. destruct (Hinv H0) as (pre & post & -> & Hi & Hk). exists pre, (post ++ [TRemove c]).
    split; [by rewrite <- app_assoc|]. split; [done|]. rewrite keeps_snoc, Hk. cbn.
    apply negb_true_iff, Z.eqb_neq. congruence.
Qed.

Lemma snoc_split {A : Type} (hist pre post : list A) (x y : A) :
  hist ++ [x] = pre ++ y :: post ->
  (hist = pre /\ y = x /\ post = []) \/ exists post', post = post' ++ [x] /\ hist = pre ++ y :: post'.
Proof.
  destruct post as [|z post _] using rev_ind.
  - intros [-> [= ->]]%app_inj_tail. by left.
  - rewrite app_comm_cons, app_assoc. intros [-> <-]%app_inj_tail. right. eauto.
Qed.

Lemma slot_kept_step i hist e op :
  slot_kept i hist e ->
  slot_kept i (hist ++ [op]) (match op with
      | TInsert s c t => if Nat.eqb (slot_of s) i then mkEntry c t s else e
      | TRemove c => remove_entry c e
      end).
Proof.
  intros Hk pre s c t post H Hi Hc Hpost. apply snoc_split in H as [(-> & <- & ->)|(post' & -> & ->)].
  - by rewrite Hi, Nat.eqb_refl.
  - rewrite keeps_snoc in Hpost. apply andb_true_iff in Hpost as [Hp Hop].
    specialize (Hk _ _ _ _ _ eq_refl Hi Hc Hp) as ->. destruct op as [s' c' t'|c']; cbn in Hop.
    + rewrite Hi in Hop. apply negb_true_iff in Hop. by rewrite Hop.
    + unfold remove_entry. cbn. apply negb_true_iff in Hop. by rewrite Z.eqb_sym, Hop.
Qed.

(** Every history runs, and each slot tells the truth about it. *)
Lemma tracker_run_slot ops : forall self hist i e,
  tracker_ok self -> (i < SEQ_TRACKING_SIZE)%nat -> entries self !! i = Some e ->
  slot_inv i hist e -> slot_kept i hist e ->
  exists self' e', tracker_run self ops = Ret self' /\ entries self' !! i = Some e' /\
    slot_inv i (hist ++ ops) e' /\ slot_kept i (hist ++ ops) e'.
Proof.
  induction ops as [|op ops IH]; intros self hist i e Hok Hi He Hinv Hkept.
  - exists self, e. by rewrite app_nil_r.
  - destruct (tracker_step_slot self op i Hok Hi) as (self1 & e0 & Hs & Hok1 & He0 & He1).
    assert (e0 = e) as -> by congruence.
    destruct (IH self1 (hist ++ [op]) i _ Hok1 Hi He1 (slot_inv_step _ _ _ _ Hinv) (slot_kept_step _ _ _ _ Hkept))
      as (self' & e' & H1 & H2 & H3 & H4).
    exists self', e'. cbn [tracker_run]. rewrite Hs. cbn. rewrite <- app_assoc in H3, H4. eauto.
Qed.

(** C19: the ring is a faithful, bounded-age map: after any history of
    insertions and removals, run without a panic, a lookup of [seq] returns a
    link exactly when that link's insertion of [seq] is at most five seconds
    old and was neither overwritten by a later insertion into its slot nor
    removed with its link. *)
Theorem tracker_refines_history (ops : list tracker_op) (seq now conn_id : Z) :
  exists self r, tracker_run tracker_new ops = Ret self /\ tracker_get self seq now = Ret r /\
    (r = Some conn_id <-> conn_id <> 0 /\ exists pre t post, ops = pre ++ TInsert seq conn_id t :: post /\
       sat_sub now t <= SEQUENCE_TRACKING_MAX_AGE_MS /\ forallb (keeps seq conn_id) post = true).
Proof.
  destruct (tracker_run_slot ops tracker_new [] (slot_of seq) entry_default) as (self & e & Hr & He & Hinv & Hk).
  - apply length_replicate.
  - apply slot_of_bound.
  - apply lookup_replicate_2, slot_of_bound.
  - by intros H; destruct H.
  - by intros pre s c t post H%app_cons_not_nil.
  - cbn [app] in *. exists self. eexists. split; [done|]. unfold tracker_get. rewrite He. split; [reflexivity|].
    unfold is_valid, is_expired. split.
    + destruct (_ && _) eqn:E; [|done]. intros [= <-]. bool_to_prop. destruct E as [[H0 H1] H2]. bool_to_prop. subst seq.
      split; [done|]. destruct (Hinv H0) as (pre & post & -> & _ & Hp). exists pre, (te_timestamp_ms e), post. eauto.
    + intros (Hc & pre & t & post & -> & Ht & Hp). rewrite (Hk _ _ _ _ _ eq_refl eq_refl Hc Hp). cbn.
      rewrite (proj2 (Z.eqb_neq _ _) Hc), Z.eqb_refl. cbn [negb andb].
      destruct (Z.gtb_spec (sat_sub now t) SEQUENCE_TRACKING_MAX_AGE_MS); [lia|done].
Qed.
