(* ===== verification/Dedup.v ===== *)
(** * Client deduplication (src/sender/client_dedup.rs)

    Two rings of recently forwarded control packets, keyed by a hash of their
    bytes, decide which copies of an ACK or NAK reach the SRT client.  The ring
    refines an abstract history of forwards of which only the last [N] count.
    The hash of the standard library is a parameter. *)
From S2P Require Import Prelude Wire.

Definition ACK_DEDUP_WINDOW_MS : Z := 1000.
Definition ACK_RING_SIZE : nat := 512.
Definition NAK_DEDUP_WINDOW_MS : Z := 50.
Definition NAK_RING_SIZE : nat := 64.

Record Forwarded := mkForwarded { fw_hash : Z; fw_at_ms : Z }.

(** [Ring<N>]: [N] is the length of [ring_entries]. *)
Record Ring := mkRing {
  ring_entries : list (option Forwarded);
  ring_next : nat;
  ring_window_ms : Z }.

Definition ring_new (n : nat) (window_ms : Z) : Ring := mkRing (replicate n None) 0 window_ms.

(** [entries[next] = Some(e); next = (next + 1) % N]. *)
Definition ring_push (self : Ring) (e : Forwarded) : Ring :=
  mkRing (<[ring_next self := Some e]> (ring_entries self))
    ((ring_next self + 1) mod length (ring_entries self)) (ring_window_ms self).

Record ClientDedup := mkDedup { acks : Ring; naks : Ring }.
Global Instance eta_dedup : Eta ClientDedup := fun r => mkDedup (acks r) (naks r).
Definition dedup_new : ClientDedup :=
  mkDedup (ring_new ACK_RING_SIZE ACK_DEDUP_WINDOW_MS) (ring_new NAK_RING_SIZE NAK_DEDUP_WINDOW_MS).

(** A forward that still suppresses a packet of hash [h]. *)
Definition suppresses (window_ms h now_ms : Z) (e : Forwarded) : bool :=
  (fw_hash e =? h) && (sat_sub now_ms (fw_at_ms e) <? window_ms).

Section Hash.
(** [DefaultHasher] over the bytes of a packet. *)
Context (hash : bytes -> Z).

Definition should_forward (self : Ring) (packet : bytes) (now_ms : Z) : res (Ring * bool) :=
  let h := hash packet in
  let seen_recently :=
    existsb (fun e => match e with Some e => suppresses (ring_window_ms self) h now_ms e | None => false end)
      (ring_entries self) in
  if seen_recently then Ret (self, false)
  else
    match ring_entries self !! ring_next self with
    | None => Panic
    | Some _ =>
      Ret (ring_push self (mkForwarded h now_ms), true)
    end.

Definition should_forward_ack (self : ClientDedup) (packet : bytes) (now_ms : Z) : res (ClientDedup * bool) :=
  '(r, b) ← should_forward (acks self) packet now_ms; Ret (self <| acks := r |>, b).

Definition should_forward_nak (self : ClientDedup) (packet : bytes) (now_ms : Z) : res (ClientDedup * bool) :=
  '(r, b) ← should_forward (naks self) packet now_ms; Ret (self <| naks := r |>, b).

(** ** The abstract history *)

(** The specification: forward unless one of the last [n] forwards suppresses. *)
Definition spec_forward (n : nat) (window_ms : Z) (hist : list Forwarded) (packet : bytes) (now_ms : Z)
  : list Forwarded * bool :=
  if existsb (suppresses window_ms (hash packet) now_ms) (drop (length hist - n) hist) then (hist, false)
  else (hist ++ [mkForwarded (hash packet) now_ms], true).

(** Runs of the two, the verdicts collected. *)
Fixpoint ring_run (self : Ring) (ps : list (bytes * Z)) : res (Ring * list bool) :=
  match ps with
  | [] => Ret (self, [])
  | (p, now) :: ps =>
    '(self', b) ← should_forward self p now;
    '(final, bs) ← ring_run self' ps;
    Ret (final, b :: bs)
  end.

Fixpoint spec_run (n : nat) (window_ms : Z) (hist : list Forwarded) (ps : list (bytes * Z))
  : list Forwarded * list bool :=
  match ps with
  | [] => (hist, [])
  | (p, now) :: ps =>
    let '(hist, b) := spec_forward n window_ms hist p now in
    let '(final, bs) := spec_run n window_ms hist ps in (final, b :: bs)
  end.

(** The ring holds forward number [j] at slot [j mod n] while it is among the
    last [n]; slots not yet used are empty. *)
Definition ring_rep (n : nat) (w : Z) (self : Ring) (hist : list Forwarded) : Prop :=
  (0 < n)%nat /\ length (ring_entries self) = n /\ ring_window_ms self = w /\
  ring_next self = (length hist mod n)%nat /\
  (forall j e, hist !! j = Some e -> (length hist - n <= j)%nat -> ring_entries self !! (j mod n)%nat = Some (Some e)) /\
  (forall i, (length hist <= i < n)%nat -> ring_entries self !! i = Some None).

(** The slots a full ring scan sees are the last [n] forwards. *)
Lemma rep_entries n w self hist e :
  ring_rep n w self hist -> In (Some e) (ring_entries self) <-> In e (drop (length hist - n) hist).
Proof.
  intros (Hn & Hlen & _ & _ & Hin & Hout). rewrite <- !list_elem_of_In, !list_elem_of_lookup. split.
  - intros [i Hi]. pose proof (lookup_lt_Some _ _ _ Hi) as Hlt. rewrite Hlen in Hlt.
    set (L := length hist) in *.
    (* the last forward number congruent to [i] *)
    assert (i < L)%nat as HiL. { destruct (Nat.lt_ge_cases i L); [done|]. rewrite Hout in Hi by lia. done. }
    set (k := ((L - 1 - i) / n)%nat).
    assert (i + n * k < L /\ L - n <= i + n * k)%nat as [H1 H2].
    { unfold k. pose proof (Nat.div_mod_eq (L - 1 - i) n). pose proof (Nat.mod_upper_bound (L - 1 - i) n). lia. }
    destruct (lookup_lt_is_Some_2 hist (i + n * k) H1) as [e' He'].
    specialize (Hin _ _ He' H2). rewrite Nat.mul_comm, Nat.Div0.mod_add, Nat.mod_small in Hin by lia.
    assert (e' = e) as -> by congruence. exists (i + n * k - (L - n))%nat. rewrite lookup_drop.
    replace (L - n + (i + n * k - (L - n)))%nat with (i + n * k)%nat by lia. done.
  - intros [i Hi]. rewrite lookup_drop in Hi. exists ((length hist - n + i) mod n)%nat. apply Hin; [done|lia].
Qed.

Lemma rep_seen n w self hist h now :
  ring_rep n w self hist ->
  existsb (fun e => match e with Some e => suppresses (ring_window_ms self) h now e | None => false end)
    (ring_entries self) = existsb (suppresses w h now) (drop (length hist - n) hist).
Proof.
  intros Hrep. pose proof Hrep as (_ & _ & -> & _). apply eq_iff_eq_true. rewrite !existsb_exists. split.
  - intros [[e|] [Hi He]]; [|done]. exists e. by rewrite <- (rep_entries _ _ _ _ _ Hrep).
  - intros [e [Hi He]]. exists (Some e). by rewrite (rep_entries _ _ _ _ _ Hrep).
Qed.

Lemma rep_push n w self hist e :
  ring_rep n w self hist ->
  ring_rep n w (ring_push self e) (hist ++ [e]).
Proof.
  intros (Hn & Hlen & Hw & Hnext & Hin & Hout). split; [done|]. cbn. rewrite length_insert, length_app, Hlen, Hnext. cbn.
  split; [done|]. split; [done|]. split; [by rewrite Nat.Div0.add_mod_idemp_l|]. split.
  - intros j e' Hj HjL. apply lookup_app_Some in Hj as [Hj|[Hj Hj']].
    + pose proof (lookup_lt_Some _ _ _ Hj) as Hlt.
      rewrite list_lookup_insert_ne; [apply Hin; [done|lia]|].
      (* [j] and [length hist] differ by less than [n] *)
      intros Heq.
      pose proof (Nat.div_mod_eq (length hist) n) as D1. pose proof (Nat.div_mod_eq j n) as D2.
      rewrite Heq in D1. assert (length hist / n = j / n \/ length hist / n >= S (j / n))%nat as [Hq|Hq].
      { pose proof (Nat.Div0.div_le_mono j (length hist) n ltac:(lia)). lia. }
      * rewrite Hq in D1. lia.
      * assert (n * S (j / n) <= n * (length hist / n))%nat by (apply Nat.mul_le_mono_l; lia). lia.
    + destruct (j - length hist)%nat eqn:E; [|done]. injection Hj' as ->.
      assert (j = length hist) as -> by lia.
      apply list_lookup_insert_eq. rewrite Hlen. apply Nat.mod_upper_bound. lia.
  - intros i Hi. rewrite Nat.mod_small by lia. rewrite list_lookup_insert_ne by lia. apply Hout. lia.
Qed.

Lemma ring_rep_new n w : (0 < n)%nat -> ring_rep n w (ring_new n w) [].
Proof.
  intros Hn. split; [done|]. cbn. rewrite length_replicate, Nat.Div0.mod_0_l.
  do 3 (split; [done|]). split; [by intros j e|]. intros i Hi. apply lookup_replicate_2. lia.
Qed.

(** One step of the ring refines one step of the specification. *)
Lemma should_forward_refines n w self hist p now :
  ring_rep n w self hist ->
  exists self', should_forward self p now = Ret (self', (spec_forward n w hist p now).2) /\
    ring_rep n w self' (spec_forward n w hist p now).1.
Proof.
  intros Hrep. unfold should_forward, spec_forward. rewrite (rep_seen _ _ _ _ _ _ Hrep).
  destruct (existsb (suppresses w (hash p) now) _); [by exists self|].
  pose proof Hrep as (Hn & Hlen & _ & Hnext & _).
  destruct (lookup_lt_is_Some_2 (ring_entries self) (ring_next self)) as [x Hx].
  { rewrite Hlen, Hnext. apply Nat.mod_upper_bound. lia. }
  rewrite Hx. eexists. split; [reflexivity|]. by apply rep_push.
Qed.

Lemma ring_run_refines n w ps : forall self hist,
  ring_rep n w self hist ->
  exists self', ring_run self ps = Ret (self', (spec_run n w hist ps).2) /\
    ring_rep n w self' (spec_run n w hist ps).1.
Proof.
  induction ps as [|[p now] ps IH]; intros self hist Hrep; cbn [ring_run spec_run]; [by exists self|].
  destruct (should_forward_refines n w self hist p now Hrep) as (self1 & H1 & Hrep1).
  rewrite H1. destruct (spec_forward n w hist p now) as [hist1 b]. cbn [fst snd] in *.
  destruct (IH self1 hist1 Hrep1) as (self' & H2 & Hrep'). exists self'. cbn. rewrite H2.
  by destruct (spec_run n w hist1 ps).
Qed.

(** C33: a ring of [n > 0] slots refines the history of forwards: on any
    sequence of packets, whatever the hash, it never panics and gives exactly
    the verdicts of the specification that suppresses a packet iff one of the
    last [n] forwards has its hash and is younger than the window. *)
Theorem ring_refines_history (n : nat) (window_ms : Z) (ps : list (bytes * Z)) :
  (0 < n)%nat ->
  exists self', ring_run (ring_new n window_ms) ps = Ret (self', (spec_run n window_ms [] ps).2).
Proof.
  intros Hn. destruct (ring_run_refines n window_ms ps _ [] (ring_rep_new n window_ms Hn)) as (self' & H & _).
  by exists self'.
Qed.

(** ** Copies *)

(** The first copy of a packet goes through and its copies do not: after a
    packet was forwarded, a byte-identical one that arrives inside the window,
    with fewer than [n] other forwards in between, is suppressed; and a packet
    is only ever suppressed by a forward of the same hash inside the window. *)
Theorem copies_suppressed (n : nat) (window_ms : Z) (self : Ring) (pre post : list Forwarded) (packet : bytes)
    (t now : Z) :
  ring_rep n window_ms self (pre ++ mkForwarded (hash packet) t :: post) -> (length post < n)%nat ->
  (sat_sub now t < window_ms -> should_forward self packet now = Ret (self, false)) /\
  (forall p, should_forward self p now = Ret (self, false) ->
     exists e, In e (pre ++ mkForwarded (hash packet) t :: post) /\ fw_hash e = hash p /\
       sat_sub now (fw_at_ms e) < window_ms).
Proof.
  intros Hrep Hpost. split.
  - intros Hw. unfold should_forward. rewrite (rep_seen _ _ _ _ _ _ Hrep).
    rewrite (proj2 (existsb_exists _ _)); [done|]. exists (mkForwarded (hash packet) t). split.
    + apply list_elem_of_In, list_elem_of_lookup.
      set (d := (length (pre ++ mkForwarded (hash packet) t :: post) - n)%nat).
      assert (d <= length pre)%nat by (unfold d; rewrite length_app; cbn; lia).
      exists (length pre - d)%nat. rewrite lookup_drop. replace (d + (length pre - d))%nat with (length pre) by lia.
      by rewrite lookup_app_r, Nat.sub_diag.
    + unfold suppresses. cbn. rewrite Z.eqb_refl. cbn. by apply Z.ltb_lt.
  - intros p. unfold should_forward. rewrite (rep_seen _ _ _ _ _ _ Hrep).
    destruct (existsb _ _) eqn:E; [|destruct (_ !! _); [intros [= _]|]; done].
    intros _. apply existsb_exists in E as (e & Hin & He). exists e. split.
    + rewrite <- (take_drop (length (pre ++ mkForwarded (hash packet) t :: post) - n)). apply in_or_app. by right.
    + unfold suppresses in He. apply andb_true_iff in He as [H1 H2]. bool_to_prop. done.
Qed.
End Hash.

(** A ring of three slots that has just forwarded a packet. *)
Definition demo_hash : bytes -> Z := fun p => fold_left Z.add p 0.

Lemma ring_refines_history_witness :
  exists self', ring_run demo_hash (ring_new 3 50) [([1; 2], 100); ([1; 2], 120); ([1; 2], 150)] =
    Ret (self', [true; false; true]).
Proof.
  exact (ring_refines_history demo_hash 3 50 [([1; 2], 100); ([1; 2], 120); ([1; 2], 150)] ltac:(lia)).
Defined.

Lemma copies_suppressed_witness :
  should_forward demo_hash (ring_push (ring_new 3 50) (mkForwarded (demo_hash [1; 2]) 100)) [1; 2] 120 =
    Ret (ring_push (ring_new 3 50) (mkForwarded (demo_hash [1; 2]) 100), false).
Proof.
  apply (copies_suppressed demo_hash 3 50 _ [] [] [1; 2] 100 120);
    [apply (rep_push 3 50 _ []), ring_rep_new; lia|cbn; lia|vm_compute; reflexivity].
Defined.
