(* ===== verification/Uplink.v ===== *)
(** * The receive path (src/sender/uplink_recv.rs, packet_handler.rs, connection/incoming.rs)

    One datagram from a receiver: registration frames go to the manager, the
    rest refreshes liveness and is turned into effects (ACK, NAK and SRTLA-ACK
    numbers, bytes for the SRT client) that are then applied to every link of
    the bond.  Sockets are outcomes: [try_send] is what the non-blocking send to
    the client returned, and what is sent is part of the result.  The clock is
    an argument. *)
From S2P Require Import Prelude F64 Wire Seq Filters Rtt Batch Pacing Congestion Config Connection Registration Tracker Dedup.

(** ** connection/incoming.rs *)
Record SrtlaIncoming := mkIncoming {
  forward_to_client : list bytes;
  ack_numbers : list Z;
  nak_numbers : list Z;
  srtla_ack_numbers : list Z;
  read_any : bool;
  reg1_send : option bytes;
  negotiated_latency_ms : option Z }.

Global Instance eta_incoming : Eta SrtlaIncoming := fun r =>
  mkIncoming (forward_to_client r) (ack_numbers r) (nak_numbers r) (srtla_ack_numbers r) (read_any r)
    (reg1_send r) (negotiated_latency_ms r).

Definition incoming_default : SrtlaIncoming := mkIncoming [] [] [] [] false None None.

(** ** uplink_recv.rs *)

(** The outcome of [try_send_to]. *)
Inductive TrySend := TSOk | TSWouldBlock | TSErr.

(** An ACK handed to the client: on the socket, or over the instant channel. *)
Inductive AckRelay := RelayDirect (addr : Z) (data : bytes) | RelayInstant (addr : Z) (data : bytes).

Record uplink_state := mkUplink {
  us_conn : SrtlaConnection; us_reg : SrtlaRegistrationManager; us_dedup : ClientDedup }.

(** The effects of a registration event. *)
Definition registration_event (conn : SrtlaConnection) (conn_idx : nat) (reg : SrtlaRegistrationManager)
    (ev : RegistrationEvent) (now : Z) (incoming : SrtlaIncoming)
  : SrtlaConnection * SrtlaRegistrationManager * SrtlaIncoming :=
  match ev with
  | RegNgp =>
    let '(reg, pkt) := reg1_if_ngp_immediate reg conn_idx now in
    (conn, reg, match pkt with Some p => incoming <| reg1_send := Some p |> | None => incoming end)
  | Reg3 => (registered_now conn now, reg, incoming)
  | RegErr => (registration_refused conn, reg, incoming)
  | Reg2 => (conn, reg, incoming)
  end.

Section Receive.
Context (hash : bytes -> Z).

(** The dispatch on the packet type after registration. *)
Definition dispatch (st : uplink_state) (client_addr : option Z) (data : bytes) (pt now : Z)
    (try_send : TrySend) (incoming : SrtlaIncoming) : res (uplink_state * SrtlaIncoming * list AckRelay) :=
  let '(mkUplink conn reg dedup) := st in
  if pt =? SRT_TYPE_ACK then
    ack ← parse_srt_ack data;
    let incoming := match ack with
                    | Some a => incoming <| ack_numbers ::= fun l => l ++ [a] |> | None => incoming end in
    match client_addr with
    | Some addr =>
      '(dedup, fwd) ← should_forward_ack hash dedup data now;
      let relay := if (fwd : bool) then match try_send with
                                        | TSOk => [RelayDirect addr data]
                                        | TSWouldBlock => [RelayInstant addr data]
                                        | TSErr => []
                                        end else [] in
      Ret (mkUplink conn reg dedup, incoming, relay)
    | None => Ret (mkUplink conn reg dedup, incoming, [])
    end
  else if pt =? SRT_TYPE_NAK then
    nak_list ← parse_srt_nak data;
    let incoming := incoming <| nak_numbers ::= fun l => l ++ nak_list |> in
    match client_addr with
    | Some _ =>
      '(dedup, fwd) ← should_forward_nak hash dedup data now;
      Ret (mkUplink conn reg dedup,
           if (fwd : bool) then incoming <| forward_to_client ::= fun l => l ++ [data] |> else incoming, [])
    | None => Ret (mkUplink conn reg dedup, incoming, [])
    end
  else if pt =? SRTLA_TYPE_ACK then
    ack_list ← parse_srtla_ack data;
    Ret (mkUplink conn reg dedup, incoming <| srtla_ack_numbers ::= fun l => l ++ ack_list |>, [])
  else if pt =? SRT_TYPE_HANDSHAKE then
    hs ← parse_srt_handshake_latency data;
    let incoming := match hs with
                    | Some h => if is_response h then
                                  match rcv_ms h with
                                  | Some rcv => incoming <| negotiated_latency_ms := Some rcv |>
                                  | None => incoming
                                  end
                                else incoming
                    | None => incoming
                    end in
    Ret (mkUplink conn reg dedup, incoming <| forward_to_client ::= fun l => l ++ [data] |>, [])
  else if pt =? SRTLA_TYPE_KEEPALIVE then
    conn ← handle_keepalive_echo conn data now;
    Ret (mkUplink conn reg dedup, incoming, [])
  else Ret (mkUplink conn reg dedup, incoming <| forward_to_client ::= fun l => l ++ [data] |>, []).

Definition process_uplink_packet (st : uplink_state) (conn_idx : nat) (client_addr : option Z)
    (data : bytes) (now : Z) (try_send : TrySend) : res (uplink_state * SrtlaIncoming * list AckRelay) :=
  let incoming := incoming_default <| read_any := true |> in
  pt ← get_packet_type data;
  match pt with
  | None => Ret (st, incoming, [])
  | Some pt =>
    '(reg, ev) ← process_registration_packet (us_reg st) conn_idx data now;
    match ev with
    | Some ev =>
      let '(conn, reg, incoming) := registration_event (us_conn st) conn_idx reg ev now incoming in
      Ret (mkUplink conn reg (us_dedup st), incoming, [])
    | None =>
      dispatch (mkUplink (refresh_liveness (us_conn st) now) reg (us_dedup st)) client_addr data pt now
        try_send incoming
    end
  end.
End Receive.

(** ** packet_handler.rs: applying the effects *)

(** [iter().position(p)]. *)
Fixpoint position {A : Type} (p : A -> bool) (l : list A) : option nat :=
  match l with
  | [] => None
  | x :: l => if p x then Some 0%nat else S <$> position p l
  end.

(** The fallback scan: the first link that recognises the sequence. *)
Fixpoint nak_scan (seq now : Z) (conns : list SrtlaConnection) : list SrtlaConnection * option nat :=
  match conns with
  | [] => ([], None)
  | c :: conns =>
    let '(c, hit) := handle_nak c seq now in
    if hit then (c :: conns, Some 0%nat)
    else let '(conns, r) := nak_scan seq now conns in (c :: conns, S <$> r)
  end.

Definition attribute_nak (connections : list SrtlaConnection) (seq_tracker : SequenceTracker)
    (nak current_time_ms : Z) : res (list SrtlaConnection * option nat) :=
  owner ← tracker_get seq_tracker nak current_time_ms;
  match owner ≫= fun id => position (fun c => conn_id c =? id) connections with
  | Some pos =>
    match connections !! pos with
    | None => Panic
    | Some c =>
      let '(c, hit) := handle_nak c (i32_wrap nak) current_time_ms in
      Ret (<[pos := c]> connections, if hit then Some pos else None)
    end
  | None => Ret (nak_scan (i32_wrap nak) current_time_ms connections)
  end.

(** Every link prunes on a cumulative ACK; only its owner may sample. *)
Definition apply_srt_ack (seq_tracker : SequenceTracker) (now : Z) (connections : list SrtlaConnection)
    (ack : Z) : res (list SrtlaConnection) :=
  let last_acked := srt_ack_last_acked ack in
  owner ← tracker_get seq_tracker (u32_wrap last_acked) now;
  Ret (map (fun c => handle_srt_ack c last_acked now (bool_decide (owner = Some (conn_id c)))) connections).

(** The scan of the other links, in order, until one recognises the sequence. *)
Fixpoint srtla_scan (idx i : nat) (seq : Z) (classic : bool) (now : Z) (conns : list SrtlaConnection)
  : list SrtlaConnection :=
  match conns with
  | [] => []
  | c :: conns =>
    if Nat.eqb i idx then c :: srtla_scan idx (S i) seq classic now conns
    else
      let '(c, hit) := handle_srtla_ack_specific c seq classic now in
      if hit then c :: conns else c :: srtla_scan idx (S i) seq classic now conns
  end.

Definition apply_srtla_ack (idx : nat) (classic : bool) (now : Z) (connections : list SrtlaConnection)
    (srtla_ack : Z) : res (list SrtlaConnection) :=
  match connections !! idx with
  | None => Panic
  | Some c =>
    let '(c, found) := handle_srtla_ack_specific c (i32_wrap srtla_ack) classic now in
    let connections := <[idx := c]> connections in
    let connections :=
      if found then connections
      else srtla_scan idx 0 (i32_wrap srtla_ack) classic now connections in
    Ret (map handle_srtla_ack_global connections)
  end.

(** [for x in xs { st = f(st, x) }] with panics. *)
Fixpoint fold_res {A B : Type} (f : B -> A -> res B) (b : B) (l : list A) : res B :=
  match l with
  | [] => Ret b
  | x :: l => b' ← f b x; fold_res f b' l
  end.

(** The result carries the datagrams sent to the client. *)
Definition process_connection_events (idx : nat) (connections : list SrtlaConnection)
    (last_client_addr : option Z) (seq_tracker : SequenceTracker) (classic : bool)
    (incoming : SrtlaIncoming) (now : Z) : res (list SrtlaConnection * list (Z * bytes)) :=
  if bool_decide (length connections <= idx)%nat then Ret (connections, [])
  else if negb (read_any incoming) && bool_decide (ack_numbers incoming = []) &&
          bool_decide (nak_numbers incoming = []) && bool_decide (srtla_ack_numbers incoming = []) &&
          bool_decide (forward_to_client incoming = []) then Ret (connections, [])
  else
    connections ← fold_res (apply_srt_ack seq_tracker now) connections (ack_numbers incoming);
    connections ← fold_res (apply_srtla_ack idx classic now) connections (srtla_ack_numbers incoming);
    connections ← fold_res (fun cs nak => '(cs, _) ← attribute_nak cs seq_tracker nak now; Ret cs)
                    connections (nak_numbers incoming);
    Ret (connections, match last_client_addr with
                      | Some client => map (fun pkt => (client, pkt)) (forward_to_client incoming)
                      | None => []
                      end).

(** ** The connection invariant on the receive path *)
Lemma registration_event_ok c idx reg ev now inc :
  conn_ok c -> conn_ok (registration_event c idx reg ev now inc).1.1.
Proof.
  intros H. destruct ev; cbn [registration_event].
  - by destruct (reg1_if_ngp_immediate reg idx now) as [reg' [p|]].
  - exact H.
  - by apply registered_now_ok.
  - by apply registration_refused_ok.
Qed.

(** Both rings hold some history. *)
Definition dedup_ok (d : ClientDedup) : Prop :=
  (exists h, ring_rep ACK_RING_SIZE ACK_DEDUP_WINDOW_MS (acks d) h) /\
  (exists h, ring_rep NAK_RING_SIZE NAK_DEDUP_WINDOW_MS (naks d) h).

Lemma dedup_new_ok : dedup_ok dedup_new.
Proof. split; exists []; apply ring_rep_new; unfold ACK_RING_SIZE, NAK_RING_SIZE; lia. Qed.

Lemma should_forward_ack_ok hash d p now :
  dedup_ok d -> exists d' b, should_forward_ack hash d p now = Ret (d', b) /\ dedup_ok d'.
Proof.
  intros [[h Hh] Hn]. unfold should_forward_ack.
  destruct (should_forward_refines hash _ _ _ _ p now Hh) as (r & -> & Hr). cbn.
  do 2 eexists. split; [reflexivity|]. split; [by eexists|exact Hn].
Qed.

Lemma should_forward_nak_ok hash d p now :
  dedup_ok d -> exists d' b, should_forward_nak hash d p now = Ret (d', b) /\ dedup_ok d'.
Proof.
  intros [Ha [h Hh]]. unfold should_forward_nak.
  destruct (should_forward_refines hash _ _ _ _ p now Hh) as (r & -> & Hr). cbn.
  do 2 eexists. split; [reflexivity|]. split; [exact Ha|by eexists].
Qed.

Definition uplink_ok (st : uplink_state) : Prop := conn_ok (us_conn st) /\ dedup_ok (us_dedup st).

Lemma dispatch_ok hash st addr data pt now ts inc :
  is_bytes data -> uplink_ok st ->
  exists st' inc' out, dispatch hash st addr data pt now ts inc = Ret (st', inc', out) /\ uplink_ok st' /\
    us_reg st' = us_reg st.
Proof.
  intros Hb [Hc Hd]. destruct st as [conn reg dedup]. cbn [us_conn us_reg us_dedup] in *.
  assert (uplink_ok (mkUplink conn reg dedup)) as Hst by done.
  unfold dispatch. destruct (pt =? SRT_TYPE_ACK).
  { destruct (parse_srt_ack_total data) as [o ->]. cbn [mbind res_bind].
    destruct addr; [|by do 3 eexists].
    destruct (should_forward_ack_ok hash dedup data now Hd) as (d' & b & -> & Hd'). cbn [mbind res_bind].
    do 3 eexists. split; [reflexivity|]. split; [done|reflexivity]. }
  destruct (pt =? SRT_TYPE_NAK).
  { rewrite parse_srt_nak_eq by done. cbn [mbind res_bind].
    destruct addr; [|by do 3 eexists].
    destruct (should_forward_nak_ok hash dedup data now Hd) as (d' & b & -> & Hd'). cbn [mbind res_bind].
    do 3 eexists. split; [reflexivity|]. split; [done|reflexivity]. }
  destruct (pt =? SRTLA_TYPE_ACK).
  { destruct (parse_srtla_ack_total data) as [ids ->]. by do 3 eexists. }
  destruct (pt =? SRT_TYPE_HANDSHAKE).
  { destruct (handshake_reader_total data) as [hs ->]. by do 3 eexists. }
  destruct (pt =? SRTLA_TYPE_KEEPALIVE); [|by do 3 eexists].
  destruct (handle_keepalive_echo_ok conn data now Hc) as (c' & -> & Hc'). by do 3 eexists.
Qed.

Lemma process_registration_total reg idx buf now :
  exists reg' ev, process_registration_packet reg idx buf now = Ret (reg', ev).
Proof.
  unfold process_registration_packet. rewrite get_packet_type_spec. cbn [mbind res_bind].
  destruct (packet_type_of buf); [|by do 2 eexists]. repeat destruct (_ =? _); try (by do 2 eexists).
  - destruct (handle_reg3 reg idx). by do 2 eexists.
  - destruct (handle_reg_err reg idx now). by do 2 eexists.
Qed.

Lemma process_uplink_packet_ok hash st idx addr data now ts :
  is_bytes data -> uplink_ok st ->
  exists st' inc out, process_uplink_packet hash st idx addr data now ts = Ret (st', inc, out) /\ uplink_ok st'.
Proof.
  intros Hb Hst. pose proof Hst as [Hc Hd]. unfold process_uplink_packet.
  rewrite get_packet_type_spec. cbn [mbind res_bind].
  destruct (packet_type_of data) as [pt|]; [|by do 3 eexists].
  destruct (process_registration_total (us_reg st) idx data now) as (reg' & ev & ->). cbn [mbind res_bind].
  destruct ev as [ev|].
  - pose proof (registration_event_ok (us_conn st) idx reg' ev now (incoming_default <| read_any := true |>) Hc) as Hev.
    destruct (registration_event _ _ _ _ _ _) as [[c' r'] inc']. by do 3 eexists.
  - destruct (dispatch_ok hash (mkUplink (refresh_liveness (us_conn st) now) reg' (us_dedup st)) addr data pt now ts
      (incoming_default <| read_any := true |>) Hb) as (st' & inc & out & H1 & H2 & _);
      [split; [by apply refresh_liveness_ok|done]|]. by exists st', inc, out.
Qed.

(** ** A link in recovery is not revived *)

(** Only an accepted REG3 brings a link back. *)
Lemma dispatch_liveness hash st addr data pt now ts inc st' inc' out :
  dispatch hash st addr data pt now ts inc = Ret (st', inc', out) ->
  last_received (us_conn st') = last_received (us_conn st) /\ connected (us_conn st') = connected (us_conn st).
Proof.
  destruct st as [conn reg dedup]. unfold dispatch.
  destruct (pt =? SRT_TYPE_ACK).
  { destruct (parse_srt_ack data) as [o|]; cbn [mbind res_bind]; [|done]. destruct addr; [|by intros [= <- <- <-]].
    destruct (should_forward_ack hash dedup data now) as [[d b]|]; cbn [mbind res_bind]; [|done]. by intros [= <- <- <-]. }
  destruct (pt =? SRT_TYPE_NAK).
  { destruct (parse_srt_nak data); cbn [mbind res_bind]; [|done]. destruct addr; [|by intros [= <- <- <-]].
    destruct (should_forward_nak hash dedup data now) as [[d b]|]; cbn [mbind res_bind]; [|done]. by intros [= <- <- <-]. }
  destruct (pt =? SRTLA_TYPE_ACK).
  { destruct (parse_srtla_ack data); cbn [mbind res_bind]; [|done]. by intros [= <- <- <-]. }
  destruct (pt =? SRT_TYPE_HANDSHAKE).
  { destruct (parse_srt_handshake_latency data); cbn [mbind res_bind]; [|done]. by intros [= <- <- <-]. }
  destruct (pt =? SRTLA_TYPE_KEEPALIVE); [|by intros [= <- <- <-]].
  unfold handle_keepalive_echo.
  destruct (handle_keepalive_response (rtt conn) data now) as [[r s]|]; cbn [mbind res_bind]; [|done].
  destruct (keepalive_echo_rtt_ms data now) as [e|]; cbn [mbind res_bind]; [|done]. intros [= <- <- <-]. cbn [us_conn].
  assert (forall c, last_received (record_rtt_probe c) = last_received c /\ connected (record_rtt_probe c) = connected c) as Hp
    by (intros c; unfold record_rtt_probe; by destruct (phase c)).
  destruct s, e; cbn; by rewrite ?(proj1 (Hp _)), ?(proj2 (Hp _)).
Qed.

(** A link that was established and lost is not kept alive by stray
    traffic: whatever datagram arrives on it, it stays disconnected and its
    last-received stamp is not refreshed, unless the datagram is a REG3 that its
    one-shot grant admits; then it is registered and stamped now. *)
Theorem recovering_link_not_revived (hash : bytes -> Z) (st st' : uplink_state) (idx : nat) (addr : option Z)
    (data : bytes) (now : Z) (ts : TrySend) (inc : SrtlaIncoming) (out : list AckRelay) :
  connected (us_conn st) = false -> connection_established_ms (reconnection (us_conn st)) <> 0 ->
  process_uplink_packet hash st idx addr data now ts = Ret (st', inc, out) ->
  (connected (us_conn st') = false /\
   (last_received (us_conn st') = last_received (us_conn st) \/ last_received (us_conn st') = None)) \/
  (packet_type_of data = Some SRTLA_TYPE_REG3 /\ grant (us_reg st) idx = 1%nat /\ grant (us_reg st') idx = 0%nat /\
   us_conn st' = registered_now (us_conn st) now /\ last_received (us_conn st') = Some now).
Proof.
  intros Hc He. unfold process_uplink_packet. rewrite get_packet_type_spec. cbn [mbind res_bind].
  destruct (packet_type_of data) as [pt|] eqn:Ept; [|intros [= <- <- <-]; left; split; [done|by left]].
  destruct (process_registration_packet (us_reg st) idx data now) as [[reg' ev]|] eqn:Er; cbn [mbind res_bind]; [|done].
  destruct ev as [ev|].
  2:{ intros H%dispatch_liveness. cbn [us_conn] in H. destruct H as [-> ->]. left.
      unfold refresh_liveness. rewrite Hc, (proj2 (Z.eqb_neq _ _) He). split; [done|by left]. }
  destruct ev; cbn [registration_event].
  - destruct (reg1_if_ngp_immediate reg' idx now). intros [= <- <- <-]. left. split; [done|by left].
  - intros [= <- <- <-]. left. split; [done|by left].
  - intros [= <- <- <-]. right. cbn [us_conn us_reg].
    unfold process_registration_packet in Er. rewrite get_packet_type_spec, Ept in Er. cbn [mbind res_bind] in Er.
    destruct (pt =? SRTLA_TYPE_REG_NGP); [done|]. destruct (pt =? SRTLA_TYPE_REG2); [done|].
    destruct (Z.eqb_spec pt SRTLA_TYPE_REG3) as [Ep|].
    + unfold handle_reg3 in Er. destruct (contains (awaiting_reg3 (us_reg st)) idx) eqn:Eg; cbn [negb] in Er; [|done].
      injection Er as <-. split; [by rewrite Ep|]. split; [unfold grant; by rewrite Eg|].
      split; [|split; [done|]].
      * change (grant (revoke_reg3_grant (us_reg st) idx) idx = 0%nat). by rewrite grant_revoke, Nat.eqb_refl.
      * unfold registered_now, mark_reconnect_success. by destruct (_ =? 0).
    + destruct (pt =? SRTLA_TYPE_REG_ERR); [|done].
      destruct (handle_reg_err (us_reg st) idx now) as [r []]; done.
  - intros [= <- <- <-]. left. split; [done|by right].
Qed.

(** The state of the witness: a link that was established at 10 and lost, with
    a REG2 queued for it. *)
Definition lost_link : SrtlaConnection :=
  mark_for_recovery (registered_now (new_registering 1 0 0) 10).
Definition lost_state : uplink_state :=
  mkUplink lost_link (build_reg2 (reg_new id_a id_a) 0).1 dedup_new.

Lemma recovering_link_not_revived_witness :
  exists st' inc out, process_uplink_packet demo_hash lost_state 0 None [0x90; 0x00] 50 TSOk = Ret (st', inc, out) /\
    connected (us_conn st') = false.
Proof.
  assert (uplink_ok lost_state) as Hok
    by (split; [apply mark_for_recovery_ok, registered_now_ok, new_registering_ok|apply dedup_new_ok]).
  destruct (process_uplink_packet_ok demo_hash lost_state 0 None [0x90; 0x00] 50 TSOk
    ltac:(repeat constructor; unfold_ints; lia) Hok) as (st' & inc & out & H & _).
  exists st', inc, out. split; [exact H|].
  destruct (recovering_link_not_revived demo_hash lost_state st' 0 None [0x90; 0x00] 50 TSOk inc out
    ltac:(vm_compute; reflexivity) ltac:(vm_compute; discriminate) H) as [[Hc _]|[Ht _]];
    [exact Hc|vm_compute in Ht; discriminate].
Defined.

(** ** Effects keep every link well formed *)
Lemma tracker_get_total t seq now : tracker_ok t -> exists r, tracker_get t seq now = Ret r.
Proof.
  intros Hok. unfold tracker_get.
  destruct (lookup_lt_is_Some_2 (entries t) (slot_of seq)) as [e ->]; [rewrite Hok; apply slot_of_bound|by eexists].
Qed.

Lemma apply_srt_ack_ok t now conns ack :
  tracker_ok t -> Forall conn_ok conns ->
  exists conns', apply_srt_ack t now conns ack = Ret conns' /\ Forall conn_ok conns' /\ length conns' = length conns.
Proof.
  intros Ht Hc. unfold apply_srt_ack. destruct (tracker_get_total t (u32_wrap (srt_ack_last_acked ack)) now Ht) as [r ->].
  cbn [mbind res_bind]. eexists. split; [reflexivity|]. rewrite length_map. split; [|done].
  apply Forall_map. eapply Forall_impl; [exact Hc|]. intros c H. by apply handle_srt_ack_ok.
Qed.

Lemma srtla_scan_ok idx seq classic now conns : forall i,
  Forall conn_ok conns ->
  Forall conn_ok (srtla_scan idx i seq classic now conns) /\ length (srtla_scan idx i seq classic now conns) = length conns.
Proof.
  induction conns as [|c conns IH]; intros i H; cbn [srtla_scan]; [done|].
  apply Forall_cons in H as [Hc H]. destruct (IH (S i) H) as [IH1 IH2].
  destruct (Nat.eqb i idx); [split; [by constructor|cbn; lia]|].
  pose proof (handle_srtla_ack_specific_ok c seq classic now Hc) as Hc'.
  destruct (handle_srtla_ack_specific c seq classic now) as [c' []]; cbn [fst] in Hc';
    (split; [by constructor|cbn; lia]).
Qed.

Lemma apply_srtla_ack_ok idx classic now conns ack :
  (idx < length conns)%nat -> Forall conn_ok conns ->
  exists conns', apply_srtla_ack idx classic now conns ack = Ret conns' /\ Forall conn_ok conns' /\ length conns' = length conns.
Proof.
  intros Hi Hc. unfold apply_srtla_ack. destruct (lookup_lt_is_Some_2 conns idx Hi) as [c Hl]. rewrite Hl.
  pose proof (handle_srtla_ack_specific_ok c (i32_wrap ack) classic now (Forall_lookup_1 _ _ _ _ Hc Hl)) as Hc'.
  destruct (handle_srtla_ack_specific c (i32_wrap ack) classic now) as [c' found]. cbn [fst] in Hc'.
  eexists. split; [reflexivity|]. rewrite length_map.
  pose proof (Forall_insert _ _ idx _ Hc Hc') as Hins.
  destruct (srtla_scan_ok idx (i32_wrap ack) classic now _ 0 Hins) as [Hs Hlen].
  split.
  - apply Forall_map. apply (Forall_impl conn_ok); [by destruct found|]. intros x Hx. by apply handle_srtla_ack_global_ok.
  - destruct found; [apply length_insert|]. by rewrite Hlen, length_insert.
Qed.

Lemma nak_scan_ok seq now conns :
  Forall conn_ok conns -> Forall conn_ok (nak_scan seq now conns).1 /\
    length (nak_scan seq now conns).1 = length conns.
Proof.
  induction 1 as [|c conns Hc Hcs [IH1 IH2]]; cbn [nak_scan]; [done|].
  pose proof (handle_nak_ok c seq now Hc) as Hc'. destruct (handle_nak c seq now) as [c' []]; cbn [fst] in Hc'.
  - split; [by constructor|done].
  - destruct (nak_scan seq now conns) as [cs r]. cbn [fst] in *. split; [by constructor|cbn; lia].
Qed.

Lemma position_Some {A : Type} (p : A -> bool) l i :
  position p l = Some i -> exists x, l !! i = Some x /\ p x = true /\ forall j y, (j < i)%nat -> l !! j = Some y -> p y = false.
Proof.
  revert i. induction l as [|x l IH]; intros i; cbn [position]; [done|].
  destruct (p x) eqn:E; [intros [= <-]; exists x; split; [done|]; split; [done|lia]|].
  intros (j & Hj & ->)%fmap_Some. destruct (IH j Hj) as (y & H1 & H2 & H3). exists y. split; [done|]. split; [done|].
  intros [|k] z Hk; [by intros [= <-]|]. intros Hz. apply (H3 k z); [lia|done].
Qed.

Lemma attribute_nak_ok t nak now conns :
  tracker_ok t -> Forall conn_ok conns ->
  exists conns' r, attribute_nak conns t nak now = Ret (conns', r) /\ Forall conn_ok conns' /\
    length conns' = length conns.
Proof.
  intros Ht Hc. unfold attribute_nak. destruct (tracker_get_total t nak now Ht) as [o ->]. cbn [mbind res_bind].
  destruct (o ≫= _) as [pos|] eqn:Ep.
  - apply bind_Some in Ep as (id & _ & (c & Hl & _)%position_Some). rewrite Hl.
    pose proof (handle_nak_ok c (i32_wrap nak) now (Forall_lookup_1 _ _ _ _ Hc Hl)) as Hc'.
    destruct (handle_nak c (i32_wrap nak) now) as [c' hit]. do 2 eexists. split; [reflexivity|].
    split; [by apply Forall_insert|apply length_insert].
  - pose proof (nak_scan_ok (i32_wrap nak) now conns Hc) as [H1 H2].
    destruct (nak_scan (i32_wrap nak) now conns) as [cs r]. by do 2 eexists.
Qed.

(** A loop whose body keeps an invariant keeps it, without a panic. *)
Lemma fold_res_inv {A B : Type} (I : B -> Prop) (f : B -> A -> res B) (l : list A) :
  (forall b x, I b -> exists b', f b x = Ret b' /\ I b') ->
  forall b, I b -> exists b', fold_res f b l = Ret b' /\ I b'.
Proof.
  intros Hf. induction l as [|x l IH]; intros b Hb; cbn [fold_res]; [by exists b|].
  destruct (Hf b x Hb) as (b' & -> & Hb'). by apply IH.
Qed.

Lemma process_connection_events_ok idx conns client t classic inc now :
  tracker_ok t -> Forall conn_ok conns ->
  exists conns' out, process_connection_events idx conns client t classic inc now = Ret (conns', out) /\
    Forall conn_ok conns' /\ length conns' = length conns.
Proof.
  intros Ht Hc. unfold process_connection_events. case_bool_decide as Hi; [by do 2 eexists|].
  destruct (_ && _); [by do 2 eexists|]. apply not_le in Hi.
  set (I := fun cs : list SrtlaConnection => Forall conn_ok cs /\ length cs = length conns).
  destruct (fold_res_inv I (apply_srt_ack t now) (ack_numbers inc)) with (b := conns) as (c1 & -> & H1);
    [|done|]; cbn [mbind res_bind].
  { intros cs x [H Hl]. destruct (apply_srt_ack_ok t now cs x Ht H) as (cs' & ? & ? & ?). exists cs'. split; [done|].
    split; [done|lia]. }
  destruct (fold_res_inv I (apply_srtla_ack idx classic now) (srtla_ack_numbers inc)) with (b := c1) as (c2 & -> & H2);
    [|done|]; cbn [mbind res_bind].
  { intros cs x [H Hl]. destruct (apply_srtla_ack_ok idx classic now cs x) as (cs' & ? & ? & ?); [lia|done|].
    exists cs'. split; [done|]. split; [done|lia]. }
  edestruct (fold_res_inv I (fun cs nak => '(cs, _) ← attribute_nak cs t nak now; Ret cs) (nak_numbers inc))
    with (b := c2) as (c3 & -> & [H3 H3']); [|done|]; cbn [mbind res_bind].
  { intros cs x [H Hl]. destruct (attribute_nak_ok t x now cs Ht H) as (cs' & r & -> & ? & ?). exists cs'. split; [done|].
    split; [done|lia]. }
  by do 2 eexists.
Qed.

(** ** NAK attribution *)
Lemma handle_nak_miss c seq now : packet_log c !! seq = None -> handle_nak c seq now = (c, false).
Proof.
  intros H. unfold handle_nak. rewrite bool_decide_eq_false_2 by (rewrite H; apply is_Some_None).
  f_equal. destruct c. cbn in *. by rewrite delete_id.
Qed.

Lemma handle_nak_hit c seq now : (handle_nak c seq now).2 = bool_decide (is_Some (packet_log c !! seq)).
Proof. unfold handle_nak. case_bool_decide; [|done]. by destruct (cc_handle_nak _ _ _). Qed.

Lemma nak_scan_spec seq now conns :
  match (nak_scan seq now conns).2 with
  | Some i => exists c, conns !! i = Some c /\ is_Some (packet_log c !! seq) /\
      (nak_scan seq now conns).1 = <[i := (handle_nak c seq now).1]> conns /\
      forall j c', (j < i)%nat -> conns !! j = Some c' -> packet_log c' !! seq = None
  | None => (nak_scan seq now conns).1 = conns /\ Forall (fun c => packet_log c !! seq = None) conns
  end.
Proof.
  induction conns as [|c conns IH]; cbn [nak_scan]; [done|].
  destruct (packet_log c !! seq) as [t|] eqn:E.
  - pose proof (handle_nak_hit c seq now) as Hh. rewrite E, bool_decide_eq_true_2 in Hh by (by eexists).
    destruct (handle_nak c seq now) as [c' hit] eqn:Eh. cbn [snd] in Hh. subst hit. cbn [fst snd].
    exists c. rewrite E, Eh. split; [done|]. split; [by eexists|]. split; [done|lia].
  - rewrite handle_nak_miss by done. destruct (nak_scan seq now conns) as [cs [i|]]; cbn [fst snd fmap option_fmap option_map] in *.
    + destruct IH as (c' & H1 & H2 & -> & H4). exists c'. split; [done|]. split; [done|]. split; [done|].
      intros [|j] c'' Hj; [by intros [= <-]|]. apply (H4 j c''). lia.
    + destruct IH as [-> IH]. split; [done|]. by constructor.
Qed.

(** C29: a lost sequence is charged to at most one link, and to the right one: a
    link is charged only if the packet is in its log; then that link alone
    changes.  While the tracker knows who sent the packet and that link is in
    the bond, no other link is ever charged, even for a repeated NAK; only
    without a record does the first link that still logs the packet pay. *)
Theorem nak_charged_once (conns conns' : list SrtlaConnection) (t : SequenceTracker) (nak now : Z)
    (charged : option nat) :
  attribute_nak conns t nak now = Ret (conns', charged) ->
  match charged with
  | Some i => exists c, conns !! i = Some c /\ is_Some (packet_log c !! i32_wrap nak) /\
      conns' = <[i := (handle_nak c (i32_wrap nak) now).1]> conns /\
      (forall owner, tracker_get t nak now = Ret (Some owner) ->
         conn_id c = owner \/ Forall (fun d => conn_id d <> owner) conns)
  | None => conns' = conns
  end.
Proof.
  unfold attribute_nak. destruct (tracker_get t nak now) as [owner|] eqn:Et; cbn [mbind res_bind]; [|done].
  destruct (owner ≫= _) as [pos|] eqn:Ep.
  - apply bind_Some in Ep as (id & -> & (c & Hl & Hid & _)%position_Some). rewrite Hl.
    pose proof (handle_nak_hit c (i32_wrap nak) now) as Hh.
    destruct (packet_log c !! i32_wrap nak) as [sent|] eqn:Elog.
    + rewrite bool_decide_eq_true_2 in Hh by (by eexists).
      destruct (handle_nak c (i32_wrap nak) now) as [c' hit] eqn:Eh. cbn [snd] in Hh. subst hit.
      intros [= <- <-]. exists c. rewrite Elog, Eh. split; [done|]. split; [by eexists|]. split; [done|].
      intros o [= <-]. left. by apply Z.eqb_eq.
    + rewrite handle_nak_miss by done. intros [= <- <-]. by apply list_insert_id.
  - pose proof (nak_scan_spec (i32_wrap nak) now conns) as H.
    destruct (nak_scan (i32_wrap nak) now conns) as [cs r]. cbn [fst snd] in H. intros [= <- <-].
    destruct r as [i|]; [|by destruct H]. destruct H as (c & H1 & H2 & H3 & _). exists c.
    split; [done|]. split; [done|]. split; [done|]. intros o [= ->]. right.
    cbn in Ep. clear - Ep. induction conns as [|d conns IH]; [done|]. cbn [position] in Ep.
    destruct (Z.eqb_spec (conn_id d) o) as [|Hn]; [done|]. apply fmap_None in Ep. constructor; [done|by apply IH].
Qed.

(** Two links log sequence 5; the tracker says the second sent it. *)
Definition nak_demo : list SrtlaConnection :=
  [register_packet (new_registering 1 0 0) 5 10; register_packet (new_registering 2 0 0) 5 11].

Lemma nak_charged_once_witness :
  exists t conns', tracker_insert tracker_new 5 2 11 = Ret t /\
    attribute_nak nak_demo t 5 20 = Ret (conns', Some 1%nat) /\
    exists c, nak_demo !! 1%nat = Some c /\ conns' = <[1%nat := (handle_nak c 5 20).1]> nak_demo.
Proof.
  destruct (tracker_step_slot tracker_new (TInsert 5 2 11) (slot_of 5) (length_replicate _ _) (slot_of_bound 5))
    as (t & e & Hi & Ht & _ & He).
  rewrite Nat.eqb_refl in He.
  assert (tracker_get t 5 20 = Ret (Some 2)) as Hg by (unfold tracker_get; by rewrite He).
  destruct (attribute_nak nak_demo t 5 20) as [[conns' r]|] eqn:E.
  2:{ unfold attribute_nak in E. rewrite Hg in E. vm_compute in E. discriminate. }
  assert (r = Some 1%nat) as ->.
  { unfold attribute_nak in E. rewrite Hg in E. clear - E.
    cbn [mbind res_bind option_bind] in E.
    replace (position _ nak_demo) with (Some 1%nat) in E by (vm_compute; reflexivity).
    cbn [lookup list_lookup nak_demo] in E.
    pose proof (handle_nak_hit (register_packet (new_registering 2 0 0) 5 11) (i32_wrap 5) 20) as Hh.
    destruct (handle_nak _ _ _) as [c' hit]. cbn [snd] in Hh. rewrite Hh in E.
    replace (bool_decide _) with true in E by (vm_compute; reflexivity). congruence. }
  exists t, conns'. split; [exact Hi|]. split; [done|].
  destruct (nak_charged_once nak_demo conns' t 5 20 (Some 1%nat) E) as (c & H1 & _ & H3 & _). by exists c.
Defined.

(** ** Rejected registration frames *)

(** C28: what a REG3 or REG_ERR that answers nothing in flight does.  The manager
    counts it and changes nothing else, the link's registration is not touched;
    but the datagram goes on as if it were data: it refreshes the liveness of
    the link and is forwarded to the SRT client.  So a registered link that
    hears nothing else is not timed out as long as such frames arrive. *)
Theorem rejected_frame_effects (hash : bytes -> Z) (st : uplink_state) (idx : nat) (client : option Z) (data : bytes)
    (t now : Z) (ts : TrySend)
    (Ht : packet_type_of data = Some SRTLA_TYPE_REG3 \/ packet_type_of data = Some SRTLA_TYPE_REG_ERR)
    (Hg : grant (us_reg st) idx = 0%nat) (Hp : pending_reg2_idx (us_reg st) <> Some idx) :
  exists reg', process_uplink_packet hash st idx client data t ts =
      Ret (mkUplink (refresh_liveness (us_conn st) t) reg' (us_dedup st),
           incoming_default <| read_any := true |> <| forward_to_client := [data] |>, []) /\
    reg' = us_reg st <| out_of_phase := out_of_phase reg' |> /\
    connected (refresh_liveness (us_conn st) t) = connected (us_conn st) /\
    (connected (us_conn st) = true -> sat_sub now t < conn_timeout_ms (us_conn st) ->
     is_timed_out (refresh_liveness (us_conn st) t) now = false).
Proof.
  assert (contains (awaiting_reg3 (us_reg st)) idx = false) as Eg by (unfold grant in Hg; by destruct (contains _ _)).
  assert (exists reg', process_registration_packet (us_reg st) idx data t = Ret (reg', None) /\
    reg' = us_reg st <| out_of_phase := out_of_phase reg' |>) as (reg' & Er & Hr).
  { unfold process_registration_packet. rewrite get_packet_type_spec. cbn [mbind res_bind].
    destruct Ht as [-> | ->]; [unfold handle_reg3|unfold handle_reg_err]; cbn [Z.eqb Pos.eqb]; cbn -[sat_add_u64].
    - rewrite Eg. by eexists.
    - rewrite Eg, bool_decide_eq_false_2 by done. by eexists. }
  exists reg'. split; [|split; [done|split; [unfold refresh_liveness; by destruct (_ || _)|]]].
  - unfold process_uplink_packet. rewrite get_packet_type_spec. cbn [mbind res_bind].
    destruct Ht as [Ht|Ht]; rewrite Ht, Er; reflexivity.
  - intros Hc Hs. unfold refresh_liveness. rewrite Hc. cbn [orb]. unfold is_timed_out.
    change (connected (us_conn st <| last_received := Some t |>)) with (connected (us_conn st)). rewrite Hc. cbn [negb].
    change (last_received (us_conn st <| last_received := Some t |>)) with (Some t). cbv iota.
    rewrite Z.geb_leb. by apply Z.leb_gt.
Qed.

(** A registered link; its grant is spent, and a forged REG_ERR arrives. *)
Definition spent_state : uplink_state := mkUplink (registered_now (new_registering 1 0 0) 10) (reg_new id_a id_a) dedup_new.

Lemma rejected_frame_effects_witness :
  exists st' inc, process_uplink_packet demo_hash spent_state 0 (Some 7) [0x92; 0x10] 9000 TSOk = Ret (st', inc, []) /\
    forward_to_client inc = [[0x92; 0x10]] /\ is_timed_out (us_conn spent_state) 9500 = true /\ is_timed_out (us_conn st') 9500 = false.
Proof.
  destruct (rejected_frame_effects demo_hash spent_state 0 (Some 7) [0x92; 0x10] 9000 9500 TSOk) as (reg' & H1 & _ & _ & H2);
    [right; reflexivity|reflexivity|discriminate|].
  do 2 eexists. split; [exact H1|]. split; [reflexivity|]. split; [vm_compute; reflexivity|].
  apply H2; [vm_compute; reflexivity|vm_compute; reflexivity].
Defined.
