(* ===== verification/Sender.v ===== *)
(** * The packet paths of the sender (src/sender/packet_handler.rs, connections.rs)

    The sending side: a packet from the SRT client is scheduled onto one link,
    queued, tracked, and copied as a probe onto links held out of the rotation;
    full batches are flushed, and a link whose socket refuses a batch goes into
    recovery.  Together with the receive path this gives the events of the main
    loop that move payload.  Sockets are outcomes per link and event; the clock
    reads of an event are arguments. *)
From S2P Require Import Prelude F64 Wire Seq Filters Rtt Batch Pacing Congestion Config Connection Selection SelectionSpec SelectionFrame Registration Tracker Dedup Uplink.

(** ** State and environment *)
Record SenderState := mkSender {
  sn_conns : list SrtlaConnection;
  sn_reg : SrtlaRegistrationManager;
  sn_tracker : SequenceTracker;
  sn_dedup : ClientDedup;
  sn_config : DynamicConfig;
  sn_critical : CriticalWindow;
  sn_last_selected : option nat;
  sn_client : option Z }.

Global Instance eta_sender : Eta SenderState := fun s =>
  mkSender (sn_conns s) (sn_reg s) (sn_tracker s) (sn_dedup s) (sn_config s) (sn_critical s)
    (sn_last_selected s) (sn_client s).

(** A batch send: everything went out, or the socket failed after [n]. *)
Inductive SendOutcome := SendAll | SendFailed (n : nat).

(** What the sockets and the clock do during one event.  [io i] is [None] when
    link [i] has no entry in the I/O map. *)
Record Env := mkEnv {
  env_now : Z;
  env_io : nat -> option SendOutcome;
  env_flush_now : nat -> Z }.

(** ** connections.rs *)
Definition recover_connection (conn : SrtlaConnection) (seq_tracker : SequenceTracker)
  : SrtlaConnection * SequenceTracker :=
  let conn := mark_for_recovery conn in
  (conn, remove_connection seq_tracker (conn_id conn)).

(** ** Flushing *)

(** [send_connection_batch]: the datagrams that left, and whether it succeeded. *)
Definition send_connection_batch (conn : SrtlaConnection) (now : Z) (outcome : SendOutcome)
  : SrtlaConnection * list bytes * bool :=
  let '(conn, batch) := take_batch conn now in
  if bool_decide (batch = []) then (conn, [], true)
  else
    let bufs := map (fun p : DrainedPacket => p.1.1) batch in
    match outcome with
    | SendAll => (note_sent conn now, bufs, true)
    | SendFailed n => (conn, take n bufs, false)
    end.

Definition flush_connection (conn : SrtlaConnection) (seq_tracker : SequenceTracker) (now : Z)
    (outcome : SendOutcome) : SrtlaConnection * SequenceTracker * list bytes :=
  let '(conn, sent, ok) := send_connection_batch conn now outcome in
  if ok then (conn, seq_tracker, sent)
  else let '(conn, seq_tracker) := recover_connection conn seq_tracker in (conn, seq_tracker, sent).

Fixpoint flush_loop (env : Env) (now : Z) (i : nat) (conns : list SrtlaConnection) (t : SequenceTracker)
  : list SrtlaConnection * SequenceTracker * list (nat * bytes) :=
  match conns with
  | [] => ([], t, [])
  | c :: conns =>
    let '(c, t, sent) :=
      if needs_batch_flush c now || conn_has_queued_packets c then
        match env_io env i with
        | Some o => flush_connection c t (env_flush_now env i) o
        | None => (c, t, [])
        end
      else (c, t, []) in
    let '(conns, t, rest) := flush_loop env now (S i) conns t in
    (c :: conns, t, map (pair i) sent ++ rest)
  end.

Definition flush_all_batches (conns : list SrtlaConnection) (t : SequenceTracker) (env : Env)
  : list SrtlaConnection * SequenceTracker * list (nat * bytes) :=
  let now := env_now env in
  let has_work := existsb (fun c => conn_has_queued_packets c || needs_batch_flush c now) conns in
  if negb has_work then (conns, t, []) else flush_loop env now 0 conns t.

(** ** Forwarding one packet *)
Definition forward_via_connection (sel_idx : nat) (pkt : bytes) (seq : option Z)
    (conns : list SrtlaConnection) (last_selected_idx : option nat) (t : SequenceTracker)
    (packet_time_ms : Z) (env : Env)
  : res (list SrtlaConnection * option nat * SequenceTracker * list (nat * bytes)) :=
  match conns !! sel_idx with
  | None => Ret (conns, last_selected_idx, t, [])
  | Some c =>
    let last_selected_idx :=
      if negb (bool_decide (last_selected_idx = Some sel_idx)) then Some sel_idx else last_selected_idx in
    let id := conn_id c in
    let '(c, needs_flush) := queue_data_packet c pkt seq packet_time_ms in
    t ← match seq with Some s => tracker_insert t s id packet_time_ms | None => Ret t end;
    let '(c, t, sent) :=
      if needs_flush then
        match env_io env sel_idx with
        | Some o => flush_connection c t (env_flush_now env sel_idx) o
        | None => (c, t, [])
        end
      else (c, t, []) in
    Ret (<[sel_idx := c]> conns, last_selected_idx, t, map (pair sel_idx) sent)
  end.

(** Whether the probing loop considers link [i] before asking its counter. *)
Definition probe_eligible (sel_idx i : nat) (conn : SrtlaConnection) : bool :=
  negb (Nat.eqb i sel_idx) && (stall_gated conn || is_quality_excluded conn) && connected conn.

Fixpoint send_stall_probes (sel_idx i : nat) (pkt : bytes) (probe_seq : Z) (conns : list SrtlaConnection)
    (t : SequenceTracker) (packet_time_ms : Z) (env : Env)
  : res (list SrtlaConnection * SequenceTracker * list (nat * bytes)) :=
  match conns with
  | [] => Ret ([], t, [])
  | conn :: conns =>
    '(conn, t, sent) ←
      (if negb (probe_eligible sel_idx i conn) then Ret (conn, t, [])
       else
         let '(conn, due) := stall_probe_due conn in
         if negb due then Ret (conn, t, [])
         else
           probe ← set_srt_data_retransmit pkt;
           let '(conn, needs_flush) := queue_probe_packet conn probe probe_seq packet_time_ms in
           Ret (if needs_flush then
                  match env_io env i with
                  | Some o => flush_connection conn t (env_flush_now env i) o
                  | None => (conn, t, [])
                  end
                else (conn, t, [])));
    '(conns, t, rest) ← send_stall_probes sel_idx (S i) pkt probe_seq conns t packet_time_ms env;
    Ret (conn :: conns, t, map (pair i) sent ++ rest)
  end.

Definition select_pre_registration_connection (conns : list SrtlaConnection)
    (last_selected_idx : option nat) (now_ms : Z) : option nat :=
  match last_selected_idx ≫= fun idx => c ← conns !! idx; Some (idx, c) with
  | Some (idx, c) =>
    if connected c && negb (is_timed_out c now_ms) then Some idx
    else position (fun c => negb (is_timed_out c now_ms)) conns
  | None => position (fun c => negb (is_timed_out c now_ms)) conns
  end.

Section Handlers.
Context (exp : f64 -> f64) (hash : bytes -> Z).

(** The scheduler's choice with the best-path override. *)
Definition schedule (conns : list SrtlaConnection) (last_selected_idx : option nat) (pkt : bytes)
    (seq : option Z) (now : Z) (config_snap : ConfigSnapshot) (critical : CriticalWindow)
  : res (list SrtlaConnection * option nat) :=
  let '(conns, sel_idx) := select_connection_idx exp conns last_selected_idx now config_snap in
  must_land ← (if bool_decide (is_Some seq)
               then if is_critical_now critical now then Ret true else is_srt_data_retransmit pkt
               else Ret false);
  if (must_land : bool) then
    match select_best_path_override_idx conns now (cfg_mode config_snap) with
    | Some best_idx => Ret (conns, if bool_decide (sel_idx = Some best_idx) then sel_idx else Some best_idx)
    | None => Ret (conns, sel_idx)
    end
  else Ret (conns, sel_idx).

(** [handle_srt_packet] on a successful read of [pkt] from [src]; a read error
    only logs. *)
Definition handle_srt_packet (st : SenderState) (pkt : bytes) (src : Z) (env : Env)
  : res (SenderState * list (nat * bytes)) :=
  if bool_decide (pkt = []) then Ret (st, [])
  else
    let now := env_now env in
    seq ← get_srt_sequence_number pkt;
    if negb (has_connected (sn_reg st)) then
      match select_pre_registration_connection (sn_conns st) (sn_last_selected st) now with
      | Some sel_idx =>
        '(conns, last, t, sent) ← forward_via_connection sel_idx pkt seq (sn_conns st)
                                    (sn_last_selected st) (sn_tracker st) now env;
        Ret (st <| sn_conns := conns |> <| sn_last_selected := last |> <| sn_tracker := t |>
                <| sn_client := Some src |>, sent)
      | None => Ret (st <| sn_client := Some src |>, [])
      end
    else
      '(conns, sel_idx) ← schedule (sn_conns st) (sn_last_selected st) pkt seq now
                            (snapshot (sn_config st)) (sn_critical st);
      match sel_idx with
      | Some sel_idx =>
        '(conns, last, t, sent) ← forward_via_connection sel_idx pkt seq conns (sn_last_selected st)
                                    (sn_tracker st) now env;
        '(conns, t, probes) ← match seq with
                              | Some s => send_stall_probes sel_idx 0 pkt s conns t now env
                              | None => Ret (conns, t, [])
                              end;
        Ret (st <| sn_conns := conns |> <| sn_last_selected := last |> <| sn_tracker := t |>
                <| sn_client := Some src |>, sent ++ probes)
      | None => Ret (st <| sn_conns := conns |> <| sn_client := Some src |>, [])
      end.

(** [handle_uplink_packet]: [reg1_out] is the outcome of an immediate REG1 on
    the link's socket ([None]: no I/O entry), [t_recv], [t_sent] and [t_apply]
    the three clock reads. *)
Definition handle_uplink_packet (st : SenderState) (id : Z) (data : bytes) (try_send : TrySend)
    (reg1_out : option bool) (t_recv t_sent t_apply : Z)
  : res (SenderState * list AckRelay * list (Z * bytes)) :=
  if bool_decide (data = []) then Ret (st, [], [])
  else
    match position (fun c => conn_id c =? id) (sn_conns st) with
    | None => Ret (st, [], [])
    | Some idx =>
      match sn_conns st !! idx with
      | None => Panic
      | Some conn =>
        '(us, incoming, relay) ← process_uplink_packet hash (mkUplink conn (sn_reg st) (sn_dedup st)) idx
                                   (sn_client st) data t_recv try_send;
        let conn := match reg1_send incoming, reg1_out with
                    | Some _, Some true => note_sent (us_conn us) t_sent
                    | _, _ => us_conn us
                    end in
        let config := match negotiated_latency_ms incoming with
                      | Some ms => (set_negotiated_latency_ms (sn_config st) ms).1
                      | None => sn_config st
                      end in
        let conns := <[idx := conn]> (sn_conns st) in
        '(conns, out) ← process_connection_events idx conns (sn_client st) (sn_tracker st)
                          (is_classic (cfg_mode (snapshot (sn_config st)))) incoming t_apply;
        Ret (st <| sn_conns := conns |> <| sn_reg := us_reg us |> <| sn_dedup := us_dedup us |>
                <| sn_config := config |>, relay, out)
      end
    end.
End Handlers.

(** ** The invariant of the bond *)
Definition sender_ok (st : SenderState) : Prop :=
  Forall conn_ok (sn_conns st) /\ tracker_ok (sn_tracker st) /\ dedup_ok (sn_dedup st).

Lemma remove_connection_ok t id : tracker_ok t -> tracker_ok (remove_connection t id).
Proof. intros H. unfold tracker_ok, remove_connection in *. cbn. by rewrite length_map. Qed.

Lemma note_sent_ok c now : conn_ok c -> conn_ok (note_sent c now).
Proof. intros H. exact H. Qed.

Lemma flush_connection_ok c t now o :
  conn_ok c -> tracker_ok t ->
  conn_ok (flush_connection c t now o).1.1 /\ tracker_ok (flush_connection c t now o).1.2.
Proof.
  intros Hc Ht. unfold flush_connection, send_connection_batch.
  pose proof (take_batch_ok c now Hc) as Hb. destruct (take_batch c now) as [c1 batch]. cbn [fst] in Hb.
  case_bool_decide; [by split|]. destruct o as [|n]; cbn [fst snd].
  - split; [by apply note_sent_ok|done].
  - unfold recover_connection. cbn [fst snd]. split; [by apply mark_for_recovery_ok|by apply remove_connection_ok].
Qed.

(** Flushing at most: the flush of an optional I/O entry. *)
Lemma maybe_flush_ok c t now (o : option SendOutcome) (b : bool) :
  conn_ok c -> tracker_ok t ->
  let r := if b then match o with Some o => flush_connection c t now o | None => (c, t, []) end else (c, t, []) in
  conn_ok r.1.1 /\ tracker_ok r.1.2.
Proof. intros Hc Ht. destruct b; [|done]. destruct o; [by apply flush_connection_ok|done]. Qed.

Lemma flush_loop_ok env now conns : forall i t,
  Forall conn_ok conns -> tracker_ok t ->
  Forall conn_ok (flush_loop env now i conns t).1.1 /\ tracker_ok (flush_loop env now i conns t).1.2.
Proof.
  induction conns as [|c conns IH]; intros i t Hc Ht; cbn [flush_loop]; [done|].
  apply Forall_cons in Hc as [Hc Hcs].
  pose proof (maybe_flush_ok c t (env_flush_now env i) (env_io env i)
    (needs_batch_flush c now || conn_has_queued_packets c) Hc Ht) as [H1 H2].
  destruct (if needs_batch_flush c now || conn_has_queued_packets c then _ else _) as [[c' t'] sent].
  cbn [fst snd] in H1, H2. destruct (IH (S i) t' Hcs H2) as [IH1 IH2].
  destruct (flush_loop env now (S i) conns t') as [[cs t''] rest]. cbn [fst snd] in *.
  split; [by constructor|done].
Qed.

Lemma flush_all_ok env conns t :
  Forall conn_ok conns -> tracker_ok t ->
  Forall conn_ok (flush_all_batches conns t env).1.1 /\ tracker_ok (flush_all_batches conns t env).1.2.
Proof. intros. unfold flush_all_batches. destruct (negb _); [done|]. by apply flush_loop_ok. Qed.

Lemma tracker_insert_ok t s id now : tracker_ok t -> exists t', tracker_insert t s id now = Ret t' /\ tracker_ok t'.
Proof.
  intros Ht. destruct (tracker_step_slot t (TInsert s id now) (slot_of s) Ht (slot_of_bound s))
    as (t' & e & H1 & H2 & _). by exists t'.
Qed.

Lemma forward_ok sel pkt seq conns last t now env :
  Forall conn_ok conns -> tracker_ok t ->
  exists conns' last' t' sent, forward_via_connection sel pkt seq conns last t now env = Ret (conns', last', t', sent) /\
    Forall conn_ok conns' /\ tracker_ok t'.
Proof.
  intros Hc Ht. unfold forward_via_connection. destruct (conns !! sel) as [c|] eqn:Hl; [|by do 4 eexists].
  pose proof (queue_data_packet_ok c pkt seq now (Forall_lookup_1 _ _ _ _ Hc Hl)) as Hq.
  destruct (queue_data_packet c pkt seq now) as [c1 nf]. cbn [fst] in Hq.
  assert (exists t1, match seq with Some s => tracker_insert t s (conn_id c) now | None => Ret t end = Ret t1 /\ tracker_ok t1)
    as (t1 & -> & Ht1) by (destruct seq; [by apply tracker_insert_ok|by eexists]).
  cbn [mbind res_bind].
  pose proof (maybe_flush_ok c1 t1 (env_flush_now env sel) (env_io env sel) nf Hq Ht1) as [H1 H2].
  destruct (if nf then _ else _) as [[c2 t2] sent]. cbn [fst snd] in H1, H2.
  do 4 eexists. split; [reflexivity|]. split; [by apply Forall_insert|done].
Qed.

Lemma stall_probe_due_ok c : conn_ok c -> conn_ok (stall_probe_due c).1.
Proof. intros H. unfold stall_probe_due. by destruct (_ >=? _). Qed.

(** The header readers of a packet are total. *)
Lemma idx_total buf i : (i < length buf)%nat -> exists b, idx buf i = Ret b.
Proof. intros [b Hb]%lookup_lt_is_Some_2. exists b. by apply idx_lookup. Qed.

Lemma set_retransmit_total pkt : exists p, set_srt_data_retransmit pkt = Ret p.
Proof.
  unfold set_srt_data_retransmit. case_bool_decide; [|by eexists].
  destruct (idx_total pkt 0) as [b0 ->]; [lia|]. cbn [mbind res_bind]. destruct (_ =? _); [|by eexists].
  destruct (idx_total pkt 4) as [b4 ->]; [lia|]. by eexists.
Qed.

Lemma is_retransmit_total pkt : exists b, is_srt_data_retransmit pkt = Ret b.
Proof.
  unfold is_srt_data_retransmit. case_bool_decide; [|by eexists].
  destruct (idx_total pkt 0) as [b0 ->]; [lia|]. cbn [mbind res_bind]. destruct (_ =? _); [|by eexists].
  destruct (idx_total pkt 4) as [b4 ->]; [lia|]. by eexists.
Qed.

Lemma sequence_number_total pkt : exists o, get_srt_sequence_number pkt = Ret o.
Proof.
  unfold get_srt_sequence_number. case_bool_decide; [by eexists|].
  destruct (drop_short pkt 0 ltac:(lia)) as (b0 & b1 & b2 & b3 & l & Hd).
  rewrite (idx32_drop _ _ _ _ _ _ _ Hd). by eexists.
Qed.

Lemma probes_ok sel pkt s now env conns : forall i t,
  Forall conn_ok conns -> tracker_ok t ->
  exists conns' t' sent, send_stall_probes sel i pkt s conns t now env = Ret (conns', t', sent) /\
    Forall conn_ok conns' /\ tracker_ok t'.
Proof.
  induction conns as [|c conns IH]; intros i t Hc Ht; cbn [send_stall_probes]; [by do 3 eexists|].
  apply Forall_cons in Hc as [Hc Hcs].
  assert (exists c' t' sent, (if negb (probe_eligible sel i c) then Ret (c, t, [])
     else let '(conn, due) := stall_probe_due c in
       if negb due then Ret (conn, t, []) else
         probe ← set_srt_data_retransmit pkt;
         let '(conn, needs_flush) := queue_probe_packet conn probe s now in
         Ret (if needs_flush then match env_io env i with
                | Some o => flush_connection conn t (env_flush_now env i) o | None => (conn, t, []) end
              else (conn, t, []))) = Ret (c', t', sent) /\ conn_ok c' /\ tracker_ok t')
    as (c' & t' & sent & -> & Hc' & Ht').
  { destruct (negb _); [by do 3 eexists|]. pose proof (stall_probe_due_ok c Hc) as Hd.
    destruct (stall_probe_due c) as [c1 due]. cbn [fst] in Hd. destruct (negb due); [by do 3 eexists|].
    destruct (set_retransmit_total pkt) as [p ->]. cbn [mbind res_bind].
    pose proof (queue_probe_packet_ok c1 p s now Hd) as Hq.
    destruct (queue_probe_packet c1 p s now) as [c2 nf]. cbn [fst] in Hq.
    pose proof (maybe_flush_ok c2 t (env_flush_now env i) (env_io env i) nf Hq Ht) as [H1 H2].
    destruct (if nf then _ else _) as [[c3 t3] sent]. by do 3 eexists. }
  cbn [mbind res_bind]. destruct (IH (S i) t' Hcs Ht') as (cs & t2 & rest & -> & H1 & H2). cbn [mbind res_bind].
  do 3 eexists. split; [reflexivity|]. split; [by constructor|done].
Qed.

(** The scheduler of a pass: same bond, choice in range. *)
Lemma schedule_frame exp conns last pkt seq now cfg crit :
  exists conns' sel, schedule exp conns last pkt seq now cfg crit = Ret (conns', sel) /\
    Forall2 sel_frame conns conns'.
Proof.
  unfold schedule. pose proof (frame_select exp conns last now cfg) as Hf.
  destruct (select_connection_idx exp conns last now cfg) as [cs sel]. cbn [fst] in Hf.
  assert (exists b, (if bool_decide (is_Some seq) then if is_critical_now crit now then Ret true else is_srt_data_retransmit pkt
    else Ret false) = Ret b) as [b ->].
  { case_bool_decide; [|by eexists]. destruct (is_critical_now crit now); [by eexists|apply is_retransmit_total]. }
  cbn [mbind res_bind]. destruct b; [|by do 2 eexists]. destruct (select_best_path_override_idx _ _ _); by do 2 eexists.
Qed.

Lemma sel_frames_ok conns conns' : Forall2 sel_frame conns conns' -> Forall conn_ok conns -> Forall conn_ok conns'.
Proof.
  intros H Hc. induction H as [|c c' cs cs' Hf _ IH]; [done|].
  apply Forall_cons in Hc as [Hc Hcs]. constructor; [by apply (sel_frame_ok c)|by apply IH].
Qed.

Lemma handle_srt_packet_ok exp st pkt src env :
  sender_ok st -> exists st' sent, handle_srt_packet exp st pkt src env = Ret (st', sent) /\ sender_ok st'.
Proof.
  intros (Hc & Ht & Hd). unfold handle_srt_packet. case_bool_decide; [by do 2 eexists|].
  destruct (sequence_number_total pkt) as [seq ->]. cbn [mbind res_bind].
  destruct (negb _).
  - destruct (select_pre_registration_connection _ _ _) as [sel|]; [|by do 2 eexists].
    destruct (forward_ok sel pkt seq (sn_conns st) (sn_last_selected st) (sn_tracker st) (env_now env) env Hc Ht)
      as (cs & l & t & sent & -> & H1 & H2). by do 2 eexists.
  - destruct (schedule_frame exp (sn_conns st) (sn_last_selected st) pkt seq (env_now env) (snapshot (sn_config st))
      (sn_critical st)) as (cs & sel & -> & Hf). cbn [mbind res_bind]. apply sel_frames_ok in Hf; [|done].
    destruct sel as [sel|]; [|by do 2 eexists].
    destruct (forward_ok sel pkt seq cs (sn_last_selected st) (sn_tracker st) (env_now env) env Hf Ht)
      as (cs1 & l & t1 & sent & -> & H1 & H2). cbn [mbind res_bind].
    destruct seq as [s|]; [|by do 2 eexists].
    destruct (probes_ok sel pkt s (env_now env) env cs1 0 t1 H1 H2) as (cs2 & t2 & rest & -> & H3 & H4). by do 2 eexists.
Qed.

Lemma handle_uplink_packet_ok hash st id data ts r1 t1 t2 t3 :
  is_bytes data -> sender_ok st ->
  exists st' relay out, handle_uplink_packet hash st id data ts r1 t1 t2 t3 = Ret (st', relay, out) /\ sender_ok st'.
Proof.
  intros Hb (Hc & Ht & Hd). unfold handle_uplink_packet. case_bool_decide; [by do 3 eexists|].
  destruct (position _ _) as [idx|] eqn:Ep; [|by do 3 eexists].
  apply position_Some in Ep as (c & Hl & _). rewrite Hl.
  destruct (process_uplink_packet_ok hash (mkUplink c (sn_reg st) (sn_dedup st)) idx (sn_client st) data t1 ts Hb)
    as (us & inc & relay & -> & [H1 H2]); [split; [by apply (Forall_lookup_1 _ _ _ _ Hc Hl)|done]|].
  cbn [mbind res_bind].
  set (c1 := match reg1_send inc with Some _ => _ | None => _ end).
  assert (conn_ok c1) as Hc1 by (unfold c1; destruct (reg1_send inc), r1 as [[]|]; first [by apply note_sent_ok|done]).
  clearbody c1.
  destruct (process_connection_events_ok idx (<[idx := c1]> (sn_conns st)) (sn_client st) (sn_tracker st)
    (is_classic (cfg_mode (snapshot (sn_config st)))) inc t3 Ht (Forall_insert _ _ _ _ Hc Hc1))
    as (cs & out & -> & H3 & _). by do 3 eexists.
Qed.

(** ** Events of the main loop *)
Inductive sender_event :=
  | EvSrtPacket (pkt : bytes) (src : Z) (env : Env)
  | EvUplinkPacket (id : Z) (data : bytes) (try_send : TrySend) (reg1_out : option bool) (t_recv t_sent t_apply : Z)
  | EvFlushTimer (env : Env)
  | EvCommand (op : config_op)
  | EvCritical (deadline : Z).

(** Datagrams are byte strings. *)
Definition event_ok (ev : sender_event) : Prop :=
  match ev with EvUplinkPacket _ data _ _ _ _ _ => is_bytes data | _ => True end.

Section Loop.
Context (exp : f64 -> f64) (hash : bytes -> Z).

Definition sender_step (st : SenderState) (ev : sender_event) : res SenderState :=
  match ev with
  | EvSrtPacket pkt src env => '(st, _) ← handle_srt_packet exp st pkt src env; Ret st
  | EvUplinkPacket id data ts r1 t1 t2 t3 =>
    '(st, _, _) ← handle_uplink_packet hash st id data ts r1 t1 t2 t3; Ret st
  | EvFlushTimer env =>
    let '(conns, t, _) := flush_all_batches (sn_conns st) (sn_tracker st) env in
    Ret (st <| sn_conns := conns |> <| sn_tracker := t |>)
  | EvCommand op => Ret (st <| sn_config ::= fun d => config_step d op |>)
  | EvCritical deadline => Ret (st <| sn_critical ::= fun w => extend_to w deadline |>)
  end.

(** States a sender can be in: freshly started with unregistered links, then
    any sequence of events. *)
Inductive sender_reach : SenderState -> Prop :=
  | reach_init links id pid config :
      sender_reach (mkSender (map (fun '(cid, ip, now) => new_registering cid ip now) links) (reg_new id pid)
        tracker_new dedup_new config critical_new None None)
  | reach_step st ev st' :
      sender_reach st -> event_ok ev -> sender_step st ev = Ret st' -> sender_reach st'.

Lemma sender_step_ok st ev :
  event_ok ev -> sender_ok st -> exists st', sender_step st ev = Ret st' /\ sender_ok st'.
Proof.
  intros Hev Hok. destruct ev as [pkt src env|id data ts r1 t1 t2 t3|env|op|d]; cbn [sender_step].
  - destruct (handle_srt_packet_ok exp st pkt src env Hok) as (st' & sent & -> & H). by eexists.
  - destruct (handle_uplink_packet_ok hash st id data ts r1 t1 t2 t3 Hev Hok) as (st' & r & o & -> & H). by eexists.
  - destruct Hok as (Hc & Ht & Hd). pose proof (flush_all_ok env (sn_conns st) (sn_tracker st) Hc Ht) as [H1 H2].
    destruct (flush_all_batches (sn_conns st) (sn_tracker st) env) as [[cs t] sent]. by eexists.
  - by eexists.
  - by eexists.
Qed.

(** The packet paths never panic and keep the bond well formed: in every
    state the sender can reach, whatever packets, datagrams, socket failures,
    timer ticks and commands occurred, every link satisfies its invariant, the
    sequence ring has its full size and both duplicate filters are consistent;
    and every further event is handled without a panic.  This holds for every
    exponential and every hash function. *)
Theorem sender_invariant (st : SenderState) :
  sender_reach st ->
  sender_ok st /\ forall ev, event_ok ev -> exists st', sender_step st ev = Ret st' /\ sender_ok st'.
Proof.
  intros Hr. assert (sender_ok st) as Hok.
  { induction Hr as [links id pid config|st ev st' _ IH Hev Hs].
    - split; [|split; [apply length_replicate|apply dedup_new_ok]]. cbn.
      apply Forall_map, Forall_true. intros [[cid ip] now]. apply new_registering_ok.
    - destruct (sender_step_ok st ev Hev IH) as (st'' & Hs' & Hok). congruence. }
  split; [done|]. intros ev Hev. by apply sender_step_ok.
Qed.
End Loop.

(** A sender of two links that has just started. *)
Definition fresh_sender : SenderState :=
  mkSender (map (fun '(cid, ip, now) => new_registering cid ip now) [(1, 0, 0); (2, 0, 0)]) (reg_new id_a id_a)
    tracker_new dedup_new dynamic_new critical_new None None.

Lemma sender_invariant_witness :
  exists st', sender_step (fun x => x) demo_hash fresh_sender (EvUplinkPacket 1 [0x92; 0x11] TSOk (Some true) 5 5 5)
    = Ret st' /\ sender_ok st'.
Proof.
  apply (sender_invariant (fun x => x) demo_hash fresh_sender (reach_init _ _ _ _ _ _)).
  cbn. repeat constructor; unfold_ints; lia.
Defined.
