(* ===== verification/Routing.v ===== *)
(** * Where a packet goes

    The end-to-end contract of the sending side: one packet from the client
    becomes exactly one unique copy on the link that the scheduler names,
    recorded in the sequence tracker under that link, plus one marked duplicate
    on each link that is held out of the rotation and due for a probe; what was
    queued before is neither lost nor reordered unless a socket refuses a batch,
    and then the link is in recovery. *)
From S2P Require Import Prelude F64 Wire Seq Filters Rtt Batch Pacing Congestion Config Connection Selection SelectionSpec SelectionFrame Registration Tracker Dedup Uplink Sender.

(** The datagrams an event put on link [i]. *)
Definition sent_on (i : nat) (sent : list (nat * bytes)) : list bytes :=
  map snd (List.filter (fun p => Nat.eqb p.1 i) sent).

Definition queued (c : SrtlaConnection) : list bytes := queue (batch_sender c).

(** No socket refuses a batch during the event. *)
Definition sockets_ok (env : Env) : Prop := forall i n, env_io env i <> Some (SendFailed n).

Lemma sent_on_app i a b : sent_on i (a ++ b) = sent_on i a ++ sent_on i b.
Proof. unfold sent_on. by rewrite List.filter_app, map_app. Qed.

Lemma sent_on_pair i j l : sent_on i (map (pair j) l) = if Nat.eqb j i then l else [].
Proof.
  unfold sent_on. induction l as [|x l IH]; cbn; [by destruct (Nat.eqb j i)|].
  destruct (Nat.eqb j i); cbn; [by f_equal|done].
Qed.

Lemma sent_on_self i l : sent_on i (map (pair i) l) = l.
Proof. by rewrite sent_on_pair, Nat.eqb_refl. Qed.

(** ** Flushing moves the queue to the socket *)
Lemma register_drained_keeps batch c :
  batch_sender (fold_left register_drained batch c) = batch_sender c /\
  conn_id (fold_left register_drained batch c) = conn_id c.
Proof.
  revert c. induction batch as [|[[d [s|]] t] batch IH]; intros c; cbn [fold_left]; [done| |apply IH].
  destruct (IH (register_drained c (d, Some s, t))) as [-> ->]. done.
Qed.

Lemma take_batch_spec c now :
  batch_ok (batch_sender c) ->
  map (fun p : DrainedPacket => p.1.1) (take_batch c now).2 = queued c /\
  queued (take_batch c now).1 = [] /\ conn_id (take_batch c now).1 = conn_id c.
Proof.
  intros [Hs Ht]. unfold take_batch, drain, queued. cbn.
  case_bool_decide as E.
  - rewrite bool_decide_eq_true_2 by done. cbn. by rewrite E.
  - set (out := zip _ _).
    assert (map (fun p : DrainedPacket => p.1.1) out = queue (batch_sender c)) as Ho.
    { unfold out. clear E out. revert Hs Ht. generalize (sequences (batch_sender c)), (queue_times (batch_sender c)).
      induction (queue (batch_sender c)) as [|x q IH]; intros [|s ss] [|t ts] [=] [=]; [done|]. cbn. f_equal. by apply IH. }
    case_bool_decide as E2; [exfalso; apply E; by rewrite <- Ho, E2|]. cbn [fst snd].
    destruct (register_drained_keeps out (c <| batch_sender := batch_sender c <| last_flush_ms := now |>
      <| queue := [] |> <| sequences := [] |> <| queue_times := [] |> |>)) as [Hb Hi].
    split; [exact Ho|]. split; [|exact Hi]. change (queue (batch_sender (fold_left register_drained out
      (c <| batch_sender := batch_sender c <| last_flush_ms := now |> <| queue := [] |> <| sequences := [] |>
       <| queue_times := [] |> |>))) = []). by rewrite Hb.
Qed.

(** The stream of a link during an event: what it put on its socket, what a
    refused batch lost, and what it still queues, is what it queued before
    followed by [copies].  Only a refused batch loses anything, and it leaves
    the link in recovery with an empty queue. *)
Definition link_stream (env : Env) (k : nat) (c c' : SrtlaConnection) (sent copies : list bytes) : Prop :=
  exists lost, sent ++ lost ++ queued c' = queued c ++ copies /\
    (lost <> [] -> exists n, env_io env k = Some (SendFailed n) /\ connected c' = false /\ queued c' = []).

Lemma maybe_flush_spec env k c t now (b : bool) :
  batch_ok (batch_sender c) ->
  exists c' t' sent, (if b then match env_io env k with Some o => flush_connection c t now o | None => (c, t, []) end
                      else (c, t, [])) = (c', t', sent) /\ link_stream env k c c' sent [] /\
    (sockets_ok env -> t' = t).
Proof.
  intros Hb.
  assert (exists c' t' sent, (c, t, []) = (c', t', sent) /\ link_stream env k c c' sent [] /\ (sockets_ok env -> t' = t))
    as Hidle by (exists c, t, []; split; [done|]; split; [exists []; by rewrite app_nil_r|done]).
  destruct b; [|done]. destruct (env_io env k) as [o|] eqn:Eo; [|done]. clear Hidle.
  destruct (take_batch_spec c now Hb) as (H1 & H2 & H3).
  unfold flush_connection, send_connection_batch. destruct (take_batch c now) as [c1 batch]. cbn [fst snd] in *.
  case_bool_decide as E.
  { do 3 eexists. split; [reflexivity|]. split; [|done]. exists []. rewrite E in H1. cbn in H1.
    by rewrite <- H1, H2. }
  destruct o as [|n]; do 3 eexists; (split; [reflexivity|]); rewrite H1.
  - split; [|done]. exists []. change (queued (note_sent c1 now)) with (queued c1). by rewrite H2, !app_nil_r.
  - split; [|intros H; by destruct (H k n)]. exists (drop n (queued c)).
    change (queued (mark_for_recovery c1)) with ([] : list bytes). rewrite !app_nil_r, take_drop.
    split; [done|]. intros _. exists n. by rewrite Eo.
Qed.

(** ** Forwarding and probing *)
Lemma forward_spec sel pkt seq conns last t now env c :
  conns !! sel = Some c -> conn_ok c -> tracker_ok t ->
  exists c' t' sent, forward_via_connection sel pkt seq conns last t now env =
      Ret (<[sel := c']> conns, Some sel, t', map (pair sel) sent) /\
    link_stream env sel c c' sent [pkt] /\
    (sockets_ok env -> match seq with Some s => tracker_insert t s (conn_id c) now = Ret t' | None => t' = t end).
Proof.
  intros Hl Hc Ht. unfold forward_via_connection. rewrite Hl.
  pose proof (queue_data_packet_ok c pkt seq now Hc) as (_ & _ & Hb & _).
  destruct (queue_data_packet c pkt seq now) as [c1 nf] eqn:Eq. cbn [fst] in Hb.
  assert (queued c1 = queued c ++ [pkt]) as Hq
    by (unfold queue_data_packet, queue_packet in Eq; injection Eq as <- _; done).
  assert (exists t1, match seq with Some s => tracker_insert t s (conn_id c) now | None => Ret t end = Ret t1 /\
    match seq with Some s => tracker_insert t s (conn_id c) now = Ret t1 | None => t1 = t end)
    as (t1 & -> & Hm).
  { destruct seq as [s|]; [|by eexists]. destruct (tracker_insert_ok t s (conn_id c) now Ht) as (t1 & H1 & H2). by exists t1. }
  cbn [mbind res_bind].
  destruct (maybe_flush_spec env sel c1 t1 (env_flush_now env sel) nf Hb) as (c2 & t2 & sent & -> & (lost & H1 & H2) & H3).
  exists c2, t2, sent. split; [by case_bool_decide as E; [rewrite E|]|]. split.
  - exists lost. by rewrite H1, app_nil_r.
  - intros Hio. by rewrite (H3 Hio).
Qed.

(** Whether the probing loop sends a copy on link [k]: it is held out of the
    rotation, connected, not the chosen one, and its counter is due. *)
Definition probed (sel k : nat) (c : SrtlaConnection) : bool := probe_eligible sel k c && (stall_probe_due c).2.

(** What the loop does to link [k]: nothing to its stream, or one marked copy. *)
Definition probe_effect (env : Env) (sel k : nat) (pkt : bytes) (c c' : SrtlaConnection) (sent : list bytes) : Prop :=
  if probed sel k c then exists p, set_srt_data_retransmit pkt = Ret p /\ link_stream env k c c' sent [p]
  else sent = [] /\ queued c' = queued c /\ connected c' = connected c.

Lemma probe_one sel i pkt s conn t now env :
  conn_ok conn ->
  exists conn' t' sent,
    (if negb (probe_eligible sel i conn) then Ret (conn, t, [])
     else let '(conn, due) := stall_probe_due conn in
       if negb due then Ret (conn, t, []) else
         probe ← set_srt_data_retransmit pkt;
         let '(conn, needs_flush) := queue_probe_packet conn probe s now in
         Ret (if needs_flush then match env_io env i with
                | Some o => flush_connection conn t (env_flush_now env i) o | None => (conn, t, []) end
              else (conn, t, []))) = Ret (conn', t', sent) /\
    probe_effect env sel i pkt conn conn' sent /\ (sockets_ok env -> t' = t).
Proof.
  intros Hc. unfold probe_effect, probed. destruct (probe_eligible sel i conn) eqn:Ee; cbn [negb andb].
  2:{ by exists conn, t, []. }
  pose proof (stall_probe_due_ok conn Hc) as Hd.
  assert (batch_sender (stall_probe_due conn).1 = batch_sender conn /\ connected (stall_probe_due conn).1 = connected conn)
    as [Hb Hi] by (unfold stall_probe_due; by destruct (_ >=? _)).
  destruct (stall_probe_due conn) as [c1 due]. cbn [fst snd] in *. destruct due; cbn [negb].
  2:{ exists c1, t, []. unfold queued. by rewrite Hb, Hi. }
  destruct (set_retransmit_total pkt) as [p Hp]. rewrite Hp. cbn [mbind res_bind].
  pose proof (queue_probe_packet_ok c1 p s now Hd) as (_ & _ & Hb2 & _).
  assert (queued (queue_probe_packet c1 p s now).1 = queued c1 ++ [p]) as Hq.
  { unfold queue_probe_packet.
    destruct (record_probe_frame (c1 <| bitrate ::= fun b => update_on_send b (Z.of_nat (length p)) |>) (i32_wrap s) now)
      as [log ->]. done. }
  destruct (queue_probe_packet c1 p s now) as [c2 nf]. cbn [fst] in *.
  destruct (maybe_flush_spec env i c2 t (env_flush_now env i) nf Hb2) as (c3 & t3 & sent & -> & (lost & H1 & H2) & H3).
  exists c3, t3, sent. split; [done|]. split; [|done]. exists p. split; [done|]. exists lost.
  rewrite H1, Hq, app_nil_r. unfold queued. by rewrite Hb.
Qed.

Lemma probes_spec sel pkt s now env conns : forall i t,
  Forall conn_ok conns ->
  exists conns' t' sent, send_stall_probes sel i pkt s conns t now env = Ret (conns', t', sent) /\
    (sockets_ok env -> t' = t) /\
    (forall j, (j < i)%nat -> sent_on j sent = []) /\
    (forall k c, conns !! k = Some c -> exists c', conns' !! k = Some c' /\
       probe_effect env sel (i + k) pkt c c' (sent_on (i + k) sent)).
Proof.
  induction conns as [|c conns IH]; intros i t Hc; cbn [send_stall_probes].
  { exists [], t, []. split; [done|]. split; [done|]. split; [done|]. intros k c. by rewrite lookup_nil. }
  apply Forall_cons in Hc as [Hc Hcs].
  destruct (probe_one sel i pkt s c t now env Hc) as (c' & t1 & sent & -> & H1 & H2). cbn [mbind res_bind].
  destruct (IH (S i) t1 Hcs) as (cs & t2 & rest & -> & H3 & Hlow & Hall). cbn [mbind res_bind].
  exists (c' :: cs), t2, (map (pair i) sent ++ rest). split; [done|]. split; [intros Hio; by rewrite H3, H2|]. split.
  - intros j Hj. rewrite sent_on_app, sent_on_pair, (proj2 (Nat.eqb_neq i j)) by lia. apply Hlow. lia.
  - intros [|k] d; cbn [lookup list_lookup].
    + intros [= <-]. exists c'. by rewrite Nat.add_0_r, sent_on_app, sent_on_self, Hlow, app_nil_r by lia.
    + intros Hd. destruct (Hall k d Hd) as (d' & G1 & G2). exists d'.
      replace (i + S k)%nat with (S i + k)%nat by lia.
      by rewrite sent_on_app, sent_on_pair, (proj2 (Nat.eqb_neq i (S i + k))) by lia.
Qed.

(** ** One packet *)
Lemma tracker_insert_get t s id now t' :
  tracker_ok t -> tracker_insert t s id now = Ret t' -> id <> 0 -> tracker_get t' s now = Ret (Some id).
Proof.
  intros Ht Hi Hid. destruct (tracker_step_slot t (TInsert s id now) (slot_of s) Ht (slot_of_bound s))
    as (t1 & e & H1 & _ & _ & H4). cbn [tracker_step] in H1. assert (t1 = t') as -> by congruence.
  rewrite Nat.eqb_refl in H4. unfold tracker_get. rewrite H4. unfold is_valid, is_expired. cbn.
  rewrite (proj2 (Z.eqb_neq _ _) Hid), Z.eqb_refl. unfold sat_sub. rewrite Z.sub_diag. done.
Qed.

Lemma schedule_range exp conns last pkt seq now cfg crit conns' i :
  schedule exp conns last pkt seq now cfg crit = Ret (conns', Some i) -> (i < length conns)%nat.
Proof.
  unfold schedule. pose proof (frame_select exp conns last now cfg) as Hf. apply Forall2_length in Hf.
  pose proof (select_range exp conns last now cfg) as Hr.
  destruct (select_connection_idx exp conns last now cfg) as [cs sel]. cbn [fst snd] in *.
  assert (forall b : bool, (if b then match select_best_path_override_idx cs now (cfg_mode cfg) with
    | Some best => Ret (cs, if bool_decide (sel = Some best) then sel else Some best)
    | None => Ret (cs, sel) end else Ret (cs, sel)) = Ret (conns', Some i) -> (i < length conns)%nat) as Hb.
  { intros []; [|intros [= _ H]; by apply Hr].
    destruct (select_best_path_override_idx cs now (cfg_mode cfg)) as [best|] eqn:Eo; [|intros [= _ H]; by apply Hr].
    apply override_range in Eo. case_bool_decide; intros [= _ Hx]; [by apply Hr|]. subst. lia. }
  destruct (if bool_decide (is_Some seq) then _ else _) as [b|]; cbn [mbind res_bind]; [apply Hb|done].
Qed.

Lemma frames_lookup conns conns' k c :
  Forall2 sel_frame conns conns' -> conns !! k = Some c ->
  exists c', conns' !! k = Some c' /\ queued c' = queued c /\ conn_id c' = conn_id c.
Proof.
  intros Hf Hk. destruct (Forall2_lookup_l _ _ _ _ _ Hf Hk) as (c' & Hk' & []). exists c'. split; [done|].
  split; [|done]. unfold queued. by rewrite sf_batch.
Qed.

(** ** The contract *)
Section Contract.
Context (exp : f64 -> f64).

(** Where a packet is to go, with the links as the scheduler leaves them: the
    choice of the scheduler once the bond is registered, before that a link
    that is not timed out. *)
Definition destination (st : SenderState) (pkt : bytes) (seq : option Z) (now : Z)
  : res (list SrtlaConnection * option nat) :=
  if has_connected (sn_reg st)
  then schedule exp (sn_conns st) (sn_last_selected st) pkt seq now (snapshot (sn_config st)) (sn_critical st)
  else Ret (sn_conns st, select_pre_registration_connection (sn_conns st) (sn_last_selected st) now).

(** No link can take a packet: all are timed out before registration; after it
    no eligible link has a score that counts. *)
Definition no_carrier (st : SenderState) (cs : list SrtlaConnection) (now : Z) : Prop :=
  if has_connected (sn_reg st) then
    let cfg := snapshot (sn_config st) in
    match cfg_mode cfg with
    | Classic => forall k c, cs !! k = Some c -> classic_eligible now c = true -> weighted_score c < 0
    | Enhanced =>
      let gated := apply_stall_gate (sn_conns st) now cfg in
      let au := existsb (unconstrained now) gated in
      forall k c, enhanced_pool gated now !! k = Some c -> rankable now au c = true ->
        fgt (rank_score exp now (effective_quality_enabled cfg) au c).2 (f_of_Z (-1)) = false
    end
  else forall k c, cs !! k = Some c -> is_timed_out c now = true.

(** What link [k] gets of the packet, [c] being the link after scheduling. *)
Definition copies_on (st : SenderState) (pkt : bytes) (seq : option Z) (dest : option nat) (k : nat)
    (c : SrtlaConnection) (copies : list bytes) : Prop :=
  match dest with
  | None => copies = []
  | Some sel =>
    if Nat.eqb k sel then copies = [pkt]
    else if has_connected (sn_reg st) && bool_decide (is_Some seq) && probed sel k c
    then exists p, set_srt_data_retransmit pkt = Ret p /\ copies = [p]
    else copies = []
  end.

Lemma select_none conns last now cfg cs :
  select_connection_idx exp conns last now cfg = (cs, None) ->
  match cfg_mode cfg with
  | Classic => forall k c, cs !! k = Some c -> classic_eligible now c = true -> weighted_score c < 0
  | Enhanced =>
    let gated := apply_stall_gate conns now cfg in
    let au := existsb (unconstrained now) gated in
    forall k c, enhanced_pool gated now !! k = Some c -> rankable now au c = true ->
      fgt (rank_score exp now (effective_quality_enabled cfg) au c).2 (f_of_Z (-1)) = false
  end.
Proof.
  unfold select_connection_idx. destruct (cfg_mode cfg).
  - intros [= <- Hn] k c Hk He. pose proof (classic_scan (map clear_quality_gate_state (apply_stall_gate conns now cfg)) now) as H.
    unfold classic_select_connection in Hn. unfold classic_best in H. rewrite Hn in H.
    destruct H as [_ H]. specialize (H k c Hk He). lia.
  - set (gated := apply_stall_gate conns now cfg). intros H. cbv zeta.
    destruct (enhanced_choice exp gated last now (effective_quality_enabled cfg)) as (st & Hst & Hc).
    rewrite H in Hc. cbn [snd] in Hc.
    pose proof (hysteresis_spec _ _ _ _ _ _ _ Hst) as Hh. by rewrite <- Hc in Hh.
Qed.

Lemma schedule_none conns last pkt seq now cfg crit cs :
  schedule exp conns last pkt seq now cfg crit = Ret (cs, None) ->
  select_connection_idx exp conns last now cfg = (cs, None).
Proof.
  unfold schedule. destruct (select_connection_idx exp conns last now cfg) as [cs0 sel].
  destruct (if bool_decide (is_Some seq) then _ else _) as [[]|]; cbn [mbind res_bind]; [| |done].
  - destruct (select_best_path_override_idx _ _ _); [case_bool_decide as E|]; intros [= -> ->]; [done|done].
  - by intros [= -> ->].
Qed.

Lemma position_none {A} (p : A -> bool) l : position p l = None -> forall k x, l !! k = Some x -> p x = false.
Proof.
  induction l as [|y l IH]; intros H k x; [done|]. cbn in H. destruct (p y) eqn:Ey; [done|].
  destruct (position p l); [done|]. destruct k; [by intros [= <-]|]. by apply IH.
Qed.

Lemma pre_registration_none conns last now :
  select_pre_registration_connection conns last now = None ->
  forall k c, conns !! k = Some c -> is_timed_out c now = true.
Proof.
  unfold select_pre_registration_connection. intros H k c Hk. apply negb_false_iff.
  revert k c Hk. apply position_none. destruct (_ ≫= _) as [[i d]|]; [|done]. by destruct (_ && _).
Qed.

Lemma pre_registration_range conns last now i :
  select_pre_registration_connection conns last now = Some i -> (i < length conns)%nat.
Proof.
  unfold select_pre_registration_connection. intros H.
  assert (position (fun c => negb (is_timed_out c now)) conns = Some i -> (i < length conns)%nat) as Hp
    by (intros (c & Hl & _)%position_Some; by apply lookup_lt_Some in Hl).
  destruct last as [l|]; cbn in H; [|by apply Hp]. destruct (conns !! l) as [c|] eqn:El; cbn in H; [|by apply Hp].
  destruct (_ && _); [|by apply Hp]. injection H as ->. by apply lookup_lt_Some in El.
Qed.

(** The destination exists, is a link, and is missing only without a carrier. *)
Lemma destination_spec st pkt seq now :
  Forall conn_ok (sn_conns st) ->
  exists cs dest, destination st pkt seq now = Ret (cs, dest) /\ Forall2 sel_frame (sn_conns st) cs /\
    Forall conn_ok cs /\ match dest with Some i => (i < length cs)%nat | None => no_carrier st cs now end.
Proof.
  intros Hc. unfold destination, no_carrier. destruct (has_connected (sn_reg st)).
  - destruct (schedule_frame exp (sn_conns st) (sn_last_selected st) pkt seq now (snapshot (sn_config st))
      (sn_critical st)) as (cs & dest & Hs & Hf). exists cs, dest. rewrite Hs. split; [done|]. split; [done|].
    split; [by apply (sel_frames_ok _ _ Hf)|]. destruct dest as [i|].
    + rewrite <- (Forall2_length _ _ _ Hf). by eapply schedule_range.
    + apply (select_none _ (sn_last_selected st)). by eapply schedule_none.
  - do 2 eexists. split; [reflexivity|]. split; [apply Forall_Forall2_diag, Forall_true; intros c; reflexivity|].
    split; [done|]. destruct (select_pre_registration_connection _ _ _) as [i|] eqn:E.
    + by apply pre_registration_range in E.
    + exact (pre_registration_none _ _ _ E).
Qed.
(** The handler goes where [destination] says; only a registered bond probes. *)
Definition probe_phase (st : SenderState) (sel : nat) (pkt : bytes) (seq : option Z) (conns : list SrtlaConnection)
    (t : SequenceTracker) (env : Env) : res (list SrtlaConnection * SequenceTracker * list (nat * bytes)) :=
  match seq with
  | Some s => if has_connected (sn_reg st) then send_stall_probes sel 0 pkt s conns t (env_now env) env
              else Ret (conns, t, [])
  | None => Ret (conns, t, [])
  end.

Lemma handle_by_destination st pkt src env seq cs dest :
  pkt <> [] -> get_srt_sequence_number pkt = Ret seq -> destination st pkt seq (env_now env) = Ret (cs, dest) ->
  handle_srt_packet exp st pkt src env =
  match dest with
  | None => Ret (st <| sn_conns := cs |> <| sn_client := Some src |>, [])
  | Some sel =>
    '(conns, last, t, sent) ← forward_via_connection sel pkt seq cs (sn_last_selected st) (sn_tracker st) (env_now env) env;
    '(conns, t, probes) ← probe_phase st sel pkt seq conns t env;
    Ret (st <| sn_conns := conns |> <| sn_last_selected := last |> <| sn_tracker := t |> <| sn_client := Some src |>,
         sent ++ probes)
  end.
Proof.
  intros Hp Hseq Hd. unfold handle_srt_packet, probe_phase, destination in *.
  rewrite bool_decide_eq_false_2, Hseq by done. cbn [mbind res_bind].
  destruct (has_connected (sn_reg st)); cbn [negb]; [by rewrite Hd|].
  injection Hd as <- ->. destruct dest as [sel|]; [|by destruct st].
  destruct (forward_via_connection _ _ _ _ _ _ _ _) as [[[[conns l] t] sent]|]; [|done]. cbn [mbind res_bind].
  destruct seq; cbn [mbind res_bind]; by rewrite app_nil_r.
Qed.

Lemma probe_phase_spec st sel pkt seq conns t env :
  Forall conn_ok conns ->
  exists conns' t' sent, probe_phase st sel pkt seq conns t env = Ret (conns', t', sent) /\
    (sockets_ok env -> t' = t) /\
    forall k c, conns !! k = Some c -> exists c', conns' !! k = Some c' /\
      if has_connected (sn_reg st) && bool_decide (is_Some seq) then probe_effect env sel k pkt c c' (sent_on k sent)
      else c' = c /\ sent_on k sent = [].
Proof.
  intros Hc. unfold probe_phase. destruct seq as [s|].
  2:{ exists conns, t, []. split; [done|]. split; [done|]. intros k c Hk. exists c. by rewrite andb_false_r. }
  destruct (has_connected (sn_reg st)).
  - destruct (probes_spec sel pkt s (env_now env) env conns 0 t Hc) as (cs & t' & sent & -> & H1 & _ & H2).
    exists cs, t', sent. split; [done|]. split; [done|]. intros k c Hk.
    rewrite bool_decide_eq_true_2 by (by eexists). exact (H2 k c Hk).
  - exists conns, t, []. split; [done|]. split; [done|]. intros k c Hk. by exists c.
Qed.

(** Forwarding followed by a probing phase that leaves the link alone. *)
Lemma stream_quiet env k c c' d sent rest copies :
  link_stream env k c c' sent copies -> rest = [] -> queued d = queued c' -> connected d = connected c' ->
  link_stream env k c d (sent ++ rest) copies.
Proof. intros (lost & H1 & H2) -> Hq Hn. exists lost. by rewrite app_nil_r, Hq, Hn. Qed.

Lemma stream_idle env k c c1 d : queued c1 = queued c -> queued d = queued c1 -> link_stream env k c d [] [].
Proof. intros Hq Hd. exists []. by rewrite Hd, Hq, app_nil_r. Qed.

(** The stream of each link after forwarding to [sel] and probing. *)
Lemma routed_streams st pkt seq sel env (cs conns' : list SrtlaConnection) probes c0 c1 sent1 k c ck :
  cs !! sel = Some c0 -> link_stream env sel c0 c1 sent1 [pkt] ->
  (forall k c, <[sel := c1]> cs !! k = Some c -> exists c', conns' !! k = Some c' /\
     if has_connected (sn_reg st) && bool_decide (is_Some seq) then probe_effect env sel k pkt c c' (sent_on k probes)
     else c' = c /\ sent_on k probes = []) ->
  cs !! k = Some ck -> queued ck = queued c ->
  exists c' copies, conns' !! k = Some c' /\ copies_on st pkt seq (Some sel) k ck copies /\
    link_stream env k c c' (sent_on k (map (pair sel) sent1 ++ probes)) copies.
Proof.
  intros Hc0 Hs Hpr Hk Hq. rewrite sent_on_app. unfold copies_on. destruct (Nat.eqb_spec k sel) as [->|Hne].
  - assert (ck = c0) as -> by congruence. destruct (Hpr sel c1) as (c' & H1 & H2);
      [apply list_lookup_insert_eq; by apply lookup_lt_Some in Hc0|].
    exists c', [pkt]. split; [done|]. split; [done|]. rewrite sent_on_self.
    assert (link_stream env sel c c1 sent1 [pkt]) as Hs' by (destruct Hs as (lost & ? & ?); exists lost; by rewrite <- Hq).
    destruct (_ && _).
    + unfold probe_effect, probed, probe_eligible in H2. rewrite Nat.eqb_refl in H2. cbn [negb andb] in H2.
      destruct H2 as (? & ? & ?). by apply (stream_quiet env sel c c1).
    + destruct H2 as [-> ?]. by apply (stream_quiet env sel c c1).
  - destruct (Hpr k ck) as (c' & H1 & H2); [by rewrite list_lookup_insert_ne|].
    rewrite sent_on_pair, (proj2 (Nat.eqb_neq sel k)) by congruence. cbn [app]. exists c'.
    destruct (_ && _); cbn [andb].
    + unfold probe_effect in H2. destruct (probed sel k ck).
      * destruct H2 as (p & Hp & lost & G1 & G2). exists [p]. split; [done|]. split; [by exists p|].
        exists lost. by rewrite <- Hq.
      * destruct H2 as (-> & G & _). exists []. split; [done|]. split; [done|]. by apply (stream_idle env k c ck).
    + destruct H2 as [-> ->]. exists []. split; [done|]. split; [done|]. by apply (stream_idle env k c ck).
Qed.
End Contract.

(** C2: where a client packet goes, exactly, in every well formed state and
    whatever the sockets answer.  Its destination is the choice of the scheduler,
    or before registration the first link that is alive.  Without a destination
    no link could carry it, and nothing is sent, tracked or queued.  With one,
    that link gets the packet as the last element of its stream; every other
    link gets one copy marked as a retransmission exactly when the bond is
    registered, the packet is data, and the link is connected, held out of the
    rotation and due for a probe; otherwise its stream is untouched.  The
    streams keep everything that was queued before, in order; only a link whose
    socket refuses a batch loses the rest of that batch, and it is then
    disconnected with an empty queue.  When no socket refuses, the tracker names
    the destination for the sequence number. *)
Theorem packet_routed_once (exp : f64 -> f64) (st : SenderState) (pkt : bytes) (src : Z) (env : Env) :
  sender_ok st -> pkt <> [] ->
  exists seq cs dest st' sent, get_srt_sequence_number pkt = Ret seq /\
    destination exp st pkt seq (env_now env) = Ret (cs, dest) /\
    handle_srt_packet exp st pkt src env = Ret (st', sent) /\ sn_client st' = Some src /\
    match dest with
    | None => no_carrier exp st cs (env_now env) /\ sent = [] /\ sn_tracker st' = sn_tracker st /\
        sn_last_selected st' = sn_last_selected st
    | Some sel => sn_last_selected st' = Some sel /\ exists csel, sn_conns st !! sel = Some csel /\
        (sockets_ok env -> match seq with
           | Some s => conn_id csel <> 0 -> tracker_get (sn_tracker st') s (env_now env) = Ret (Some (conn_id csel))
           | None => sn_tracker st' = sn_tracker st
           end)
    end /\
    forall k c, sn_conns st !! k = Some c -> exists c1 c' copies, cs !! k = Some c1 /\ sn_conns st' !! k = Some c' /\
      copies_on st pkt seq dest k c1 copies /\ link_stream env k c c' (sent_on k sent) copies.
Proof.
  intros (Hc & Ht & Hd) Hp. destruct (sequence_number_total pkt) as [seq Hseq].
  destruct (destination_spec exp st pkt seq (env_now env) Hc) as (cs & dest & Hdest & Hf & Hcs & Hspec).
  pose proof (handle_by_destination exp st pkt src env seq cs dest Hp Hseq Hdest) as Hh.
  exists seq, cs, dest. rewrite Hdest. destruct dest as [sel|].
  2:{ do 2 eexists. split; [done|]. split; [done|]. split; [exact Hh|]. split; [done|]. split; [done|].
      intros k c Hk. destruct (frames_lookup _ _ _ _ Hf Hk) as (c1 & Hk1 & Hq & _). exists c1, c1, [].
      split; [done|]. split; [done|]. split; [done|]. by apply (stream_idle env k c c1). }
  apply lookup_lt_is_Some_2 in Hspec as [c0 Hc0].
  destruct (forward_spec sel pkt seq cs (sn_last_selected st) (sn_tracker st) (env_now env) env c0 Hc0
    (Forall_lookup_1 _ _ _ _ Hcs Hc0) Ht) as (c1 & t1 & sent1 & Hfw & Hstream & Hins).
  destruct (forward_ok sel pkt seq cs (sn_last_selected st) (sn_tracker st) (env_now env) env Hcs Ht)
    as (cs1 & l1 & t1' & snt & Hfw' & Hcs1 & _).
  rewrite Hfw in Hfw', Hh. injection Hfw' as <- _ _ _. cbn [mbind res_bind] in Hh.
  destruct (probe_phase_spec st sel pkt seq (<[sel := c1]> cs) t1 env Hcs1) as (cs2 & t2 & probes & Hpr & Ht2 & Hall).
  rewrite Hpr in Hh. cbn [mbind res_bind] in Hh.
  do 2 eexists. split; [done|]. split; [done|]. split; [exact Hh|]. split; [done|]. split.
  - split; [done|]. destruct (lookup_lt_is_Some_2 (sn_conns st) sel) as [csel Hsel];
      [rewrite (Forall2_length _ _ _ Hf); by apply lookup_lt_Some in Hc0|].
    exists csel. split; [done|]. intros Hio. cbn. rewrite (Ht2 Hio). specialize (Hins Hio).
    destruct (frames_lookup _ _ _ _ Hf Hsel) as (d & Hd1 & _ & Hid). assert (d = c0) as -> by congruence.
    destruct seq as [s|]; [|done]. rewrite Hid in Hins. intros Hnz. exact (tracker_insert_get _ _ _ _ _ Ht Hins Hnz).
  - intros k c Hk. destruct (frames_lookup _ _ _ _ Hf Hk) as (ck & Hk1 & Hq & _). exists ck.
    destruct (routed_streams st pkt seq sel env cs cs2 probes c0 c1 sent1 k c ck Hc0 Hstream Hall Hk1 Hq) as (c' & cp & ?).
    exists c', cp. by split.
Qed.

(** A registered sender of two links, the second held out of the rotation by
    its quality and due for a probe; its socket refuses every batch, but its
    queue is not full. *)
Definition demo_sender : SenderState :=
  mkSender [registered_now (new_registering 7 0 0) 10;
            registered_now (new_registering 8 0 0 <| weak := true |> <| weak_reason := HighRtt |>
              <| stall_probe_counter := 1000 |>) 10]
    (reg_new id_a id_a <| has_connected := true |>)
    tracker_new dedup_new dynamic_new critical_new None None.
Definition demo_env : Env := mkEnv 20 (fun i => Some (if Nat.eqb i 1 then SendFailed 0 else SendAll)) (fun _ => 20).
Definition demo_packet : bytes := [0; 0; 0; 5; 0; 0; 0; 0].

Lemma packet_routed_once_witness :
  exists st' sent, handle_srt_packet (fun x => x) demo_sender demo_packet 1 demo_env = Ret (st', sent) /\
    sn_last_selected st' = Some 0%nat.
Proof.
  destruct (packet_routed_once (fun x => x) demo_sender demo_packet 1 demo_env)
    as (seq & cs & dest & st' & sent & Hseq & Hd & H & _ & Hm & _).
  - split; [|split; [apply length_replicate|apply dedup_new_ok]].
    constructor; [apply registered_now_ok, new_registering_ok|].
    constructor; [apply registered_now_ok; exact (new_registering_ok 8 0 0)|constructor].
  - discriminate.
  - exists st', sent. split; [exact H|].
    assert (get_srt_sequence_number demo_packet = Ret (Some 5)) as H5 by reflexivity.
    rewrite H5 in Hseq. injection Hseq as <-.
    assert (match destination (fun x => x) demo_sender demo_packet (Some 5) (env_now demo_env) with
            | Ret (_, d) => d | Panic => None end = Some 0%nat) as Hd0 by (vm_compute; reflexivity).
    rewrite Hd in Hd0. cbn in Hd0. rewrite Hd0 in Hm. exact (proj1 Hm).
Defined.

(** The same packet, evaluated: the unique copy on the first link, the marked
    copy (bit 2 of byte 4) on the second. *)
Example packet_routed_demo :
  match handle_srt_packet (fun x => x) demo_sender demo_packet 1 demo_env with
  | Ret (st', sent) => Some (map queued (sn_conns st'), sent)
  | Panic => None
  end = Some ([[demo_packet]; [[0; 0; 0; 5; 4; 0; 0; 0]]], []).
Proof. vm_compute. reflexivity. Qed.
