(* ===== verification/Housekeeping.v ===== *)
(** * Housekeeping and re-homing (src/sender/housekeeping.rs, rehome.rs, connections.rs)

    The one-second tick: drive the registration handshake, reconnect links that
    timed out, send keepalives, recover windows, and watch for the death of the
    whole bond.  A bond that has been dead for ten seconds is moved to the
    receiver's new address when DNS says it moved, else the tick reports an
    error.  Socket rebuilds, sends and the DNS answer are outcomes; random bytes
    and the clock are arguments.  The I/O map is kept for the remote address of
    each link; reader tasks are not modelled. *)
From Stdlib Require Import Sorting.Sorted.
From S2P Require Import Prelude F64 Wire Seq Filters Rtt Batch Pacing Congestion Config Connection Selection SelectionSpec SelectionFrame Registration Tracker Dedup Uplink Sender.

Definition GLOBAL_TIMEOUT_MS : Z := 10000.
Definition REHOME_MIN_INTERVAL_MS : Z := 60000.

(** ** rehome.rs: the gate *)
Record RehomeGate := mkGate { gate_enabled : bool; last_probe_ms : option Z; rehomes : Z }.
Global Instance eta_gate : Eta RehomeGate := fun g => mkGate (gate_enabled g) (last_probe_ms g) (rehomes g).
Definition gate_new (enabled : bool) : RehomeGate := mkGate enabled None 0.

Definition claim_probe (self : RehomeGate) (now : Z) : RehomeGate * bool :=
  if negb (gate_enabled self) then (self, false)
  else
    match last_probe_ms self with
    | Some last =>
      if sat_sub now last <? REHOME_MIN_INTERVAL_MS then (self, false)
      else (self <| last_probe_ms := Some now |>, true)
    | None => (self <| last_probe_ms := Some now |>, true)
    end.

(** ** connections.rs: drift *)
Definition dns_drift_detected (cached : Z) (fresh : list Z) : bool :=
  negb (bool_decide (fresh = [])) && negb (bool_decide (cached ∈ fresh)).

Definition receiver_moved (current fresh : list Z) : bool :=
  negb (bool_decide (current = [])) && forallb (fun c => dns_drift_detected c fresh) current.

(** The claim of a drift warning on the shared stamp [last] (0: never warned);
    the compare-exchange makes it one atomic step. *)
Definition DNS_DRIFT_WARN_INTERVAL_MS : Z := 60000.
Definition claim_dns_drift_warning (last now : Z) : Z * bool :=
  if negb (last =? 0) && (sat_sub now last <? DNS_DRIFT_WARN_INTERVAL_MS) then (last, false)
  else (Z.max now 1, true).

(** A rebuild that succeeds; the new socket is not part of the state. *)
Definition rebuild_uplink_socket (conn : SrtlaConnection) (t : SequenceTracker) (now : Z)
  : SrtlaConnection * SequenceTracker :=
  let conn := reset_for_reconnect conn now in
  let t := remove_connection t (conn_id conn) in
  (conn <| reconnection ::= fun r => reset_startup_grace r now |>, t).

(** ** State and environment *)
Record HkState := mkHk {
  hk_conns : list SrtlaConnection;
  hk_io : gmap Z Z;
  hk_reg : SrtlaRegistrationManager;
  hk_tracker : SequenceTracker;
  hk_all_failed_at : option Z;
  hk_gate : RehomeGate }.
Global Instance eta_hk : Eta HkState := fun s =>
  mkHk (hk_conns s) (hk_io s) (hk_reg s) (hk_tracker s) (hk_all_failed_at s) (hk_gate s).

Record HkEnv := mkHkEnv {
  he_clock : Z;
  he_rebuild : nat -> bool;
  he_reg_send : nat -> bool;
  he_driver_send : nat -> bool;
  he_broadcast_send : nat -> bool;
  he_resolve : option (list Z);
  he_rehome_rebuild : nat -> bool;
  he_half : bytes;
  he_pid : bytes }.

Inductive HkResult := HkOk | HkErr (was_connected : bool).

(** ** The tick, part by part *)

(** Probing and the grace period of the selected link. *)
Definition drive_probing (reg : SrtlaRegistrationManager) (conns : list SrtlaConnection) (now clock : Z)
  : SrtlaRegistrationManager * list SrtlaConnection :=
  if is_probing reg then
    let reg := (check_probing_complete reg clock).1 in
    if negb (is_probing reg) then
      match reg1_target_idx reg ≫= fun idx => c ← conns !! idx; Some (idx, c) with
      | Some (idx, c) =>
        (reg, <[idx := c <| reconnection ::= fun r =>
                 r <| startup_grace_deadline_ms := u64_wrap (now + STARTUP_GRACE_MS) |> |>]> conns)
      | None => (reg, conns)
      end
    else (reg, conns)
  else (reg, conns).

(** A timed-out link whose retry is due. *)
Definition reconnect_link (env : HkEnv) (io : gmap Z Z) (now : Z) (i : nat) (conn : SrtlaConnection)
    (reg : SrtlaRegistrationManager) (t : SequenceTracker)
  : SrtlaConnection * SrtlaRegistrationManager * SequenceTracker :=
  let conn := record_reconnect_attempt conn now in
  let '(conn, t) :=
    match io !! conn_id conn with
    | Some _ => if he_rebuild env i then rebuild_uplink_socket conn t now else recover_connection conn t
    | None => recover_connection conn t
    end in
  let stamp conn :=
    match io !! conn_id conn with
    | Some _ => if he_reg_send env i then note_sent conn now else conn
    | None => conn
    end in
  match pending_reg2_idx reg with
  | Some idx =>
    if Nat.eqb idx i then let '(reg, _) := build_reg1_for reg i now in (stamp conn, reg, t)
    else (conn, reg, t)
  | None => let '(reg, _) := build_reg2 reg i in (stamp conn, reg, t)
  end.

(** The upkeep of a link that is alive. *)
Definition upkeep_link (classic : bool) (now : Z) (conn : SrtlaConnection) : SrtlaConnection :=
  let conn := if needs_keepalive conn now then (keepalive_packet conn now).1 else conn in
  let conn := if needs_rtt_measurement conn now then (keepalive_packet conn now).1 else conn in
  let conn := if negb classic then conn_perform_window_recovery conn now else conn in
  let conn := calculate_bitrate conn now in
  let conn := update_phase conn now in
  recompute_batch_regime conn.

Definition tick_link (env : HkEnv) (io : gmap Z Z) (classic : bool) (now : Z) (i : nat)
    (conn : SrtlaConnection) (reg : SrtlaRegistrationManager) (t : SequenceTracker)
  : SrtlaConnection * SrtlaRegistrationManager * SequenceTracker :=
  if is_timed_out conn now then
    if conn_should_attempt_reconnect conn now then reconnect_link env io now i conn reg t
    else (conn, reg, t)
  else (upkeep_link classic now conn, reg, t).

Fixpoint tick_links (env : HkEnv) (io : gmap Z Z) (classic : bool) (now : Z) (i : nat)
    (conns : list SrtlaConnection) (reg : SrtlaRegistrationManager) (t : SequenceTracker)
  : list SrtlaConnection * SrtlaRegistrationManager * SequenceTracker :=
  match conns with
  | [] => ([], reg, t)
  | c :: conns =>
    let '(c, reg, t) := tick_link env io classic now i c reg t in
    let '(conns, reg, t) := tick_links env io classic now (S i) conns reg t in
    (c :: conns, reg, t)
  end.

(** The driver's sends, stamped on the links they left on. *)
Definition drive_registration (env : HkEnv) (io : gmap Z Z) (now : Z) (conns : list SrtlaConnection)
    (reg : SrtlaRegistrationManager) : list SrtlaConnection * SrtlaRegistrationManager :=
  let reg := update_active_connections reg conns in
  let '(reg, sends) := reg_driver_pending_sends reg (length conns) now in
  let stamp ok i c := if bool_decide (is_Some (io !! conn_id c)) && ok i then note_sent c now else c in
  let conns :=
    match reg1 sends with
    | Some (idx, _) => imap (fun i c => if Nat.eqb i idx then stamp (he_driver_send env) i c else c) conns
    | None => conns
    end in
  let conns :=
    match broadcast_reg2 sends with
    | Some _ => imap (stamp (he_broadcast_send env)) conns
    | None => conns
    end in
  (conns, reg).

(** ** rehome.rs: moving the bond *)
Fixpoint pinned_addrs (io : gmap Z Z) (conns : list SrtlaConnection) (current : list Z) : list Z :=
  match conns with
  | [] => current
  | c :: conns =>
    pinned_addrs io conns (match io !! conn_id c with
                           | Some r => if bool_decide (r ∈ current) then current else current ++ [r]
                           | None => current
                           end)
  end.

Definition repoint (new_remote : Z) (io : gmap Z Z) (conns : list SrtlaConnection) : gmap Z Z :=
  foldl (fun io c => match io !! conn_id c with Some _ => <[conn_id c := new_remote]> io | None => io end) io conns.

Fixpoint rebuild_all (env : HkEnv) (io : gmap Z Z) (now : Z) (i : nat) (conns : list SrtlaConnection)
    (t : SequenceTracker) : list SrtlaConnection * SequenceTracker :=
  match conns with
  | [] => ([], t)
  | c :: conns =>
    let '(c, t) :=
      match io !! conn_id c with
      | Some _ => if he_rehome_rebuild env i then rebuild_uplink_socket c t now else recover_connection c t
      | None => recover_connection c t
      end in
    let '(conns, t) := rebuild_all env io now (S i) conns t in (c :: conns, t)
  end.

Definition rehome_bond (env : HkEnv) (st : HkState) (new_remote now : Z) : HkState :=
  let io := repoint new_remote (hk_io st) (hk_conns st) in
  let '(conns, t) := rebuild_all env io now 0 (hk_conns st) (hk_tracker st) in
  let reg := reset_for_rehome (hk_reg st) (he_half env) (he_pid env) in
  let '(reg, conns, _) := start_probing reg conns now in
  st <| hk_io := io |> <| hk_conns := conns |> <| hk_tracker := t |> <| hk_reg := reg |>.

Definition try_rehome (env : HkEnv) (st : HkState) (now : Z) : HkState * bool :=
  let current := pinned_addrs (hk_io st) (hk_conns st) [] in
  if bool_decide (current = []) then (st, false)
  else
    let '(gate, claimed) := claim_probe (hk_gate st) now in
    let st := st <| hk_gate := gate |> in
    if negb claimed then (st, false)
    else
      match he_resolve env with
      | None => (st, false)
      | Some fresh =>
        if negb (receiver_moved current fresh) then (st, false)
        else
          match fresh with
          | [] => (st, false)
          | new_remote :: _ =>
            let st := rehome_bond env st new_remote now in
            (st <| hk_gate ::= fun g => g <| rehomes ::= fun n => sat_add_u64 n 1 |> |>, true)
          end
      end.

(** ** The whole tick *)
Definition tick_front (env : HkEnv) (st : HkState) (classic : bool) (now : Z) : HkState :=
  let reg := (clear_pending_if_timed_out (hk_reg st) now).1 in
  let '(reg, conns) := drive_probing reg (hk_conns st) now (he_clock env) in
  let '(conns, reg, t) := tick_links env (hk_io st) classic now 0 conns reg (hk_tracker st) in
  let '(conns, reg) := drive_registration env (hk_io st) now conns reg in
  st <| hk_conns := conns |> <| hk_reg := reg |> <| hk_tracker := t |>.

Definition any_active (now : Z) (conns : list SrtlaConnection) : bool :=
  existsb (fun c => negb (is_timed_out c now)) conns.

Definition handle_housekeeping (env : HkEnv) (st : HkState) (classic : bool) (now : Z)
  : HkState * HkResult :=
  let st := tick_front env st classic now in
  if negb (any_active now (hk_conns st)) then
    let st := match hk_all_failed_at st with
              | None => st <| hk_all_failed_at := Some now |>
              | Some _ => st
              end in
    match hk_all_failed_at st with
    | Some failed_at =>
      if sat_sub now failed_at >? GLOBAL_TIMEOUT_MS then
        let '(st, moved) := try_rehome env st now in
        if (moved : bool) then (st <| hk_all_failed_at := Some now |>, HkOk)
        else (st, HkErr (has_connected (hk_reg st)))
      else (st, HkOk)
    | None => (st, HkOk)
    end
  else (st <| hk_all_failed_at := None |>, HkOk).

(** ** Well-formedness *)
Lemma rebuild_ok c t now :
  conn_ok c -> tracker_ok t ->
  conn_ok (rebuild_uplink_socket c t now).1 /\ tracker_ok (rebuild_uplink_socket c t now).2.
Proof.
  intros Hc Ht. unfold rebuild_uplink_socket. cbn [fst snd].
  split; [by apply reconnection_ok, reset_for_reconnect_ok|by apply remove_connection_ok].
Qed.

Lemma recover_ok c t :
  conn_ok c -> tracker_ok t -> conn_ok (recover_connection c t).1 /\ tracker_ok (recover_connection c t).2.
Proof.
  intros Hc Ht. unfold recover_connection. cbn [fst snd].
  split; [by apply mark_for_recovery_ok|by apply remove_connection_ok].
Qed.

Lemma upkeep_ok classic now c : conn_ok c -> conn_ok (upkeep_link classic now c).
Proof.
  intros H. unfold upkeep_link.
  set (c1 := if needs_keepalive c now then _ else c).
  assert (conn_ok c1) as H1 by (unfold c1; destruct (needs_keepalive c now); [by apply keepalive_packet_ok|done]).
  clearbody c1. set (c2 := if needs_rtt_measurement c1 now then _ else c1).
  assert (conn_ok c2) as H2 by (unfold c2; destruct (needs_rtt_measurement c1 now); [by apply keepalive_packet_ok|done]).
  clearbody c2. set (c3 := if negb classic then _ else c2).
  assert (conn_ok c3) as H3 by (unfold c3; destruct (negb classic); [by apply conn_perform_window_recovery_ok|done]).
  clearbody c3.
  destruct (conn_step_ok c3 (OBitrate now) H3) as (c4 & [= <-] & H4).
  pose proof (update_phase_ok _ now H4) as H5.
  by destruct (conn_step_ok _ OBatchRegime H5) as (c6 & [= <-] & H6).
Qed.

Lemma reconnect_link_ok env io now i c reg t :
  conn_ok c -> tracker_ok t ->
  conn_ok (reconnect_link env io now i c reg t).1.1 /\ tracker_ok (reconnect_link env io now i c reg t).2.
Proof.
  intros Hc Ht. unfold reconnect_link.
  assert (conn_ok (record_reconnect_attempt c now)) as Hc1 by (by apply reconnection_ok).
  generalize dependent (record_reconnect_attempt c now). intros c1 Hc1.
  set (p := match io !! conn_id c1 with Some _ => _ | None => _ end).
  assert (conn_ok p.1 /\ tracker_ok p.2) as [H1 H2].
  { unfold p. destruct (io !! conn_id c1); [destruct (he_rebuild env i)|]; auto using rebuild_ok, recover_ok. }
  clearbody p. destruct p as [c2 t2]. cbn [fst snd] in *.
  assert (forall b : option Z, conn_ok (match b with Some _ => if he_reg_send env i then note_sent c2 now else c2 | None => c2 end)) as Hs
    by (intros [|]; [destruct (he_reg_send env i); [by apply note_sent_ok|done]|done]).
  destruct (pending_reg2_idx reg) as [idx|]; [|by split; [apply Hs|]].
  destruct (Nat.eqb idx i); split; try done. apply Hs.
Qed.

Lemma tick_links_ok env io classic now conns : forall i reg t,
  Forall conn_ok conns -> tracker_ok t ->
  Forall conn_ok (tick_links env io classic now i conns reg t).1.1 /\
  tracker_ok (tick_links env io classic now i conns reg t).2 /\
  length (tick_links env io classic now i conns reg t).1.1 = length conns.
Proof.
  induction conns as [|c conns IH]; intros i reg t Hc Ht; cbn [tick_links]; [done|].
  apply Forall_cons in Hc as [Hc Hcs].
  assert (conn_ok (tick_link env io classic now i c reg t).1.1 /\ tracker_ok (tick_link env io classic now i c reg t).2) as [H1 H2].
  { unfold tick_link. destruct (is_timed_out c now); [|by split; [apply upkeep_ok|]].
    destruct (conn_should_attempt_reconnect c now); [by apply reconnect_link_ok|done]. }
  destruct (tick_link env io classic now i c reg t) as [[c' reg'] t']. cbn [fst snd] in *.
  destruct (IH (S i) reg' t' Hcs H2) as (G1 & G2 & G3).
  destruct (tick_links env io classic now (S i) conns reg' t') as [[cs reg''] t'']. cbn [fst snd] in *.
  split; [by constructor|]. split; [done|]. cbn. lia.
Qed.

Lemma imap_ok (f : nat -> SrtlaConnection -> SrtlaConnection) conns :
  (forall i c, conn_ok c -> conn_ok (f i c)) -> Forall conn_ok conns -> Forall conn_ok (imap f conns).
Proof.
  intros Hf H. revert f Hf. induction H as [|c conns Hc _ IH]; intros f Hf; [done|].
  constructor; [by apply Hf|]. apply IH. intros i d Hd. by apply Hf.
Qed.

Lemma drive_registration_ok env io now conns reg :
  Forall conn_ok conns -> Forall conn_ok (drive_registration env io now conns reg).1.
Proof.
  intros Hc. unfold drive_registration.
  destruct (reg_driver_pending_sends (update_active_connections reg conns) (length conns) now) as [reg' sends]. cbn [fst].
  assert (forall (ok : nat -> bool) i c, conn_ok c ->
    conn_ok (if bool_decide (is_Some (io !! conn_id c)) && ok i then note_sent c now else c)) as Hs
    by (intros ok i c H; destruct (_ && _); [by apply note_sent_ok|done]).
  assert (Forall conn_ok (match reg1 sends with
    | Some (idx, _) => imap (fun i c => if Nat.eqb i idx
        then if bool_decide (is_Some (io !! conn_id c)) && he_driver_send env i then note_sent c now else c else c) conns
    | None => conns end)) as H1.
  { destruct (reg1 sends) as [[idx p]|]; [|done]. apply imap_ok; [|done]. intros i c H.
    destruct (Nat.eqb i idx); [by apply Hs|done]. }
  destruct (broadcast_reg2 sends); [|done]. apply imap_ok; [|done]. intros i c H. by apply Hs.
Qed.

Lemma drive_probing_ok reg conns now clock :
  Forall conn_ok conns -> Forall conn_ok (drive_probing reg conns now clock).2.
Proof.
  intros Hc. unfold drive_probing. destruct (is_probing reg); [|done]. destruct (negb _); [|done].
  destruct (_ ≫= _) as [[idx c]|] eqn:E; [|done].
  apply bind_Some in E as (idx' & _ & E). destruct (conns !! idx') as [c'|] eqn:El; [|done].
  injection E as <- <-. apply Forall_insert; [done|]. apply reconnection_ok. exact (Forall_lookup_1 _ _ _ _ Hc El).
Qed.

Lemma tick_front_ok env st classic now :
  Forall conn_ok (hk_conns st) -> tracker_ok (hk_tracker st) ->
  Forall conn_ok (hk_conns (tick_front env st classic now)) /\ tracker_ok (hk_tracker (tick_front env st classic now)) /\
  hk_gate (tick_front env st classic now) = hk_gate st /\ hk_io (tick_front env st classic now) = hk_io st /\
  hk_all_failed_at (tick_front env st classic now) = hk_all_failed_at st.
Proof.
  intros Hc Ht. unfold tick_front.
  pose proof (drive_probing_ok (clear_pending_if_timed_out (hk_reg st) now).1 (hk_conns st) now (he_clock env) Hc) as H1.
  destruct (drive_probing _ _ _ _) as [reg1 cs1]. cbn [snd] in H1.
  pose proof (tick_links_ok env (hk_io st) classic now cs1 0 reg1 (hk_tracker st) H1 Ht) as (H2 & H3 & _).
  destruct (tick_links _ _ _ _ _ _ _ _) as [[cs2 reg2] t2]. cbn [fst snd] in *.
  pose proof (drive_registration_ok env (hk_io st) now cs2 reg2 H2) as H4.
  destruct (drive_registration _ _ _ _ _) as [cs3 reg3]. cbn [fst] in H4. done.
Qed.

Lemma rebuild_all_ok env io now conns : forall i t,
  Forall conn_ok conns -> tracker_ok t ->
  Forall conn_ok (rebuild_all env io now i conns t).1 /\ tracker_ok (rebuild_all env io now i conns t).2.
Proof.
  induction conns as [|c conns IH]; intros i t Hc Ht; cbn [rebuild_all]; [done|].
  apply Forall_cons in Hc as [Hc Hcs].
  set (p := match io !! conn_id c with Some _ => _ | None => _ end).
  assert (conn_ok p.1 /\ tracker_ok p.2) as [H1 H2].
  { unfold p. destruct (io !! conn_id c); [destruct (he_rehome_rebuild env i)|]; auto using rebuild_ok, recover_ok. }
  clearbody p. destruct p as [c' t']. cbn [fst snd] in *. destruct (IH (S i) t' Hcs H2) as [G1 G2].
  destruct (rebuild_all env io now (S i) conns t') as [cs t'']. split; [by constructor|done].
Qed.

Lemma start_probing_ok reg conns now :
  Forall conn_ok conns -> Forall conn_ok (start_probing reg conns now).1.2.
Proof.
  intros Hc. unfold start_probing. destruct (_ || _); [done|]. cbn [fst snd].
  unfold probe_all. rewrite <- list_fmap_compose. apply Forall_map. eapply Forall_impl; [exact Hc|].
  intros c H. by destruct (conn_step_ok c (OProbeReg2 (probe_id (reg <| probing_state := Probing |> <| probe_results := [] |>)) now) H)
    as (c' & [= <-] & H').
Qed.

Definition hk_ok (st : HkState) : Prop := Forall conn_ok (hk_conns st) /\ tracker_ok (hk_tracker st).

Lemma rehome_bond_ok env st r now : hk_ok st -> hk_ok (rehome_bond env st r now).
Proof.
  intros [Hc Ht]. unfold rehome_bond.
  pose proof (rebuild_all_ok env (repoint r (hk_io st) (hk_conns st)) now (hk_conns st) 0 (hk_tracker st) Hc Ht) as [H1 H2].
  destruct (rebuild_all _ _ _ _ _ _) as [cs t]. cbn [fst snd] in *.
  pose proof (start_probing_ok (reset_for_rehome (hk_reg st) (he_half env) (he_pid env)) cs now H1) as H3.
  destruct (start_probing _ _ _) as [[reg cs'] ps]. done.
Qed.

Lemma try_rehome_ok env st now : hk_ok st -> hk_ok (try_rehome env st now).1.
Proof.
  intros H. unfold try_rehome. case_bool_decide; [done|].
  destruct (claim_probe (hk_gate st) now) as [g b]. destruct (negb b); [done|].
  destruct (he_resolve env) as [fresh|]; [|done]. destruct (negb _); [done|]. destruct fresh as [|r fresh]; [done|].
  cbn [fst]. set (st2 := rehome_bond _ _ _ _).
  assert (hk_ok st2) as H2 by (apply rehome_bond_ok; exact H). exact H2.
Qed.

Lemma try_rehome_failed_at env st now : hk_all_failed_at (try_rehome env st now).1 = hk_all_failed_at st.
Proof.
  unfold try_rehome. case_bool_decide; [done|].
  destruct (claim_probe (hk_gate st) now) as [g b]. destruct (negb b); [done|].
  destruct (he_resolve env) as [fresh|]; [|done]. destruct (negb _); [done|]. destruct fresh as [|r fresh]; [done|].
  cbn [fst]. unfold rehome_bond. destruct (rebuild_all _ _ _ _ _ _). by destruct (start_probing _ _ _) as [[]].
Qed.

(** What the tail of the tick does, by whether a link is alive. *)
Lemma housekeeping_cases env st classic now :
  hk_ok st ->
  let st1 := tick_front env st classic now in
  let r := handle_housekeeping env st classic now in
  hk_ok r.1 /\
  (any_active now (hk_conns st1) = true ->
     r.2 = HkOk /\ hk_all_failed_at r.1 = None /\ hk_gate r.1 = hk_gate st /\ hk_io r.1 = hk_io st) /\
  (any_active now (hk_conns st1) = false ->
     hk_all_failed_at r.1 = Some (default now (hk_all_failed_at st)) \/ hk_all_failed_at r.1 = Some now) /\
  (r.2 <> HkOk \/ hk_gate r.1 <> hk_gate st \/ hk_io r.1 <> hk_io st ->
     any_active now (hk_conns st1) = false /\
     exists f, hk_all_failed_at st = Some f /\ GLOBAL_TIMEOUT_MS < sat_sub now f).
Proof.
  intros [Hc Ht]. cbv zeta. unfold handle_housekeeping.
  destruct (tick_front_ok env st classic now Hc Ht) as (H1 & H2 & H3 & H4 & H5).
  set (st1 := tick_front env st classic now) in *. clearbody st1.
  destruct (any_active now (hk_conns st1)) eqn:Ea; cbn [negb].
  { cbn [fst snd]. split; [done|]. split; [intros _; split; [done|split; [done|done]]|]. split; [done|].
    cbn. intros [?|[?|?]]; congruence. }
  assert (hk_ok st1) as Hok by done. rewrite H5.
  destruct (hk_all_failed_at st) as [f|] eqn:Ef; cbn [default].
  - rewrite H5. destruct (Z.gtb_spec (sat_sub now f) GLOBAL_TIMEOUT_MS) as [Hgt|Hle].
    + pose proof (try_rehome_ok env st1 now Hok) as Hro. pose proof (try_rehome_failed_at env st1 now) as Hfa.
      destruct (try_rehome env st1 now) as [st2 moved]. cbn [fst] in *.
      split; [by destruct moved|]. split; [done|]. split; [|by eauto].
      intros _. destruct moved; cbn; [by right|left; congruence].
    + cbn [fst snd]. split; [done|]. split; [done|]. split; [by left|]. intros [?|[?|?]]; congruence.
  - change (hk_all_failed_at (st1 <| hk_all_failed_at := Some now |>)) with (Some now). cbv iota beta.
    assert ((sat_sub now now >? GLOBAL_TIMEOUT_MS) = false) as -> by (unfold sat_sub; by rewrite Z.sub_diag).
    cbn [fst snd]. split; [done|]. split; [done|]. split; [by left|]. cbn.
    intros [?|[?|?]]; congruence.
Qed.

(** ** Runs of the tick *)
Record tick_obs := mkObs {
  ob_now : Z; ob_dead : bool; ob_before : HkState; ob_after : HkState; ob_result : HkResult }.

Fixpoint hk_run (st : HkState) (ticks : list (HkEnv * bool * Z)) : list tick_obs :=
  match ticks with
  | [] => []
  | (env, classic, now) :: ticks =>
    let '(st', r) := handle_housekeeping env st classic now in
    mkObs now (negb (any_active now (hk_conns (tick_front env st classic now)))) st st' r :: hk_run st' ticks
  end.

(** The tick gave up, asked DNS, or moved a link. *)
Definition acted (o : tick_obs) : Prop :=
  ob_result o <> HkOk \/ hk_gate (ob_after o) <> hk_gate (ob_before o) \/ hk_io (ob_after o) <> hk_io (ob_before o).

(** All ticks since [f] saw the bond dead. *)
Definition dead_since (f : Z) (seen : list tick_obs) : Prop :=
  exists pre o post, seen = pre ++ o :: post /\ ob_now o = f /\ Forall (fun o => ob_dead o = true) (o :: post).

Lemma hk_run_dead ticks : forall st seen,
  hk_ok st -> (forall f, hk_all_failed_at st = Some f -> dead_since f seen) ->
  forall pre o post, hk_run st ticks = pre ++ o :: post -> acted o ->
  ob_dead o = true /\ exists f, dead_since f (seen ++ pre) /\ GLOBAL_TIMEOUT_MS < sat_sub (ob_now o) f.
Proof.
  induction ticks as [|[[env classic] now] ticks IH]; intros st seen Hok Hf pre o post; cbn [hk_run]; [by destruct pre|].
  pose proof (housekeeping_cases env st classic now Hok) as (Hok' & Halive & Hdead & Hact).
  destruct (handle_housekeeping env st classic now) as [st' r]. cbn [fst snd] in *.
  destruct (any_active now (hk_conns (tick_front env st classic now))) eqn:Ea; cbn [negb] in *.
  - destruct pre as [|o' pre]; intros [= <- Heq] Ha.
    { destruct (Hact Ha) as [Hx _]. done. }
    destruct (Halive eq_refl) as (_ & Hn & _ & _).
    destruct (IH st' (seen ++ [mkObs now false st st' r]) Hok') with (pre := pre) (o := o) (post := post)
      as (H1 & f & H2 & H3); [by rewrite Hn|done|done|]. rewrite <- app_assoc in H2. eauto.
  - destruct pre as [|o' pre]; intros [= <- Heq] Ha.
    { destruct (Hact Ha) as (_ & f & Hfa & Hgt). split; [done|]. exists f. rewrite app_nil_r. split; [by apply Hf|done]. }
    destruct (IH st' (seen ++ [mkObs now true st st' r]) Hok') with (pre := pre) (o := o) (post := post)
      as (H1 & f & H2 & H3); [|done|done|rewrite <- app_assoc in H2; eauto].
    assert (dead_since now (seen ++ [mkObs now true st st' r])) as Hnow.
    { exists seen, (mkObs now true st st' r), []. split; [done|]. split; [done|]. by repeat constructor. }
    intros f Hfs. destruct (Hdead eq_refl) as [Hd|Hd]; [|congruence].
    destruct (hk_all_failed_at st) as [f0|] eqn:E; cbn in Hd; [|congruence].
    assert (f = f0) as -> by congruence. destruct (Hf f0 eq_refl) as (p & o1 & q & -> & <- & Hq).
    exists p, o1, (q ++ [mkObs now true st st' r]). rewrite <- app_assoc. split; [done|]. split; [done|].
    rewrite app_comm_cons. apply Forall_app. split; [done|]. by repeat constructor.
Qed.

(** C10: a bond is given up, looked up in DNS or moved only when it is dead for
    long: over any run of ticks (back to back, the packets between them are
    not part of the run) from a start where no failure is pending, if a
    tick errs, spends a DNS probe or changes a link's remote address, then that
    tick and every tick before it for more than ten seconds found every link
    timed out.  So a live link always protects the bond. *)
Theorem dead_bond_window (st : HkState) (ticks : list (HkEnv * bool * Z)) (pre post : list tick_obs) (o : tick_obs) :
  hk_ok st -> hk_all_failed_at st = None -> hk_run st ticks = pre ++ o :: post -> acted o ->
  ob_dead o = true /\ exists f, dead_since f pre /\ GLOBAL_TIMEOUT_MS < sat_sub (ob_now o) f.
Proof.
  intros Hok Hn Hr Ha. apply (hk_run_dead ticks st [] Hok) with (post := post); [by rewrite Hn|done|done].
Qed.

(** One dead link without a socket, ticked for eleven seconds. *)
Definition dead_bond : HkState :=
  mkHk [mark_for_recovery (new_registering 1 0 0)] ∅ (reg_new id_a id_a) tracker_new None (gate_new true).
Definition idle_env : HkEnv :=
  mkHkEnv 0 (fun _ => false) (fun _ => false) (fun _ => false) (fun _ => false) None (fun _ => false) [] [].
Definition dead_ticks : list (HkEnv * bool * Z) :=
  [(idle_env, false, 1000); (idle_env, false, 6000); (idle_env, false, 12000)].

Lemma dead_bond_window_witness :
  exists pre o, hk_run dead_bond dead_ticks = pre ++ [o] /\ ob_result o = HkErr false /\ ob_dead o = true.
Proof.
  assert (map ob_result (hk_run dead_bond dead_ticks) = [HkOk; HkOk; HkErr false]) as Hm by (vm_compute; reflexivity).
  assert (hk_ok dead_bond) as Hok.
  { split; [constructor; [apply mark_for_recovery_ok, new_registering_ok|constructor]|apply length_replicate]. }
  destruct (hk_run dead_bond dead_ticks) as [|a [|b [|o [|]]]] eqn:E; try discriminate Hm.
  injection Hm as _ _ Hr. exists [a; b], o. split; [reflexivity|]. split; [exact Hr|].
  apply (dead_bond_window dead_bond dead_ticks [a; b] [] o Hok eq_refl E). left. rewrite Hr. discriminate.
Defined.

(** ** Rate limit *)
Fixpoint gate_run (g : RehomeGate) (ts : list Z) : list Z :=
  match ts with
  | [] => []
  | t :: ts => let '(g, ok) := claim_probe g t in if (ok : bool) then t :: gate_run g ts else gate_run g ts
  end.

Lemma gate_run_after ts : forall g last,
  last_probe_ms g = Some last -> Forall (fun t => last + REHOME_MIN_INTERVAL_MS <= t) (gate_run g ts).
Proof.
  induction ts as [|t ts IH]; intros g last Hl; cbn [gate_run]; [done|]. unfold claim_probe. rewrite Hl.
  destruct (negb _); [by apply IH|].
  destruct (Z.ltb_spec (sat_sub t last) REHOME_MIN_INTERVAL_MS) as [|Hge]; [by apply IH|].
  assert (last + REHOME_MIN_INTERVAL_MS <= t) as Ht by (unfold REHOME_MIN_INTERVAL_MS, sat_sub in *; lia).
  constructor; [done|]. eapply Forall_impl; [by apply (IH _ t)|]. unfold REHOME_MIN_INTERVAL_MS in *. cbn. lia.
Qed.

(** DNS is asked at most once a minute: of any sequence of requests to a
    gate the granted ones are pairwise at least 60 s apart, whatever the clock
    does, and a gate that is switched off grants none. *)
Theorem rehome_rate_limited (enabled : bool) (ts : list Z) :
  StronglySorted (fun a b => a + REHOME_MIN_INTERVAL_MS <= b) (gate_run (gate_new enabled) ts) /\
  (enabled = false -> gate_run (gate_new enabled) ts = []).
Proof.
  assert (forall g, StronglySorted (fun a b => a + REHOME_MIN_INTERVAL_MS <= b) (gate_run g ts)) as H.
  { induction ts as [|t ts IH]; intros g; cbn [gate_run]; [constructor|].
    unfold claim_probe. destruct (negb _); [apply IH|].
    destruct (last_probe_ms g) as [last|]; [destruct (_ <? _); [apply IH|]|];
      (constructor; [apply IH|by apply gate_run_after]). }
  split; [apply H|]. intros ->. clear H. induction ts as [|t ts IH]; [done|]. exact IH.
Qed.

(** ** Re-homing *)
Lemma pinned_in io conns : forall current r c,
  c ∈ conns -> io !! conn_id c = Some r -> r ∈ pinned_addrs io conns current.
Proof.
  assert (forall conns current r, r ∈ current -> r ∈ pinned_addrs io conns current) as Hmono.
  { clear conns. induction conns as [|d conns IH]; intros current r Hr; cbn [pinned_addrs]; [done|]. apply IH.
    destruct (io !! conn_id d) as [x|]; [|done]. case_bool_decide; [done|]. apply elem_of_app. by left. }
  induction conns as [|d conns IH]; intros current r c Hc Hr; cbn [pinned_addrs]; [by apply not_elem_of_nil in Hc|].
  apply elem_of_cons in Hc as [->|Hc]; [|by apply (IH _ _ c)]. apply Hmono. rewrite Hr.
  case_bool_decide; [done|]. apply elem_of_app. right. by apply list_elem_of_singleton.
Qed.

Lemma repoint_lookup new conns : forall io id,
  repoint new io conns !! id =
    match io !! id with
    | Some r => Some (if bool_decide (id ∈ map conn_id conns) then new else r)
    | None => None
    end.
Proof.
  unfold repoint. induction conns as [|c conns IH]; intros io id; cbn [foldl map].
  { destruct (io !! id); [|done]. by rewrite bool_decide_eq_false_2 by apply not_elem_of_nil. }
  rewrite IH. destruct (decide (conn_id c = id)) as [<-|Hne].
  - destruct (io !! conn_id c) as [r|] eqn:E; [|by rewrite E]. rewrite lookup_insert_eq.
    rewrite (bool_decide_eq_true_2 (conn_id c ∈ _ :: _)) by (by constructor). by case_bool_decide.
  - replace (match io !! conn_id c with Some _ => <[conn_id c:=new]> io | None => io end !! id) with (io !! id)
      by (destruct (io !! conn_id c); [by rewrite lookup_insert_ne|done]).
    destruct (io !! id); [|done]. f_equal.
    rewrite (bool_decide_ext (id ∈ conn_id c :: map conn_id conns) (id ∈ map conn_id conns)); [done|].
    rewrite elem_of_cons. split; [intros [?|?]; [congruence|done]|by right].
Qed.

(** A link that starts over: disconnected, with nothing in flight, logged or
    queued, and with the grace of a fresh start.  One whose socket was rebuilt has
    its congestion state and its round trips reset as well; the others keep them
    and are left to the reconnect path. *)
Record restarted (now : Z) (rebuilt : bool) (c c' : SrtlaConnection) : Prop := {
  rs_id : conn_id c' = conn_id c;
  rs_ip : local_ip c' = local_ip c;
  rs_connected : connected c' = false;
  rs_phase : phase c' = Registering;
  rs_received : last_received c' = None;
  rs_window : window c' = WINDOW_DEF * WINDOW_MULT;
  rs_in_flight : in_flight_packets c' = 0 /\ packet_log c' = ∅ /\ probe_log c' = ∅;
  rs_queue : queue (batch_sender c') = [];
  rs_acked : highest_acked_seq c' = NO_ACK_YET;
  rs_grace : startup_grace_deadline_ms (reconnection c') = u64_wrap (now + STARTUP_GRACE_MS);
  rs_rebuilt : if rebuilt
    then congestion c' = congestion_reset (congestion c) /\ rtt c' = rtt_reset (rtt c) /\
         last_reconnect_attempt_ms (reconnection c') = now
    else congestion c' = congestion c /\
         last_reconnect_attempt_ms (reconnection c') = last_reconnect_attempt_ms (reconnection c) }.

Definition rebuilds (env : HkEnv) (io : gmap Z Z) (i : nat) (c : SrtlaConnection) : bool :=
  bool_decide (is_Some (io !! conn_id c)) && he_rehome_rebuild env i.

(** The rebuilding pass: every link starts over and owns no sequence number. *)
Lemma rebuild_all_spec env io now conns : forall i t,
  let r := rebuild_all env io now i conns t in
  length r.1 = length conns /\
  (forall k c, conns !! k = Some c -> exists c', r.1 !! k = Some c' /\
     restarted now (rebuilds env io (i + k) c) c (probe_reg2_packet c' [] now).1) /\
  (forall id s tm, id ∈ map conn_id conns \/ tracker_get t s tm <> Ret (Some id) ->
     tracker_get r.2 s tm <> Ret (Some id)).
Proof.
  induction conns as [|c conns IH]; intros i t; cbn [rebuild_all].
  { split; [done|]. split; [by intros k c|]. intros id s tm [H%elem_of_nil|H]; done. }
  set (p := match io !! conn_id c with Some _ => _ | None => _ end).
  assert (restarted now (rebuilds env io i c) c (probe_reg2_packet p.1 [] now).1 /\
    p.2 = remove_connection t (conn_id c)) as [Hp Ht].
  { unfold p, rebuilds. destruct (io !! conn_id c) as [r|] eqn:E; [destruct (he_rehome_rebuild env i)|].
    - rewrite bool_decide_eq_true_2 by (by eexists). by repeat split.
    - rewrite andb_false_r. by repeat split.
    - rewrite bool_decide_eq_false_2 by (intros [? [=]]). by repeat split. }
  clearbody p. destruct p as [c' t']. cbn [fst snd] in *. subst t'.
  destruct (IH (S i) (remove_connection t (conn_id c))) as (H1 & H2 & H3).
  destruct (rebuild_all env io now (S i) conns _) as [cs t'']. cbn [fst snd] in *. split; [cbn; lia|]. split.
  - intros [|k] d; cbn [lookup list_lookup].
    + intros [= <-]. exists c'. by rewrite Nat.add_0_r.
    + intros Hd. rewrite Nat.add_succ_r. exact (H2 k d Hd).
  - intros id s tm H. apply H3. cbn [map] in H. destruct (decide (id = conn_id c)) as [->|Hne].
    + right. apply removed_not_found.
    + destruct H as [[?|H]%elem_of_cons|H]; [done|by left|right; by apply removed_stays].
Qed.

Lemma rehome_bond_io env st new now :
  hk_io (rehome_bond env st new now) = repoint new (hk_io st) (hk_conns st).
Proof. unfold rehome_bond. destruct (rebuild_all _ _ _ _ _ _). by destruct (start_probing _ _ _) as [[? ?] ?]. Qed.

(** The effect of a move, on every part of the state. *)
Record rehomed (env : HkEnv) (now new : Z) (st st' : HkState) : Prop := {
  rh_addresses : forall id, hk_io st' !! id =
    if bool_decide (id ∈ map conn_id (hk_conns st)) then (fun _ => new) <$> hk_io st !! id else hk_io st !! id;
  rh_count : length (hk_conns st') = length (hk_conns st);
  rh_links : forall i c, hk_conns st !! i = Some c -> exists c', hk_conns st' !! i = Some c' /\
    restarted now (rebuilds env (hk_io st) i c) c c';
  rh_tracker : forall c s tm, c ∈ hk_conns st -> tracker_get (hk_tracker st') s tm <> Ret (Some (conn_id c));
  rh_probing : probing_state (hk_reg st') = WaitingForProbes /\ probe_id (hk_reg st') = he_pid env /\
    probe_results (hk_reg st') = imap (fun i _ => mkProbe i now None) (hk_conns st) /\
    pending_timeout_at_ms (hk_reg st') = u64_wrap (now + 2000);
  rh_handshake : pending_reg2_idx (hk_reg st') = None /\ awaiting_reg3 (hk_reg st') = [] /\
    reg1_target_idx (hk_reg st') = None /\ broadcast_reg2_pending (hk_reg st') = false /\
    active_connections (hk_reg st') = 0%nat;
  rh_id : srtla_id (hk_reg st') = take 128 (srtla_id (hk_reg st)) ++ he_half env;
  rh_timer : hk_all_failed_at st' = hk_all_failed_at st }.

Lemma imap_const_length {A B C : Type} (f : nat -> C) (l : list A) (l' : list B) : length l = length l' ->
  imap (fun i _ => f i) l = imap (fun i _ => f i) l'.
Proof.
  revert f l'. induction l as [|x l IH]; intros f [|y l'] [=]; [done|]. rewrite !imap_cons. f_equal.
  by apply (IH (fun i => f (S i))).
Qed.

Lemma rehome_bond_effect env st new now :
  hk_conns st <> [] -> rehomed env now new st (rehome_bond env st new now).
Proof.
  intros Hne. unfold rehome_bond.
  assert (forall id, is_Some (repoint new (hk_io st) (hk_conns st) !! id) <-> is_Some (hk_io st !! id)) as Hsome.
  { intros id. rewrite repoint_lookup. destruct (hk_io st !! id); [|done]. split; by eexists. }
  destruct (rebuild_all_spec env (repoint new (hk_io st) (hk_conns st)) now (hk_conns st) 0 (hk_tracker st)) as (H1 & H2 & H3).
  destruct (rebuild_all _ _ _ _ _ _) as [cs t]. cbn [fst snd] in *.
  unfold start_probing. cbn [probing_state active_connections reset_for_rehome].
  change (probing_state (reset_for_rehome (hk_reg st) (he_half env) (he_pid env))) with NotStarted.
  change (active_connections (reset_for_rehome (hk_reg st) (he_half env) (he_pid env))) with 0%nat.
  rewrite bool_decide_eq_true_2, bool_decide_eq_false_2 by (done || lia). cbn [negb orb].
  assert (imap (fun i (_ : SrtlaConnection) => mkProbe i now None) cs <> []) as Hpr
    by (destruct cs; [by destruct (hk_conns st)|done]).
  cbn -[take repoint imap probe_all u64_wrap]. rewrite (bool_decide_eq_false_2 (imap _ cs = [])) by done. cbn -[take repoint imap probe_all u64_wrap].
  split; cbn -[take repoint imap probe_all u64_wrap]; try done.
  - intros id. rewrite repoint_lookup. destruct (hk_io st !! id); by case_bool_decide.
  - unfold probe_all. by rewrite !length_fmap.
  - intros i c Hc. destruct (H2 i c Hc) as (c' & Hc' & Hr). unfold probe_all. rewrite !list_lookup_fmap, Hc'. cbn.
    eexists. split; [reflexivity|]. replace (rebuilds env (hk_io st) i c) with (rebuilds env (repoint new (hk_io st) (hk_conns st)) i c); [exact Hr|].
    unfold rebuilds. f_equal. by apply bool_decide_ext.
  - intros c s tm Hc. apply H3. left. by apply list_elem_of_fmap_2.
  - split_and!; try done. by apply imap_const_length.
Qed.

(** Whether a bond may move: a link has a socket, the gate grants the lookup,
    and the lookup answers with none of the pinned addresses. *)
Definition may_move (env : HkEnv) (st : HkState) (now : Z) : Prop :=
  (exists c, c ∈ hk_conns st /\ is_Some (hk_io st !! conn_id c)) /\ (claim_probe (hk_gate st) now).2 = true /\
  exists fresh, he_resolve env = Some fresh /\ fresh <> [] /\
    forall c r, c ∈ hk_conns st -> hk_io st !! conn_id c = Some r -> r ∉ fresh.

Lemma pinned_only io conns : forall current r, r ∈ pinned_addrs io conns current ->
  r ∈ current \/ exists c, c ∈ conns /\ io !! conn_id c = Some r.
Proof.
  induction conns as [|d conns IH]; intros current r Hr; cbn [pinned_addrs] in Hr; [by left|].
  apply IH in Hr as [Hr|(c & Hc & Hr)]; [|right; exists c; split; [by right|done]].
  destruct (io !! conn_id d) as [x|] eqn:E; [|by left]. case_bool_decide; [by left|].
  apply elem_of_app in Hr as [Hr|Hr]; [by left|]. apply list_elem_of_singleton in Hr as ->. right. exists d. split; [by left|done].
Qed.

Lemma pinned_iff io conns r : r ∈ pinned_addrs io conns [] <-> exists c, c ∈ conns /\ io !! conn_id c = Some r.
Proof.
  split; [intros [H%elem_of_nil|H]%pinned_only; done|]. intros (c & Hc & Hr). by apply (pinned_in io conns [] r c).
Qed.

Lemma receiver_moved_iff io conns fresh :
  receiver_moved (pinned_addrs io conns []) fresh = true <->
  (exists c, c ∈ conns /\ is_Some (io !! conn_id c)) /\ fresh <> [] /\
  forall c r, c ∈ conns -> io !! conn_id c = Some r -> r ∉ fresh.
Proof.
  unfold receiver_moved. rewrite andb_true_iff, negb_true_iff, bool_decide_eq_false, forallb_forall. split.
  - intros [Hne Hall]. destruct (pinned_addrs io conns []) as [|x l] eqn:E; [done|].
    assert (x ∈ pinned_addrs io conns []) as (c & Hc & Hx)%pinned_iff by (rewrite E; by left).
    split; [exists c; split; [done|by eexists]|]. assert (forall r, r ∈ x :: l -> dns_drift_detected r fresh = true) as Hd
      by (intros r Hr%list_elem_of_In; by apply Hall).
    unfold dns_drift_detected in Hd. split.
    + specialize (Hd x ltac:(by left)). apply andb_true_iff in Hd as [Hd _]. by apply negb_true_iff, bool_decide_eq_false in Hd.
    + intros d r Hd' Hr. assert (r ∈ pinned_addrs io conns []) as Hp by (apply pinned_iff; by exists d). rewrite E in Hp.
      specialize (Hd r Hp). apply andb_true_iff in Hd as [_ Hd]. by apply negb_true_iff, bool_decide_eq_false in Hd.
  - intros ((c & Hc & [x Hx]) & Hf & Hall). split.
    + assert (x ∈ pinned_addrs io conns []) as Hp by (apply pinned_iff; by exists c). intros E. rewrite E in Hp. by apply elem_of_nil in Hp.
    + intros r Hr%list_elem_of_In. apply pinned_iff in Hr as (d & Hd & Hr). unfold dns_drift_detected.
      rewrite !bool_decide_eq_false_2; [done|by apply (Hall d r)|done].
Qed.

(** C34: a re-home moves the whole bond or nothing.  It happens exactly when a
    link has a socket, the gate grants the lookup, and the answer is not empty
    and holds none of the addresses the links are pinned to.  Then every link
    with a socket points at the first address of the answer; every link starts
    over, disconnected and with nothing in flight, its socket rebuilt where that
    succeeds and left to the reconnect path where not; the tracker names none of
    them; and the handshake starts over by probing every link, with no REG1, REG2
    or REG3 outstanding, the sender's half of the id kept and the other renewed.
    When it does not happen nothing changes but the stamp of a granted lookup. *)
Theorem rehome_moves_whole_bond (env : HkEnv) (st : HkState) (now : Z) :
  let '(st', moved) := try_rehome env st now in
  (moved = true <-> may_move env st now) /\
  if (moved : bool) then
    exists new rest, he_resolve env = Some (new :: rest) /\ rehomed env now new st st' /\
      hk_gate st' = mkGate (gate_enabled (hk_gate st)) (Some now) (sat_add_u64 (rehomes (hk_gate st)) 1)
  else st' = st <| hk_gate := hk_gate st' |> /\
    (hk_gate st' = hk_gate st \/
     (claim_probe (hk_gate st) now).2 = true /\ hk_gate st' = hk_gate st <| last_probe_ms := Some now |>).
Proof.
  unfold try_rehome, may_move. pose proof (fun fresh => receiver_moved_iff (hk_io st) (hk_conns st) fresh) as Hiff.
  set (current := pinned_addrs (hk_io st) (hk_conns st) []) in *. case_bool_decide as Hcur.
  { split; [|split; [by destruct st|by left]]. split; [done|]. intros ((c & Hc & [r Hr]) & _).
    assert (r ∈ current) as Hp by (apply pinned_iff; by exists c). rewrite Hcur in Hp. by apply elem_of_nil in Hp. }
  assert (forall b, (claim_probe (hk_gate st) now).2 = b -> (claim_probe (hk_gate st) now).1 =
    if b then hk_gate st <| last_probe_ms := Some now |> else hk_gate st) as Hg
    by (intros b <-; unfold claim_probe; destruct (negb _); [done|]; by repeat case_match).
  destruct (claim_probe (hk_gate st) now) as [g b] eqn:Eg. cbn [fst snd] in *. specialize (Hg b eq_refl). subst g.
  destruct b; cbn [negb]; [|split; [by split; [|intros (_ & [=] & _)]|split; [by destruct st|by left]]].
  set (st1 := st <| hk_gate := _ |>).
  assert (st1 = st <| hk_gate := hk_gate st1 |> /\ (hk_gate st1 = hk_gate st \/ true = true /\
    hk_gate st1 = hk_gate st <| last_probe_ms := Some now |>)) as Hstay by (split; [done|by right]).
  destruct (he_resolve env) as [fresh|]; [|split; [split; [done|by intros (_ & _ & ? & [=] & _)]|exact Hstay]].
  destruct (receiver_moved current fresh) eqn:Em; cbn [negb].
  2:{ split; [split; [done|]|exact Hstay]. intros (H1 & _ & f & [= <-] & H2 & H3). rewrite (proj2 (Hiff fresh)) in Em; done. }
  apply Hiff in Em as (H1 & H2 & H3). destruct fresh as [|new rest]; [done|]. split; [split; [|done]|].
  { intros _. split; [done|]. split; [done|]. by exists (new :: rest). }
  exists new, rest. split; [done|].
  assert (hk_conns st1 <> []) as Hne by (destruct H1 as (c & Hc & _); intros E; change (hk_conns st = []) in E; rewrite E in Hc; by apply elem_of_nil in Hc).
  pose proof (rehome_bond_effect env st1 new now Hne) as [R1 R2 R3 R4 R5 R6 R7 R8].
  assert (hk_gate (rehome_bond env st1 new now) = hk_gate st1) as Hgate.
  { unfold rehome_bond. destruct (rebuild_all _ _ _ _ _ _). by destruct (start_probing _ _ _) as [[? ?] ?]. }
  generalize dependent (rehome_bond env st1 new now). intros st2 R1 R2 R3 R4 R5 R6 R7 R8 Hgate. split; [by split|].
  cbn. by rewrite Hgate.
Qed.

(** One dead link pinned to address 5 while DNS answers 6. *)
Definition drifted_bond : HkState :=
  mkHk [mark_for_recovery (new_registering 1 0 0)] {[1 := 5]} (reg_new id_a id_a) tracker_new (Some 0) (gate_new true).
Definition drift_env : HkEnv :=
  mkHkEnv 0 (fun _ => false) (fun _ => false) (fun _ => false) (fun _ => false) (Some [6]) (fun _ => true)
    (replicate 128 1) id_a.

Lemma rehome_moves_whole_bond_witness :
  (try_rehome drift_env drifted_bond 20000).2 = true /\
  hk_io (try_rehome drift_env drifted_bond 20000).1 !! 1 = Some 6.
Proof.
  assert ((try_rehome drift_env drifted_bond 20000).2 = true) as Hm by (vm_compute; reflexivity).
  split; [exact Hm|].
  pose proof (rehome_moves_whole_bond drift_env drifted_bond 20000) as H.
  destruct (try_rehome drift_env drifted_bond 20000) as [st' moved]. cbn [fst snd] in *. subst moved.
  destruct H as (_ & new & rest & Hr & Hall & _). injection Hr as <- <-.
  rewrite (rh_addresses _ _ _ _ _ Hall 1). vm_compute. reflexivity.
Defined.
