(* ===== verification/Drift.v ===== *)
(** * The DNS drift warning (src/sender/connections.rs)

    A reconnect spawns a detached task that looks the receiver's name up again
    and warns when the answer no longer has the pinned address.  The tasks run
    at the same time and share one atomic, the time of the last warning, read
    and compare-exchanged with relaxed ordering: a load may give any value the
    atomic has had (only its modification order is agreed on), a weak
    compare-exchange may fail for no reason and succeeds only on the newest
    value.  A task keeps the clock of its reconnect, however long its lookup
    takes, so the times do not come in order.

    The theorem: the claims are linearizable against the sequential
    [claim_dns_drift_warning] of [Housekeeping]; warnings are a minute apart in
    the clock they were claimed with; and a task that runs alone ends. *)
From S2P Require Import Prelude Wire Seq Connection Registration Tracker Uplink Housekeeping.
From Stdlib Require Import Sorted.
Open Scope Z_scope.

(** ** Lookups *)

(** What [resolve_remote_all] did: it answered after some time, failed, or hung. *)
Inductive Lookup := LkAnswer (took : Z) (addrs : list Z) | LkFailed (took : Z) | LkHung.
Definition RESOLVE_TIMEOUT : Z := 3000.

(** [DnsResolver::resolve], the lookup of the re-home gate: an error, an empty
    answer and a late one are all nothing learnt; with the time it blocked the
    tick. *)
Definition dns_resolve (l : Lookup) : option (list Z) * Z :=
  match l with
  | LkAnswer took addrs =>
    if took >? RESOLVE_TIMEOUT then (None, RESOLVE_TIMEOUT)
    else (if bool_decide (addrs = []) then None else Some addrs, took)
  | LkFailed took => (None, Z.min took RESOLVE_TIMEOUT)
  | LkHung => (None, RESOLVE_TIMEOUT)
  end.

(** A dead bond moves only on an answer that came in time and names another
    receiver, and the tick is held up by at most three seconds. *)
Lemma rehome_needs_answer env st now l : he_resolve env = (dns_resolve l).1 ->
  (dns_resolve l).2 <= RESOLVE_TIMEOUT /\
  ((try_rehome env st now).2 = true ->
   exists took new rest, l = LkAnswer took (new :: rest) /\ took <= RESOLVE_TIMEOUT /\
     receiver_moved (pinned_addrs (hk_io st) (hk_conns st) []) (new :: rest) = true).
Proof.
  intros He. split; [destruct l; cbn; unfold RESOLVE_TIMEOUT; try lia; destruct (Z.gtb_spec took 3000); cbn; lia|].
  unfold try_rehome. case_bool_decide; [done|]. destruct (claim_probe (hk_gate st) now) as [g b]. destruct (negb b); [done|]. rewrite He.
  destruct l as [took addrs|took|]; cbn [dns_resolve fst]; [|done|done]. destruct (Z.gtb_spec took RESOLVE_TIMEOUT) as [|Hle]; [done|].
  cbn [fst]. case_bool_decide as Hn; [done|]. destruct addrs as [|new rest]; [done|].
  change (hk_io (st <| hk_gate := g |>)) with (hk_io st). change (hk_conns (st <| hk_gate := g |>)) with (hk_conns st).
  destruct (receiver_moved _ (new :: rest)) eqn:Em; [|done]. intros _. by exists took, new, rest.
Qed.

(** ** One task *)

(** Where a task stands: looking the name up, before the load, between the load
    and the compare-exchange, or over, with or without a warning. *)
Inductive DriftPc := DcResolving | DcLoad | DcExchange (last : Z) | DcEnd (warned : bool).

Record DriftTask := mkTask { dt_cached : Z; dt_now : Z; dt_pc : DriftPc }.
Global Instance eta_drift : Eta DriftTask := fun t => mkTask (dt_cached t) (dt_now t) (dt_pc t).

(** The lookup came back. *)
Definition resolved (t : DriftTask) (answer : option (list Z)) : DriftTask :=
  t <| dt_pc := match answer with
                | Some fresh => if dns_drift_detected (dt_cached t) fresh then DcLoad else DcEnd false
                | None => DcEnd false
                end |>.

(** Whether a value read means that a warning was given recently. *)
Definition too_soon (now last : Z) : bool := negb (last =? 0) && (sat_sub now last <? DNS_DRIFT_WARN_INTERVAL_MS).

(** The load gave [last]. *)
Definition loaded (t : DriftTask) (last : Z) : DriftTask :=
  t <| dt_pc := if too_soon (dt_now t) last then DcEnd false else DcExchange last |>.

(** ** All tasks and the atomic *)

(** The atomic with its earlier values; [ds_log] lists the claims in the order
    they took effect. *)
Record DriftState := mkDrift {
  ds_newest : Z; ds_older : list Z; ds_tasks : list DriftTask; ds_log : list (nat * Z * bool) }.
Definition drift_init : DriftState := mkDrift 0 [] [] [].

Inductive drift_step : DriftState -> DriftState -> Prop :=
  | DsSpawn v older ts log cached now :
      drift_step (mkDrift v older ts log) (mkDrift v older (ts ++ [mkTask cached now DcResolving]) log)
  | DsResolved v older ts log i t answer :
      ts !! i = Some t -> dt_pc t = DcResolving ->
      drift_step (mkDrift v older ts log) (mkDrift v older (<[i := resolved t answer]> ts) log)
  | DsLoad v older ts log i t last :
      ts !! i = Some t -> dt_pc t = DcLoad -> last ∈ v :: older ->
      drift_step (mkDrift v older ts log)
        (mkDrift v older (<[i := loaded t last]> ts)
           (if too_soon (dt_now t) last then log ++ [(i, dt_now t, false)] else log))
  | DsWon v older ts log i t :
      ts !! i = Some t -> dt_pc t = DcExchange v ->
      drift_step (mkDrift v older ts log)
        (mkDrift (Z.max (dt_now t) 1) (v :: older) (<[i := t <| dt_pc := DcEnd true |>]> ts) (log ++ [(i, dt_now t, true)]))
  | DsRetry v older ts log i t last :
      ts !! i = Some t -> dt_pc t = DcExchange last ->
      drift_step (mkDrift v older ts log) (mkDrift v older (<[i := t <| dt_pc := DcLoad |>]> ts) log).

Definition drift_reach (s : DriftState) : Prop := rtc drift_step drift_init s.

(** ** The sequential reference *)
Fixpoint run_claims (last : Z) (nows : list Z) : Z * list bool :=
  match nows with
  | [] => (last, [])
  | now :: nows =>
    let '(last, won) := claim_dns_drift_warning last now in
    let '(last, wons) := run_claims last nows in (last, won :: wons)
  end.

(** The times of the warnings, in the order they were claimed. *)
Definition warnings (log : list (nat * Z * bool)) : list Z := omap (fun e : nat * Z * bool => if e.2 then Some (Z.max e.1.2 1) else None) log.

Definition spaced (a b : Z) : Prop := a + DNS_DRIFT_WARN_INTERVAL_MS <= b.

Lemma run_claims_app nows more : forall last,
  run_claims last (nows ++ more) =
    let '(last, a) := run_claims last nows in let '(last, b) := run_claims last more in (last, a ++ b).
Proof.
  induction nows as [|now nows IH]; intros last; cbn [app run_claims]; [by destruct (run_claims last more)|].
  destruct (claim_dns_drift_warning last now) as [l won]. rewrite IH. destruct (run_claims l nows) as [l' a].
  by destruct (run_claims l' more).
Qed.

(** ** The invariant *)
Record drift_ok (s : DriftState) : Prop := {
  do_older : Forall (fun x => 0 <= x < ds_newest s) (ds_older s);
  do_newest : 0 <= ds_newest s;
  do_seq : run_claims 0 (map (fun e => e.1.2) (ds_log s)) = (ds_newest s, map snd (ds_log s));
  do_spaced : StronglySorted spaced (warnings (ds_log s)) /\ Forall (fun x => x <= ds_newest s) (warnings (ds_log s)) /\
              (ds_newest s = 0 -> warnings (ds_log s) = []);
  do_pending : forall i t last, ds_tasks s !! i = Some t -> dt_pc t = DcExchange last ->
               last ∈ ds_newest s :: ds_older s /\ too_soon (dt_now t) last = false;
  do_warned : forall i t, ds_tasks s !! i = Some t -> dt_pc t = DcEnd true -> (i, dt_now t, true) ∈ ds_log s;
  do_logged : forall i now b, (i, now, b) ∈ ds_log s ->
              exists t, ds_tasks s !! i = Some t /\ dt_now t = now /\ dt_pc t = DcEnd b;
  do_once : NoDup (map (fun e => e.1.1) (ds_log s)) }.

Lemma lookup_update {A} (l : list A) i x y j z : l !! i = Some x -> <[i := y]> l !! j = Some z ->
  (j = i /\ z = y) \/ (j <> i /\ l !! j = Some z).
Proof.
  intros Hi Hj. destruct (decide (j = i)) as [->|Hn]; [|right; by rewrite list_lookup_insert_ne in Hj by done].
  left. rewrite list_lookup_insert_eq in Hj by (by eapply lookup_lt_Some). by injection Hj.
Qed.

(** A task that moves on without a claim taking effect. *)
Lemma drift_ok_update v older ts log i t t' :
  drift_ok (mkDrift v older ts log) -> ts !! i = Some t -> (forall b, dt_pc t <> DcEnd b) -> dt_now t' = dt_now t ->
  (forall last, dt_pc t' = DcExchange last -> last ∈ v :: older /\ too_soon (dt_now t') last = false) ->
  dt_pc t' <> DcEnd true -> drift_ok (mkDrift v older (<[i := t']> ts) log).
Proof.
  intros [H1 H2 H3 H4 H5 H6 H7 H8] Hi Hrun Hnow Hpend Hw. split; cbn [ds_newest ds_older ds_tasks ds_log] in *; try done.
  - intros j x last Hj Hx. destruct (lookup_update _ _ _ _ _ _ Hi Hj) as [[-> ->]|[_ Hj']]; [by apply Hpend|by apply (H5 j)].
  - intros j x Hj Hx. destruct (lookup_update _ _ _ _ _ _ Hi Hj) as [[-> ->]|[_ Hj']]; [done|by apply H6].
  - intros j now b Hl. destruct (H7 j now b Hl) as (x & Hx & Hn & Hb). exists x. split; [|done].
    rewrite list_lookup_insert_ne; [done|]. intros ->. rewrite Hi in Hx. injection Hx as ->. by destruct (Hrun b).
Qed.

(** A claim that takes effect: the log grows by what the reference answers. *)
Lemma drift_ok_claim v older v' older' ts log i t b :
  drift_ok (mkDrift v older ts log) -> ts !! i = Some t -> (forall b, dt_pc t <> DcEnd b) ->
  claim_dns_drift_warning v (dt_now t) = (v', b) ->
  Forall (fun x => 0 <= x < v') older' -> 0 <= v' -> (forall x, x ∈ v :: older -> x ∈ v' :: older') ->
  drift_ok (mkDrift v' older' (<[i := t <| dt_pc := DcEnd b |>]> ts) (log ++ [(i, dt_now t, b)])).
Proof.
  intros [H1 H2 H3 H4 H5 H6 H7 H8] Hi Hrun Hc Ho Hv Hsub. cbn [ds_newest ds_older ds_tasks ds_log] in *.
  assert (forall now b', (i, now, b') ∉ log) as Hfresh.
  { intros now b' Hl. destruct (H7 i now b' Hl) as (x & Hx & _ & Hb). rewrite Hi in Hx. injection Hx as ->. by destruct (Hrun b'). }
  split; cbn [ds_newest ds_older ds_tasks ds_log].
  - done.
  - done.
  - rewrite !map_app, run_claims_app, H3. cbn [map fst snd run_claims]. by rewrite Hc.
  - destruct H4 as (S1 & S2 & S3). unfold warnings in *. rewrite omap_app. cbn [omap list_omap fst snd].
    revert Hc. unfold claim_dns_drift_warning. destruct (negb (v =? 0) && _) eqn:Es; intros [= <- <-].
    { cbn. by rewrite app_nil_r. }
    assert (Forall (fun x => spaced x (Z.max (dt_now t) 1)) (omap (fun e : nat * Z * bool => if e.2 then Some (Z.max e.1.2 1) else None) log)) as Hsp.
    { destruct (Z.eqb_spec v 0) as [->|Hv0]; [by rewrite S3|]. cbn [negb andb] in Es. apply Z.ltb_ge in Es. unfold sat_sub, DNS_DRIFT_WARN_INTERVAL_MS in Es.
      eapply Forall_impl; [exact S2|]. intros x Hx. unfold spaced, DNS_DRIFT_WARN_INTERVAL_MS. cbn in Hx. lia. }
    split_and!.
    + clear -S1 Hsp. induction S1 as [|x l S1 IH Hx]; cbn [app]; [by repeat constructor|]. apply Forall_cons in Hsp as [Hx' Hl].
      constructor; [by apply IH|]. apply Forall_app. split; [done|]. by constructor.
    + apply Forall_app. split; [|constructor; [lia|constructor]]. eapply Forall_impl; [exact Hsp|]. intros x Hx. unfold spaced, DNS_DRIFT_WARN_INTERVAL_MS in Hx. lia.
    + intros Hz. lia.
  - intros j x last Hj Hx. destruct (lookup_update _ _ _ _ _ _ Hi Hj) as [[-> ->]|[_ Hj']]; [done|].
    destruct (H5 j x last Hj' Hx). auto.
  - intros j x Hj Hx. apply elem_of_app. destruct (lookup_update _ _ _ _ _ _ Hi Hj) as [[-> ->]|[_ Hj']]; [|left; by apply H6].
    right. cbn in Hx |- *. injection Hx as ->. by apply list_elem_of_singleton.
  - intros j now b' [Hl|Hl]%elem_of_app.
    + destruct (H7 j now b' Hl) as (x & Hx & Hn & Hb). exists x. split; [|done].
      rewrite list_lookup_insert_ne; [done|]. intros ->. by destruct (Hfresh now b').
    + apply list_elem_of_singleton in Hl. injection Hl as -> -> ->. exists (t <| dt_pc := DcEnd b |>). split; [|done].
      apply list_lookup_insert_eq. by eapply lookup_lt_Some.
  - rewrite map_app. apply NoDup_app. split_and!; [done| |apply NoDup_singleton].
    intros j Hj%list_elem_of_In%in_map_iff. destruct Hj as ([[j' now] b'] & <- & Hl%list_elem_of_In). cbn.
    intros ->%list_elem_of_singleton. by apply (Hfresh now b').
Qed.

Lemma drift_step_ok s s' : drift_step s s' -> drift_ok s -> drift_ok s'.
Proof.
  intros Hs Hok. destruct Hs as [v older ts log cached now|v older ts log i t answer Hi Hpc|v older ts log i t last Hi Hpc Hlast
    |v older ts log i t Hi Hpc|v older ts log i t last Hi Hpc].
  - destruct Hok as [H1 H2 H3 H4 H5 H6 H7 H8]. split; cbn [ds_newest ds_older ds_tasks ds_log] in *; try done.
    + intros i t last Ht Hpc. apply lookup_app_Some in Ht as [Ht|[_ Ht]]; [by apply (H5 i)|].
      apply list_lookup_singleton_Some in Ht as [_ <-]. done.
    + intros i t Ht Hpc. apply lookup_app_Some in Ht as [Ht|[_ Ht]]; [by apply H6|]. apply list_lookup_singleton_Some in Ht as [_ <-]. done.
    + intros i n b Hl. destruct (H7 i n b Hl) as (t & Ht & Hx). exists t. split; [|done]. by apply lookup_app_l_Some.
  - apply (drift_ok_update _ _ _ _ _ t); try done; [by rewrite Hpc| |]; cbn [dt_pc resolved upd]; destruct answer as [fresh|]; try done;
      by destruct (dns_drift_detected _ _).
  - unfold loaded. destruct (too_soon (dt_now t) last) eqn:Es.
    + destruct Hok as [H1 H2 H3 H4 H5 H6 H7 H8] eqn:E. clear E. cbn [ds_newest ds_older ds_tasks ds_log] in *.
      apply (drift_ok_claim v older); try done; [by rewrite Hpc|]. unfold claim_dns_drift_warning.
      assert (too_soon (dt_now t) v = true) as Hv; [|unfold too_soon in Hv; by rewrite Hv].
      apply elem_of_cons in Hlast as [->|Hold]; [done|]. rewrite Forall_forall in H1. specialize (H1 last Hold).
      unfold too_soon in *. apply andb_true_iff in Es as [Ez%negb_true_iff%Z.eqb_neq Ed%Z.ltb_lt].
      apply andb_true_iff. split; [apply negb_true_iff, Z.eqb_neq; lia|]. apply Z.ltb_lt. unfold sat_sub in *. lia.
    + apply (drift_ok_update _ _ _ _ _ t); try done; [by rewrite Hpc|]. intros l [= <-]. done.
  - pose proof (do_pending _ Hok i t v Hi Hpc) as [_ Es]. pose proof (do_older _ Hok) as H1. pose proof (do_newest _ Hok) as H2.
    cbn [ds_newest ds_older] in *. unfold too_soon in Es.
    assert (v < Z.max (dt_now t) 1) as Hlt.
    { destruct (Z.eqb_spec v 0) as [->|]; [lia|]. cbn [negb andb] in Es. apply Z.ltb_ge in Es. unfold sat_sub, DNS_DRIFT_WARN_INTERVAL_MS in Es. lia. }
    apply (drift_ok_claim v older); try done; [by rewrite Hpc| | |lia|].
    + unfold claim_dns_drift_warning. by rewrite Es.
    + constructor; [lia|]. eapply Forall_impl; [exact H1|]. cbn. lia.
    + intros x Hx. apply elem_of_cons. by right.
  - apply (drift_ok_update _ _ _ _ _ t); try done. by rewrite Hpc.
Qed.

Lemma drift_reach_ok s : drift_reach s -> drift_ok s.
Proof.
  intros Hr. cut (drift_ok drift_init); [induction Hr as [|s s' s'' Hs _ IH]; intros H; [done|by eapply IH, drift_step_ok]|].
  split; cbn; try done; [split_and!; [constructor|constructor|done]|by intros ? ? ? ?%elem_of_nil|constructor].
Qed.

(** From the load on, a task that is left alone ends. *)
Lemma drift_solo v older ts log i t : ts !! i = Some t -> dt_pc t = DcLoad ->
  exists s' b, rtc drift_step (mkDrift v older ts log) s' /\ ds_tasks s' = <[i := t <| dt_pc := DcEnd b |>]> ts.
Proof.
  intros Hi Hpc. pose proof (DsLoad v older ts log i t v Hi Hpc (list_elem_of_here _ _)) as Hs. unfold loaded in Hs.
  destruct (too_soon (dt_now t) v).
  - eexists _, false. split; [by apply rtc_once|done].
  - assert (<[i := t <| dt_pc := DcExchange v |>]> ts !! i = Some (t <| dt_pc := DcExchange v |>)) as Hi'
      by (apply list_lookup_insert_eq; by eapply lookup_lt_Some).
    pose proof (DsWon v older _ log i _ Hi' eq_refl) as Hw.
    eexists _, true. split; [eapply rtc_l; [exact Hs|by apply rtc_once]|]. cbn [ds_tasks]. by rewrite list_insert_insert_eq.
Qed.

(** C35: the claims on the drift warning are linearizable, although the tasks run
    at the same time, load stale values and carry clocks that are out of order.
    In every state they reach, the claims answered so far are, in the order they
    took effect, those of the sequential claim started at zero, and the atomic
    holds what it would hold; the warnings are at least a minute apart; each
    task claims at most once and has warned exactly if its claim was granted;
    and a task past its lookup ends if it is left alone. *)
Theorem drift_claims_linearizable (s : DriftState) (Hr : drift_reach s) :
  run_claims 0 (map (fun e => e.1.2) (ds_log s)) = (ds_newest s, map snd (ds_log s)) /\
  StronglySorted spaced (warnings (ds_log s)) /\
  NoDup (map (fun e => e.1.1) (ds_log s)) /\
  (forall i t, ds_tasks s !! i = Some t -> dt_pc t = DcEnd true <-> (i, dt_now t, true) ∈ ds_log s) /\
  (forall i t, ds_tasks s !! i = Some t -> dt_pc t = DcLoad \/ (exists last, dt_pc t = DcExchange last) ->
   exists s' b, rtc drift_step s s' /\ ds_tasks s' = <[i := t <| dt_pc := DcEnd b |>]> (ds_tasks s)).
Proof.
  pose proof (drift_reach_ok s Hr) as [H1 H2 H3 (H4 & _ & _) H5 H6 H7 H8]. split_and!; try done.
  - intros i t Hi. split; [by apply H6|]. intros Hl. destruct (H7 i _ _ Hl) as (x & Hx & _ & Hb). congruence.
  - intros i t Hi Hpc. destruct s as [v older ts log]. cbn [ds_tasks] in *.
    destruct Hpc as [Hpc|[last Hpc]]; [by apply drift_solo|].
    pose proof (DsRetry v older ts log i t last Hi Hpc) as Hs.
    destruct (drift_solo v older (<[i := t <| dt_pc := DcLoad |>]> ts) log i (t <| dt_pc := DcLoad |>)) as (s' & b & Hs' & Ht).
    { apply list_lookup_insert_eq. by eapply lookup_lt_Some. }
    { done. }
    exists s', b. split; [by eapply rtc_l|]. rewrite Ht. by rewrite list_insert_insert_eq.
Qed.

(** Three uplinks reconnect, two in the same millisecond and one whose lookup
    took so long that its clock is behind: one warning. *)
Definition drift_demo : DriftState :=
  mkDrift 70000 [0]
    [mkTask 9 70000 (DcEnd true); mkTask 9 70000 (DcEnd false); mkTask 9 10 DcLoad]
    [(0%nat, 70000, true); (1%nat, 70000, false)].

Lemma drift_demo_reach : drift_reach drift_demo.
Proof.
  unfold drift_reach. eapply rtc_l; [apply (DsSpawn _ _ _ _ 9 70000)|]. eapply rtc_l; [apply (DsSpawn _ _ _ _ 9 70000)|].
  eapply rtc_l; [apply (DsSpawn _ _ _ _ 9 10)|].
  eapply rtc_l; [by eapply (DsResolved _ _ _ _ 0 _ (Some [5]))|]. eapply rtc_l; [by eapply (DsResolved _ _ _ _ 1 _ (Some [5]))|].
  eapply rtc_l; [by eapply (DsResolved _ _ _ _ 2 _ (Some [5]))|].
  eapply rtc_l; [by eapply (DsLoad _ _ _ _ 0 _ 0); [done|done|left]|]. eapply rtc_l; [by eapply (DsLoad _ _ _ _ 1 _ 0); [done|done|left]|].
  eapply rtc_l; [by eapply (DsWon _ _ _ _ 0)|]. eapply rtc_l; [by eapply (DsRetry _ _ _ _ 1)|].
  eapply rtc_l; [by eapply (DsLoad _ _ _ _ 1 _ 70000); [done|done|left]|]. apply rtc_refl.
Qed.

Lemma drift_claims_linearizable_witness :
  run_claims 0 [70000; 70000] = (70000, [true; false]) /\ StronglySorted spaced (warnings (ds_log drift_demo)).
Proof. destruct (drift_claims_linearizable drift_demo drift_demo_reach) as (H1 & H2 & _). split; [exact H1|exact H2]. Defined.
