(* ===== verification/Reload.v ===== *)
(** * The IP list (src/sender/reload.rs)

    The file of source addresses, read at start and again on SIGHUP: one
    [<ip>[ <weight>]] per line.  Text is a list of Unicode scalar values.  What
    the parser uses of Rust's standard library is written out: [str::lines],
    [trim], [split_whitespace], the unsigned integer parser and the address
    parser [IpAddr::from_str].

    The theorems: a reload is refused exactly when no line holds an address,
    with the reason the code documents, and an applied list is the file's
    addresses in order with weights normalised to 1..10; a list of IPv4
    addresses with weights that is printed is read back. *)
From S2P Require Import Prelude Config Connection.

Abbreviation chars := (list Z).

(** ** Strings *)
Definition is_whitespace (c : Z) : bool :=
  ((9 <=? c) && (c <=? 13)) || (c =? 32) || (c =? 0x85) || (c =? 0xA0) || (c =? 0x1680) ||
  ((0x2000 <=? c) && (c <=? 0x200A)) || (c =? 0x2028) || (c =? 0x2029) || (c =? 0x202F) || (c =? 0x205F) || (c =? 0x3000).

Fixpoint drop_while (p : Z -> bool) (l : chars) : chars :=
  match l with
  | c :: rest => if p c then drop_while p rest else l
  | [] => []
  end.

Definition trim (l : chars) : chars := rev (drop_while is_whitespace (rev (drop_while is_whitespace l))).

(** [str::lines]: a line feed ends a line, a carriage return before it is dropped. *)
Definition strip_cr (line : chars) : chars :=
  match rev line with
  | c :: r => if c =? 13 then rev r else line
  | [] => line
  end.

Fixpoint lines_from (cur : chars) (text : chars) : list chars :=
  match text with
  | [] => match cur with [] => [] | _ => [cur] end
  | c :: rest => if c =? 10 then strip_cr cur :: lines_from [] rest else lines_from (cur ++ [c]) rest
  end.
Definition lines (text : chars) : list chars := lines_from [] text.

Fixpoint fields_from (cur : chars) (text : chars) : list chars :=
  match text with
  | [] => match cur with [] => [] | _ => [cur] end
  | c :: rest =>
    if is_whitespace c then match cur with [] => fields_from [] rest | _ => cur :: fields_from [] rest end
    else fields_from (cur ++ [c]) rest
  end.
Definition split_whitespace (text : chars) : list chars := fields_from [] text.

(** [char::to_digit]. *)
Definition to_digit (radix c : Z) : option Z :=
  let d :=
    if (48 <=? c) && (c <=? 57) then Some (c - 48)
    else if (97 <=? c) && (c <=? 122) then Some (c - 97 + 10)
    else if (65 <=? c) && (c <=? 90) then Some (c - 65 + 10)
    else None in
  match d with Some d => if d <? radix then Some d else None | None => None end.

(** [str::parse::<u64>]: an optional plus sign, digits, checked arithmetic. *)
Fixpoint u64_digits (acc : Z) (l : chars) : option Z :=
  match l with
  | [] => Some acc
  | c :: rest =>
    match to_digit 10 c with
    | Some d => let n := acc * 10 + d in if n <=? u64_max then u64_digits n rest else None
    | None => None
    end
  end.

Definition parse_u64 (l : chars) : option Z :=
  match l with
  | [] => None
  | [c] => if (c =? 43) || (c =? 45) then None else u64_digits 0 l
  | c :: rest => if c =? 43 then u64_digits 0 rest else u64_digits 0 l
  end.

(** ** Addresses *)
Inductive IpAddr := V4 (a b c d : Z) | V6 (groups : list Z).
Global Instance IpAddr_eq_dec : EqDecision IpAddr.
Proof. solve_decision. Defined.

(** The address as one number, as the connection stores it. *)
Definition ip_key (ip : IpAddr) : Z :=
  match ip with
  | V4 a b c d => ((a * 256 + b) * 256 + c) * 256 + d
  | V6 gs => two32 + foldl (fun acc g => acc * 65536 + g) 0 gs
  end.

Definition read_given_char (c : Z) (l : chars) : option chars :=
  match l with x :: rest => if x =? c then Some rest else None | [] => None end.

Fixpoint digit_loop (radix : Z) (max_digits : nat) (result : Z) (digit_count : nat) (l : chars)
  : option (Z * nat * chars) :=
  match l with
  | c :: rest =>
    match to_digit radix c with
    | Some digit =>
      if Nat.ltb max_digits (S digit_count) then None
      else digit_loop radix max_digits (result * radix + digit) (S digit_count) rest
    | None => Some (result, digit_count, l)
    end
  | [] => Some (result, digit_count, [])
  end.

(** [limit] is the largest value of the number type. *)
Definition read_number (radix : Z) (max_digits : nat) (allow_zero_prefix : bool) (limit : Z) (l : chars)
  : option (Z * chars) :=
  let has_leading_zero := match l with c :: _ => c =? 48 | [] => false end in
  match digit_loop radix max_digits 0 0 l with
  | None => None
  | Some (result, digit_count, rest) =>
    if Nat.eqb digit_count 0 then None
    else if negb allow_zero_prefix && has_leading_zero && Nat.ltb 1 digit_count then None
    else if result <=? limit then Some (result, rest) else None
  end.

Definition read_separator {A} (sep : Z) (index : nat) (inner : chars -> option (A * chars)) (l : chars)
  : option (A * chars) :=
  match index with O => inner l | S _ => match read_given_char sep l with Some r => inner r | None => None end end.

Definition read_octet (index : nat) : chars -> option (Z * chars) := read_separator 46 index (read_number 10 3 false 255).

Definition read_ipv4_addr (l : chars) : option ((Z * Z * Z * Z) * chars) :=
  match read_octet 0 l with
  | Some (a, l) =>
    match read_octet 1 l with
    | Some (b, l) =>
      match read_octet 2 l with
      | Some (c, l) => match read_octet 3 l with Some (d, l) => Some ((a, b, c, d), l) | None => None end
      | None => None
      end
    | None => None
    end
  | None => None
  end.

(** [n] groups may still be read, [i] were; the flag says that an embedded IPv4
    address ended the list. *)
Fixpoint read_groups (n i : nat) (l : chars) : list Z * bool * chars :=
  match n with
  | O => ([], false, l)
  | S more =>
    match (if Nat.leb 1 more then read_separator 58 i read_ipv4_addr l else None) with
    | Some ((one, two, three, four), r) => ([one * 256 + two; three * 256 + four], true, r)
    | None =>
      match read_separator 58 i (read_number 16 4 true 65535) l with
      | Some (g, r) => let '(gs, v4, r) := read_groups more (S i) r in (g :: gs, v4, r)
      | None => ([], false, l)
      end
    end
  end.

Definition read_ipv6_addr (l : chars) : option (list Z * chars) :=
  let '(head, head_ipv4, l) := read_groups 8 0 l in
  if Nat.eqb (length head) 8 then Some (head, l)
  else if head_ipv4 then None
  else
    match read_given_char 58 l with
    | Some l =>
      match read_given_char 58 l with
      | Some l =>
        let '(tail, _, l) := read_groups (8 - (length head + 1)) 0 l in
        Some (head ++ replicate (8 - length head - length tail) 0 ++ tail, l)
      | None => None
      end
    | None => None
    end.

(** [IpAddr::from_str]: the whole text must be read. *)
Definition ip_from_str (l : chars) : option IpAddr :=
  match read_ipv4_addr l with
  | Some ((a, b, c, d), []) => Some (V4 a b c d)
  | Some (_, _ :: _) => None
  | None => match read_ipv6_addr l with Some (gs, []) => Some (V6 gs) | _ => None end
  end.

(** ** The file *)
Inductive ReloadRefusal := NotFound | Empty | NoValidIps (first_invalid_line : Z).

Inductive IpReload :=
  | Apply (ips : list IpAddr) (weights : list Z) (first_invalid_line : option Z)
  | Refuse (reason : ReloadRefusal).

Definition parse_ip_line (line : chars) : option (IpAddr * Z) :=
  match split_whitespace line with
  | [] => None
  | first :: rest =>
    match ip_from_str first with
    | None => None
    | Some ip =>
      let weight :=
        match rest with
        | [] => LINK_WEIGHT_MIN
        | raw :: _ =>
          match parse_u64 raw with
          | None => LINK_WEIGHT_MIN
          | Some w => if w =? 0 then LINK_WEIGHT_MIN else if w >? LINK_WEIGHT_MAX then LINK_WEIGHT_MAX else w
          end
        end in
      match rest with
      | _ :: _ :: _ => None
      | _ => Some (ip, weight)
      end
    end
  end.

(** The loop over the lines: addresses, weights, first invalid line, content seen. *)
Definition reload_line (acc : list IpAddr * list Z * option Z * bool) (idx : nat) (line : chars)
  : list IpAddr * list Z * option Z * bool :=
  let '(ips, weights, first_invalid_line, saw_content) := acc in
  let trimmed := trim line in
  if bool_decide (trimmed = []) then acc
  else
    match parse_ip_line trimmed with
    | Some (ip, weight) => (ips ++ [ip], weights ++ [weight], first_invalid_line, true)
    | None =>
      (ips, weights,
       match first_invalid_line with None => Some (Z.of_nat idx + 1) | Some n => Some n end, true)
    end.

Fixpoint reload_lines (acc : list IpAddr * list Z * option Z * bool) (idx : nat) (ls : list chars)
  : list IpAddr * list Z * option Z * bool :=
  match ls with [] => acc | l :: rest => reload_lines (reload_line acc idx l) (S idx) rest end.

Definition analyze_ip_reload_text (text : chars) : IpReload :=
  let '(ips, weights, first_invalid_line, saw_content) := reload_lines ([], [], None, false) 0 (lines text) in
  let weights := normalise_link_weights weights in
  if bool_decide (ips = []) then
    if (saw_content : bool) then Refuse (NoValidIps (default 1 first_invalid_line)) else Refuse Empty
  else Apply ips weights first_invalid_line.

(** [analyze_ip_reload], given what reading the file returned. *)
Definition analyze_ip_reload (read_to_string : option chars) : IpReload :=
  match read_to_string with
  | Some text => analyze_ip_reload_text text
  | None => Refuse NotFound
  end.

(** [read_weighted_ip_list] at start: a refusal is an empty list. *)
Definition read_weighted_ip_list (read_to_string : option chars) : option (list IpAddr * list Z) :=
  match read_to_string with
  | None => None
  | Some text =>
    match analyze_ip_reload_text text with
    | Apply ips weights _ => Some (ips, weights)
    | Refuse _ => Some ([], [])
    end
  end.

(** ** The guard *)

(** The non-blank lines, numbered from one. *)
Fixpoint content (idx : nat) (ls : list chars) : list (Z * chars) :=
  match ls with
  | [] => []
  | l :: rest => (if bool_decide (trim l = []) then [] else [(Z.of_nat idx + 1, trim l)]) ++ content (S idx) rest
  end.

Definition valid_lines (c : list (Z * chars)) : list (IpAddr * Z) := omap (fun x => parse_ip_line x.2) c.
Definition invalid_line (c : list (Z * chars)) : option Z :=
  fst <$> List.find (fun x => bool_decide (parse_ip_line x.2 = None)) c.

Lemma reload_lines_spec ls : forall idx ips ws fi saw,
  reload_lines (ips, ws, fi, saw) idx ls =
    (ips ++ map fst (valid_lines (content idx ls)), ws ++ map snd (valid_lines (content idx ls)),
     match fi with Some n => Some n | None => invalid_line (content idx ls) end,
     saw || negb (bool_decide (content idx ls = []))).
Proof.
  induction ls as [|l ls IH]; intros idx ips ws fi saw; cbn [reload_lines content].
  { change (valid_lines []) with (@nil (IpAddr * Z)). cbn [map]. rewrite !app_nil_r.
    rewrite (bool_decide_eq_true_2 ([] = [])) by done. rewrite orb_false_r. by destruct fi. }
  unfold reload_line. case_bool_decide as Ht; [by rewrite IH|].
  cbn [app]. unfold valid_lines, invalid_line. cbn [omap list_omap List.find snd].
  destruct (parse_ip_line (trim l)) as [[ip w]|] eqn:Ep.
  - rewrite IH. rewrite (bool_decide_eq_false_2 (Some (ip, w) = None)) by done. cbn [map fst snd].
    rewrite <- !app_assoc. cbn [app]. by rewrite (bool_decide_eq_false_2 (_ :: _ = [])), orb_true_r by done.
  - rewrite IH. rewrite (bool_decide_eq_true_2 (None = None)) by done.
    rewrite (bool_decide_eq_false_2 (_ :: _ = [])), orb_true_r by done. by destruct fi.
Qed.

Lemma fold_min_spec l x : let m := fold_left Z.min l x in (m = x \/ m ∈ l) /\ m <= x /\ Forall (fun y => m <= y) l.
Proof.
  revert x. induction l as [|y l IH]; intros x; cbn [fold_left]; [split; [by left|]; split; [lia|done]|].
  destruct (IH (Z.min x y)) as (H1 & H2 & H3). split.
  - destruct H1 as [->|H1]; [|by right; right]. destruct (Z.min_spec x y) as [[_ ->]|[_ ->]]; [by left|right; left].
  - split; [lia|]. constructor; [lia|done].
Qed.

(** Weights after normalisation: 1 to 10, the lowest 1, differences kept. *)
Lemma normalise_spec ws : ws <> [] ->
  exists low, 1 <= low <= 10 /\
    normalise_link_weights ws = map (fun w => clamp_Z w 1 10 - low + 1) ws /\
    Forall (fun w => 1 <= w <= 10) (normalise_link_weights ws) /\ 1 ∈ normalise_link_weights ws.
Proof.
  intros Hne. unfold normalise_link_weights, LINK_WEIGHT_MIN, LINK_WEIGHT_MAX.
  assert (exists low, list_min (map (fun w => clamp_Z w 1 10) ws) = Some low /\
    low ∈ map (fun w => clamp_Z w 1 10) ws /\ Forall (fun w => low <= clamp_Z w 1 10) ws) as (low & -> & Hlow & Hall).
  { destruct ws as [|w0 ws]; [done|].
    exists (fold_left Z.min (map (fun w => clamp_Z w 1 10) ws) (clamp_Z w0 1 10)). split; [reflexivity|].
    destruct (fold_min_spec (map (fun w => clamp_Z w 1 10) ws) (clamp_Z w0 1 10)) as (Hin & Hle & Hall).
    split; [destruct Hin as [->|Hin]; [by left|by right]|]. constructor; [done|]. by rewrite Forall_map in Hall. }
  apply list_elem_of_fmap in Hlow as (w1 & Hw1 & Hin1).
  assert (1 <= low <= 10) as Hlb by (unfold clamp_Z in Hw1; lia).
  assert (map (fun w => u8_wrap (u8_wrap (w - low) + 1)) (map (fun w => clamp_Z w 1 10) ws) =
          map (fun w => clamp_Z w 1 10 - low + 1) ws) as E.
  { rewrite map_map. apply map_ext_Forall. eapply Forall_impl; [exact Hall|]. cbv beta. intros w Hw.
    assert (1 <= clamp_Z w 1 10 <= 10) by (unfold clamp_Z; lia). generalize dependent (clamp_Z w 1 10). intros x Hx H.
    unfold u8_wrap. rewrite (Z.mod_small (x - low)) by lia. by rewrite Z.mod_small by lia. }
  exists low. split; [done|]. rewrite E. split; [done|]. split.
  - rewrite Forall_map. eapply Forall_impl; [exact Hall|]. cbn. intros w Hw. unfold clamp_Z in *. lia.
  - apply list_elem_of_fmap. exists w1. split; [lia|done].
Qed.

(** The reload guard.  A text is refused exactly when no line of it holds an
    address: as empty when every line is blank, else naming the first non-blank
    line.  Otherwise its addresses are applied in file order with the first
    invalid line reported, and the weights handed on number as many as the
    addresses, all lie in 1..10 and the lowest is 1.  An unreadable file is
    refused, so a reload never yields an empty link list. *)
Theorem reload_guard (read : option chars) :
  match read with
  | None => analyze_ip_reload read = Refuse NotFound
  | Some text =>
    let c := content 0 (lines text) in
    let v := valid_lines c in
    match v, c with
    | [], [] => analyze_ip_reload read = Refuse Empty
    | [], (n, _) :: _ => analyze_ip_reload read = Refuse (NoValidIps n)
    | _ :: _, _ =>
      exists ws, analyze_ip_reload read = Apply (map fst v) ws (invalid_line c) /\
        length ws = length v /\ Forall (fun w => 1 <= w <= 10) ws /\ 1 ∈ ws
    end
  end.
Proof.
  destruct read as [text|]; [|done]. cbn [analyze_ip_reload]. unfold analyze_ip_reload_text.
  rewrite reload_lines_spec. cbn [app orb]. set (c := content 0 (lines text)). cbv zeta.
  destruct (valid_lines c) as [|[ip w] v] eqn:Ev.
  - cbn [map]. rewrite bool_decide_eq_true_2 by done. destruct c as [|[n l] c]; [done|].
    cbn [negb]. rewrite bool_decide_eq_false_2 by done. cbn [negb].
    unfold invalid_line. cbn [List.find snd]. unfold valid_lines in Ev. cbn [omap list_omap snd] in Ev.
    destruct (parse_ip_line l) eqn:Ep; [done|]. by rewrite bool_decide_eq_true_2.
  - rewrite bool_decide_eq_false_2 by done. eexists. split; [reflexivity|].
    destruct (normalise_spec (map snd ((ip, w) :: v))) as (low & _ & -> & H2 & H3); [done|].
    split; [by rewrite !length_map|]. done.
Qed.

(** ** Printing a list and reading it back *)
Definition show_u8 (n : Z) : chars :=
  if n <? 10 then [48 + n]
  else if n <? 100 then [48 + n / 10; 48 + n mod 10]
  else [48 + n / 100; 48 + n / 10 mod 10; 48 + n mod 10].

Definition show_ipv4 (a b c d : Z) : chars := show_u8 a ++ 46 :: show_u8 b ++ 46 :: show_u8 c ++ 46 :: show_u8 d.

Record IpEntry := mkIpEntry { e_a : Z; e_b : Z; e_c : Z; e_d : Z; e_weight : Z }.
Definition entry_ok (e : IpEntry) : Prop :=
  0 <= e_a e <= 255 /\ 0 <= e_b e <= 255 /\ 0 <= e_c e <= 255 /\ 0 <= e_d e <= 255 /\ 1 <= e_weight e <= 10.
Definition entry_ip (e : IpEntry) : IpAddr := V4 (e_a e) (e_b e) (e_c e) (e_d e).

(** One line, without its line feed. *)
Definition show_line (e : IpEntry) : chars :=
  show_ipv4 (e_a e) (e_b e) (e_c e) (e_d e) ++ 32 :: show_u8 (e_weight e).
Definition show_list (l : list IpEntry) : chars := flat_map (fun e => show_line e ++ [10]) l.

(** A digit or a dot. *)
Definition plain (c : Z) : Prop := 48 <= c <= 57 \/ c = 46.

Lemma show_u8_digits n : 0 <= n <= 255 -> show_u8 n <> [] /\ Forall (fun c => 48 <= c <= 57) (show_u8 n).
Proof.
  intros Hn. unfold show_u8. destruct (Z.ltb_spec n 10); [split; [done|repeat constructor; lia]|].
  destruct (Z.ltb_spec n 100); (split; [done|]); repeat constructor; zlia.
Qed.

Lemma to_digit_dec c : 48 <= c <= 57 -> to_digit 10 c = Some (c - 48).
Proof.
  intros H. unfold to_digit. rewrite (proj2 (Z.leb_le 48 c)), (proj2 (Z.leb_le c 57)) by lia. cbn [andb].
  by rewrite (proj2 (Z.ltb_lt _ _)) by lia.
Qed.

(** Text after which no digit follows. *)
Definition no_digit (rest : chars) : Prop := match rest with [] => True | c :: _ => to_digit 10 c = None end.

Lemma digit_loop_stop m r k rest : no_digit rest -> digit_loop 10 m r k rest = Some (r, k, rest).
Proof. destruct rest as [|c rest]; cbn; [done|]. by intros ->. Qed.

Lemma read_octet_show n rest : 0 <= n <= 255 -> no_digit rest ->
  read_number 10 3 false 255 (show_u8 n ++ rest) = Some (n, rest).
Proof.
  intros Hn Hr. unfold read_number, show_u8. destruct (Z.ltb_spec n 10); [|destruct (Z.ltb_spec n 100)]; cbn [app digit_loop];
    rewrite !to_digit_dec by zlia; cbn [Nat.ltb Nat.leb]; rewrite digit_loop_stop by done; cbn [Nat.eqb Nat.ltb Nat.leb negb andb].
  - rewrite andb_false_r. replace (0 * 10 + (48 + n - 48)) with n by lia. by rewrite (proj2 (Z.leb_le _ _)) by lia.
  - replace (48 + n / 10 =? 48) with false by (symmetry; apply Z.eqb_neq; zlia). cbn [andb].
    replace ((0 * 10 + (48 + n / 10 - 48)) * 10 + (48 + n mod 10 - 48)) with n by zlia.
    by rewrite (proj2 (Z.leb_le _ _)) by lia.
  - replace (48 + n / 100 =? 48) with false by (symmetry; apply Z.eqb_neq; zlia). cbn [andb].
    replace (((0 * 10 + (48 + n / 100 - 48)) * 10 + (48 + n / 10 mod 10 - 48)) * 10 + (48 + n mod 10 - 48)) with n by zlia.
    by rewrite (proj2 (Z.leb_le _ _)) by lia.
Qed.

Lemma ip_from_str_show a b c d :
  0 <= a <= 255 -> 0 <= b <= 255 -> 0 <= c <= 255 -> 0 <= d <= 255 -> ip_from_str (show_ipv4 a b c d) = Some (V4 a b c d).
Proof.
  intros Ha Hb Hc Hd. unfold ip_from_str, show_ipv4, read_ipv4_addr, read_octet. cbn [read_separator].
  rewrite read_octet_show by done. cbn [read_given_char]. rewrite Z.eqb_refl.
  rewrite read_octet_show by done. cbn [read_given_char]. rewrite Z.eqb_refl.
  rewrite read_octet_show by done. cbn [read_given_char]. rewrite Z.eqb_refl.
  rewrite <- (app_nil_r (show_u8 d)), read_octet_show by done. done.
Qed.

Lemma parse_u64_show n : 1 <= n <= 10 -> parse_u64 (show_u8 n) = Some n.
Proof.
  intros Hn. assert (n = 10 \/ n < 10) as [-> |H] by lia; [reflexivity|].
  unfold show_u8. rewrite (proj2 (Z.ltb_lt n 10)) by lia. cbn [parse_u64].
  rewrite (proj2 (Z.eqb_neq _ 43)), (proj2 (Z.eqb_neq _ 45)) by lia. cbn [orb u64_digits].
  rewrite to_digit_dec by lia. cbv zeta. rewrite (proj2 (Z.leb_le _ _)) by (unfold_ints; lia). f_equal. lia.
Qed.

(** *** Lines and fields *)
Lemma plain_not_ws c : plain c -> is_whitespace c = false.
Proof. unfold plain, is_whitespace. intros H. repeat (apply orb_false_iff; split); lia. Qed.

Lemma digits_plain l : Forall (fun c => 48 <= c <= 57) l -> Forall plain l.
Proof. intros H. eapply Forall_impl; [exact H|]. intros c Hc. by left. Qed.

Lemma show_ipv4_plain a b c d :
  0 <= a <= 255 -> 0 <= b <= 255 -> 0 <= c <= 255 -> 0 <= d <= 255 ->
  show_ipv4 a b c d <> [] /\ Forall plain (show_ipv4 a b c d).
Proof.
  intros Ha Hb Hc Hd. destruct (show_u8_digits a Ha) as [Na Da], (show_u8_digits b Hb) as [_ Db],
    (show_u8_digits c Hc) as [_ Dc], (show_u8_digits d Hd) as [_ Dd]. unfold show_ipv4. split.
  - intros H. apply app_eq_nil in H as [H _]. done.
  - assert (plain 46) by (by right). repeat (apply Forall_app; split; [by apply digits_plain|constructor; [done|]]).
    by apply digits_plain.
Qed.

Lemma fields_plain cur l : Forall plain l -> fields_from cur l = match cur ++ l with [] => [] | w => [w] end.
Proof.
  intros H. revert cur. induction H as [|c l Hc Hl IH]; intros cur; cbn [fields_from]; [rewrite app_nil_r; by destruct cur|].
  rewrite plain_not_ws, IH by done. by rewrite <- app_assoc.
Qed.

Lemma fields_word cur l rest : Forall plain l -> cur ++ l <> [] ->
  fields_from cur (l ++ 32 :: rest) = (cur ++ l) :: fields_from [] rest.
Proof.
  intros H. revert cur. induction H as [|c l Hc Hl IH]; intros cur Hne; cbn [app fields_from].
  - rewrite app_nil_r in *. change (is_whitespace 32) with true. by destruct cur.
  - rewrite plain_not_ws by done. rewrite IH; [by rewrite <- app_assoc|]. by rewrite <- app_assoc.
Qed.

Lemma lines_line cur l rest : Forall (fun c => c <> 10) l ->
  lines_from cur (l ++ 10 :: rest) = strip_cr (cur ++ l) :: lines_from [] rest.
Proof.
  intros H. revert cur. induction H as [|c l Hc Hl IH]; intros cur; cbn [app lines_from]; [by rewrite app_nil_r|].
  rewrite (proj2 (Z.eqb_neq c 10)) by done. by rewrite IH, <- app_assoc.
Qed.

Lemma drop_while_plain x l : plain x -> drop_while is_whitespace (x :: l) = x :: l.
Proof. intros H. cbn. by rewrite plain_not_ws. Qed.

(** A line between two plain characters is not changed by trimming. *)
Lemma bracketed_line x l y : plain x -> plain y ->
  trim (x :: l ++ [y]) = x :: l ++ [y] /\ strip_cr (x :: l ++ [y]) = x :: l ++ [y].
Proof.
  intros Hx Hy. split.
  - unfold trim. rewrite drop_while_plain by done.
    assert (rev (x :: l ++ [y]) = y :: rev (x :: l)) as E by (cbn [rev]; by rewrite rev_app_distr).
    rewrite E, drop_while_plain by done. rewrite <- E. apply rev_involutive.
  - unfold strip_cr. assert (rev (x :: l ++ [y]) = y :: rev (x :: l)) as -> by (cbn [rev]; by rewrite rev_app_distr).
    rewrite (proj2 (Z.eqb_neq y 13)); [done|]. unfold plain in Hy. lia.
Qed.

Lemma show_line_bracketed e : entry_ok e -> exists x l y, show_line e = x :: l ++ [y] /\ plain x /\ plain y.
Proof.
  intros (Ha & Hb & Hc & Hd & Hw).
  destruct (show_ipv4_plain _ _ _ _ Ha Hb Hc Hd) as [Hne Hp]. destruct (show_u8_digits (e_weight e)) as [Nw Dw]; [lia|].
  unfold show_line. destruct (show_ipv4 _ _ _ _) as [|x l]; [done|]. apply Forall_cons in Hp as [Hx Hp].
  destruct (exists_last Nw) as (w & y & E). rewrite E in *. apply Forall_app in Dw as [_ Dy]. rewrite Forall_singleton in Dy.
  exists x, (l ++ 32 :: w), y. cbn [app]. rewrite <- app_assoc. split; [done|]. split; [done|left; exact Dy].
Qed.

Lemma parse_show_line e : entry_ok e -> parse_ip_line (show_line e) = Some (entry_ip e, e_weight e).
Proof.
  intros (Ha & Hb & Hc & Hd & Hw). destruct (show_ipv4_plain _ _ _ _ Ha Hb Hc Hd) as [Hne Hp].
  destruct (show_u8_digits (e_weight e)) as [Nw Dw]; [lia|].
  unfold parse_ip_line, split_whitespace, show_line. rewrite fields_word by done.
  rewrite fields_plain by (by apply digits_plain). cbn [app]. rewrite ip_from_str_show by done.
  destruct (show_u8 (e_weight e)) as [|w ws] eqn:E; [done|]. rewrite <- E, parse_u64_show by done.
  unfold LINK_WEIGHT_MIN, LINK_WEIGHT_MAX. rewrite (proj2 (Z.eqb_neq _ 0)) by lia.
  rewrite Z.gtb_ltb, (proj2 (Z.ltb_ge _ _)) by lia. done.
Qed.

Lemma show_line_no_lf e : entry_ok e -> Forall (fun c => c <> 10) (show_line e).
Proof.
  intros (Ha & Hb & Hc & Hd & Hw). destruct (show_ipv4_plain _ _ _ _ Ha Hb Hc Hd) as [_ Hp].
  destruct (show_u8_digits (e_weight e)) as [_ Dw]; [lia|]. unfold show_line. apply Forall_app. split.
  - eapply Forall_impl; [exact Hp|]. unfold plain. lia.
  - constructor; [done|]. eapply Forall_impl; [exact Dw|]. cbv beta. lia.
Qed.

Lemma show_line_trim e : entry_ok e ->
  trim (show_line e) = show_line e /\ strip_cr (show_line e) = show_line e /\ show_line e <> [].
Proof.
  intros He. destruct (show_line_bracketed e He) as (x & w & y & -> & Hx & Hy).
  destruct (bracketed_line x w y Hx Hy). done.
Qed.

Lemma content_show l idx : Forall entry_ok l ->
  content idx (lines (show_list l)) = imap (fun i e => (Z.of_nat (idx + i) + 1, show_line e)) l.
Proof.
  intros H. revert idx. induction H as [|e l He Hl IH]; intros idx; [done|].
  unfold lines, show_list in *. cbn [flat_map]. rewrite <- app_assoc. cbn [app].
  rewrite lines_line by (by apply show_line_no_lf). cbn [app content].
  destruct (show_line_trim e He) as (Ht & Hs & Hne). rewrite bool_decide_eq_false_2 by (by rewrite Hs, Ht).
  rewrite Hs, Ht, IH. cbn [app imap]. rewrite Nat.add_0_r. f_equal. apply imap_ext. intros i e' _. cbn. do 2 f_equal. lia.
Qed.

(** Printing and reading agree.  A non-empty list of IPv4 addresses with
    weights between 1 and 10, written one per line, is read back as exactly
    those addresses in order, with no line reported invalid and the weights
    shifted so that the lowest is 1. *)
Theorem ip_list_roundtrip (l : list IpEntry) :
  l <> [] -> Forall entry_ok l ->
  exists low, 1 <= low <= 10 /\
    analyze_ip_reload_text (show_list l) = Apply (map entry_ip l) (map (fun e => e_weight e - low + 1) l) None.
Proof.
  intros Hne Hl. unfold analyze_ip_reload_text. rewrite reload_lines_spec, content_show by done. cbn [app orb].
  set (c := imap _ l).
  assert (valid_lines c = map (fun e => (entry_ip e, e_weight e)) l /\ invalid_line c = None) as [-> ->].
  { unfold c, valid_lines, invalid_line. clear c Hne. generalize 0%nat as idx.
    induction Hl as [|e l He Hl IH]; intros idx; [done|]. cbn [imap omap list_omap map List.find snd].
    rewrite parse_show_line by done. rewrite (bool_decide_eq_false_2 (Some _ = None)) by done.
    destruct (IH (S idx)) as [H1 H2]. split.
    - f_equal. rewrite <- H1. f_equal. apply imap_ext. intros i e' _. cbn. do 2 f_equal. lia.
    - rewrite <- H2. do 2 f_equal. apply imap_ext. intros i e' _. cbn. do 2 f_equal. lia. }
  rewrite !map_map. cbn [fst snd]. destruct (normalise_spec (map e_weight l)) as (low & Hlow & Hn & _ & _);
    [by destruct l|]. exists low. split; [done|]. rewrite bool_decide_eq_false_2 by (by destruct l).
  f_equal. change (map (fun x => e_weight x) l) with (map e_weight l). rewrite Hn, map_map. apply map_ext_Forall.
  eapply Forall_impl; [exact Hl|]. intros e (_ & _ & _ & _ & Hw). unfold clamp_Z. lia.
Qed.

Definition two_links : list IpEntry := [mkIpEntry 192 168 0 15 10; mkIpEntry 10 0 0 255 4].

Lemma ip_list_roundtrip_witness :
  analyze_ip_reload_text (show_list two_links) = Apply [V4 192 168 0 15; V4 10 0 0 255] [7; 1] None /\
  exists low, 1 <= low <= 10 /\ analyze_ip_reload_text (show_list two_links) =
    Apply (map entry_ip two_links) (map (fun e => e_weight e - low + 1) two_links) None.
Proof.
  split; [vm_compute; reflexivity|]. apply (ip_list_roundtrip two_links); [discriminate|].
  repeat constructor; cbn; lia.
Defined.
