(* ===== verification/Version.v ===== *)
(** * The version line and the clock (build.rs, src/version.rs, srtla-core/src/utils.rs)

    The build script asks git for the commit, the branch and whether the tree
    has changes; what it could resolve is baked into the binary, and
    [version_line] prints it.  What git answers is an argument.  The clock of the
    program is the time since its first read, put on top of the wall clock of
    that read.

    The theorems: the line names a commit exactly if git named one, a branch
    only with a commit, and changes only if git reported them; and the clock
    never runs backwards, however the wall clock jumps. *)
From S2P Require Import Prelude Text Wire Reload.
From stdpp Require Import strings.
From Stdlib Require Import Sorted.
Local Open Scope Z_scope.

(** ** build.rs *)

(** A finished command: whether it succeeded, and its output as text. *)
Definition git_output (out : option (bool * chars)) : option chars :=
  match out with
  | Some (true, stdout) => let value := trim stdout in if bool_decide (value = []) then None else Some value
  | _ => None
  end.

(** What git did for the three questions; the last is the exit status, if there
    was one. *)
Record GitAnswers := mkGit {
  ga_hash : option (bool * chars); ga_branch : option (bool * chars); ga_diff : option (option Z) }.
Record BuildEnv := mkBuildEnv { GIT_HASH : chars; GIT_BRANCH : chars; GIT_DIRTY : chars }.

Definition detached : chars := chars_of "HEAD".
Definition build_main (g : GitAnswers) : BuildEnv :=
  let git_hash := git_output (ga_hash g) in
  let git_branch :=
    match git_output (ga_branch g) with
    | Some branch => if bool_decide (branch = detached) then None
                     else match git_hash with Some _ => Some branch | None => None end
    | None => None
    end in
  let git_dirty := match git_hash with
                   | Some _ => match ga_diff g with Some (Some code) => code =? 1 | _ => false end
                   | None => false
                   end in
  mkBuildEnv (default [] git_hash) (default [] git_branch) (if git_dirty then chars_of "-dirty" else []).

(** ** version.rs *)
Definition build_metadata (branch hash dirty : chars) : option chars :=
  if bool_decide (hash = []) then None
  else if bool_decide (branch = []) then Some (hash ++ dirty)
  else Some (branch ++ chars_of "@" ++ hash ++ dirty).

Definition compose_version_line (version branch hash dirty package : chars) : chars :=
  match build_metadata branch hash dirty with
  | Some metadata => version ++ chars_of " (" ++ metadata ++ chars_of ") [" ++ package ++ chars_of "]"
  | None => version ++ chars_of " [" ++ package ++ chars_of "]"
  end.

Definition version_line (e : BuildEnv) (version package : chars) : chars :=
  compose_version_line version (GIT_BRANCH e) (GIT_HASH e) (GIT_DIRTY e) package.

Lemma git_output_nonempty out v : git_output out = Some v -> v <> [].
Proof. unfold git_output. destruct out as [[[] s]|]; try done. case_bool_decide; [done|]. by intros [= <-]. Qed.

(** The line of a build: without a commit it is the version and the package,
    whatever else git said; with one, the commit stands in it, after the branch
    if git named one other than a detached head, and is marked as changed
    exactly if the question for changes ended with exit code 1. *)
Theorem version_line_honest (g : GitAnswers) (version package : chars) :
  version_line (build_main g) version package =
    match git_output (ga_hash g) with
    | None => version ++ chars_of " [" ++ package ++ chars_of "]"
    | Some h =>
      version ++ chars_of " (" ++
      (match git_output (ga_branch g) with Some b => if bool_decide (b = detached) then [] else b ++ chars_of "@" | None => [] end ++
       h ++ (if bool_decide (ga_diff g = Some (Some 1)) then chars_of "-dirty" else [])) ++
      chars_of ") [" ++ package ++ chars_of "]"
    end.
Proof.
  unfold version_line, build_main, compose_version_line, build_metadata. cbn [GIT_HASH GIT_BRANCH GIT_DIRTY].
  destruct (git_output (ga_hash g)) as [h|] eqn:Eh; cbn [default]; [|done].
  rewrite (bool_decide_eq_false_2 (h = [])) by (by eapply git_output_nonempty).
  assert ((match ga_diff g with Some (Some code) => code =? 1 | _ => false end) = bool_decide (ga_diff g = Some (Some 1))) as ->.
  { destruct (ga_diff g) as [[code|]|]; [|by rewrite bool_decide_eq_false_2..].
    destruct (Z.eqb_spec code 1) as [->|]; symmetry; [by apply bool_decide_eq_true_2|apply bool_decide_eq_false_2; congruence]. }
  destruct (git_output (ga_branch g)) as [b|] eqn:Eb; [|done]. destruct (bool_decide (b = detached)); [done|]. cbn [default from_option id].
  rewrite (bool_decide_eq_false_2 (b = [])) by (by eapply git_output_nonempty). by rewrite <- !app_assoc.
Qed.

(** ** utils.rs: the clock *)

(** The monotonic reading and the wall clock, in milliseconds; [None]: the wall
    clock is before the epoch. *)
Record ClockRead := mkRead { cr_instant : Z; cr_wall : option Z }.
Record Clock := mkClock { ck_anchor : Z; ck_base_ms : Z }.

(** [clock]: set by the first read and kept. *)
Definition clock (c : option Clock) (r : ClockRead) : Clock :=
  match c with Some c => c | None => mkClock (cr_instant r) (u64_wrap (default 0 (cr_wall r))) end.

(** [now_ms], with the clock after it. *)
Definition now_ms (c : option Clock) (r : ClockRead) : option Clock * Z :=
  let c := clock c r in (Some c, u64_wrap (ck_base_ms c + u64_wrap (cr_instant r - ck_anchor c))).

Fixpoint clock_reads (c : option Clock) (rs : list ClockRead) : list Z :=
  match rs with
  | [] => []
  | r :: rs => let '(c, t) := now_ms c r in t :: clock_reads c rs
  end.

(** The wall clock and the time the program runs stay far below what a 64-bit
    counter of milliseconds holds. *)
Definition sane (start : Z) (r : ClockRead) : Prop :=
  start <= cr_instant r < start + 2 ^ 62 /\ 0 <= default 0 (cr_wall r) < 2 ^ 62.

Lemma u64_small x : 0 <= x < 2 ^ 63 -> u64_wrap x = x.
Proof. intros H. unfold u64_wrap. apply Z.mod_small. unfold two64. lia. Qed.

Lemma clock_reads_from c start rs : ck_anchor c = start -> 0 <= ck_base_ms c < 2 ^ 62 -> Forall (sane start) rs ->
  clock_reads (Some c) rs = map (fun r => ck_base_ms c + (cr_instant r - start)) rs.
Proof.
  intros Ha Hb Hs. induction Hs as [|r rs [Hi _] _ IH]; [done|]. cbn [clock_reads map now_ms clock]. rewrite Ha, (u64_small (cr_instant r - start)), u64_small by lia. by f_equal.
Qed.

(** The clock does not run backwards: reads at instants that do not give times
    that do not, and the time between two of them is the time that passed,
    whatever the wall clock shows at any of them. *)
Theorem clock_monotone (r : ClockRead) (rs : list ClockRead) (Hs : Forall (sane (cr_instant r)) (r :: rs))
    (Ho : StronglySorted Z.le (map cr_instant (r :: rs))) :
  let ts := clock_reads None (r :: rs) in StronglySorted Z.le ts /\
    forall i j a b, (r :: rs) !! i = Some a -> (r :: rs) !! j = Some b ->
      exists x y, ts !! i = Some x /\ ts !! j = Some y /\ y - x = cr_instant b - cr_instant a.
Proof.
  set (base := default 0 (cr_wall r)). pose proof (Forall_inv Hs) as [_ Hw]. fold base in Hw.
  set (c := mkClock (cr_instant r) base).
  assert (clock_reads None (r :: rs) = clock_reads (Some c) (r :: rs)) as ->.
  { cbn [clock_reads now_ms clock]. fold base. by rewrite (u64_small base) by lia. }
  rewrite (clock_reads_from c (cr_instant r) (r :: rs) eq_refl Hw Hs). cbv zeta. split.
  - revert Ho. generalize (r :: rs). intros l. induction l as [|x l IH]; intros Ho; [constructor|]. cbn [map] in *.
    apply StronglySorted_inv in Ho as [Ho Hx]. constructor; [by apply IH|]. rewrite Forall_map in Hx |- *.
    eapply Forall_impl; [exact Hx|]. cbn. lia.
  - intros i j a b Hi Hj. exists (ck_base_ms c + (cr_instant a - cr_instant r)), (ck_base_ms c + (cr_instant b - cr_instant r)).
    change (map (fun r0 => ck_base_ms c + (cr_instant r0 - cr_instant r))) with (fmap (M := list) (fun r0 => ck_base_ms c + (cr_instant r0 - cr_instant r))).
    rewrite !list_lookup_fmap, Hi, Hj. split_and!; [done|done|lia].
Qed.

(** Three reads; the wall clock is set back a day between them. *)
Lemma clock_monotone_witness :
  let ts := clock_reads None [mkRead 5 (Some 1700000000000); mkRead 6 (Some 1699913600000); mkRead 90 None] in
  ts = [1700000000000; 1700000000001; 1700000000085] /\ StronglySorted Z.le ts.
Proof.
  cbv zeta. split; [vm_compute; reflexivity|].
  apply (clock_monotone (mkRead 5 (Some 1700000000000)) [mkRead 6 (Some 1699913600000); mkRead 90 None]).
  - repeat constructor; cbn; lia.
  - repeat constructor; cbn; lia.
Defined.
