(* ===== verification/Links.v ===== *)
(** * The link list (src/sender/connections.rs)

    Building the links of an IP list and applying a changed list to a running
    bond: links that are no longer listed go, with their sequence ownership and
    their socket; links that stay keep everything but their weight; new
    addresses get fresh links.  The label of a link is the text of receiver,
    port and source address; within one run receiver and port are fixed, so
    labels are equal exactly when the addresses are, and the model compares the
    addresses.  Opening a socket (name lookup, binding, the random id and the
    clock of the new link) is an outcome per address tried. *)
From S2P Require Import Prelude Config Connection Tracker Uplink Sender.

(** What opening the uplink of an address gave: the link's id, the receiver
    address and the time, or an error. *)
Record Opened := mkOpened { op_conn_id : Z; op_remote : Z; op_now : Z }.

Record LinkSet := mkLinks {
  ln_conns : list SrtlaConnection;
  ln_io : gmap Z Z;
  ln_last_selected : option nat;
  ln_tracker : SequenceTracker }.
Global Instance eta_links : Eta LinkSet := fun s => mkLinks (ln_conns s) (ln_io s) (ln_last_selected s) (ln_tracker s).

Definition weight_for (ips weights : list Z) (ip : Z) : Z :=
  default LINK_WEIGHT_MIN (position (fun candidate => candidate =? ip) ips ≫= fun i => weights !! i).

Definition apply_link_weights (conns : list SrtlaConnection) (ips weights : list Z) : list SrtlaConnection :=
  map (fun conn =>
    let weight := weight_for ips weights (local_ip conn) in
    if negb (link_weight conn =? weight) then conn <| link_weight := weight |> else conn) conns.

Definition connect_uplink (ip : Z) (out : option Opened) : option (SrtlaConnection * (Z * Z)) :=
  match out with
  | Some o => Some (new_registering (op_conn_id o) ip (op_now o), (op_conn_id o, op_remote o))
  | None => None
  end.

(** [outs] gives one outcome per address, in order; a missing one is an error. *)
Fixpoint create_loop (all weights : list Z) (ips : list Z) (outs : list (option Opened)) (io : gmap Z Z)
  : list SrtlaConnection * gmap Z Z :=
  match ips with
  | [] => ([], io)
  | ip :: rest =>
    let '(io, made) :=
      match connect_uplink ip (default None (head outs)) with
      | Some (conn, (id, remote)) =>
        (<[id := remote]> io, [conn <| link_weight := weight_for all weights ip |>])
      | None => (io, [])
      end in
    let '(conns, io) := create_loop all weights rest (tail outs) io in
    (made ++ conns, io)
  end.
Definition create_connections_from_ips (ips weights : list Z) (outs : list (option Opened)) (io : gmap Z Z)
  : list SrtlaConnection * gmap Z Z := create_loop ips weights ips outs io.

(** The [seen] filter: the first occurrence of each address. *)
Fixpoint dedup_ips (seen : list Z) (ips : list Z) : list Z :=
  match ips with
  | [] => []
  | ip :: rest => if bool_decide (ip ∈ seen) then dedup_ips seen rest else ip :: dedup_ips (ip :: seen) rest
  end.

Definition new_ips_needed (new_ips : list Z) (conns : list SrtlaConnection) : list Z :=
  filter (fun ip => ip ∉ map local_ip conns) (dedup_ips [] new_ips).

Definition apply_connection_changes (st : LinkSet) (new_ips new_weights : list Z) (outs : list (option Opened)) : LinkSet :=
  let current := ln_conns st in
  let removed_conn_ids := map conn_id (filter (fun c => local_ip c ∉ new_ips) current) in
  let kept := filter (fun c => local_ip c ∈ new_ips) current in
  let st :=
    if negb (Nat.eqb (length kept) (length current))
    then st <| ln_last_selected := None |>
            <| ln_tracker ::= fun t => foldl remove_connection t removed_conn_ids |>
            <| ln_io ::= fun io => foldl (fun io id => delete id io) io removed_conn_ids |>
    else st in
  let kept := apply_link_weights kept new_ips new_weights in
  let needed := new_ips_needed new_ips current in
  if bool_decide (needed = []) then st <| ln_conns := kept |>
  else
    let weights_needed := map (weight_for new_ips new_weights) needed in
    let '(fresh, io) := create_connections_from_ips needed weights_needed outs (ln_io st) in
    st <| ln_conns := kept ++ fresh |> <| ln_io := io |>.

(** ** Sequence ownership after a removal *)

(** An owner that is gone owns nothing. *)
Definition disown (ids : list Z) (r : res (option Z)) : res (option Z) :=
  match r with
  | Ret (Some id) => Ret (if bool_decide (id ∈ ids) then None else Some id)
  | r => r
  end.

Lemma tracker_get_remove t id s now : tracker_get (remove_connection t id) s now = disown [id] (tracker_get t s now).
Proof.
  unfold tracker_get, remove_connection. cbn [entries]. change (map (remove_entry id)) with (fmap (M := list) (remove_entry id)).
  rewrite list_lookup_fmap. destruct (entries t !! slot_of s) as [e|]; cbn [fmap option_fmap option_map]; [|done].
  unfold remove_entry. destruct (Z.eqb_spec (te_conn_id e) id) as [E|E].
  - cbn [is_valid te_conn_id entry_default Z.eqb negb andb]. destruct (is_valid e s now); cbn [disown]; [|done].
    rewrite bool_decide_eq_true_2; [done|]. rewrite E. by apply list_elem_of_singleton.
  - destruct (is_valid e s now); cbn [disown]; [|done]. rewrite bool_decide_eq_false_2; [done|].
    by rewrite list_elem_of_singleton.
Qed.

Lemma tracker_get_remove_all ids : forall t s now,
  tracker_get (foldl remove_connection t ids) s now = disown ids (tracker_get t s now).
Proof.
  induction ids as [|id ids IH]; intros t s now; cbn [foldl].
  - destruct (tracker_get t s now) as [[id|]|]; cbn [disown]; [|done..]. rewrite bool_decide_eq_false_2; [done|]. by intros ?%elem_of_nil.
  - rewrite IH, tracker_get_remove. destruct (tracker_get t s now) as [[o|]|]; cbn [disown]; [|done..].
    rewrite (bool_decide_ext (o ∈ id :: ids) (o ∈ [id] \/ o ∈ ids)) by (rewrite elem_of_cons, list_elem_of_singleton; tauto).
    case_bool_decide as E1; cbn [disown].
    + by rewrite bool_decide_eq_true_2 by (by left).
    + by rewrite (bool_decide_ext (o ∈ [id] \/ o ∈ ids) (o ∈ ids)) by tauto.
Qed.

(** ** The fresh links *)

(** The addresses whose uplink opened. *)
Fixpoint opened (ips : list Z) (outs : list (option Opened)) : list Z :=
  match ips, outs with
  | ip :: ips, Some _ :: outs => ip :: opened ips outs
  | _ :: ips, None :: outs => opened ips outs
  | _, _ => []
  end.
(** The ids of the uplinks that opened. *)
Definition opened_ids (outs : list (option Opened)) : list Z := omap (fun o => op_conn_id <$> o) outs.
Lemma opened_sublist ips : forall outs, sublist (opened ips outs) ips.
Proof.
  induction ips as [|ip ips IH]; intros [|[o|] outs]; cbn [opened]; first [by constructor | apply sublist_nil_l].
Qed.
Lemma create_loop_spec all weights : forall ips outs io,
  let '(fresh, io') := create_loop all weights ips outs io in
  map local_ip fresh = opened ips outs /\
  Forall (fun c => connected c = false /\ packet_log c = ∅ /\ link_weight c = weight_for all weights (local_ip c)) fresh /\
  Forall (fun c => is_Some (io' !! conn_id c)) fresh /\
  (forall id, id ∉ map conn_id fresh -> io' !! id = io !! id) /\
  (forall id, is_Some (io !! id) -> is_Some (io' !! id)).
Proof.
  induction ips as [|ip ips IH]; intros outs io; cbn [create_loop]; [by repeat split|].
  destruct outs as [|[o|] outs]; cbn [head tail from_option id connect_uplink opened].
  - specialize (IH [] io). destruct (create_loop all weights ips [] io) as [fresh io'].
    destruct IH as (H1 & H2 & H3 & H4 & H5). cbn [app]. split; [|done]. rewrite H1. by destruct ips.
  - specialize (IH outs (<[op_conn_id o := op_remote o]> io)).
    destruct (create_loop all weights ips outs _) as [fresh io']. destruct IH as (H1 & H2 & H3 & H4 & H5).
    cbn [app map]. split; [by rewrite <- H1|]. split; [by constructor|]. split_and!.
    + constructor; [|done]. apply H5. cbn. by rewrite lookup_insert_eq.
    + intros id Hid. rewrite not_elem_of_cons in Hid. destruct Hid as [Hne Hid]. rewrite H4 by done.
      by rewrite lookup_insert_ne by (cbn in Hne; congruence).
    + intros id Hid. apply H5. destruct (decide (op_conn_id o = id)) as [->|Hne]; [by rewrite lookup_insert_eq|].
      by rewrite lookup_insert_ne.
  - specialize (IH outs io). destruct (create_loop all weights ips outs io) as [fresh io'].
    destruct IH as (H1 & H2 & H3 & H4 & H5). cbn [app]. done.
Qed.

(** Their ids are among those drawn, and they are well formed. *)
Lemma create_loop_ids all weights ips : forall outs io,
  sublist (map conn_id (create_loop all weights ips outs io).1) (opened_ids outs) /\
  Forall conn_ok (create_loop all weights ips outs io).1.
Proof.
  induction ips as [|ip ips IH]; intros outs io; cbn [create_loop]; [split; [apply sublist_nil_l|done]|].
  destruct outs as [|[o|] outs]; cbn [head tail from_option id connect_uplink].
  - specialize (IH [] io). by destruct (create_loop all weights ips [] io).
  - specialize (IH outs (<[op_conn_id o := op_remote o]> io)). destruct (create_loop _ _ _ _ _) as [fresh io'].
    cbn [fst app map]. destruct IH as [H1 H2]. split; [by constructor|]. constructor; [apply new_registering_ok|done].
  - specialize (IH outs io). by destruct (create_loop all weights ips outs io).
Qed.

Lemma dedup_ips_spec ips : forall seen, NoDup (dedup_ips seen ips) /\
  forall ip, ip ∈ dedup_ips seen ips <-> ip ∈ ips /\ ip ∉ seen.
Proof.
  induction ips as [|x ips IH]; intros seen; cbn [dedup_ips].
  - split; [constructor|]. intros ip. split; [by intros ?%elem_of_nil|]. intros [?%elem_of_nil _]. done.
  - case_bool_decide as Hx.
    + destruct (IH seen) as [H1 H2]. split; [done|]. intros ip. rewrite H2, elem_of_cons.
      split; [tauto|]. intros [[->|H] Hn]; done.
    + destruct (IH (x :: seen)) as [H1 H2]. split.
      * constructor; [|done]. rewrite H2. intros [_ Hn]. apply Hn. by left.
      * intros ip. rewrite !elem_of_cons, H2, not_elem_of_cons. destruct (decide (ip = x)) as [->|]; tauto.
Qed.

(** [weight_for] on the parallel lists of the needed addresses. *)
Lemma weight_for_map ips (f : Z -> Z) ip : ip ∈ ips -> weight_for ips (map f ips) ip = f ip.
Proof.
  intros Hin. unfold weight_for.
  assert (exists i, position (fun x => x =? ip) ips = Some i /\ ips !! i = Some ip) as (i & -> & Hi).
  { destruct (position (fun x => x =? ip) ips) as [i|] eqn:E.
    - apply position_Some in E as (x & Hx & ->%Z.eqb_eq & _). eauto.
    - exfalso. revert E. induction ips as [|x ips IH]; [by apply elem_of_nil in Hin|]. cbn.
      destruct (Z.eqb_spec x ip) as [->|Hne]; [done|]. apply elem_of_cons in Hin as [->|Hin]; [done|].
      specialize (IH Hin). by destruct (position _ ips). }
  cbn. change (map f ips) with (f <$> ips). by rewrite list_lookup_fmap, Hi.
Qed.

(** ** The effect of a reload *)
Lemma delete_all_lookup ids : forall (io : gmap Z Z) id,
  foldl (fun io id => delete id io) io ids !! id = if bool_decide (id ∈ ids) then None else io !! id.
Proof.
  induction ids as [|x ids IH]; intros io id; cbn [foldl].
  - rewrite bool_decide_eq_false_2; [done|]. by intros ?%elem_of_nil.
  - rewrite IH. destruct (decide (id = x)) as [->|Hne].
    + rewrite lookup_delete_eq, (bool_decide_eq_true_2 (x ∈ x :: ids)) by by left. by case_bool_decide.
    + rewrite lookup_delete_ne by congruence.
      rewrite (bool_decide_ext (id ∈ x :: ids) (id ∈ ids)); [done|]. rewrite elem_of_cons. tauto.
Qed.

Definition listed (ips : list Z) (c : SrtlaConnection) : Prop := local_ip c ∈ ips.
Global Instance listed_dec ips c : Decision (listed ips c).
Proof. unfold listed. apply _. Defined.

(** The ids a reload drops. *)
Definition removed_ids (conns : list SrtlaConnection) (ips : list Z) : list Z :=
  map conn_id (filter (fun c => ~ listed ips c) conns).

(** Nothing is removed exactly when every link stays. *)
Lemma kept_all_iff conns ips :
  Nat.eqb (length (filter (listed ips) conns)) (length conns) = true <-> removed_ids conns ips = [].
Proof.
  unfold removed_ids. rewrite Nat.eqb_eq. induction conns as [|c conns IH]; [done|].
  rewrite !filter_cons. pose proof (length_filter (listed ips) conns) as Hle.
  destruct (decide (listed ips c)) as [H|H].
  - rewrite decide_False by tauto. cbn [length]. rewrite <- IH. lia.
  - rewrite decide_True by done. cbn [map length]. split; [lia|done].
Qed.

Lemma filter_listed_all conns ips : removed_ids conns ips = [] -> filter (listed ips) conns = conns.
Proof.
  unfold removed_ids. induction conns as [|c conns IH]; [done|]. rewrite !filter_cons.
  destruct (decide (listed ips c)) as [H|H].
  - rewrite decide_False by tauto. intros E. by rewrite IH.
  - rewrite decide_True by done. discriminate.
Qed.

(** A link that stays: only its weight follows the list. *)
Definition reweight (ips weights : list Z) (c : SrtlaConnection) : SrtlaConnection :=
  c <| link_weight := weight_for ips weights (local_ip c) |>.
Lemma apply_link_weights_eq conns ips weights : apply_link_weights conns ips weights = map (reweight ips weights) conns.
Proof.
  apply map_ext. intros c. unfold reweight. cbv zeta.
  destruct (Z.eqb_spec (link_weight c) (weight_for ips weights (local_ip c))) as [E|E]; [|done].
  cbn [negb]. rewrite <- E. by destruct c.
Qed.

(** A fresh link of a reload. *)
Definition fresh_link (conns : list SrtlaConnection) (ips weights : list Z) (io : gmap Z Z) (c : SrtlaConnection) : Prop :=
  local_ip c ∈ ips /\ (local_ip c ∉ map local_ip conns) /\ connected c = false /\ packet_log c = ∅ /\
  link_weight c = weight_for ips weights (local_ip c) /\ is_Some (io !! conn_id c).

(** The state after the removals of a reload. *)
Definition after_removal (st : LinkSet) (ips : list Z) : LinkSet :=
  let gone := removed_ids (ln_conns st) ips in
  if negb (Nat.eqb (length (filter (listed ips) (ln_conns st))) (length (ln_conns st)))
  then st <| ln_last_selected := None |> <| ln_tracker ::= fun t => foldl remove_connection t gone |>
          <| ln_io ::= fun io => foldl (fun io id => delete id io) io gone |>
  else st.

Lemma after_removal_spec st ips :
  let st' := after_removal st ips in
  let gone := removed_ids (ln_conns st) ips in
  ln_last_selected st' = (if bool_decide (gone = []) then ln_last_selected st else None) /\
  (forall s now, tracker_get (ln_tracker st') s now = disown gone (tracker_get (ln_tracker st) s now)) /\
  (forall id, ln_io st' !! id = if bool_decide (id ∈ gone) then None else ln_io st !! id).
Proof.
  cbv zeta. unfold after_removal. cbv zeta. destruct (Nat.eqb _ _) eqn:E; cbn [negb].
  - apply kept_all_iff in E. rewrite E. split_and!; [done| |].
    + intros s now. apply (tracker_get_remove_all []).
    + intros id. rewrite bool_decide_eq_false_2; [done|]. by intros ?%elem_of_nil.
  - rewrite bool_decide_eq_false_2 by (intros H%kept_all_iff; congruence).
    split_and!; [done| |]; intros; [apply tracker_get_remove_all|apply delete_all_lookup].
Qed.

Lemma apply_connection_changes_eq st ips weights outs :
  let needed := new_ips_needed ips (ln_conns st) in
  let '(fresh, io) := create_connections_from_ips needed (map (weight_for ips weights) needed) outs (ln_io (after_removal st ips)) in
  apply_connection_changes st ips weights outs =
    mkLinks (map (reweight ips weights) (filter (listed ips) (ln_conns st)) ++ fresh) io
      (ln_last_selected (after_removal st ips)) (ln_tracker (after_removal st ips)).
Proof.
  cbv zeta. unfold apply_connection_changes. cbv zeta. fold (removed_ids (ln_conns st) ips).
  change (filter (fun c => local_ip c ∈ ips) (ln_conns st)) with (filter (listed ips) (ln_conns st)).
  change (if negb _ then _ else st) with (after_removal st ips). rewrite apply_link_weights_eq.
  case_bool_decide as E.
  - rewrite E. cbn. by rewrite app_nil_r.
  - by destruct (create_connections_from_ips _ _ _ _) as [fresh io].
Qed.

(** Applying a changed IP list to a running bond, for every list, weights
    and outcome of opening the sockets: the links whose address is still listed
    stay, in order, with everything but their weight as it was; the addresses
    listed for the first time whose uplink opened get, once each, an unconnected
    link of the right weight with a socket entry; nothing else is a link; the
    remembered choice is forgotten exactly when a link went, so that it never
    designates another link than before; sequences owned by a link that went
    are owned by nobody and every other sequence by whom it was; and the socket
    entries of the links that went are gone while the others stay. *)
Theorem reload_effect (st : LinkSet) (ips weights : list Z) (outs : list (option Opened)) :
  let st' := apply_connection_changes st ips weights outs in
  let gone := removed_ids (ln_conns st) ips in
  exists fresh,
    ln_conns st' = map (reweight ips weights) (filter (listed ips) (ln_conns st)) ++ fresh /\
    map local_ip fresh = opened (new_ips_needed ips (ln_conns st)) outs /\ NoDup (map local_ip fresh) /\
    Forall (fresh_link (ln_conns st) ips weights (ln_io st')) fresh /\
    ln_last_selected st' = (if bool_decide (gone = []) then ln_last_selected st else None) /\
    (forall i c, ln_last_selected st' = Some i -> ln_conns st !! i = Some c ->
       ln_conns st' !! i = Some (reweight ips weights c)) /\
    (forall s now, tracker_get (ln_tracker st') s now = disown gone (tracker_get (ln_tracker st) s now)) /\
    (forall id, id ∉ map conn_id fresh ->
       ln_io st' !! id = if bool_decide (id ∈ gone) then None else ln_io st !! id).
Proof.
  cbv zeta. pose proof (apply_connection_changes_eq st ips weights outs) as E. cbv zeta in E.
  set (needed := new_ips_needed ips (ln_conns st)) in *.
  pose proof (create_loop_spec needed (map (weight_for ips weights) needed) needed outs (ln_io (after_removal st ips))) as F.
  unfold create_connections_from_ips in E. destruct (create_loop _ _ _ _ _) as [fresh io].
  destruct (after_removal_spec st ips) as (HL & HT & HI). destruct F as (F1 & F2 & F3 & F4 & _).
  rewrite E. cbn [ln_conns ln_io ln_last_selected ln_tracker].
  destruct (dedup_ips_spec ips []) as [Hnd Hmem].
  assert (Hneed : forall ip, ip ∈ needed -> ip ∈ ips /\ ip ∉ map local_ip (ln_conns st)).
  { intros ip. unfold needed, new_ips_needed. rewrite list_elem_of_filter, Hmem. tauto. }
  assert (Hsub : forall c, c ∈ fresh -> local_ip c ∈ needed).
  { intros c Hc. apply (sublist_subseteq (opened needed outs)); [apply opened_sublist|]. rewrite <- F1. by apply list_elem_of_fmap_2. }
  exists fresh. split; [done|]. split; [done|]. split_and!; [| |done| |done|].
  - rewrite F1. apply (sublist_NoDup _ needed); [by apply NoDup_filter|apply opened_sublist].
  - rewrite Forall_forall in F2, F3 |- *. intros c Hc. destruct (F2 c Hc) as (G1 & G2 & G3). specialize (Hsub c Hc).
    destruct (Hneed _ Hsub) as [? ?]. rewrite weight_for_map in G3 by done. split_and!; try done. by apply F3.
  - intros i c Hi Hc. rewrite Hi in HL. case_bool_decide as G; [|done]. rewrite (filter_listed_all _ _ G).
    apply lookup_app_l_Some. change (map ?f) with (fmap (M := list) f). by rewrite list_lookup_fmap, Hc.
  - intros id Hid. by rewrite F4, HI.
Qed.

(** ** Consistency of links and sockets *)

(** Every link has a socket entry, every entry belongs to a link, ids are
    unique, and each link and the sequence ring are well formed. *)
Record links_ok (l : LinkSet) : Prop := mkLinksOk {
  lo_conns : Forall conn_ok (ln_conns l);
  lo_tracker : tracker_ok (ln_tracker l);
  lo_unique : NoDup (map conn_id (ln_conns l));
  lo_io : forall id, is_Some (ln_io l !! id) <-> id ∈ map conn_id (ln_conns l) }.

(** The ids drawn for new links are new: they come from a 64-bit random source. *)
Definition fresh_ids (conns : list SrtlaConnection) (outs : list (option Opened)) : Prop :=
  NoDup (opened_ids outs) /\ forall id, id ∈ opened_ids outs -> id ∉ map conn_id conns.

Lemma removed_ids_spec conns ips id : NoDup (map conn_id conns) ->
  id ∈ map conn_id conns -> (id ∈ removed_ids conns ips <-> id ∉ map conn_id (filter (listed ips) conns)).
Proof.
  unfold removed_ids. induction conns as [|c conns IH]; cbn [map]; [by intros _ ?%elem_of_nil|].
  intros [Hn Hu]%NoDup_cons Hid. rewrite !filter_cons.
  assert (forall P (H : forall x, Decision (P x)), conn_id c ∉ map conn_id (filter P conns)) as Hout.
  { intros P H Hc. apply Hn. apply list_elem_of_fmap in Hc as (d & -> & Hd%list_elem_of_filter). apply list_elem_of_fmap_2, Hd. }
  apply elem_of_cons in Hid as [->|Hid].
  - destruct (decide (listed ips c)) as [H|H].
    + rewrite decide_False by tauto. cbn [map]. split; [by intros ?%Hout|]. intros G. exfalso. apply G. by left.
    + rewrite decide_True by done. cbn [map]. split; [intros _; apply Hout|by left].
  - assert (id <> conn_id c) as Hne by (intros ->; done). specialize (IH Hu Hid).
    destruct (decide (listed ips c)) as [H|H].
    + rewrite decide_False by tauto. cbn [map]. rewrite elem_of_cons. tauto.
    + rewrite decide_True by done. cbn [map]. rewrite elem_of_cons. tauto.
Qed.

Lemma after_removal_tracker st ips : tracker_ok (ln_tracker st) -> tracker_ok (ln_tracker (after_removal st ips)).
Proof.
  intros H. unfold after_removal. cbv zeta. destruct (negb _); [|done]. cbn.
  revert H. generalize (ln_tracker st). induction (removed_ids (ln_conns st) ips) as [|id ids IH]; intros t H; cbn [foldl]; [done|].
  by apply IH, remove_connection_ok.
Qed.

Lemma map_id_reweight ips ws conns : map conn_id (map (reweight ips ws) conns) = map conn_id conns.
Proof. by rewrite map_map. Qed.

(** A reload keeps links and sockets consistent. *)
Lemma apply_changes_ok st ips weights outs :
  links_ok st -> fresh_ids (ln_conns st) outs -> links_ok (apply_connection_changes st ips weights outs).
Proof.
  intros [Hc Ht Hu Hi] [Hn Hf]. pose proof (apply_connection_changes_eq st ips weights outs) as E. cbv zeta in E.
  set (needed := new_ips_needed ips (ln_conns st)) in *. unfold create_connections_from_ips in E.
  pose proof (create_loop_spec needed (map (weight_for ips weights) needed) needed outs (ln_io (after_removal st ips))) as F.
  destruct (create_loop_ids needed (map (weight_for ips weights) needed) needed outs (ln_io (after_removal st ips))) as [G1 G2].
  destruct (create_loop _ _ _ _ _) as [fresh io]. cbn [fst] in *. destruct F as (_ & _ & F3 & F4 & _).
  destruct (after_removal_spec st ips) as (_ & _ & HI). rewrite E.
  assert (forall id, id ∈ map conn_id (filter (listed ips) (ln_conns st)) -> id ∈ map conn_id (ln_conns st)) as Hk.
  { intros id (c & -> & Hd%list_elem_of_filter)%list_elem_of_fmap. apply list_elem_of_fmap_2, Hd. }
  assert (forall id, id ∈ map conn_id fresh -> id ∉ map conn_id (ln_conns st)) as Hfr.
  { intros id Hid. apply Hf. by apply (sublist_subseteq _ _ G1). }
  constructor; cbn [ln_conns ln_io ln_tracker].
  - apply Forall_app. split; [|done]. rewrite Forall_map. rewrite Forall_forall in Hc |- *. intros c Hx%list_elem_of_filter. exact (Hc c (proj2 Hx)).
  - by apply after_removal_tracker.
  - rewrite map_app, map_id_reweight. apply NoDup_app. split_and!.
    + apply (sublist_NoDup _ (map conn_id (ln_conns st))); [done|]. apply fmap_sublist, sublist_filter.
    + intros id Hid Hin. by apply (Hfr id), Hk.
    + by apply (sublist_NoDup _ (opened_ids outs)).
  - intros id. rewrite map_app, map_id_reweight, elem_of_app.
    destruct (decide (id ∈ map conn_id fresh)) as [Hin|Hin].
    + split; [by right|]. intros _. apply list_elem_of_fmap in Hin as (c & -> & Hx). rewrite Forall_forall in F3. by apply F3.
    + rewrite F4, HI by done. split.
      * intros Hs. left. case_bool_decide as B; [by destruct Hs|]. apply Hi in Hs.
        apply dec_stable. intros G. by apply B, removed_ids_spec.
      * intros [Hin2|]; [|done]. rewrite bool_decide_eq_false_2; [by apply Hi, Hk|].
        intros B. apply removed_ids_spec in B; [done|done|by apply Hk].
Qed.
