(* ===== verification/Identity.v ===== *)
(** * What identifies a link

    Eight fields of a connection are written only by the reload (its operator
    weight) and by the stamping of a housekeeping tick (the verdicts of the
    classifier and of the congestion controller); its id and its address never
    change.  Every other operation of the program, on the packet paths and in
    the tick, leaves all eight alone on every link, and the order of the links
    too.  This is what lets the main loop key sockets, readers and sequence
    ownership by id and reason about a verdict until the next tick. *)
From S2P Require Import Prelude F64 Wire Seq Filters Rtt Batch Pacing Congestion Config Connection StallLatch Selection SelectionSpec SelectionFrame Registration Tracker Dedup Uplink Sender Housekeeping.

Record LinkTag := mkTag {
  tg_id : Z; tg_ip : Z; tg_weight : Z; tg_weak : bool; tg_reason : WeakReason;
  tg_backing_off : bool; tg_target : Z; tg_loss : bool }.

Definition tag (c : SrtlaConnection) : LinkTag :=
  mkTag (conn_id c) (local_ip c) (link_weight c) (weak c) (weak_reason c) (cc_backing_off c) (cc_target_bps c)
    (loss_degraded c).

Abbreviation tags := (map tag).

Lemma tags_ids cs cs' : tags cs' = tags cs -> map conn_id cs' = map conn_id cs.
Proof. intros H%(f_equal (map tg_id)). by rewrite !map_map in H. Qed.
Lemma tags_ips cs cs' : tags cs' = tags cs -> map local_ip cs' = map local_ip cs.
Proof. intros H%(f_equal (map tg_ip)). by rewrite !map_map in H. Qed.

Lemma tags_insert cs i c c' : cs !! i = Some c -> tag c' = tag c -> tags (<[i := c']> cs) = tags cs.
Proof.
  intros Hi Ht. change (map tag) with (fmap (M := list) tag). rewrite list_fmap_insert, Ht.
  apply list_insert_id. by rewrite list_lookup_fmap, Hi.
Qed.
Lemma tags_map f cs : (forall c, tag (f c) = tag c) -> tags (map f cs) = tags cs.
Proof. intros H. rewrite map_map. by apply map_ext. Qed.
Lemma tags_imap f cs : (forall i c, tag (f i c) = tag c) -> tags (imap f cs) = tags cs.
Proof.
  revert f. induction cs as [|c cs IH]; intros f H; [done|]. rewrite imap_cons. cbn [map]. rewrite H. f_equal. apply IH. intros i d. apply H.
Qed.

(** ** Connections *)
Lemma tag_register_drained ps : forall c, tag (fold_left register_drained ps c) = tag c.
Proof.
  induction ps as [|p ps IH]; intros c; cbn [fold_left]; [done|]. rewrite IH. unfold register_drained.
  by repeat case_match.
Qed.

Lemma tag_take_batch c now : tag (take_batch c now).1 = tag c.
Proof.
  unfold take_batch. destruct (drain _ _) as [b batch]. case_bool_decide; cbn [fst]; [done|by rewrite tag_register_drained].
Qed.

(** Every operation of a connection keeps the tag. *)
Lemma tag_conn_step c op c' : conn_step c op = Ret c' -> tag c' = tag c.
Proof.
  destruct op; cbn [conn_step].
  all: try (intros [= <-]).
  - done.
  - unfold queue_probe_packet, record_probe. by repeat case_match.
  - done.
  - apply tag_take_batch.
  - unfold keepalive_packet. cbv zeta. cbn [fst]. by case_match.
  - done.
  - done.
  - unfold handle_srt_ack. by repeat case_match.
  - unfold handle_nak. by repeat case_match.
  - unfold handle_srtla_ack_specific. by repeat case_match.
  - unfold handle_srtla_ack_global. by repeat case_match.
  - unfold conn_perform_window_recovery. by repeat case_match.
  - unfold handle_keepalive_echo. destruct (handle_keepalive_response _ _ _) as [[r sample]|]; [|done]. cbn [mbind res_bind].
    destruct (keepalive_echo_rtt_ms _ _) as [echo|]; [|done]. intros [= <-]. unfold record_rtt_probe. by repeat case_match.
  - unfold update_phase. by repeat case_match.
  - unfold update_silence_pull. by repeat case_match.
  - unfold update_stall_latch, arm_rejoin_ramp. by repeat case_match.
  - unfold clear_stall_latch. by repeat case_match.
  - done.
  - unfold arm_rejoin_ramp. by repeat case_match.
  - unfold stall_probe_due. by repeat case_match.
  - done.
  - done.
  - done.
  - done.
  - done.
  - done.
  - done.
  - unfold registered_now. cbv zeta. by destruct (_ =? 0).
  - done.
  - unfold refresh_liveness. by destruct (_ || _).
  - done.
Qed.

(** The per-operation facts, for rewriting. *)
Lemma tag_note_sent c now : tag (note_sent c now) = tag c.
Proof. done. Qed.
Lemma tag_queue_data c d s t : tag (queue_data_packet c d s t).1 = tag c.
Proof. exact (tag_conn_step c (OQueueData d s t) _ eq_refl). Qed.
Lemma tag_queue_probe c d s t : tag (queue_probe_packet c d s t).1 = tag c.
Proof. exact (tag_conn_step c (OQueueProbe d s t) _ eq_refl). Qed.
Lemma tag_recovery c : tag (mark_for_recovery c) = tag c.
Proof. done. Qed.
Lemma tag_probe_due c : tag (stall_probe_due c).1 = tag c.
Proof. exact (tag_conn_step c OProbeDue _ eq_refl). Qed.
Lemma tag_nak c s now : tag (handle_nak c s now).1 = tag c.
Proof. exact (tag_conn_step c (ONak s now) _ eq_refl). Qed.
Lemma tag_srtla_ack c s k now : tag (handle_srtla_ack_specific c s k now).1 = tag c.
Proof. exact (tag_conn_step c (OSrtlaAck s k now) _ eq_refl). Qed.
Lemma tag_srt_ack c a now o : tag (handle_srt_ack c a now o) = tag c.
Proof. exact (tag_conn_step c (OSrtAck a now o) _ eq_refl). Qed.
Lemma tag_keepalive c now : tag (keepalive_packet c now).1 = tag c.
Proof. exact (tag_conn_step c (OKeepalive now) _ eq_refl). Qed.

(** ** The scheduler *)
Lemma tag_arm c now r g : tag (arm_rejoin_ramp c now r g) = tag c.
Proof. exact (tag_conn_step c (OArmRamp now r g) _ eq_refl). Qed.

Lemma tags_gate cs now cfg : tags (apply_stall_gate cs now cfg) = tags cs.
Proof.
  assert (tags (map (gate_refresh cfg) cs) = tags cs) as Hr by by apply tags_map.
  unfold apply_stall_gate. destruct (negb _).
  - rewrite tags_map; [done|]. intros c. unfold gate_off. rewrite (tag_conn_step _ OClearStallLatch _ eq_refl). done.
  - cbv zeta. rewrite tags_map; [|done]. rewrite tags_map; [done|]. intros c. unfold gate_drive.
    rewrite (tag_conn_step _ (OStallLatch _ _ _) _ eq_refl). apply (tag_conn_step _ (OSilencePull _ _ _) _ eq_refl).
Qed.

Lemma tag_election_apply now keep h i c : tag (election_apply now keep h i c) = tag c.
Proof.
  unfold election_apply. repeat case_match; try done; cbn [tag]; first [apply tag_arm | rewrite <- (tag_arm c now HELD_OUT_REJOIN_RAMP_MS false); done].
Qed.

Lemma tag_release c now : tag (release_sole_carrier c now) = tag c.
Proof.
  unfold release_sole_carrier. destruct (sole_carrier_excluded c); [|done].
  exact (tag_arm c now HELD_OUT_REJOIN_RAMP_MS false).
Qed.

Lemma tags_elect cs now ok : tags (elect_sole_carrier cs now ok).1 = tags cs.
Proof.
  unfold elect_sole_carrier. repeat case_match; cbn [fst];
    first [by apply tags_map; intros c; apply tag_release | apply tags_imap; intros i c; apply tag_election_apply].
Qed.

Lemma tag_exclusion now au k i c : tag (exclusion_apply now au k i c) = tag c.
Proof.
  unfold exclusion_apply. cbv zeta. match goal with |- context [if ?b then arm_rejoin_ramp _ _ _ _ else _] => destruct b end; [|done].
  exact (tag_arm c now HELD_OUT_REJOIN_RAMP_MS false).
Qed.

Section Sched.
Context (exp : f64 -> f64).

Lemma tag_rank_score now eq au c : tag (rank_score exp now eq au c).1 = tag c.
Proof. unfold rank_score, get_cached_quality_multiplier. by repeat case_match; simplify_eq. Qed.

Lemma tags_rank now eq au last cs : forall i st,
  tags (rk_conns (foldi (rank_step exp now eq au last) i cs st)) = tags (rk_conns st) ++ tags cs.
Proof.
  induction cs as [|c cs IH]; intros i st; cbn [foldi map]; [by rewrite app_nil_r|]. rewrite IH.
  rewrite (cons_middle (tag c)), app_assoc. f_equal. unfold rank_step.
  destruct (negb _); cbn [rk_conns]; [by rewrite map_app|].
  pose proof (tag_rank_score now eq au c) as Ht. destruct (rank_score exp now eq au c) as [c' score]. cbn [fst] in Ht.
  destruct (fgt _ _); cbn [rk_conns]; rewrite map_app; cbn [map]; by rewrite Ht.
Qed.

Lemma tags_select cs last now cfg : tags (select_connection_idx exp cs last now cfg).1 = tags cs.
Proof.
  unfold select_connection_idx. destruct (cfg_mode cfg).
  - cbn [fst]. rewrite tags_map by done. apply tags_gate.
  - unfold enhanced_select_connection. cbv zeta. set (cs1 := apply_stall_gate cs now cfg).
    pose proof (tags_elect cs1 now (existsb (quality_ok now) cs1)) as He.
    destruct (elect_sole_carrier _ _ _) as [cs2 k]. cbn [fst] in *. rewrite tags_rank. cbn [rk_conns map app].
    rewrite tags_imap by (intros; apply tag_exclusion). rewrite He. apply tags_gate.
Qed.
End Sched.

(** ** The sending side *)
Lemma tag_flush c t now o : tag (flush_connection c t now o).1.1 = tag c.
Proof.
  unfold flush_connection, send_connection_batch. pose proof (tag_take_batch c now) as H.
  destruct (take_batch c now) as [c1 batch]. cbn [fst] in H. case_bool_decide; [done|]. by destruct o.
Qed.

Lemma tag_maybe_flush c t now (o : option SendOutcome) (b : bool) :
  tag (if b then match o with Some o => flush_connection c t now o | None => (c, t, []) end else (c, t, [])).1.1 = tag c.
Proof. destruct b; [|done]. destruct o; [apply tag_flush|done]. Qed.

Lemma tags_flush_loop env now cs : forall i t, tags (flush_loop env now i cs t).1.1 = tags cs.
Proof.
  induction cs as [|c cs IH]; intros i t; cbn [flush_loop]; [done|].
  pose proof (tag_maybe_flush c t (env_flush_now env i) (env_io env i)
    (needs_batch_flush c now || conn_has_queued_packets c)) as H.
  destruct (if needs_batch_flush c now || conn_has_queued_packets c then _ else _) as [[c' t'] sent]. cbn [fst] in H.
  specialize (IH (S i) t'). destruct (flush_loop env now (S i) cs t') as [[cs' t''] rest]. cbn [fst map] in *. by rewrite H, IH.
Qed.

Lemma tags_flush_all cs t env : tags (flush_all_batches cs t env).1.1 = tags cs.
Proof. unfold flush_all_batches. cbv zeta. destruct (negb _); [done|apply tags_flush_loop]. Qed.

Lemma tags_forward sel pkt seq cs last t now env cs' last' t' sent :
  forward_via_connection sel pkt seq cs last t now env = Ret (cs', last', t', sent) -> tags cs' = tags cs.
Proof.
  unfold forward_via_connection. destruct (cs !! sel) as [c|] eqn:Hl; [|by intros [= <- _ _ _]].
  pose proof (tag_queue_data c pkt seq now) as Hq. destruct (queue_data_packet c pkt seq now) as [c1 nf]. cbn [fst] in Hq.
  destruct (match seq with Some s => _ | None => _ end) as [t1|]; [|done]. cbn [mbind res_bind].
  pose proof (tag_maybe_flush c1 t1 (env_flush_now env sel) (env_io env sel) nf) as Hf.
  destruct (if nf then _ else _) as [[c2 t2] s2]. cbn [fst] in Hf. intros [= <- _ _ _].
  apply (tags_insert _ _ c); [done|congruence].
Qed.

Lemma tags_probes sel pkt s now env cs : forall i t cs' t' sent,
  send_stall_probes sel i pkt s cs t now env = Ret (cs', t', sent) -> tags cs' = tags cs.
Proof.
  induction cs as [|c cs IH]; intros i t cs' t' sent; cbn [send_stall_probes]; [by intros [= <- _ _]|].
  match goal with |- mbind _ ?r = _ -> _ => set (one := r) end.
  assert (forall c1 t1 s1, one = Ret (c1, t1, s1) -> tag c1 = tag c) as Hone.
  { subst one. intros c1 t1 s1. destruct (negb _); [by intros [= <- _ _]|].
    pose proof (tag_probe_due c) as Hd. destruct (stall_probe_due c) as [c2 due]. cbn [fst] in Hd.
    destruct (negb due); [by intros [= <- _ _]|]. destruct (set_srt_data_retransmit pkt) as [p|]; [|done]. cbn [mbind res_bind].
    pose proof (tag_queue_probe c2 p s now) as Hq. destruct (queue_probe_packet c2 p s now) as [c3 nf]. cbn [fst] in Hq.
    pose proof (tag_maybe_flush c3 t (env_flush_now env i) (env_io env i) nf) as Hf.
    destruct (if nf then _ else _) as [[c4 t4] s4]. intros [= <- _ _]. cbn [fst] in Hf. congruence. }
  clearbody one. destruct one as [[[c1 t1] s1]|]; [|done]. cbn [mbind res_bind].
  destruct (send_stall_probes sel (S i) pkt s cs t1 now env) as [[[cs1 t2] rest]|] eqn:E; [|done]. cbn [mbind res_bind].
  intros [= <- _ _]. cbn [map]. by rewrite (Hone c1 t1 s1 eq_refl), (IH _ _ _ _ _ E).
Qed.

Lemma tags_schedule exp cs last pkt seq now cfg crit cs' sel :
  schedule exp cs last pkt seq now cfg crit = Ret (cs', sel) -> tags cs' = tags cs.
Proof.
  unfold schedule. pose proof (tags_select exp cs last now cfg) as H.
  destruct (select_connection_idx exp cs last now cfg) as [cs1 s1]. cbn [fst] in H.
  match goal with |- mbind _ ?r = _ -> _ => destruct r as [[]|] end; cbn [mbind res_bind]; [| |done].
  - by destruct (select_best_path_override_idx _ _ _); intros [= <- _].
  - by intros [= <- _].
Qed.

(** A packet of the client changes no tag. *)
Lemma tags_srt_packet exp st pkt src env st' sent :
  handle_srt_packet exp st pkt src env = Ret (st', sent) -> tags (sn_conns st') = tags (sn_conns st).
Proof.
  unfold handle_srt_packet. case_bool_decide; [by intros [= <- _]|].
  destruct (get_srt_sequence_number pkt) as [seq|]; [|done]. cbn [mbind res_bind]. destruct (negb _).
  - destruct (select_pre_registration_connection _ _ _) as [sel|]; [|by intros [= <- _]].
    destruct (forward_via_connection _ _ _ _ _ _ _ _) as [[[[cs l] t] s]|] eqn:E; [|done]. intros [= <- _].
    exact (tags_forward _ _ _ _ _ _ _ _ _ _ _ _ E).
  - destruct (schedule _ _ _ _ _ _ _ _) as [[cs sel]|] eqn:Es; [|done]. cbn [mbind res_bind]. apply tags_schedule in Es.
    destruct sel as [sel|]; [|by intros [= <- _]].
    destruct (forward_via_connection _ _ _ _ _ _ _ _) as [[[[cs1 l] t] s]|] eqn:E; [|done]. cbn [mbind res_bind].
    apply tags_forward in E. destruct seq as [s0|].
    + destruct (send_stall_probes _ _ _ _ _ _ _ _) as [[[cs2 t2] s2]|] eqn:Ep; [|done]. apply tags_probes in Ep.
      intros [= <- _]. cbn [sn_conns]. cbn. congruence.
    + intros [= <- _]. cbn. congruence.
Qed.

(** ** The receiving side *)
Lemma tag_registered_now c now : tag (registered_now c now) = tag c.
Proof. exact (tag_conn_step c (ORegistered now) _ eq_refl). Qed.

Lemma tag_dispatch hash us client data pt now ts inc us' inc' relay :
  dispatch hash us client data pt now ts inc = Ret (us', inc', relay) -> tag (us_conn us') = tag (us_conn us).
Proof.
  destruct us as [conn reg dedup]. unfold dispatch. cbn [us_conn].
  destruct (pt =? SRT_TYPE_ACK).
  { destruct (parse_srt_ack data) as [a|]; [|done]. cbn [mbind res_bind]. destruct client; [|by intros [= <- _ _]].
    destruct (should_forward_ack _ _ _ _) as [[d f]|]; [|done]. by intros [= <- _ _]. }
  destruct (pt =? SRT_TYPE_NAK).
  { destruct (parse_srt_nak data) as [a|]; [|done]. cbn [mbind res_bind]. destruct client; [|by intros [= <- _ _]].
    destruct (should_forward_nak _ _ _ _) as [[d f]|]; [|done]. by intros [= <- _ _]. }
  destruct (pt =? SRTLA_TYPE_ACK).
  { destruct (parse_srtla_ack data) as [a|]; [|done]. by intros [= <- _ _]. }
  destruct (pt =? SRT_TYPE_HANDSHAKE).
  { destruct (parse_srt_handshake_latency data) as [a|]; [|done]. by intros [= <- _ _]. }
  destruct (pt =? SRTLA_TYPE_KEEPALIVE); [|by intros [= <- _ _]].
  destruct (handle_keepalive_echo conn data now) as [c|] eqn:E; [|done]. intros [= <- _ _].
  exact (tag_conn_step conn (OKeepaliveEcho data now) c E).
Qed.

Lemma tag_process_uplink hash us idx client data now ts us' inc relay :
  process_uplink_packet hash us idx client data now ts = Ret (us', inc, relay) -> tag (us_conn us') = tag (us_conn us).
Proof.
  unfold process_uplink_packet. destruct (get_packet_type data) as [[pt|]|]; cbn [mbind res_bind]; [|by intros [= <- _ _]|done].
  destruct (process_registration_packet _ _ _ _) as [[reg ev]|]; [|done]. cbn [mbind res_bind]. destruct ev as [ev|].
  - unfold registration_event. destruct ev.
    + destruct (reg1_if_ngp_immediate _ _ _) as [r [p|]]; by intros [= <- _ _].
    + by intros [= <- _ _].
    + intros [= <- _ _]. apply tag_registered_now.
    + by intros [= <- _ _].
  - intros H%tag_dispatch. rewrite H. exact (tag_conn_step _ (ORefreshLiveness now) _ eq_refl).
Qed.

Lemma tags_nak_scan s now cs : tags (nak_scan s now cs).1 = tags cs.
Proof.
  induction cs as [|c cs IH]; cbn [nak_scan]; [done|]. pose proof (tag_nak c s now) as H.
  destruct (handle_nak c s now) as [c' hit]. cbn [fst] in H. destruct hit; [cbn; by rewrite H|].
  destruct (nak_scan s now cs) as [cs' r]. cbn [fst map] in *. by rewrite H, IH.
Qed.

Lemma tags_attribute cs t nak now cs' r : attribute_nak cs t nak now = Ret (cs', r) -> tags cs' = tags cs.
Proof.
  unfold attribute_nak. destruct (tracker_get t nak now) as [owner|]; [|done]. cbn [mbind res_bind].
  destruct (owner ≫= _) as [pos|].
  - destruct (cs !! pos) as [c|] eqn:Hl; [|done]. pose proof (tag_nak c (i32_wrap nak) now) as H.
    destruct (handle_nak c _ now) as [c' hit]. intros [= <- _]. by apply (tags_insert _ _ c).
  - intros E. injection E as E. rewrite <- (tags_nak_scan (i32_wrap nak) now cs), E. done.
Qed.

Lemma tags_srtla_scan idx s k now cs : forall i, tags (srtla_scan idx i s k now cs) = tags cs.
Proof.
  induction cs as [|c cs IH]; intros i; cbn [srtla_scan]; [done|].
  destruct (Nat.eqb i idx); [cbn; by rewrite IH|]. pose proof (tag_srtla_ack c s k now) as H.
  destruct (handle_srtla_ack_specific c s k now) as [c' hit]. cbn [fst] in H. destruct hit; cbn; by rewrite H, ?IH.
Qed.

Lemma tags_srtla idx k now cs a cs' : apply_srtla_ack idx k now cs a = Ret cs' -> tags cs' = tags cs.
Proof.
  unfold apply_srtla_ack. destruct (cs !! idx) as [c|] eqn:Hl; [|done].
  pose proof (tag_srtla_ack c (i32_wrap a) k now) as H. destruct (handle_srtla_ack_specific c _ k now) as [c' found].
  cbn [fst] in H. cbv zeta. intros [= <-].
  rewrite tags_map by (intros d; exact (tag_conn_step d OSrtlaAckGlobal _ eq_refl)).
  destruct found; [|rewrite tags_srtla_scan]; by apply (tags_insert _ _ c).
Qed.

(** A fold that keeps an invariant of each step. *)
Lemma fold_res_partial {A B} (P : B -> Prop) (f : B -> A -> res B) l : forall b b',
  (forall b x b', P b -> f b x = Ret b' -> P b') -> P b -> fold_res f b l = Ret b' -> P b'.
Proof.
  induction l as [|x l IH]; intros b b' Hf Hb; cbn [fold_res]; [by intros [= <-]|].
  destruct (f b x) as [b1|] eqn:E; [|done]. cbn [mbind res_bind]. intros H. apply (IH b1); [done|by apply (Hf b x)|done].
Qed.

Lemma tags_events idx cs client t k inc now cs' out :
  process_connection_events idx cs client t k inc now = Ret (cs', out) -> tags cs' = tags cs.
Proof.
  unfold process_connection_events. case_bool_decide; [by intros [= <- _]|]. destruct (_ && _); [by intros [= <- _]|].
  destruct (fold_res (apply_srt_ack t now) cs _) as [cs1|] eqn:E1; [|done]. cbn [mbind res_bind].
  destruct (fold_res (apply_srtla_ack idx k now) cs1 _) as [cs2|] eqn:E2; [|done]. cbn [mbind res_bind].
  destruct (fold_res _ cs2 _) as [cs3|] eqn:E3; [|done]. cbn [mbind res_bind]. intros [= <- _].
  apply (fold_res_partial (fun x => tags x = tags cs)) in E1; [| |done].
  2: { intros b x b' Hb. unfold apply_srt_ack. destruct (tracker_get _ _ _); [|done]. intros [= <-].
       rewrite tags_map by (intros; apply tag_srt_ack). done. }
  apply (fold_res_partial (fun x => tags x = tags cs)) in E2; [| |done].
  2: { intros b x b' Hb Hs%tags_srtla. congruence. }
  apply (fold_res_partial (fun x => tags x = tags cs)) in E3; [done| |done].
  intros b x b' Hb. destruct (attribute_nak b t x now) as [[b1 r]|] eqn:E; [|done]. intros [= <-].
  apply tags_attribute in E. congruence.
Qed.

(** A datagram of the receiver changes no tag. *)
Lemma tags_uplink_packet hash st id data ts r1 t1 t2 t3 st' relay out :
  handle_uplink_packet hash st id data ts r1 t1 t2 t3 = Ret (st', relay, out) -> tags (sn_conns st') = tags (sn_conns st).
Proof.
  unfold handle_uplink_packet. case_bool_decide; [by intros [= <- _ _]|].
  destruct (position _ _) as [idx|]; [|by intros [= <- _ _]].
  destruct (sn_conns st !! idx) as [c|] eqn:Hl; [|done].
  destruct (process_uplink_packet _ _ _ _ _ _ _) as [[[us inc] rl]|] eqn:E; [|done]. cbn [mbind res_bind].
  apply tag_process_uplink in E. cbn [us_conn] in E.
  set (c1 := match reg1_send inc with Some _ => _ | None => _ end).
  assert (tag c1 = tag c) as Hc1 by (unfold c1; destruct (reg1_send inc), r1 as [[]|]; done).
  clearbody c1. destruct (process_connection_events _ _ _ _ _ _ _) as [[cs o]|] eqn:Ee; [|done]. cbn [mbind res_bind].
  apply tags_events in Ee. rewrite (tags_insert _ _ c) in Ee by done. by intros [= <- _ _].
Qed.

(** ** The housekeeping tick *)
Lemma tag_rebuild c t now : tag (rebuild_uplink_socket c t now).1 = tag c.
Proof. done. Qed.

Lemma tag_reconnect env io now i c reg t : tag (reconnect_link env io now i c reg t).1.1 = tag c.
Proof.
  unfold reconnect_link.
  assert (tag (record_reconnect_attempt c now) = tag c) as <- by done.
  generalize (record_reconnect_attempt c now). intros c1.
  set (p := match io !! conn_id c1 with Some _ => _ | None => _ end).
  assert (tag p.1 = tag c1) as <- by (unfold p; destruct (io !! conn_id c1); [destruct (he_rebuild env i)|]; done).
  clearbody p. destruct p as [c2 t2]. cbn [fst].
  assert (forall b : option Z, tag (match b with Some _ => if he_reg_send env i then note_sent c2 now else c2 | None => c2 end) = tag c2) as Hs
    by (intros [|]; [destruct (he_reg_send env i); done|done]).
  destruct (pending_reg2_idx reg) as [idx|]; [|apply Hs]. destruct (Nat.eqb idx i); [apply Hs|done].
Qed.

Lemma tag_upkeep classic now c : tag (upkeep_link classic now c) = tag c.
Proof.
  unfold upkeep_link. cbv zeta.
  rewrite (tag_conn_step _ OBatchRegime _ eq_refl), (tag_conn_step _ (OUpdatePhase now) _ eq_refl).
  rewrite (tag_conn_step _ (OBitrate now) _ eq_refl). destruct (negb classic).
  1: rewrite (tag_conn_step _ (ORecoverWindow now) _ eq_refl).
  all: destruct (needs_keepalive c now); destruct (needs_rtt_measurement _ now); by rewrite ?tag_keepalive.
Qed.

Lemma tags_tick_links env io k now cs : forall i reg t, tags (tick_links env io k now i cs reg t).1.1 = tags cs.
Proof.
  induction cs as [|c cs IH]; intros i reg t; cbn [tick_links]; [done|].
  assert (tag (tick_link env io k now i c reg t).1.1 = tag c) as H.
  { unfold tick_link. destruct (is_timed_out c now); [|apply tag_upkeep].
    destruct (conn_should_attempt_reconnect c now); [apply tag_reconnect|done]. }
  destruct (tick_link env io k now i c reg t) as [[c' reg'] t']. cbn [fst] in H.
  specialize (IH (S i) reg' t'). destruct (tick_links env io k now (S i) cs reg' t') as [[cs' r'] t'']. cbn [fst map] in *.
  by rewrite H, IH.
Qed.

Lemma tags_drive_probing reg cs now clock : tags (drive_probing reg cs now clock).2 = tags cs.
Proof.
  unfold drive_probing. destruct (is_probing reg); [|done]. cbv zeta. destruct (negb _); [|done].
  destruct (reg1_target_idx _) as [idx|]; [|done]. cbn [mbind option_bind].
  destruct (cs !! idx) as [c|] eqn:Hl; [|done]. cbn. by apply (tags_insert _ _ c).
Qed.

Lemma tags_drive_registration env io now cs reg : tags (drive_registration env io now cs reg).1 = tags cs.
Proof.
  unfold drive_registration. destruct (reg_driver_pending_sends _ _ _) as [reg' sends]. cbv zeta. cbn [fst].
  assert (forall (ok : nat -> bool) i c, tag (if bool_decide (is_Some (io !! conn_id c)) && ok i then note_sent c now else c) = tag c) as Hs
    by (intros ok i c; by destruct (_ && ok i)).
  transitivity (tags (match reg1 sends with
    | Some (idx, _) => imap (fun i c => if Nat.eqb i idx
        then if bool_decide (is_Some (io !! conn_id c)) && he_driver_send env i then note_sent c now else c else c) cs
    | None => cs end)).
  - destruct (broadcast_reg2 sends); [|done]. by apply tags_imap.
  - destruct (reg1 sends) as [[idx p]|]; [|done]. apply tags_imap. intros i c. destruct (Nat.eqb i idx); [apply Hs|done].
Qed.

Lemma tags_rebuild_all env io now cs : forall i t, tags (rebuild_all env io now i cs t).1 = tags cs.
Proof.
  induction cs as [|c cs IH]; intros i t; cbn [rebuild_all]; [done|].
  set (p := match io !! conn_id c with Some _ => _ | None => _ end).
  assert (tag p.1 = tag c) as H by (unfold p; destruct (io !! conn_id c); [destruct (he_rehome_rebuild env i)|]; done).
  clearbody p. destruct p as [c' t']. cbn [fst] in H. specialize (IH (S i) t').
  destruct (rebuild_all env io now (S i) cs t') as [cs' t'']. cbn [fst map] in *. by rewrite H, IH.
Qed.

Lemma tags_start_probing reg cs now : tags (start_probing reg cs now).1.2 = tags cs.
Proof.
  unfold start_probing. destruct (_ || _); [done|]. cbv zeta. cbn [fst snd]. unfold probe_all.
  induction cs as [|c cs IH]; [done|]. cbn. f_equal. apply IH.
Qed.

Lemma tags_try_rehome env st now : tags (hk_conns (try_rehome env st now).1) = tags (hk_conns st).
Proof.
  unfold try_rehome. case_bool_decide; [done|]. destruct (claim_probe (hk_gate st) now) as [g b]. cbv zeta.
  destruct (negb b); [done|]. destruct (he_resolve env) as [fresh|]; [|done]. destruct (negb _); [done|].
  destruct fresh as [|new rest]; [done|]. cbn [fst]. unfold rehome_bond. cbv zeta.
  change (hk_conns (st <| hk_gate := g |>)) with (hk_conns st).
  match goal with |- context [rebuild_all env ?io now 0 ?cs ?t] => pose proof (tags_rebuild_all env io now cs 0 t) as Ht;
    destruct (rebuild_all env io now 0 cs t) as [cs1 t1] end. cbn [fst] in Ht.
  match goal with |- context [start_probing ?r cs1 now] => pose proof (tags_start_probing r cs1 now) as H2;
    destruct (start_probing r cs1 now) as [[r2 cs2] snd2] end. cbn [fst snd] in H2. cbn. congruence.
Qed.

(** The tick of the registration, reconnection and re-homing machinery changes
    no tag. *)
Lemma tags_housekeeping env st k now : tags (hk_conns (handle_housekeeping env st k now).1) = tags (hk_conns st).
Proof.
  assert (tags (hk_conns (tick_front env st k now)) = tags (hk_conns st)) as H.
  { unfold tick_front. cbv zeta. pose proof (tags_drive_probing (clear_pending_if_timed_out (hk_reg st) now).1 (hk_conns st) now (he_clock env)) as H1.
    destruct (drive_probing _ _ _ _) as [reg1 cs1]. cbn [snd] in H1.
    pose proof (tags_tick_links env (hk_io st) k now cs1 0 reg1 (hk_tracker st)) as H2.
    destruct (tick_links _ _ _ _ _ _ _ _) as [[cs2 reg2] t2]. cbn [fst] in H2.
    pose proof (tags_drive_registration env (hk_io st) now cs2 reg2) as H3.
    destruct (drive_registration _ _ _ _ _) as [cs3 reg3]. cbn [fst] in H3. cbn. congruence. }
  unfold handle_housekeeping. set (st1 := tick_front env st k now) in *. clearbody st1. rewrite <- H. clear H.
  destruct (negb _); [|done]. destruct (hk_all_failed_at st1) as [f|] eqn:Ef.
  - rewrite Ef. destruct (_ >? _); [|done]. pose proof (tags_try_rehome env st1 now) as Hr.
    destruct (try_rehome env st1 now) as [st2 moved]. by destruct moved.
  - change (hk_all_failed_at (st1 <| hk_all_failed_at := Some now |>)) with (Some now). cbv iota.
    destruct (_ >? _); [|done]. pose proof (tags_try_rehome env (st1 <| hk_all_failed_at := Some now |>) now) as Hr.
    destruct (try_rehome _ _ _) as [st2 moved]. by destruct moved.
Qed.
