(* ===== verification/MainLoop.v ===== *)
(** * The main loop (src/sender/mod.rs, uplink.rs, priority_listener.rs)

    [run_sender_with_config]: start-up, and the branches of the event loop over
    the whole state of the sender.  A branch is one event: a packet of the SRT
    client, a datagram of an uplink, the housekeeping and flush timers, SIGHUP
    and the signals that stop the program; the reader tasks, the control socket
    and the priority listener, which run beside the loop, are events of their
    own.  Sockets, clock reads, file contents and random ids are outcomes carried
    by the event; that a link has a socket is part of the state, so the outcomes
    of a link without one are never used.  Statistics, status lines and
    subscriptions only read the state. *)
From S2P Require Import Prelude F64 Wire Seq Filters Rtt Batch Pacing Congestion Config Connection StallLatch Classifier Selection SelectionSpec SelectionFrame LinkCc Registration Tracker Dedup Uplink Sender Housekeeping Reload Links Identity.

Definition MAX_DRAIN_PACKETS : nat := 64.

(** An entry of the channel from the reader tasks. *)
Record UplinkPacket := mkPacket { up_conn_id : Z; up_bytes : bytes }.

Record LoopState := mkLoop {
  ml_sender : SenderState;
  ml_io : gmap Z Z;
  ml_all_failed_at : option Z;
  ml_gate : RehomeGate;
  ml_filter : WeakLinkFilter;
  ml_cc : LinkCcController;
  ml_pending : option (list Z * list Z);
  ml_readers : gset Z;
  ml_queue : list UplinkPacket }.
Global Instance eta_loop : Eta LoopState := fun s =>
  mkLoop (ml_sender s) (ml_io s) (ml_all_failed_at s) (ml_gate s) (ml_filter s) (ml_cc s) (ml_pending s)
    (ml_readers s) (ml_queue s).

Abbreviation ml_conns st := (sn_conns (ml_sender st)).

(** What the sockets and the clock did while one packet of the channel was
    handled. *)
Record UplinkIo := mkUplinkIo {
  ui_try_send : TrySend; ui_reg1 : bool; ui_recv : Z; ui_sent : Z; ui_apply : Z }.

(** What they did during a packet of the client or a flush: the outcome of a
    batch per link. *)
Record SendIo := mkSendIo { si_now : Z; si_send : nat -> SendOutcome; si_flush_now : nat -> Z }.

(** Only a link with an entry in the I/O map has a socket. *)
Definition send_env (st : LoopState) (io : SendIo) : Env :=
  mkEnv (si_now io)
    (fun i => c ← ml_conns st !! i; _ ← ml_io st !! conn_id c; Some (si_send io i)) (si_flush_now io).

(** ** uplink.rs: readers, by link id *)
Definition sync_readers (conns : list SrtlaConnection) (io : gmap Z Z) (readers : gset Z) : gset Z :=
  let active_ids : gset Z := list_to_set (map conn_id conns) in
  let readers := foldl (fun r c => match io !! conn_id c with Some _ => {[conn_id c]} ∪ r | None => r end) readers conns in
  filter (fun id => id ∈ active_ids) readers.

(** ** priority_listener.rs: one datagram *)
Definition priority_datagram (w : CriticalWindow) (buf : bytes) (now : Z) : res CriticalWindow :=
  if negb (Nat.eqb (length buf) DATAGRAM_LEN) then Ret (record_malformed w)
  else
    magic ← idx buf 0;
    if negb (magic =? PROTO_MAGIC) then Ret (record_malformed w)
    else
      window_ms ← idx32 buf 1;
      Ret (extend_to w (u64_wrap (now + window_ms))).

(** ** Housekeeping: stamping the verdicts *)
Definition stamp_link (classification : ClassificationResult) (snapshots : gmap Z LinkCcSnapshot)
    (conn : SrtlaConnection) : SrtlaConnection :=
  let entry := verdict (conn_id conn) classification in
  let cc_snap := snapshots !! conn_id conn in
  conn <| weak := default false (lc_weak <$> entry) |>
       <| weak_reason := default Healthy (lc_reason <$> entry) |>
       <| cc_backing_off := default false ((fun s => bool_decide (sn_state s = BackingOff)) <$> cc_snap) |>
       <| cc_target_bps := default 0 (sn_target_bps <$> cc_snap) |>
       <| loss_degraded := default false (sn_loss_degraded <$> cc_snap) |>.

Definition hk_of (st : LoopState) : HkState :=
  mkHk (ml_conns st) (ml_io st) (sn_reg (ml_sender st)) (sn_tracker (ml_sender st)) (ml_all_failed_at st) (ml_gate st).

Definition with_hk (st : LoopState) (h : HkState) : LoopState :=
  st <| ml_sender ::= fun s => s <| sn_conns := hk_conns h |> <| sn_reg := hk_reg h |> <| sn_tracker := hk_tracker h |> |>
     <| ml_io := hk_io h |> <| ml_all_failed_at := hk_all_failed_at h |> <| ml_gate := hk_gate h |>.

(** The queued change of the link list, if there is one. *)
Definition apply_pending (st : LoopState) (outs : list (option Opened)) : LoopState :=
  match ml_pending st with
  | None => st
  | Some (new_ips, new_weights) =>
    let s := ml_sender st in
    let l := apply_connection_changes (mkLinks (sn_conns s) (ml_io st) (sn_last_selected s) (sn_tracker s))
               new_ips new_weights outs in
    let st := st <| ml_pending := None |>
                 <| ml_sender := s <| sn_conns := ln_conns l |> <| sn_last_selected := ln_last_selected l |>
                                   <| sn_tracker := ln_tracker l |> |>
                 <| ml_io := ln_io l |> in
    st <| ml_readers ::= sync_readers (ml_conns st) (ml_io st) |>
  end.

(** ** Events *)
Inductive loop_event :=
  | LvSrt (res : option (bytes * Z)) (io : SendIo) (drain : nat -> UplinkIo)
  | LvUplink (io : UplinkIo) (drain : nat -> UplinkIo)
  | LvHousekeeping (env : HkEnv) (now cc_now : Z) (outs : list (option Opened)) (drain : nat -> UplinkIo)
  | LvSighup (read_to_string : option chars) (drain : nat -> UplinkIo)
  | LvFlush (io : SendIo)
  | LvStop
  | LvReader (id : Z) (recv : option (list bytes))
  | LvCommand (op : config_op)
  | LvPriority (buf : bytes) (now : Z).

Section Loop.
Context (exp : f64 -> f64) (hash : bytes -> Z).

Definition uplink_one (st : LoopState) (p : UplinkPacket) (u : UplinkIo) : res LoopState :=
  '(s, _, _) ← handle_uplink_packet hash (ml_sender st) (up_conn_id p) (up_bytes p) (ui_try_send u)
                 (match ml_io st !! up_conn_id p with Some _ => Some (ui_reg1 u) | None => None end)
                 (ui_recv u) (ui_sent u) (ui_apply u);
  Ret (st <| ml_sender := s |>).

(** [processed] counts up from zero; [budget] is what is left of the 64. *)
Fixpoint drain_loop (budget processed : nat) (st : LoopState) (us : nat -> UplinkIo) : res LoopState :=
  match budget, ml_queue st with
  | S budget, p :: rest =>
    st ← uplink_one (st <| ml_queue := rest |>) p (us processed);
    drain_loop budget (S processed) st us
  | _, _ => Ret st
  end.

Definition drain_packet_queue (st : LoopState) (us : nat -> UplinkIo) : res LoopState :=
  drain_loop MAX_DRAIN_PACKETS 0 st us.

(** The housekeeping branch up to the drain. *)
Definition housekeeping_branch (st : LoopState) (env : HkEnv) (now cc_now : Z) (outs : list (option Opened))
  : LoopState :=
  let classic := is_classic (config_mode (sn_config (ml_sender st))) in
  let '(h, _) := handle_housekeeping env (hk_of st) classic now in
  let st := with_hk st h in
  let snap := snapshot (sn_config (ml_sender st)) in
  let '(f, classification) := classify (ml_filter st) (ml_conns st) (cfg_negotiated_latency_ms snap) in
  let '(cc, snapshots) := tick_all exp (ml_cc st) (ml_conns st) cc_now in
  let st := st <| ml_filter := f |> <| ml_cc := cc |>
               <| ml_sender ::= fun s => s <| sn_conns ::= map (stamp_link classification snapshots) |> |> in
  let st := apply_pending st outs in
  st <| ml_readers ::= sync_readers (ml_conns st) (ml_io st) |>.

(** One turn of the loop; [None]: it returned. *)
Definition loop_step (st : LoopState) (ev : loop_event) : res (option LoopState) :=
  match ev with
  | LvSrt r io us =>
    st ← match r with
         | Some (pkt, src) =>
           '(s, _) ← handle_srt_packet exp (ml_sender st) pkt src (send_env st io); Ret (st <| ml_sender := s |>)
         | None => Ret st
         end;
    st ← drain_packet_queue st us; Ret (Some st)
  | LvUplink u us =>
    match ml_queue st with
    | [] => Ret (Some st)
    | p :: rest =>
      st ← uplink_one (st <| ml_queue := rest |>) p u;
      st ← drain_packet_queue st us; Ret (Some st)
    end
  | LvHousekeeping env now cc_now outs us =>
    st ← drain_packet_queue (housekeeping_branch st env now cc_now outs) us; Ret (Some st)
  | LvSighup read us =>
    let st := match analyze_ip_reload read with
              | Apply ips weights _ => st <| ml_pending := Some (map ip_key ips, weights) |>
              | Refuse _ => st
              end in
    st ← drain_packet_queue st us; Ret (Some st)
  | LvFlush io =>
    let '(conns, t, _) := flush_all_batches (ml_conns st) (sn_tracker (ml_sender st)) (send_env st io) in
    Ret (Some (st <| ml_sender ::= fun s => s <| sn_conns := conns |> <| sn_tracker := t |> |>))
  | LvStop => Ret None
  | LvReader id recv =>
    if bool_decide (id ∈ ml_readers st) then
      let arrived := match recv with
                     | Some datagrams => map (mkPacket id) (filter (fun d => d <> []) datagrams)
                     | None => [mkPacket id []]
                     end in
      Ret (Some (st <| ml_queue ::= fun q => q ++ arrived |>))
    else Ret (Some st)
  | LvCommand op => Ret (Some (st <| ml_sender ::= fun s => s <| sn_config ::= fun d => config_step d op |> |>))
  | LvPriority buf now =>
    w ← priority_datagram (sn_critical (ml_sender st)) buf now;
    Ret (Some (st <| ml_sender ::= fun s => s <| sn_critical := w |> |>))
  end.
End Loop.

(** ** Start-up *)
Record StartEnv := mkStart {
  se_bind : bool;
  se_read : option chars;
  se_outs : list (option Opened);
  se_id : bytes;
  se_probe_id : bytes;
  se_probe_now : Z;
  se_signals : bool;
  se_hk : HkEnv;
  se_now : Z }.

Inductive StartError := BindFailed | ReadFailed | NoIps | NoUplinks | SignalFailed.

Definition start_sender (config : DynamicConfig) (critical : CriticalWindow) (e : StartEnv)
  : LoopState + StartError :=
  if negb (se_bind e) then inr BindFailed
  else
    match read_weighted_ip_list (se_read e) with
    | None => inr ReadFailed
    | Some (ips, weights) =>
      let ips := map ip_key ips in
      if bool_decide (ips = []) then inr NoIps
      else
        let '(conns, io) := create_connections_from_ips ips weights (se_outs e) ∅ in
        if bool_decide (conns = []) then inr NoUplinks
        else
          let '(reg, conns, _) := start_probing (reg_new (se_id e) (se_probe_id e)) conns (se_probe_now e) in
          let readers := sync_readers conns io ∅ in
          if negb (se_signals e) then inr SignalFailed
          else
            let st := mkLoop (mkSender conns reg tracker_new dedup_new config critical None None) io None
                        (gate_new (rehome_on_failure config)) filter_new ∅ None readers [] in
            let '(h, _) := handle_housekeeping (se_hk e) (hk_of st) (is_classic (config_mode config)) (se_now e) in
            inl (with_hk st h)
    end.

(** ** The invariant of the loop *)
Definition links_of (st : LoopState) : LinkSet :=
  mkLinks (ml_conns st) (ml_io st) (sn_last_selected (ml_sender st)) (sn_tracker (ml_sender st)).

Record loop_ok (st : LoopState) : Prop := mkLoopOk {
  ok_sender : sender_ok (ml_sender st);
  ok_links : links_ok (links_of st);
  ok_readers : forall id, id ∈ ml_readers st <-> id ∈ map conn_id (ml_conns st);
  ok_queue : Forall (fun p => is_bytes (up_bytes p)) (ml_queue st);
  ok_filter : filter_ok (ml_filter st) }.

(** What the environment promises of an event: datagrams are byte strings and
    the ids drawn for new links are new. *)
Definition loop_event_ok (st : LoopState) (ev : loop_event) : Prop :=
  match ev with
  | LvReader _ (Some datagrams) => Forall is_bytes datagrams
  | LvHousekeeping _ _ _ outs _ => fresh_ids (ml_conns st) outs
  | _ => True
  end.

(** Every link with a socket has a reader after a sync, and nothing else does. *)
Lemma sync_readers_elem conns io readers id :
  id ∈ sync_readers conns io readers <->
  id ∈ map conn_id conns /\ (id ∈ readers \/ is_Some (io !! id)).
Proof.
  unfold sync_readers. cbv zeta. rewrite elem_of_filter, elem_of_list_to_set.
  assert (forall r : gset Z, id ∈ foldl (fun r c => match io !! conn_id c with Some _ => {[conn_id c]} ∪ r | None => r end) r conns <->
    id ∈ r \/ id ∈ map conn_id conns /\ is_Some (io !! id)) as H; [|rewrite H; tauto].
  induction conns as [|c conns IH]; intros r; cbn [foldl map].
  { split; [by left|]. intros [?|[[]%elem_of_nil _]]; done. }
  rewrite IH, elem_of_cons. destruct (io !! conn_id c) eqn:E.
  - rewrite elem_of_union, elem_of_singleton. assert (id = conn_id c -> is_Some (io !! id)) by (intros ->; by rewrite E). tauto.
  - split; [tauto|]. intros [?|[[->|?] Hs]]; [by left| |by right]. rewrite E in Hs. by destruct Hs.
Qed.

Lemma sync_readers_ok (l : LinkSet) readers : links_ok l ->
  forall id, id ∈ sync_readers (ln_conns l) (ln_io l) readers <-> id ∈ map conn_id (ln_conns l).
Proof. intros [_ _ _ Hi] id. rewrite sync_readers_elem, Hi. tauto. Qed.

(** The link set after an operation that keeps the tags and the sockets. *)
Lemma links_frame l l' :
  links_ok l -> tags (ln_conns l') = tags (ln_conns l) -> (forall id, is_Some (ln_io l' !! id) <-> is_Some (ln_io l !! id)) ->
  Forall conn_ok (ln_conns l') -> tracker_ok (ln_tracker l') -> links_ok l'.
Proof.
  intros [_ _ Hu Hi] Ht Hio Hc Htr. apply tags_ids in Ht. constructor; [done|done|by rewrite Ht|].
  intros id. by rewrite Hio, Ht.
Qed.

(** The same for the whole state. *)
Lemma loop_frame st s q :
  loop_ok st -> tags (sn_conns s) = tags (ml_conns st) -> sender_ok s -> Forall (fun p => is_bytes (up_bytes p)) q ->
  loop_ok (st <| ml_sender := s |> <| ml_queue := q |>).
Proof.
  intros [Hs Hl Hr Hq Hf] Ht (Hc & Htr & Hd) Hq'. constructor; [by split_and!| | |done|done].
  - by apply (links_frame (links_of st)).
  - intros id. cbn. rewrite Hr. by rewrite (tags_ids _ _ Ht).
Qed.

(** An event beside the loop changes neither links nor tracker nor filters. *)
Lemma loop_side st s :
  loop_ok st -> sn_conns s = ml_conns st -> sn_tracker s = sn_tracker (ml_sender st) -> sn_dedup s = sn_dedup (ml_sender st) ->
  loop_ok (st <| ml_sender := s |>).
Proof.
  intros Hok E1 E2 E3. pose proof (ok_sender _ Hok) as (Hc & Ht & Hd).
  apply (loop_frame st s (ml_queue st) Hok); [by rewrite E1| |apply Hok]. unfold sender_ok. by rewrite E1, E2, E3.
Qed.

Section Ok.
Context (exp : f64 -> f64) (hash : bytes -> Z).

Lemma uplink_one_ok st p u :
  loop_ok st -> is_bytes (up_bytes p) -> exists st', uplink_one hash st p u = Ret st' /\ loop_ok st' /\
    tags (ml_conns st') = tags (ml_conns st) /\ ml_queue st' = ml_queue st /\
    (exists s, st' = st <| ml_sender := s |>).
Proof.
  intros Hok Hb. unfold uplink_one.
  destruct (handle_uplink_packet_ok hash (ml_sender st) (up_conn_id p) (up_bytes p) (ui_try_send u)
    (match ml_io st !! up_conn_id p with Some _ => Some (ui_reg1 u) | None => None end) (ui_recv u) (ui_sent u) (ui_apply u)
    Hb (ok_sender _ Hok)) as (s & r & o & E & Hs). rewrite E. cbn [mbind res_bind].
  apply tags_uplink_packet in E. eexists. split; [done|]. split; [|split; [done|split; [done|by eexists]]].
  exact (loop_frame st s (ml_queue st) Hok E Hs (ok_queue _ Hok)).
Qed.

(** The drain never panics, keeps the invariant and takes a prefix of at most 64
    packets from the channel. *)
Lemma drain_loop_ok us n : forall i st,
  loop_ok st -> exists st', drain_loop hash n i st us = Ret st' /\ loop_ok st' /\
    tags (ml_conns st') = tags (ml_conns st) /\ ml_queue st' = drop n (ml_queue st) /\
    (exists s q, st' = st <| ml_sender := s |> <| ml_queue := q |>).
Proof.
  induction n as [|n IH]; intros i st Hok; cbn [drain_loop].
  { exists st. split; [done|]. split; [done|]. split; [done|]. split; [done|].
    exists (ml_sender st), (ml_queue st). by destruct st. }
  destruct (ml_queue st) as [|p rest] eqn:Eq.
  { exists st. split; [done|]. split; [done|]. split; [done|]. split; [done|].
    exists (ml_sender st), (ml_queue st). by destruct st. }
  pose proof (ok_queue _ Hok) as Hq. rewrite Eq in Hq. apply Forall_cons in Hq as [Hp Hrest].
  pose proof (loop_frame st (ml_sender st) rest Hok eq_refl (ok_sender _ Hok) Hrest) as Hok1.
  destruct (uplink_one_ok (st <| ml_sender := ml_sender st |> <| ml_queue := rest |>) p (us i) Hok1 Hp)
    as (st1 & E & Hok2 & Ht & Hq2 & s & ->).
  change (st <| ml_queue := rest |>) with (st <| ml_sender := ml_sender st |> <| ml_queue := rest |>). rewrite E. cbn [mbind res_bind].
  destruct (IH (S i) _ Hok2) as (st2 & E2 & Hok3 & Ht2 & Hq3 & s2 & q2 & ->). rewrite E2.
  eexists. split; [done|]. split; [done|]. split; [by rewrite Ht2, Ht|]. split; [by rewrite Hq3, Hq2|]. by do 2 eexists.
Qed.

(** Housekeeping keeps the set of links that have a socket. *)
Lemma hk_io_dom env h k now id : hk_ok h ->
  is_Some (hk_io (handle_housekeeping env h k now).1 !! id) <-> is_Some (hk_io h !! id).
Proof.
  intros [Hc Ht]. destruct (tick_front_ok env h k now Hc Ht) as (_ & _ & _ & H & _).
  unfold handle_housekeeping. set (h1 := tick_front env h k now) in *. clearbody h1. rewrite <- H.
  assert (forall h2, is_Some (hk_io (try_rehome env h2 now).1 !! id) <-> is_Some (hk_io h2 !! id)) as Hr.
  { intros h2. unfold try_rehome. case_bool_decide; [done|]. destruct (claim_probe (hk_gate h2) now) as [g b]. cbv zeta.
    destruct (negb b); [done|]. destruct (he_resolve env) as [fresh|]; [|done]. destruct (negb _); [done|].
    destruct fresh as [|new rest]; [done|]. cbn [fst].
    pose proof (rehome_bond_io env (h2 <| hk_gate := g |>) new now) as E.
    change (hk_io (rehome_bond env (h2 <| hk_gate := g |>) new now <| hk_gate ::= _ |>))
      with (hk_io (rehome_bond env (h2 <| hk_gate := g |>) new now)). rewrite E, repoint_lookup. cbn.
    destruct (hk_io h2 !! id); [|done]. split; by eexists. }
  destruct (negb _); [|done]. destruct (hk_all_failed_at h1) as [f|] eqn:Ef.
  - rewrite Ef. destruct (_ >? _); [|done]. specialize (Hr h1). destruct (try_rehome env h1 now) as [h2 moved]. by destruct moved.
  - change (hk_all_failed_at (h1 <| hk_all_failed_at := Some now |>)) with (Some now). cbv iota.
    destruct (_ >? _); [|done]. specialize (Hr (h1 <| hk_all_failed_at := Some now |>)).
    destruct (try_rehome _ _ _) as [h2 moved]. by destruct moved.
Qed.

Lemma with_hk_ok st env k now :
  loop_ok st -> let st' := with_hk st (handle_housekeeping env (hk_of st) k now).1 in
  loop_ok st' /\ tags (ml_conns st') = tags (ml_conns st).
Proof.
  intros [(Hc & Ht & Hd) Hl Hr Hq Hf]. cbv zeta.
  assert (hk_ok (hk_of st)) as Hh by done.
  destruct (housekeeping_cases env (hk_of st) k now Hh) as ((Hc' & Ht') & _).
  pose proof (tags_housekeeping env (hk_of st) k now) as Htag.
  pose proof (fun id => hk_io_dom env (hk_of st) k now id Hh) as Hio.
  destruct (handle_housekeeping env (hk_of st) k now) as [h r]. cbn [fst] in *.
  split; [|done]. constructor; [by split_and!| | |done|done].
  - by apply (links_frame (links_of st)).
  - intros id. cbn. rewrite Hr. by rewrite (tags_ids _ _ Htag).
Qed.

Lemma stamp_ok cl sn c : conn_ok c -> conn_ok (stamp_link cl sn c).
Proof. intros H. exact H. Qed.
Lemma stamp_ids cl sn cs : map conn_id (map (stamp_link cl sn) cs) = map conn_id cs.
Proof. by rewrite map_map. Qed.

Lemma apply_pending_ok st outs :
  loop_ok st -> fresh_ids (ml_conns st) outs -> loop_ok (apply_pending st outs).
Proof.
  intros Hok Hf. unfold apply_pending. destruct (ml_pending st) as [[ips ws]|]; [|done]. cbv zeta.
  pose proof (apply_changes_ok (links_of st) ips ws outs (ok_links _ Hok) Hf) as Hl. unfold links_of in Hl.
  set (l := apply_connection_changes _ ips ws outs) in *. clearbody l. destruct Hok as [(_ & _ & Hd) _ _ Hq Hfo].
  constructor; [|by destruct l| |done|done].
  - split_and!; [apply (lo_conns _ Hl)|apply (lo_tracker _ Hl)|done].
  - by apply sync_readers_ok.
Qed.

(** The verdicts of the classifier in a tick, and the bond they are about. *)
Definition tick_bond (st : LoopState) (env : HkEnv) (now : Z) : LoopState :=
  with_hk st (handle_housekeeping env (hk_of st) (is_classic (config_mode (sn_config (ml_sender st)))) now).1.
Definition tick_verdicts (st : LoopState) (env : HkEnv) (now : Z) : WeakLinkFilter * ClassificationResult :=
  classify (ml_filter st) (ml_conns (tick_bond st env now)) (cfg_negotiated_latency_ms (snapshot (sn_config (ml_sender st)))).
Definition tick_caps (st : LoopState) (env : HkEnv) (now cc_now : Z) : LinkCcController * gmap Z LinkCcSnapshot :=
  tick_all exp (ml_cc st) (ml_conns (tick_bond st env now)) cc_now.
Definition stamped (st : LoopState) (env : HkEnv) (now cc_now : Z) : LoopState :=
  tick_bond st env now <| ml_filter := (tick_verdicts st env now).1 |> <| ml_cc := (tick_caps st env now cc_now).1 |>
    <| ml_sender ::= fun s => s <| sn_conns ::= map (stamp_link (tick_verdicts st env now).2 (tick_caps st env now cc_now).2) |> |>.

Lemma housekeeping_branch_eq st env now cc_now outs :
  housekeeping_branch exp st env now cc_now outs =
  let st' := apply_pending (stamped st env now cc_now) outs in
  st' <| ml_readers ::= sync_readers (ml_conns st') (ml_io st') |>.
Proof.
  unfold housekeeping_branch, stamped, tick_verdicts, tick_caps, tick_bond. cbv zeta.
  destruct (handle_housekeeping env (hk_of st) (is_classic (config_mode (sn_config (ml_sender st)))) now) as [h r]. cbn [fst].
  change (ml_filter (with_hk st h)) with (ml_filter st). change (ml_cc (with_hk st h)) with (ml_cc st).
  change (sn_config (ml_sender (with_hk st h))) with (sn_config (ml_sender st)).
  destruct (classify _ _ _) as [f cl]. by destruct (tick_all _ _ _ _) as [cc sn].
Qed.

Lemma tick_filter_ok st env now : loop_ok st -> filter_ok (tick_verdicts st env now).1.
Proof.
  intros Hok. destruct (with_hk_ok st env (is_classic (config_mode (sn_config (ml_sender st)))) now Hok) as [Hb _].
  apply (classify_filter_ok (ml_filter st) (ml_conns (tick_bond st env now), cfg_negotiated_latency_ms (snapshot (sn_config (ml_sender st)))));
    [exact (lo_unique _ (ok_links _ Hb))|apply Hok].
Qed.

Lemma stamped_ok st env now cc_now : loop_ok st -> loop_ok (stamped st env now cc_now).
Proof.
  intros Hok. pose proof (tick_filter_ok st env now Hok) as Hf.
  destruct (with_hk_ok st env (is_classic (config_mode (sn_config (ml_sender st)))) now Hok) as [[(Hc & Ht & Hd) Hl Hr Hq _] _].
  unfold stamped. fold (tick_bond st env now) in Hc, Ht, Hd, Hl, Hr, Hq. revert Hf.
  generalize (tick_verdicts st env now) (tick_caps st env now cc_now). intros [f cl] [cc sn] Hf.
  generalize dependent (tick_bond st env now). intros b Hc Ht Hd Hl Hr Hq. cbn [fst snd].
  assert (Forall conn_ok (map (stamp_link cl sn) (ml_conns b))) as Hc2 by (rewrite Forall_map; exact Hc).
  constructor; [by split_and!| | |exact Hq|exact Hf].
  - destruct Hl as [_ _ Hu Hi]. constructor; [done|done| |]; cbn; rewrite stamp_ids; done.
  - intros id. cbn. by rewrite stamp_ids.
Qed.

Lemma stamped_ids st env now cc_now : loop_ok st -> map conn_id (ml_conns (stamped st env now cc_now)) = map conn_id (ml_conns st).
Proof.
  intros Hok. destruct (with_hk_ok st env (is_classic (config_mode (sn_config (ml_sender st)))) now Hok) as [_ Ht].
  fold (tick_bond st env now) in Ht. apply tags_ids in Ht. rewrite <- Ht. unfold stamped. apply stamp_ids.
Qed.

Lemma housekeeping_branch_ok st env now cc_now outs :
  loop_ok st -> fresh_ids (ml_conns st) outs -> loop_ok (housekeeping_branch exp st env now cc_now outs).
Proof.
  intros Hok [Hn Hf]. rewrite housekeeping_branch_eq. cbv zeta.
  assert (loop_ok (apply_pending (stamped st env now cc_now) outs)) as [Hs Hl Hr Hq Hfo].
  { apply apply_pending_ok; [by apply stamped_ok|]. split; [done|]. by rewrite stamped_ids. }
  generalize dependent (apply_pending (stamped st env now cc_now) outs). intros b Hs Hl Hr Hq Hfo.
  constructor; [done|done| |done|done]. exact (sync_readers_ok _ (ml_readers b) Hl).
Qed.

Lemma priority_total w buf now : exists w', priority_datagram w buf now = Ret w'.
Proof.
  unfold priority_datagram. destruct (Nat.eqb_spec (length buf) DATAGRAM_LEN) as [E|]; cbn [negb]; [|by eexists].
  destruct buf as [|b0 [|b1 [|b2 [|b3 [|b4 [|]]]]]]; try discriminate E. cbn [idx mbind res_bind].
  destruct (idx_total [b0; b1; b2; b3; b4] 0) as [m ->]; [cbn; lia|]. cbn [mbind res_bind].
  destruct (negb _); [by eexists|]. rewrite (idx32_drop [b0; b1; b2; b3; b4] 1 b1 b2 b3 b4 [] eq_refl). by eexists.
Qed.

Lemma drain_ok st us : loop_ok st -> exists st', drain_packet_queue hash st us = Ret st' /\ loop_ok st'.
Proof. intros H. destruct (drain_loop_ok us MAX_DRAIN_PACKETS 0 st H) as (st' & E & H' & _). by exists st'. Qed.

Lemma loop_step_ok st ev :
  loop_ok st -> loop_event_ok st ev ->
  exists o, loop_step exp hash st ev = Ret o /\ forall st', o = Some st' -> loop_ok st'.
Proof.
  intros Hok Hev.
  assert (forall r, (exists st1, r = Ret st1 /\ loop_ok st1) -> forall us, exists o,
    mbind (fun st => st ← drain_packet_queue hash st us; Ret (Some st)) r = Ret o /\ forall st', o = Some st' -> loop_ok st') as Hdrain.
  { intros r (st1 & -> & H1) us. cbn [mbind res_bind]. destruct (drain_ok st1 us H1) as (st2 & -> & H2). cbn [mbind res_bind].
    eexists. split; [done|]. by intros ? [= <-]. }
  destruct ev as [r io us|u us|env now cc outs us|read us|io| |id recv|op|buf now]; cbn [loop_step].
  - apply Hdrain. destruct r as [[pkt src]|]; [|by exists st].
    destruct (handle_srt_packet_ok exp (ml_sender st) pkt src (send_env st io) (ok_sender _ Hok)) as (s & sent & E & Hs). rewrite E.
    cbn [mbind res_bind]. apply tags_srt_packet in E. eexists. split; [done|].
    exact (loop_frame st s (ml_queue st) Hok E Hs (ok_queue _ Hok)).
  - destruct (ml_queue st) as [|p rest] eqn:Eq; [eexists; split; [done|]; by intros ? [= <-]|].
    pose proof (ok_queue _ Hok) as Hq. rewrite Eq in Hq. apply Forall_cons in Hq as [Hp Hrest]. apply Hdrain.
    pose proof (loop_frame st (ml_sender st) rest Hok eq_refl (ok_sender _ Hok) Hrest) as Hok1.
    destruct (uplink_one_ok (st <| ml_queue := rest |>) p u Hok1 Hp) as (st1 & E & H1 & _). by exists st1.
  - apply (Hdrain (Ret _)). eexists. split; [done|]. by apply housekeeping_branch_ok.
  - apply (Hdrain (Ret _)). eexists. split; [done|]. destruct Hok. by destruct (analyze_ip_reload read).
  - destruct (ok_sender _ Hok) as (Hc & Ht & Hd).
    destruct (flush_all_ok (send_env st io) (ml_conns st) (sn_tracker (ml_sender st)) Hc Ht) as [H1 H2].
    pose proof (tags_flush_all (ml_conns st) (sn_tracker (ml_sender st)) (send_env st io)) as Htag.
    destruct (flush_all_batches _ _ _) as [[cs t] sent]. cbn [fst snd] in *. eexists. split; [done|]. intros ? [= <-].
    exact (loop_frame st (ml_sender st <| sn_conns := cs |> <| sn_tracker := t |>) (ml_queue st) Hok Htag (conj H1 (conj H2 Hd)) (ok_queue _ Hok)).
  - by eexists.
  - case_bool_decide; (eexists; split; [done|]; intros ? [= <-]); [|done].
    assert (Forall (fun p => is_bytes (up_bytes p)) (match recv with
      | Some ds => map (mkPacket id) (filter (fun d => d <> []) ds) | None => [mkPacket id []] end)) as Ha.
    { destruct recv as [ds|]; [|by repeat constructor]. cbn in Hev. rewrite Forall_map, Forall_forall in *.
      intros d Hd%list_elem_of_filter. exact (Hev d (proj2 Hd)). }
    exact (loop_frame st (ml_sender st) _ Hok eq_refl (ok_sender _ Hok) (proj2 (Forall_app _ _ _) (conj (ok_queue _ Hok) Ha))).
  - eexists. split; [done|]. intros ? [= <-].
    set (s := ml_sender st <| sn_config ::= fun d => config_step d op |>). exact (loop_side st s Hok eq_refl eq_refl eq_refl).
  - destruct (priority_total (sn_critical (ml_sender st)) buf now) as [w ->]. cbn [mbind res_bind]. eexists. split; [done|]. intros ? [= <-].
    set (s := ml_sender st <| sn_critical := w |>). exact (loop_side st s Hok eq_refl eq_refl eq_refl).
Qed.
End Ok.

(** ** Start-up gives a well-formed loop *)
Lemma created_ok ips ws outs :
  NoDup (opened_ids outs) ->
  let '(conns, io) := create_connections_from_ips ips ws outs ∅ in links_ok (mkLinks conns io None tracker_new).
Proof.
  intros Hn. unfold create_connections_from_ips.
  pose proof (create_loop_spec ips ws ips outs ∅) as F. destruct (create_loop_ids ips ws ips outs ∅) as [G1 G2].
  destruct (create_loop ips ws ips outs ∅) as [conns io]. cbn [fst] in *. destruct F as (_ & _ & F3 & F4 & _).
  constructor; cbn [ln_conns ln_io ln_tracker]; [done|apply length_replicate|by apply (sublist_NoDup _ (opened_ids outs))|].
  intros id. destruct (decide (id ∈ map conn_id conns)) as [Hin|Hin].
  - split; [done|]. intros _. apply list_elem_of_fmap in Hin as (c & -> & Hc). rewrite Forall_forall in F3. by apply F3.
  - rewrite F4 by done. rewrite lookup_empty. split; [by intros []|done].
Qed.

Lemma start_sender_ok config critical e st :
  NoDup (opened_ids (se_outs e)) -> start_sender config critical e = inl st -> loop_ok st.
Proof.
  intros Hn. unfold start_sender. destruct (negb (se_bind e)); [done|].
  destruct (read_weighted_ip_list (se_read e)) as [[ips ws]|]; [|done]. cbv zeta. case_bool_decide; [done|].
  pose proof (created_ok (map ip_key ips) ws (se_outs e) Hn) as Hl.
  destruct (create_connections_from_ips _ _ _ _) as [conns io]. case_bool_decide; [done|].
  pose proof (start_probing_ok (reg_new (se_id e) (se_probe_id e)) conns (se_probe_now e) (lo_conns _ Hl)) as Hp.
  pose proof (tags_start_probing (reg_new (se_id e) (se_probe_id e)) conns (se_probe_now e)) as Ht.
  destruct (start_probing _ _ _) as [[reg conns1] probes]. cbn [fst snd] in *. destruct (negb (se_signals e)); [done|].
  pose proof (links_frame _ (mkLinks conns1 io None tracker_new) Hl Ht (fun id => iff_refl _) Hp (lo_tracker _ Hl)) as Hl1.
  set (st0 := mkLoop _ io None _ filter_new ∅ None _ []).
  assert (loop_ok st0) as Hok.
  { constructor; [split_and!; [done|apply length_replicate|apply dedup_new_ok]|done| |done|apply filter_new_ok].
    exact (sync_readers_ok (mkLinks conns1 io None tracker_new) ∅ Hl1). }
  destruct (with_hk_ok st0 (se_hk e) (is_classic (config_mode config)) (se_now e) Hok) as [H1 _].
  destruct (handle_housekeeping _ _ _ _) as [h r]. cbn [fst] in H1. by intros [= <-].
Qed.

(** ** The states of a run *)
Section Reach.
Context (exp : f64 -> f64) (hash : bytes -> Z).

Inductive loop_reach : LoopState -> Prop :=
  | loop_start config critical e st :
      NoDup (opened_ids (se_outs e)) -> start_sender config critical e = inl st -> loop_reach st
  | loop_turn st ev st' :
      loop_reach st -> loop_event_ok st ev -> loop_step exp hash st ev = Ret (Some st') -> loop_reach st'.

Lemma loop_reach_ok st : loop_reach st -> loop_ok st.
Proof.
  induction 1 as [config critical e st Hn Hs|st ev st' _ IH Hev Hs]; [by apply (start_sender_ok config critical e)|].
  destruct (loop_step_ok exp hash st ev IH Hev) as (o & E & Ho). apply Ho. congruence.
Qed.

End Reach.

(** ** Between two ticks *)
Definition is_tick (ev : loop_event) : bool := match ev with LvHousekeeping _ _ _ _ _ => true | _ => false end.
Definition is_sighup (ev : loop_event) : bool := match ev with LvSighup _ _ => true | _ => false end.

Section Quiet.
Context (exp : f64 -> f64) (hash : bytes -> Z).

(** Runs of events that are not a housekeeping tick and, if [calm], no SIGHUP
    either. *)
Inductive quiet_run (calm : bool) : LoopState -> LoopState -> Prop :=
  | quiet_refl st : quiet_run calm st st
  | quiet_turn st ev st' st'' :
      loop_event_ok st ev -> is_tick ev = false -> calm && is_sighup ev = false ->
      loop_step exp hash st ev = Ret (Some st') -> quiet_run calm st' st'' -> quiet_run calm st st''.

Lemma drain_frame st us st' :
  loop_ok st -> drain_packet_queue hash st us = Ret st' ->
  tags (ml_conns st') = tags (ml_conns st) /\ ml_io st' = ml_io st /\ ml_filter st' = ml_filter st /\
  ml_pending st' = ml_pending st.
Proof.
  intros H E. destruct (drain_loop_ok hash us MAX_DRAIN_PACKETS 0 st H) as (st1 & E1 & _ & Ht & _ & s & q & Heq).
  unfold drain_packet_queue in E. rewrite E in E1. injection E1 as <-. split; [done|]. by rewrite Heq.
Qed.

(** Outside the tick nothing changes a tag, a socket or, a reload apart, the
    queued change. *)
Lemma quiet_step st ev st' :
  loop_ok st -> loop_event_ok st ev -> is_tick ev = false -> loop_step exp hash st ev = Ret (Some st') ->
  loop_ok st' /\ tags (ml_conns st') = tags (ml_conns st) /\ ml_io st' = ml_io st /\ ml_filter st' = ml_filter st /\
  (is_sighup ev = false -> ml_pending st' = ml_pending st).
Proof.
  intros Hok Hev Hq E. destruct (loop_step_ok exp hash st ev Hok Hev) as (o & Eo & Ho).
  rewrite E in Eo. injection Eo as <-. split; [by apply Ho|].
  assert (forall st1 us, loop_ok st1 -> (st0 ← drain_packet_queue hash st1 us; Ret (Some st0)) = Ret (Some st') ->
    tags (ml_conns st') = tags (ml_conns st1) /\ ml_io st' = ml_io st1 /\ ml_filter st' = ml_filter st1 /\
    ml_pending st' = ml_pending st1) as Hd.
  { intros st1 us H1. destruct (drain_packet_queue hash st1 us) as [st2|] eqn:Ed; [|done]. cbn [mbind res_bind]. intros [= <-].
    by apply (drain_frame st1 us). }
  destruct ev as [r io us|u us|env now cc outs us|read us|io| |id recv|op|buf now]; cbn [loop_step] in E; try discriminate Hq.
  - destruct r as [[pkt src]|]; cbn [mbind res_bind] in E; [|destruct (Hd _ _ Hok E) as (? & ? & ? & ?); by split_and!].
    destruct (handle_srt_packet_ok exp (ml_sender st) pkt src (send_env st io) (ok_sender _ Hok)) as (s & sent & E1 & Hs).
    rewrite E1 in E. cbn [mbind res_bind] in E. apply tags_srt_packet in E1.
    apply Hd in E as (H1 & H2 & H3 & H4); [|exact (loop_frame st s (ml_queue st) Hok E1 Hs (ok_queue _ Hok))].
    split; [by rewrite H1|]. split; [exact H2|]. split; [exact H3|]. intros _. exact H4.
  - pose proof (ok_queue _ Hok) as Hq'. destruct (ml_queue st) as [|p rest] eqn:Eq; [by injection E as <-|].
    apply Forall_cons in Hq' as [Hp Hrest].
    pose proof (loop_frame st (ml_sender st) rest Hok eq_refl (ok_sender _ Hok) Hrest) as Hok1.
    destruct (uplink_one_ok hash (st <| ml_queue := rest |>) p u Hok1 Hp) as (st1 & E1 & H1 & Ht & _ & s & Hs).
    rewrite E1 in E. cbn [mbind res_bind] in E. destruct (Hd _ _ H1 E) as (G1 & G2 & G3 & G4).
    split; [rewrite G1; exact Ht|]. rewrite G2, G3, G4, Hs. done.
  - set (st1 := match analyze_ip_reload read with Apply _ _ _ => _ | Refuse _ => _ end) in E.
    assert (loop_ok st1 /\ ml_conns st1 = ml_conns st /\ ml_io st1 = ml_io st /\ ml_filter st1 = ml_filter st) as (H1 & H2 & H3 & H4)
      by (unfold st1; destruct Hok; by destruct (analyze_ip_reload read)).
    destruct (Hd _ _ H1 E) as (G1 & G2 & G3 & _). rewrite G1, G2, G3, H2, H3, H4. by split_and!.
  - pose proof (tags_flush_all (ml_conns st) (sn_tracker (ml_sender st)) (send_env st io)) as Htag.
    destruct (flush_all_batches _ _ _) as [[cs t] sent]. by injection E as <-.
  - discriminate E.
  - destruct (bool_decide _); by injection E as <-.
  - by injection E as <-.
  - destruct (priority_total (sn_critical (ml_sender st)) buf now) as [w Ew]. rewrite Ew in E. by injection E as <-.
Qed.

Lemma quiet_run_frame calm st st' :
  quiet_run calm st st' -> loop_ok st ->
  loop_ok st' /\ tags (ml_conns st') = tags (ml_conns st) /\ ml_io st' = ml_io st /\ ml_filter st' = ml_filter st /\
  (calm = true -> ml_pending st' = ml_pending st).
Proof.
  induction 1 as [st|st ev st1 st2 Hev Hq Hs E _ IH]; intros Hok; [done|].
  destruct (quiet_step st ev st1 Hok Hev Hq E) as (H1 & H2 & H3 & H4 & H5). specialize (IH H1) as (G1 & G2 & G3 & G4 & G5).
  rewrite G2, G3, G4, H2, H3, H4. split_and!; try done. intros ->. rewrite G5 by done. by apply H5.
Qed.
End Quiet.
