(* ===== verification/LoopSpec.v ===== *)
(** * Behaviour of the whole loop

    Theorems that cross components: a verdict of the housekeeping tick decides
    what the scheduler may choose until the next tick, a SIGHUP reload decides
    the link list after the next tick, and what a reload does to the
    registration state, which is kept by link index. *)
From S2P Require Import Prelude F64 Wire Seq Filters Rtt Batch Pacing Congestion Config Connection StallLatch Classifier Selection SelectionSpec SelectionFrame LinkCc Registration Tracker Dedup Uplink Sender Housekeeping Reload Links Identity MainLoop.

(** ** The invariant *)
Section Invariant.
Context (exp : f64 -> f64) (hash : bytes -> Z).

(** C1: the program never panics and stays consistent.  From every successful
    start, after any sequence of client packets, receiver datagrams, socket
    failures, timer ticks, reloads, reader errors, commands and priority
    datagrams: every link satisfies its invariant, link ids are unique, exactly
    the links of the bond have a socket entry and a reader task, the sequence
    ring has its full size, both duplicate filters are consistent and the
    channel holds byte strings; and every further event is handled without a
    panic and keeps all that.  This holds for every exponential and every hash
    function; the ids drawn for new links are assumed to be new. *)
Theorem loop_invariant (st : LoopState) :
  loop_reach exp hash st ->
  loop_ok st /\
  forall ev, loop_event_ok st ev ->
    exists o, loop_step exp hash st ev = Ret o /\ forall st', o = Some st' -> loop_ok st'.
Proof.
  intros Hr%loop_reach_ok. split; [done|]. intros ev Hev. by apply loop_step_ok.
Qed.
End Invariant.

(** ** Verdicts reach the scheduler *)
Lemma tags_lookup cs cs' i c c' : tags cs' = tags cs -> cs !! i = Some c -> cs' !! i = Some c' -> tag c' = tag c.
Proof.
  intros Ht Hc Hc'. apply (f_equal (fun l => l !! i)) in Ht. change (map tag) with (fmap (M := list) tag) in Ht.
  rewrite !list_lookup_fmap, Hc, Hc' in Ht. exact (Some_inj _ _ Ht).
Qed.

(** A scheduled link is neither late nor lossy while a link without any such
    flaw is there. *)
Lemma enhanced_choice_sound exp conns last now cfg i c :
  cfg_mode cfg = Enhanced -> existsb (unconstrained now) (apply_stall_gate conns now cfg) = true ->
  (select_connection_idx exp conns last now cfg).2 = Some i -> conns !! i = Some c ->
  weak c && is_delay (weak_reason c) = false /\ loss_degraded c = false.
Proof.
  intros Hm Hu. unfold select_connection_idx. rewrite Hm. pose proof (tags_gate conns now cfg) as Ht.
  set (gated := apply_stall_gate conns now cfg) in *. clearbody gated. unfold enhanced_select_connection. cbv zeta. rewrite Hu.
  pose proof (tags_elect gated now (existsb (quality_ok now) gated)) as He.
  destruct (elect_sole_carrier gated now _) as [conns1 carrier]. cbn [fst snd] in *. rewrite Ht in He.
  set (pool := imap _ conns1). pose proof (hysteresis_spec exp now (effective_quality_enabled cfg) true last pool _
    (ranking_scan exp now (effective_quality_enabled cfg) true last pool)) as H.
  intros E Hc. rewrite E in H. destruct H as (c2 & H2 & Hr & _). unfold pool in H2. rewrite list_lookup_imap in H2.
  apply fmap_Some in H2 as (c1 & H1 & ->). destruct (exclusion_apply_spec now true carrier i c1) as (Hs & Hx & _).
  pose proof (rankable_candidate _ _ _ Hr) as Hcand. rewrite (same_link_candidate now c1 _ Hs) in Hcand.
  unfold rankable in Hr. rewrite !andb_true_iff, !negb_true_iff in Hr. destruct Hr as [[_ Hq] _].
  rewrite Hx in Hq. unfold excluded_formula in Hq. rewrite Hcand in Hq. cbn [andb] in Hq.
  rewrite !orb_false_iff in Hq. destruct Hq as [[Hl Hw] _].
  pose proof (tags_lookup _ _ _ _ _ He Hc H1) as T. unfold tag in T. injection T as _ _ _ E1 E2 _ _ E3. by rewrite <- E1, <- E2, <- E3.
Qed.

(** A link of the bond after a queued reload was there before with the same
    verdicts, unless its id was drawn for it. *)
Lemma apply_pending_kept st outs c :
  loop_ok st -> fresh_ids (ml_conns st) outs -> c ∈ ml_conns (apply_pending st outs) -> conn_id c ∈ map conn_id (ml_conns st) ->
  exists d, d ∈ ml_conns st /\ conn_id d = conn_id c /\ weak d = weak c /\ weak_reason d = weak_reason c /\
    loss_degraded d = loss_degraded c.
Proof.
  intros Hok [_ Hf] Hc Hid. unfold apply_pending in Hc. destruct (ml_pending st) as [[ips ws]|]; [|by exists c].
  cbn in Hc. pose proof (apply_connection_changes_eq (links_of st) ips ws outs) as E. cbv zeta in E.
  unfold create_connections_from_ips in E.
  match type of E with context [create_loop ?a ?b ?n ?o ?i] => pose proof (proj1 (create_loop_ids a b n o i)) as G;
    destruct (create_loop a b n o i) as [fresh io] end.
  unfold links_of in E at 1. rewrite E in Hc. cbn [ln_conns links_of fst] in *. apply elem_of_app in Hc as [Hc|Hc].
  - apply list_elem_of_fmap in Hc as (d & -> & Hd%list_elem_of_filter). exists d. split; [apply Hd|done].
  - exfalso. apply (Hf (conn_id c)); [|done]. apply (sublist_subseteq _ _ G). by apply list_elem_of_fmap_2.
Qed.

(** The verdicts a link of the bond carries after a tick. *)
Lemma stamped_verdict exp st env now cc_now d :
  d ∈ ml_conns (stamped exp st env now cc_now) ->
  weak d && is_delay (weak_reason d) = delay_verdict (conn_id d) (tick_verdicts st env now).2 /\
  loss_degraded d = default false (sn_loss_degraded <$> (tick_caps exp st env now cc_now).2 !! conn_id d).
Proof.
  unfold stamped. generalize (tick_verdicts st env now) (tick_caps exp st env now cc_now). intros [f cl] [cc sn].
  cbn -[stamp_link]. intros (d0 & -> & _)%list_elem_of_fmap. split; [|done].
  unfold stamp_link, delay_verdict. cbn. by destruct (verdict (conn_id d0) cl).
Qed.

Lemma apply_pending_filter st outs : ml_filter (apply_pending st outs) = ml_filter st.
Proof. unfold apply_pending. by destruct (ml_pending st) as [[ips ws]|]. Qed.
Lemma apply_pending_none st outs : ml_pending (apply_pending st outs) = None.
Proof. unfold apply_pending. by destruct (ml_pending st) as [[ips ws]|] eqn:E. Qed.
Lemma stamped_filter exp st env now cc_now : ml_filter (stamped exp st env now cc_now) = (tick_verdicts st env now).1.
Proof. unfold stamped. by generalize (tick_verdicts st env now) (tick_caps exp st env now cc_now). Qed.

Section Verdicts.
Context (exp : f64 -> f64) (hash : bytes -> Z).

(** One housekeeping tick with its outcomes. *)
Record Tick := mkTick {
  tk_env : HkEnv; tk_now : Z; tk_cc_now : Z; tk_outs : list (option Opened); tk_drain : nat -> UplinkIo }.
Definition tick_event (t : Tick) : loop_event := LvHousekeeping (tk_env t) (tk_now t) (tk_cc_now t) (tk_outs t) (tk_drain t).

(** What the classifier saw and said in the tick. *)
Definition tick_obs_of (st : LoopState) (t : Tick) : tick_input * ClassificationResult :=
  ((ml_conns (tick_bond st (tk_env t) (tk_now t)), cfg_negotiated_latency_ms (snapshot (sn_config (ml_sender st)))),
   (tick_verdicts st (tk_env t) (tk_now t)).2).

(** The loss verdict of the congestion controller in the tick. *)
Definition lossy (st : LoopState) (t : Tick) (id : Z) : bool :=
  default false (sn_loss_degraded <$> (tick_caps exp st (tk_env t) (tk_now t) (tk_cc_now t)).2 !! id).

(** The state a tick leaves, up to the drain. *)
Lemma tick_step st t st' :
  loop_ok st -> loop_event_ok st (tick_event t) -> loop_step exp hash st (tick_event t) = Ret (Some st') ->
  let b := apply_pending (stamped exp st (tk_env t) (tk_now t) (tk_cc_now t)) (tk_outs t) in
  loop_ok st' /\ tags (ml_conns st') = tags (ml_conns b) /\ ml_filter st' = (tick_verdicts st (tk_env t) (tk_now t)).1 /\
  ml_pending st' = None.
Proof.
  intros Hok Hev E. destruct (loop_step_ok exp hash st _ Hok Hev) as (o & Eo & Ho). rewrite E in Eo. injection Eo as <-.
  cbv zeta. split; [by apply Ho|]. cbn [tick_event loop_step] in E.
  pose proof (housekeeping_branch_ok exp st (tk_env t) (tk_now t) (tk_cc_now t) (tk_outs t) Hok Hev) as Hb.
  destruct (drain_packet_queue _ _ _) as [st1|] eqn:Ed; [|done]. injection E as <-.
  destruct (drain_frame hash _ _ _ Hb Ed) as (-> & _ & -> & ->). rewrite housekeeping_branch_eq, <- (stamped_filter exp st (tk_env t) (tk_now t) (tk_cc_now t)).
  generalize (stamped exp st (tk_env t) (tk_now t) (tk_cc_now t)). intros b. cbv zeta. rewrite <- (apply_pending_filter b (tk_outs t)). rewrite <- (apply_pending_none b (tk_outs t)).
  by generalize (apply_pending b (tk_outs t)).
Qed.

(** The verdicts of a tick bind the scheduler until the next one. *)
Lemma held_out st t st1 st2 now cfg last i c :
  loop_ok st -> loop_event_ok st (tick_event t) -> loop_step exp hash st (tick_event t) = Ret (Some st1) ->
  quiet_run exp hash false st1 st2 ->
  cfg_mode cfg = Enhanced -> existsb (unconstrained now) (apply_stall_gate (ml_conns st2) now cfg) = true ->
  (select_connection_idx exp (ml_conns st2) last now cfg).2 = Some i -> ml_conns st2 !! i = Some c ->
  conn_id c ∈ map conn_id (ml_conns st) ->
  delay_verdict (conn_id c) (tick_verdicts st (tk_env t) (tk_now t)).2 = false /\ lossy st t (conn_id c) = false.
Proof.
  intros Hok Hev E Hq Hm Hu Hs Hc Hid. destruct (tick_step st t st1 Hok Hev E) as (Hok1 & Ht1 & _).
  destruct (quiet_run_frame exp hash false st1 st2 Hq Hok1) as (_ & Ht2 & _). rewrite Ht1 in Ht2.
  destruct (enhanced_choice_sound exp _ last now cfg i c Hm Hu Hs Hc) as [H1 H2].
  set (b := stamped exp st (tk_env t) (tk_now t) (tk_cc_now t)) in *.
  assert (length (ml_conns st2) = length (ml_conns (apply_pending b (tk_outs t)))) as Hlen
    by (apply (f_equal length) in Ht2; by rewrite !length_map in Ht2).
  destruct (ml_conns (apply_pending b (tk_outs t)) !! i) as [c1|] eqn:Hc1;
    [|apply lookup_ge_None in Hc1; apply lookup_lt_Some in Hc; lia].
  pose proof (tags_lookup _ _ _ _ _ Ht2 Hc1 Hc) as T. unfold tag in T. injection T as T1 _ _ T2 T3 _ _ T4.
  pose proof (stamped_ids exp st (tk_env t) (tk_now t) (tk_cc_now t) Hok) as Hids. fold b in Hids.
  destruct (apply_pending_kept b (tk_outs t) c1) as (d & Hd & D1 & D2 & D3 & D4).
  - by apply stamped_ok.
  - destruct Hev as [Hn Hf]. split; [done|]. by rewrite Hids.
  - by apply (list_elem_of_lookup_2 _ i).
  - by rewrite Hids, <- T1.
  - destruct (stamped_verdict exp st (tk_env t) (tk_now t) (tk_cc_now t) d Hd) as [V1 V2].
    rewrite D1, <- T1 in V1, V2. unfold lossy. rewrite <- V1, <- V2. by rewrite D2, D3, D4, <- T2, <- T3, <- T4.
Qed.

(** A late link was in the bond. *)
Lemma late_in_bond st t id : loop_ok st -> late id (tick_obs_of st t) = true -> id ∈ map conn_id (ml_conns st).
Proof.
  intros Hok [_ (c & Hc & Hx)%existsb_exists]%andb_true_iff. apply andb_true_iff in Hx as [Hx _].
  apply andb_true_iff in Hx as [<-%Z.eqb_eq _].
  destruct (with_hk_ok st (tk_env t) (is_classic (config_mode (sn_config (ml_sender st)))) (tk_now t) Hok) as [_ Ht].
  rewrite <- (tags_ids _ _ Ht). apply list_elem_of_fmap_2, list_elem_of_In, Hc.
Qed.

(** The controller has no verdict on a link that was not in the bond. *)
Lemma tick_all_absent cc conns now id : id ∉ map conn_id conns -> (tick_all exp cc conns now).2 !! id = None.
Proof.
  unfold tick_all. match goal with |- context [fold_left ?g _ _] => set (f := g) end.
  assert (forall l (p : LinkCcController * gmap Z LinkCcSnapshot), id ∉ map conn_id l -> p.2 !! id = None ->
    (fold_left f l p).2 !! id = None) as H.
  { induction l as [|c l IH]; intros [a b] Hn Hp; cbn [fold_left]; [done|]. cbn [map] in Hn.
    apply not_elem_of_cons in Hn as [H1 H2]. apply IH; [done|]. cbn. by rewrite lookup_insert_ne by congruence. }
  intros Hn. specialize (H conns (cc, ∅) Hn (lookup_empty _)). destruct (fold_left f conns (cc, ∅)) as [a b]. exact H.
Qed.

Lemma lossy_absent st t id : loop_ok st -> id ∉ map conn_id (ml_conns st) -> lossy st t id = false.
Proof.
  intros Hok Hn. unfold lossy, tick_caps. rewrite tick_all_absent; [done|].
  destruct (with_hk_ok st (tk_env t) (is_classic (config_mode (sn_config (ml_sender st)))) (tk_now t) Hok) as [_ Ht].
  unfold tick_bond. by rewrite (tags_ids _ _ Ht).
Qed.

(** Two ticks of the loop are two ticks of the classifier. *)
Lemma two_ticks st t1 st1 st2 t2 id :
  loop_ok st -> loop_event_ok st (tick_event t1) -> loop_step exp hash st (tick_event t1) = Ret (Some st1) ->
  quiet_run exp hash false st1 st2 ->
  late id (tick_obs_of st t1) = true -> late id (tick_obs_of st2 t2) = true ->
  delay_verdict id (tick_verdicts st2 (tk_env t2) (tk_now t2)).2 = true.
Proof.
  intros Hok Hev E Hq L1 L2. destruct (tick_step st t1 st1 Hok Hev E) as (Hok1 & _ & Hf1 & _).
  destruct (quiet_run_frame exp hash false st1 st2 Hq Hok1) as (Hok2 & _ & _ & Hf2 & _). rewrite Hf1 in Hf2.
  set (i1 := (tick_obs_of st t1).1). set (i2 := (tick_obs_of st2 t2).1).
  assert (classifier_run (ml_filter st) [i1; i2] = [tick_obs_of st t1; tick_obs_of st2 t2]) as Hr.
  { rewrite !classifier_run_cons. unfold i1, i2, tick_obs_of, tick_verdicts in *. cbn [fst snd] in *. rewrite <- Hf2.
    by destruct (classify (ml_filter st) _ _) as [f r], (classify (ml_filter st2) _ _) as [f2 r2]. }
  destruct (with_hk_ok st (tk_env t1) (is_classic (config_mode (sn_config (ml_sender st)))) (tk_now t1) Hok) as [B1 _].
  destruct (with_hk_ok st2 (tk_env t2) (is_classic (config_mode (sn_config (ml_sender st2)))) (tk_now t2) Hok2) as [B2 _].
  pose proof (delay_run (ml_filter st) [i1; i2] id 1 (tick_obs_of st2 t2) (ok_filter _ Hok)) as H.
  rewrite Hr in H. change (tick_verdicts st2 (tk_env t2) (tk_now t2)).2 with (tick_obs_of st2 t2).2. rewrite H; [|..|done].
  - unfold late_before. cbn [lookup list_lookup]. by rewrite L1, L2.
  - repeat constructor; [exact (lo_unique _ (ok_links _ B1))|exact (lo_unique _ (ok_links _ B2))].
Qed.

(** C4: what the tick finds out, the scheduler obeys.  In every state the
    program reaches: take two successive housekeeping ticks with any packets,
    datagrams, timers, commands and reloads between and after them.  Until the
    next tick, as long as some link is free of flaws, enhanced mode chooses no
    link that was late on both ticks (RTT over the delivery tier or a standing
    queue) and no link the congestion controller declared lossy on the second. *)
Theorem scheduler_obeys_verdicts (st st1 st2 st3 st4 : LoopState) (t1 t2 : Tick) (now : Z) (cfg : ConfigSnapshot)
    (last : option nat) (i : nat) (c : SrtlaConnection) :
  loop_reach exp hash st ->
  loop_event_ok st (tick_event t1) -> loop_step exp hash st (tick_event t1) = Ret (Some st1) -> quiet_run exp hash false st1 st2 ->
  loop_event_ok st2 (tick_event t2) -> loop_step exp hash st2 (tick_event t2) = Ret (Some st3) -> quiet_run exp hash false st3 st4 ->
  cfg_mode cfg = Enhanced -> existsb (unconstrained now) (apply_stall_gate (ml_conns st4) now cfg) = true ->
  (select_connection_idx exp (ml_conns st4) last now cfg).2 = Some i -> ml_conns st4 !! i = Some c ->
  late (conn_id c) (tick_obs_of st t1) && late (conn_id c) (tick_obs_of st2 t2) = false /\ lossy st2 t2 (conn_id c) = false.
Proof.
  intros Hr%loop_reach_ok Ho1 E1 Q1 Ho2 E2 Q2 Hm Hu Hs Hc.
  destruct (tick_step st t1 st1 Hr Ho1 E1) as (Hok1 & _ & _).
  destruct (quiet_run_frame exp hash false st1 st2 Q1 Hok1) as (Hok2 & _).
  destruct (decide (conn_id c ∈ map conn_id (ml_conns st2))) as [Hin|Hin].
  - destruct (held_out st2 t2 st3 st4 now cfg last i c Hok2 Ho2 E2 Q2 Hm Hu Hs Hc Hin) as [Hv Hl]. split; [|done].
    apply not_true_iff_false. intros [L1 L2]%andb_true_iff.
    rewrite (two_ticks st t1 st1 st2 t2 (conn_id c) Hr Ho1 E1 Q1 L1 L2) in Hv. discriminate.
  - split; [|by apply lossy_absent]. apply andb_false_iff. right. apply not_true_iff_false. intros L. by apply Hin, (late_in_bond st2 t2).
Qed.
End Verdicts.

(** ** A reload from the file to the links *)
Definition ident (c : SrtlaConnection) : Z * Z := (conn_id c, local_ip c).
Lemma tags_idents cs cs' : tags cs' = tags cs -> map ident cs' = map ident cs.
Proof. intros H%(f_equal (map (fun t => (tg_id t, tg_ip t)))). by rewrite !map_map in H. Qed.
Lemma tags_weights cs cs' (P : Z -> Z -> Prop) : tags cs' = tags cs ->
  Forall (fun c => P (local_ip c) (link_weight c)) cs -> Forall (fun c => P (local_ip c) (link_weight c)) cs'.
Proof.
  intros H%(f_equal (map (fun t => (tg_ip t, tg_weight t)))). rewrite !map_map in H. revert cs H.
  induction cs' as [|c' cs' IH]; intros [|c cs] H Hf; try discriminate; [done|]. apply Forall_cons in Hf as [H1 H2].
  injection H as E1 E2 E3. cbn in E1, E2. constructor; [by rewrite E1, E2|by apply (IH cs)].
Qed.

Lemma stamped_idents exp st env now cc_now : loop_ok st ->
  map ident (ml_conns (stamped exp st env now cc_now)) = map ident (ml_conns st).
Proof.
  intros Hok. destruct (with_hk_ok st env (is_classic (config_mode (sn_config (ml_sender st)))) now Hok) as [_ Ht].
  fold (tick_bond st env now) in Ht. apply tags_idents in Ht. rewrite <- Ht. unfold stamped.
  generalize (tick_verdicts st env now) (tick_caps exp st env now cc_now). intros [f cl] [cc sn]. cbn -[stamp_link ident tick_bond].
  by rewrite map_map.
Qed.
Lemma stamped_pending exp st env now cc_now : ml_pending (stamped exp st env now cc_now) = ml_pending st.
Proof.
  unfold stamped, tick_bond. generalize (tick_verdicts st env now) (tick_caps exp st env now cc_now). by intros [f cl] [cc sn].
Qed.

Lemma idents_ips cs cs' : map ident cs' = map ident cs -> map local_ip cs' = map local_ip cs.
Proof. intros H%(f_equal (map snd)). by rewrite !map_map in H. Qed.

(** The links kept by a list, seen as identities. *)
Lemma idents_filter ips cs : map ident (filter (listed ips) cs) = filter (fun p => p.2 ∈ ips) (map ident cs).
Proof.
  induction cs as [|c cs IH]; [done|]. cbn [map]. rewrite !filter_cons. unfold listed at 1.
  change (ident c).2 with (local_ip c). destruct (decide (local_ip c ∈ ips)); cbn [map]; by rewrite IH.
Qed.

Lemma apply_pending_idents st outs ips ws :
  ml_pending st = Some (ips, ws) ->
  exists fresh, map ident (ml_conns (apply_pending st outs)) = filter (fun p => p.2 ∈ ips) (map ident (ml_conns st)) ++ fresh /\
    map snd fresh = opened (new_ips_needed ips (ml_conns st)) outs /\
    Forall (fun c => link_weight c = weight_for ips ws (local_ip c)) (ml_conns (apply_pending st outs)).
Proof.
  intros Hp. unfold apply_pending. rewrite Hp. cbv zeta. cbn [ml_conns].
  pose proof (apply_connection_changes_eq (links_of st) ips ws outs) as E. cbv zeta in E. unfold create_connections_from_ips in E.
  change (ln_conns (links_of st)) with (ml_conns st) in E. set (needed := new_ips_needed ips (ml_conns st)) in *.
  pose proof (create_loop_spec needed (map (weight_for ips ws) needed) needed outs (ln_io (after_removal (links_of st) ips))) as F.
  destruct (create_loop _ _ _ _ _) as [fresh io]. destruct F as (F1 & F2 & _). unfold links_of in E at 1. rewrite E.
  exists (map ident fresh). cbn [ml_conns ln_conns]. split; [|split].
  - change (map ident (map (reweight ips ws) (filter (listed ips) (ml_conns st)) ++ fresh) =
      filter (fun p => p.2 ∈ ips) (map ident (ml_conns st)) ++ map ident fresh).
    rewrite map_app, map_map, <- idents_filter. done.
  - rewrite map_map. exact F1.
  - change (Forall (fun c => link_weight c = weight_for ips ws (local_ip c)) (map (reweight ips ws) (filter (listed ips) (ml_conns st)) ++ fresh)).
    apply Forall_app. split; [rewrite Forall_map; by apply Forall_true|].
    rewrite Forall_forall in F2 |- *. intros c Hc. destruct (F2 c Hc) as (_ & _ & ->). apply weight_for_map.
    apply (sublist_subseteq (opened needed outs)); [apply opened_sublist|]. rewrite <- F1. by apply list_elem_of_fmap_2.
Qed.

Section Reloading.
Context (exp : f64 -> f64) (hash : bytes -> Z).

(** C11: a reload, from the file to the links.  Take any reachable state, a
    SIGHUP, any events but ticks and further SIGHUPs, and the next tick.  If the
    file has a valid address, the links after the tick are the links whose
    address is in the file, in their old order and with their ids, followed by
    one link for each new address whose socket opened; all carry the weight the
    file gives them and no change is left queued.  If the file is refused, the
    links are exactly those from before, unless an earlier reload was still
    queued.  Packets and failures in between make no difference. *)
Theorem reload_end_to_end (st st1 st2 st3 : LoopState) (read : option chars) (us : nat -> UplinkIo) (t : Tick) :
  loop_reach exp hash st -> loop_step exp hash st (LvSighup read us) = Ret (Some st1) -> quiet_run exp hash true st1 st2 ->
  loop_event_ok st2 (tick_event t) -> loop_step exp hash st2 (tick_event t) = Ret (Some st3) ->
  ml_pending st3 = None /\
  match analyze_ip_reload read with
  | Apply ips ws _ =>
    let keys := map ip_key ips in
    exists fresh, map ident (ml_conns st3) = filter (fun p => p.2 ∈ keys) (map ident (ml_conns st)) ++ fresh /\
      map snd fresh = opened (new_ips_needed keys (ml_conns st)) (tk_outs t) /\
      Forall (fun c => link_weight c = weight_for keys ws (local_ip c)) (ml_conns st3)
  | Refuse _ => ml_pending st = None -> map ident (ml_conns st3) = map ident (ml_conns st)
  end.
Proof.
  intros Hr%loop_reach_ok E1 Hq Hev E2.
  destruct (quiet_step exp hash st (LvSighup read us) st1 Hr I eq_refl E1) as (Hok1 & Ht1 & _ & _ & _).
  destruct (quiet_run_frame exp hash true st1 st2 Hq Hok1) as (Hok2 & Ht2 & _ & _ & Hp2). specialize (Hp2 eq_refl).
  destruct (tick_step exp hash st2 t st3 Hok2 Hev E2) as (_ & Ht3 & _ & Hp3). split; [exact Hp3|].
  assert (ml_pending st1 = match analyze_ip_reload read with Apply ips ws _ => Some (map ip_key ips, ws) | Refuse _ => ml_pending st end) as Hp1.
  { cbn [loop_step] in E1. set (s := match analyze_ip_reload read with Apply _ _ _ => _ | Refuse _ => _ end) in E1.
    assert (loop_ok s) as Hs by (unfold s; destruct Hr; by destruct (analyze_ip_reload read)).
    destruct (drain_packet_queue hash s us) as [s1|] eqn:Ed; [|done]. injection E1 as <-.
    destruct (drain_frame hash s us s1 Hs Ed) as (_ & _ & _ & ->). unfold s. by destruct (analyze_ip_reload read). }
  set (b := stamped exp st2 (tk_env t) (tk_now t) (tk_cc_now t)) in *.
  assert (map ident (ml_conns b) = map ident (ml_conns st)) as Hi.
  { unfold b. rewrite stamped_idents by done. apply tags_idents. by rewrite Ht2. }
  assert (ml_pending b = ml_pending st1) as Hpb by (unfold b; by rewrite stamped_pending).
  apply tags_idents in Ht3 as Hi3. destruct (analyze_ip_reload read) as [ips ws bad|r].
  - cbv zeta. rewrite Hp1 in Hpb. destruct (apply_pending_idents b (tk_outs t) _ _ Hpb) as (fresh & A1 & A2 & A3).
    rewrite Hi in A1. exists fresh. rewrite Hi3, A1. split; [done|].
    assert (new_ips_needed (map ip_key ips) (ml_conns b) = new_ips_needed (map ip_key ips) (ml_conns st)) as <-
      by (unfold new_ips_needed; by rewrite (idents_ips _ _ Hi)).
    split; [done|]. exact (tags_weights _ _ (fun ip w => w = weight_for (map ip_key ips) ws ip) Ht3 A3).
  - intros Hn. rewrite Hi3, <- Hi. unfold apply_pending. by rewrite Hpb, Hp1, Hn.
Qed.
End Reloading.

(** ** A concrete run: three links register with a receiver *)
Section Exec.
Context (exp : f64 -> f64) (hash : bytes -> Z).

Fixpoint loop_exec (st : LoopState) (evs : list loop_event) : option LoopState :=
  match evs with
  | [] => Some st
  | ev :: evs => match loop_step exp hash st ev with Ret (Some st') => loop_exec st' evs | _ => None end
  end.

(** Events that are admissible in every state. *)
Definition plain_event (ev : loop_event) : bool :=
  match ev with
  | LvReader _ (Some datagrams) => forallb (forallb (fun b => (0 <=? b) && (b <? 256))) datagrams
  | LvHousekeeping _ _ _ outs _ => bool_decide (opened_ids outs = [])
  | _ => true
  end.

Lemma plain_event_ok st ev : plain_event ev = true -> loop_event_ok st ev.
Proof.
  destruct ev as [| |env now cc outs us| | | |id [ds|]| |]; cbn [plain_event loop_event_ok]; try done.
  - intros H%bool_decide_eq_true. unfold fresh_ids. rewrite H. split; [constructor|]. by intros ? ?%elem_of_nil.
  - rewrite forallb_forall. intros H. apply Forall_forall. intros d Hd%list_elem_of_In. specialize (H d Hd).
    rewrite forallb_forall in H. apply Forall_forall. intros b Hb%list_elem_of_In. specialize (H b Hb).
    apply andb_true_iff in H as [H1%Z.leb_le H2%Z.ltb_lt]. unfold is_u8. lia.
Qed.

Lemma loop_exec_reach evs : forall st st',
  loop_reach exp hash st -> forallb plain_event evs = true -> loop_exec st evs = Some st' -> loop_reach exp hash st'.
Proof.
  induction evs as [|ev evs IH]; intros st st' Hr Hp; cbn [loop_exec]; [by intros [= <-]|].
  cbn in Hp. apply andb_true_iff in Hp as [Hp Hps]. destruct (loop_step exp hash st ev) as [[st1|]|] eqn:E; try done.
  apply IH; [|done]. apply (loop_turn exp hash st ev); [done|by apply plain_event_ok|done].
Qed.

Lemma loop_exec_quiet evs : forall st st',
  forallb (fun ev => plain_event ev && negb (is_tick ev)) evs = true -> loop_exec st evs = Some st' ->
  quiet_run exp hash false st st'.
Proof.
  induction evs as [|ev evs IH]; intros st st' Hp; cbn [loop_exec]; [intros [= <-]; constructor|].
  cbn [forallb] in Hp. apply andb_true_iff in Hp as [[Hp Hq%negb_true_iff]%andb_true_iff Hps].
  destruct (loop_step exp hash st ev) as [[st1|]|] eqn:E; try done. intros Hx.
  apply (quiet_turn exp hash false st ev st1); [by apply plain_event_ok|done|done|done|by apply IH].
Qed.
End Exec.

Definition demo_file (last : list Z) : chars := show_list (map (fun d => mkIpEntry 10 0 0 d 1) last).
Definition demo_env (t : Z) : HkEnv :=
  mkHkEnv t (fun _ => true) (fun _ => true) (fun _ => true) (fun _ => true) None (fun _ => false) [] [].
Definition demo_io (t : Z) : UplinkIo := mkUplinkIo TSOk true t t t.
Definition demo_start : StartEnv :=
  mkStart true (Some (demo_file [1; 2; 3])) [Some (mkOpened 1 100 0); Some (mkOpened 2 100 0); Some (mkOpened 3 100 0)]
    id_a id_a 0 true (demo_env 0) 0.
Definition demo_tick (t : Z) : Tick := mkTick (demo_env t) t t [] (fun _ => demo_io t).
Definition datagram (id t : Z) (d : bytes) : list loop_event := [LvReader id (Some [d]); LvUplink (demo_io t) (fun _ => demo_io t)].
Definition REG3_DATAGRAM : bytes := [0x92; 0x02].

Definition demo_loop (s : SenderState) : LoopState := mkLoop s ∅ None (gate_new true) filter_new ∅ None ∅ [].
Definition demo_state : LoopState :=
  match start_sender dynamic_new critical_new demo_start with inl st => st | inr _ => demo_loop fresh_sender end.
Definition demo_run (evs : list loop_event) : LoopState :=
  default demo_state (loop_exec (fun x => x) demo_hash demo_state evs).

Lemma demo_reach evs : forallb plain_event evs = true ->
  bool_decide (is_Some (loop_exec (fun x => x) demo_hash demo_state evs)) = true ->
  loop_reach (fun x => x) demo_hash (demo_run evs).
Proof.
  intros Hp [st Hs]%bool_decide_eq_true. unfold demo_run. rewrite Hs. cbn [default from_option id].
  apply (loop_exec_reach _ _ evs demo_state); [|done|done].
  apply (loop_start _ _ dynamic_new critical_new demo_start); [|vm_compute; reflexivity].
  cbn. repeat constructor; rewrite ?not_elem_of_cons; repeat split; try done; apply not_elem_of_nil.
Qed.

(** Probing ends, REG1 goes out on the first link, its REG2 is broadcast, and
    the first link answers with REG3. *)
Definition demo_handshake : list loop_event :=
  [tick_event (demo_tick 3000)] ++ datagram 1 3100 (create_reg2_packet id_a) ++
  [tick_event (demo_tick 4000)] ++ datagram 1 4100 REG3_DATAGRAM.

(** Two links registered, the second with a round trip of 900 ms, the receiver's
    buffer known to be 120 ms, the stall gate switched off by command, and the
    client sending. *)
Definition demo_sio (t : Z) : SendIo := mkSendIo t (fun _ => SendAll) (fun _ => t).
Definition payload (t : Z) : list loop_event :=
  map (fun n => LvSrt (Some (to_be 4 (t + Z.of_nat n) ++ replicate 1312 0, 9)) (demo_sio t) (fun _ => demo_io t)) (seq 0 16)
  ++ [LvFlush (demo_sio t)].
Definition demo_latency : bytes :=
  ([0x80; 0] ++ replicate 14 0) ++ (to_be 4 5 ++ to_be 4 1 ++ replicate 12 0 ++ to_be 4 0xffffffff ++ replicate 24 0) ++
  encode_block (2, to_be 4 0 ++ to_be 4 3 ++ to_be 4 (120 * 65536 + 120)).
Definition demo_traffic : list loop_event :=
  LvCommand (SetStallDeselect false) :: demo_handshake ++ datagram 2 4200 REG3_DATAGRAM ++ [tick_event (demo_tick 5000)] ++
  datagram 1 5190 (create_keepalive_packet 5000) ++ datagram 2 5900 (create_keepalive_packet 5000) ++
  datagram 1 5950 demo_latency ++ payload 5960 ++ [tick_event (demo_tick 6000)] ++ payload 6500.

Definition choice (st : LoopState) (now : Z) : option nat :=
  (select_connection_idx (fun x => x) (ml_conns st) None now (snapshot (sn_config (ml_sender st)))).2.

(** The second link is late on both ticks; the scheduler takes the first. *)
Lemma scheduler_obeys_verdicts_witness :
  let st := demo_run demo_traffic in
  let st2 := demo_run (demo_traffic ++ tick_event (demo_tick 7000) :: payload 7500) in
  let st3 := demo_run (demo_traffic ++ tick_event (demo_tick 7000) :: payload 7500 ++ [tick_event (demo_tick 8000)]) in
  late 2 (tick_obs_of st (demo_tick 7000)) && late 2 (tick_obs_of st2 (demo_tick 8000)) = true /\
  choice st3 8100 = Some 0%nat /\
  exists c, ml_conns st3 !! 0%nat = Some c /\
    late (conn_id c) (tick_obs_of st (demo_tick 7000)) && late (conn_id c) (tick_obs_of st2 (demo_tick 8000)) = false.
Proof.
  cbv zeta. split; [vm_compute; reflexivity|]. split; [vm_compute; reflexivity|].
  eexists. split; [vm_compute; reflexivity|].
  refine (proj1 (scheduler_obeys_verdicts (fun x => x) demo_hash (demo_run demo_traffic)
    (demo_run (demo_traffic ++ [tick_event (demo_tick 7000)]))
    (demo_run (demo_traffic ++ tick_event (demo_tick 7000) :: payload 7500))
    (demo_run (demo_traffic ++ tick_event (demo_tick 7000) :: payload 7500 ++ [tick_event (demo_tick 8000)]))
    (demo_run (demo_traffic ++ tick_event (demo_tick 7000) :: payload 7500 ++ [tick_event (demo_tick 8000)]))
    (demo_tick 7000) (demo_tick 8000) 8100
    (snapshot (sn_config (ml_sender (demo_run (demo_traffic ++ tick_event (demo_tick 7000) :: payload 7500 ++ [tick_event (demo_tick 8000)])))))
    None 0 _ _ _ _ _ _ _ _ _ _ _ _)).
  - apply demo_reach; vm_compute; reflexivity.
  - apply plain_event_ok. reflexivity.
  - vm_compute; reflexivity.
  - apply (loop_exec_quiet _ _ (payload 7500)); vm_compute; reflexivity.
  - apply plain_event_ok. reflexivity.
  - vm_compute; reflexivity.
  - constructor.
  - vm_compute; reflexivity.
  - vm_compute; reflexivity.
  - vm_compute; reflexivity.
  - vm_compute; reflexivity.
Defined.

Lemma loop_invariant_witness :
  exists o, loop_step (fun x => x) demo_hash (demo_run demo_handshake) (LvReader 1 None) = Ret o /\
    forall st', o = Some st' -> loop_ok st'.
Proof.
  apply (loop_invariant (fun x => x) demo_hash (demo_run demo_handshake)); [|exact I].
  apply demo_reach; vm_compute; reflexivity.
Defined.

(** The file drops the first and third link and names a new one. *)
Definition demo_reload : loop_event := LvSighup (Some (demo_file [4; 2])) (fun _ => demo_io 4300).
Definition reload_tick : Tick := mkTick (demo_env 5000) 5000 5000 [Some (mkOpened 9 100 5000)] (fun _ => demo_io 5000).

Lemma reload_end_to_end_witness :
  exists st3 fresh,
    loop_step (fun x => x) demo_hash (demo_run (demo_handshake ++ [demo_reload])) (tick_event reload_tick) = Ret (Some st3) /\
    map ident (ml_conns st3) = [(2, ip_key (V4 10 0 0 2))] ++ fresh /\ map snd fresh = [ip_key (V4 10 0 0 4)].
Proof.
  assert (fresh_ids (ml_conns (demo_run (demo_handshake ++ [demo_reload]))) [Some (mkOpened 9 100 5000)]) as Hf.
  { split; [apply NoDup_singleton|]. intros id ->%list_elem_of_singleton.
    assert (bool_decide (9 ∈ map conn_id (ml_conns (demo_run (demo_handshake ++ [demo_reload])))) = false) as H by (vm_compute; reflexivity).
    exact (proj1 (bool_decide_eq_false _) H). }
  destruct (loop_step (fun x => x) demo_hash (demo_run (demo_handshake ++ [demo_reload])) (tick_event reload_tick)) as [[st3|]|] eqn:E;
    [|vm_compute in E; discriminate E|vm_compute in E; discriminate E].
  destruct (reload_end_to_end (fun x => x) demo_hash (demo_run demo_handshake) (demo_run (demo_handshake ++ [demo_reload]))
    (demo_run (demo_handshake ++ [demo_reload])) st3 (Some (demo_file [4; 2])) (fun _ => demo_io 4300) reload_tick) as [_ H].
  - apply demo_reach; vm_compute; reflexivity.
  - vm_compute; reflexivity.
  - constructor.
  - exact Hf.
  - exact E.
  - replace (analyze_ip_reload (Some (demo_file [4; 2]))) with (Apply [V4 10 0 0 4; V4 10 0 0 2] [1; 1] None) in H
      by (vm_compute; reflexivity).
    destruct H as (fresh & H1 & H2 & _). exists st3, fresh. split; [reflexivity|]. split; [rewrite H1; vm_compute; reflexivity|].
    rewrite H2. vm_compute. reflexivity.
Defined.

(** ** Registration state and reload *)
Definition link_states (st : LoopState) : list (Z * bool) := map (fun c => (conn_id c, connected c)) (ml_conns st).
Definition grants (st : LoopState) : list nat := awaiting_reg3 (sn_reg (ml_sender st)).
Definition drop_first : list loop_event :=
  [LvSighup (Some (demo_file [2; 3])) (fun _ => demo_io 4300); tick_event (demo_tick 5000)].

(** A reload that drops a link leaves the registration state, which is kept
    by link index, on the wrong links.  Three links register and REG2 has gone
    out on all of them, so each may answer with REG3.  Without a reload a REG3 on
    the second link registers it.  When a reload drops the first link before
    that REG3, the grant of the second link (index 1) now stands for the third:
    the second link's REG3 is discarded and it stays unregistered, the third
    link registers on the second's grant, and the grant of an index that no
    longer exists stays behind. *)
Example reload_misplaces_grants :
  grants (demo_run demo_handshake) = [1; 2]%nat /\
  link_states (demo_run (demo_handshake ++ datagram 2 4200 REG3_DATAGRAM)) = [(1, true); (2, true); (3, false)] /\
  link_states (demo_run (demo_handshake ++ drop_first ++ datagram 2 5100 REG3_DATAGRAM)) = [(2, false); (3, false)] /\
  link_states (demo_run (demo_handshake ++ drop_first ++ datagram 3 5100 REG3_DATAGRAM)) = [(2, false); (3, true)] /\
  grants (demo_run (demo_handshake ++ drop_first ++ datagram 3 5100 REG3_DATAGRAM)) = [2]%nat.
Proof. by vm_compute. Qed.
