(* ===== verification/Handshake.v ===== *)
(** * Registration of a whole bond (src/sender/mod.rs, housekeeping.rs, uplink_recv.rs, srtla-core/src/registration)

    The handshake end to end, over the main loop: probing ends, the tick sends
    REG1 on the chosen link, the receiver's REG2 installs the id, the next tick
    broadcasts it and opens every link's gate, and the REG3s, in any order,
    register the links.  Nothing is assumed of the links' own timers: a tick may
    find some of them timed out and rebuild their sockets.

    The theorem is the liveness of registration: a receiver that answers gets
    every link of the bond.  What it needs of time is that the REG2 arrives
    before its timeout and that the bond has not been dead for ten seconds, when
    a tick may move it to another receiver. *)
From S2P Require Import Prelude F64 Wire Seq Filters Rtt Batch Pacing Congestion Config Connection Classifier LinkCc Registration Tracker Dedup Uplink Sender Housekeeping Links Identity MainLoop LoopSpec.
Open Scope Z_scope.

(** ** What the links' upkeep leaves of the manager *)
Record reg_kept (reg reg' : SrtlaRegistrationManager) : Prop := mkKept {
  rk_id : srtla_id reg' = srtla_id reg;
  rk_pending : pending_reg2_idx reg' = pending_reg2_idx reg;
  rk_broadcast : broadcast_reg2_pending reg' = broadcast_reg2_pending reg;
  rk_probing : probing_state reg' = probing_state reg;
  rk_target : pending_reg2_idx reg = None ->
    reg1_target_idx reg' = reg1_target_idx reg /\ reg1_next_send_at_ms reg' = reg1_next_send_at_ms reg;
  rk_grants : forall j, (grant reg j <= grant reg' j)%nat }.

Global Instance reg_kept_preorder : PreOrder reg_kept.
Proof.
  split; [intros reg; by split|]. intros r1 r2 r3 [A1 A2 A3 A4 A5 A6] [B1 B2 B3 B4 B5 B6]. split; try congruence.
  - intros H. destruct (A5 H), (B5 ltac:(congruence)). split; congruence.
  - intros j. specialize (A6 j). specialize (B6 j). lia.
Qed.

(** No link becomes connected by the upkeep. *)
Definition no_gain (c c' : SrtlaConnection) : Prop := connected c' = true -> connected c = true.

Lemma reconnect_link_reg env io now i c reg t :
  reg_kept reg (reconnect_link env io now i c reg t).1.2 /\ no_gain c (reconnect_link env io now i c reg t).1.1.
Proof.
  unfold reconnect_link.
  set (p := match io !! conn_id (record_reconnect_attempt c now) with Some _ => _ | None => _ end).
  assert (connected p.1 = false) as Hp by (unfold p; destruct (io !! _); [destruct (he_rebuild env i)|]; done).
  clearbody p. destruct p as [c2 t2]. cbn [fst] in Hp.
  assert (forall b : option Z, connected (match b with Some _ => if he_reg_send env i then note_sent c2 now else c2 | None => c2 end) = false) as Hs
    by (intros [|]; [destruct (he_reg_send env i)|]; done).
  destruct (pending_reg2_idx reg) as [idx|] eqn:Ep.
  - destruct (Nat.eqb_spec idx i) as [->|]; cbn [fst snd build_reg1_for]; (split; [|intros H; congruence || (by rewrite Hs in H)]); [|reflexivity].
    split; try done. by rewrite Ep.
  - cbn [fst snd build_reg2]. split; [|intros H; by rewrite Hs in H]. split; try done; unfold arm_reg3_grant; try by destruct (negb _).
    intros j. fold (arm_reg3_grant reg i). rewrite grant_arm. destruct (Nat.eqb j i); [|lia]. unfold grant. destruct (contains _ _); lia.
Qed.

Lemma upkeep_link_connected classic now c : connected (upkeep_link classic now c) = connected c.
Proof.
  unfold upkeep_link. set (c1 := if needs_keepalive c now then _ else c).
  assert (forall d, connected (keepalive_packet d now).1 = connected d) as Hk by (intros d; unfold keepalive_packet; cbv zeta; cbn [fst]; by case_match).
  assert (connected c1 = connected c) as H1 by (unfold c1; case_match; [apply Hk|done]). clearbody c1.
  set (c2 := if needs_rtt_measurement c1 now then _ else c1).
  assert (connected c2 = connected c1) as H2 by (unfold c2; case_match; [apply Hk|done]). clearbody c2.
  set (c3 := if negb classic then _ else c2).
  assert (connected c3 = connected c2) as H3 by (unfold c3, conn_perform_window_recovery; by repeat case_match). clearbody c3.
  assert (forall d, connected (update_phase d now) = connected d) as Hu by (intros d; unfold update_phase; by repeat case_match).
  rewrite <- H1, <- H2, <- H3. exact (Hu (calculate_bitrate c3 now)).
Qed.

Lemma tick_links_reg env io classic now conns : forall i reg t,
  let r := tick_links env io classic now i conns reg t in
  reg_kept reg r.1.2 /\ Forall2 no_gain conns r.1.1.
Proof.
  induction conns as [|c conns IH]; intros i reg t; cbn [tick_links]; [by split|].
  assert (reg_kept reg (tick_link env io classic now i c reg t).1.2 /\ no_gain c (tick_link env io classic now i c reg t).1.1) as [H1 H2].
  { unfold tick_link. destruct (is_timed_out c now); [destruct (conn_should_attempt_reconnect c now); [apply reconnect_link_reg|]|];
      cbn [fst snd]; (split; [reflexivity|]); unfold no_gain; by rewrite ?upkeep_link_connected. }
  destruct (tick_link env io classic now i c reg t) as [[c' reg'] t']. specialize (IH (S i) reg' t'). cbn [fst snd] in *.
  destruct (tick_links env io classic now (S i) conns reg' t') as [[cs' reg''] t'']. cbn [fst snd] in *. destruct IH as [H3 H4].
  split; [by transitivity reg'|by constructor].
Qed.

(** ** The driver *)
Definition no_link (conns : list SrtlaConnection) : Prop := Forall (fun c => connected c = false) conns.

Lemma no_link_count conns : no_link conns -> length (List.filter connected conns) = 0%nat.
Proof. induction 1 as [|c conns Hc _ IH]; [done|]. cbn. by rewrite Hc. Qed.

Lemma imap_connected (f : nat -> SrtlaConnection -> SrtlaConnection) conns :
  (forall i c, connected (f i c) = connected c) -> map connected (imap f conns) = map connected conns.
Proof.
  revert f. induction conns as [|c conns IH]; intros f Hf; [done|]. rewrite imap_cons. cbn [map]. rewrite Hf. f_equal. apply IH.
  intros i d. apply Hf.
Qed.

(** The REG1 half of the driver's state. *)
Definition after_reg1 (reg : SrtlaRegistrationManager) (now : Z) : SrtlaRegistrationManager :=
  match reg1_target_idx reg with
  | Some idx =>
    if Nat.eqb (active_connections reg) 0 && bool_decide (pending_reg2_idx reg = None) && (now >=? reg1_next_send_at_ms reg)
    then reg <| pending_reg2_idx := Some idx |> <| pending_timeout_at_ms := u64_wrap (now + REG2_TIMEOUT * 1000) |>
             <| reg1_next_send_at_ms := u64_wrap (now + REG2_TIMEOUT * 1000) |>
    else reg
  | None => reg
  end.

Lemma driver_reg reg n now :
  (reg_driver_pending_sends reg n now).1 =
    if broadcast_reg2_pending reg
    then foldl arm_step (after_reg1 reg now) (seq 0 n) <| broadcast_reg2_pending := false |> else after_reg1 reg now.
Proof.
  unfold reg_driver_pending_sends, after_reg1.
  set (p := if Nat.eqb (active_connections reg) 0 then _ else _).
  assert (p.1 = after_reg1 reg now /\ broadcast_reg2_pending p.1 = broadcast_reg2_pending reg) as [Hp Hb].
  { unfold p, after_reg1. destruct (Nat.eqb (active_connections reg) 0), (reg1_target_idx reg) as [idx|]; try done. cbn [andb].
    by destruct (bool_decide _ && _). }
  unfold after_reg1 in Hp. rewrite <- Hp. clearbody p. destruct p as [reg' sends]. cbn [fst] in *. rewrite Hb.
  by destruct (broadcast_reg2_pending reg).
Qed.

Lemma drive_registration_eq env io now conns reg :
  let r := drive_registration env io now conns reg in
  r.2 = (reg_driver_pending_sends (update_active_connections reg conns) (length conns) now).1 /\
  map connected r.1 = map connected conns.
Proof.
  unfold drive_registration. destruct (reg_driver_pending_sends _ _ _) as [reg' sends]. cbn [fst snd]. split; [done|].
  assert (forall (ok : nat -> bool) i c, connected (if bool_decide (is_Some (io !! conn_id c)) && ok i then note_sent c now else c) = connected c) as Hs
    by (intros ok i c; by destruct (_ && _)).
  destruct (reg1 sends) as [[idx pkt]|], (broadcast_reg2 sends); try done; rewrite ?imap_connected; try done; intros i c; try apply Hs;
    by destruct (Nat.eqb i idx).
Qed.

Lemma foldl_arm_frame l : forall reg, let reg' := foldl arm_step reg l in
  pending_reg2_idx reg' = pending_reg2_idx reg /\ probing_state reg' = probing_state reg /\ srtla_id reg' = srtla_id reg.
Proof.
  induction l as [|i l IH]; intros reg; [done|]. cbn [foldl]. specialize (IH (arm_step reg i)). destruct IH as (-> & -> & ->).
  unfold arm_step, arm_reg3_grant. by repeat case_match.
Qed.

(** ** One tick *)
Lemma front_reg env st classic now : exists reg0 conns0 reg1 conns1,
  drive_probing (clear_pending_if_timed_out (hk_reg st) now).1 (hk_conns st) now (he_clock env) = (reg0, conns0) /\
  reg_kept reg0 reg1 /\ Forall2 no_gain conns0 conns1 /\
  hk_reg (tick_front env st classic now) = (reg_driver_pending_sends (update_active_connections reg1 conns1) (length conns1) now).1 /\
  map connected (hk_conns (tick_front env st classic now)) = map connected conns1.
Proof.
  unfold tick_front. destruct (drive_probing _ _ _ _) as [reg0 conns0].
  pose proof (tick_links_reg env (hk_io st) classic now conns0 0 reg0 (hk_tracker st)) as H.
  destruct (tick_links env (hk_io st) classic now 0 conns0 reg0 (hk_tracker st)) as [[conns1 reg1] t1]. cbn [fst snd] in H.
  pose proof (drive_registration_eq env (hk_io st) now conns1 reg1) as Hd. destruct (drive_registration _ _ _ _ _) as [conns2 reg2].
  cbn [fst snd] in Hd. exists reg0, conns0, reg1, conns1. destruct H, Hd. by split_and!.
Qed.

(** A bond that has not been dead for ten seconds is not moved. *)
Lemma housekeeping_stays env st classic now :
  (forall f, hk_all_failed_at st = Some f -> sat_sub now f <= GLOBAL_TIMEOUT_MS) ->
  let r := (handle_housekeeping env st classic now).1 in
  hk_conns r = hk_conns (tick_front env st classic now) /\ hk_reg r = hk_reg (tick_front env st classic now) /\
  (forall f, hk_all_failed_at r = Some f -> f = now \/ hk_all_failed_at st = Some f).
Proof.
  intros Hf. unfold handle_housekeeping.
  assert (hk_all_failed_at (tick_front env st classic now) = hk_all_failed_at st) as Ha.
  { unfold tick_front. destruct (drive_probing _ _ _ _) as [reg0 conns0]. destruct (tick_links _ _ _ _ _ _ _ _) as [[c1 r1] t1].
    by destruct (drive_registration _ _ _ _ _). }
  set (st1 := tick_front env st classic now) in *. clearbody st1. destruct (any_active now (hk_conns st1)); cbn [negb]; [done|].
  rewrite Ha. destruct (hk_all_failed_at st) as [f|].
  - rewrite Ha. destruct (Z.gtb_spec (sat_sub now f) GLOBAL_TIMEOUT_MS) as [Hgt|_]; [specialize (Hf f eq_refl); lia|]. cbn [fst]. split_and!; [done..|].
    rewrite Ha. by right.
  - change (hk_all_failed_at (st1 <| hk_all_failed_at := Some now |>)) with (Some now). cbv iota.
    assert ((sat_sub now now >? GLOBAL_TIMEOUT_MS) = false) as -> by (unfold sat_sub; by rewrite Z.sub_diag).
    split_and!; [done..|]. intros f [= <-]. by left.
Qed.

(** REG1 is on its way on link [i], or will be from [at_] on. *)
Definition reg1_sent (st : HkState) (i : nat) : Prop := pending_reg2_idx (hk_reg st) = Some i.
Definition reg1_due (st : HkState) (i : nat) (at_ : Z) : Prop :=
  pending_reg2_idx (hk_reg st) = None /\ reg1_target_idx (hk_reg st) = Some i /\ reg1_next_send_at_ms (hk_reg st) = at_.

Lemma no_gain_none conns conns' : Forall2 no_gain conns conns' -> no_link conns -> no_link conns'.
Proof.
  induction 1 as [|c c' conns conns' H _ IH]; [done|]. intros [Hc Hcs]%Forall_cons. constructor; [|by apply IH].
  destruct (connected c') eqn:E; [|done]. by rewrite (H E) in Hc.
Qed.

Lemma connected_none conns conns' : map connected conns' = map connected conns -> no_link conns -> no_link conns'.
Proof.
  unfold no_link. intros H Hn. assert (Forall (fun b => b = false) (map connected conns')) as Hm by (rewrite H, Forall_map; exact Hn).
  by rewrite Forall_map in Hm.
Qed.

(** The driver with no link connected. *)
Lemma driver_idle reg conns now i : no_link conns -> broadcast_reg2_pending reg = false ->
  let reg' := (reg_driver_pending_sends (update_active_connections reg conns) (length conns) now).1 in
  probing_state reg' = probing_state reg /\ broadcast_reg2_pending reg' = false /\
  (pending_reg2_idx reg = Some i -> pending_reg2_idx reg' = Some i) /\
  (pending_reg2_idx reg = None -> reg1_target_idx reg = Some i ->
   if reg1_next_send_at_ms reg <=? now
   then pending_reg2_idx reg' = Some i /\ pending_timeout_at_ms reg' = u64_wrap (now + REG2_TIMEOUT * 1000)
   else pending_reg2_idx reg' = None /\ reg1_target_idx reg' = Some i /\ reg1_next_send_at_ms reg' = reg1_next_send_at_ms reg).
Proof.
  intros Hn Hb. cbv zeta. rewrite driver_reg. set (u := update_active_connections reg conns).
  assert (active_connections u = 0%nat) as Ha by (by apply no_link_count).
  change (probing_state reg) with (probing_state u). change (pending_reg2_idx reg) with (pending_reg2_idx u).
  change (reg1_target_idx reg) with (reg1_target_idx u). change (reg1_next_send_at_ms reg) with (reg1_next_send_at_ms u).
  change (broadcast_reg2_pending u) with (broadcast_reg2_pending reg). rewrite Hb. change (broadcast_reg2_pending reg) with (broadcast_reg2_pending u) in Hb.
  clearbody u. unfold after_reg1. rewrite Ha. cbn [Nat.eqb andb]. rewrite Z.geb_leb. split_and!.
  - by repeat case_match.
  - by repeat case_match.
  - intros Hp. destruct (reg1_target_idx u); [|done]. rewrite Hp. by rewrite bool_decide_eq_false_2 by done.
  - intros Hp Ht. rewrite Ht. rewrite bool_decide_eq_true_2 by done. cbn [andb]. by destruct (reg1_next_send_at_ms u <=? now).
Qed.

(** Probing is over at the tick whose clock has passed its two seconds. *)
Lemma probing_over reg conns now clock :
  probing_state reg = WaitingForProbes -> pending_timeout_at_ms reg <= clock -> conns <> [] -> no_link conns ->
  Forall (fun r => pr_conn_idx r < length conns)%nat (probe_results reg) ->
  exists reg' conns' i, drive_probing reg conns now clock = (reg', conns') /\ (i < length conns)%nat /\
    probing_state reg' = Complete /\ reg1_target_idx reg' = Some i /\ reg1_next_send_at_ms reg' = clock /\
    pending_reg2_idx reg' = pending_reg2_idx reg /\ broadcast_reg2_pending reg' = broadcast_reg2_pending reg /\
    no_link conns' /\ length conns' = length conns.
Proof.
  intros Hp Ht Hne Hn Hidx. unfold drive_probing, is_probing at 1. rewrite Hp.
  destruct (check_probing_complete reg clock) as [reg1 over] eqn:Ec.
  destruct (probing_picks_fastest reg reg1 clock over Hp Ec) as (Hiff & _ & Hd).
  assert (over = true) as -> by (apply Hiff; by right). destruct (Hd eq_refl) as (H1 & H2 & i & H3 & H4).
  assert (pending_reg2_idx reg1 = pending_reg2_idx reg /\ broadcast_reg2_pending reg1 = broadcast_reg2_pending reg) as [H5 H6].
  { unfold check_probing_complete in Ec. rewrite Hp, bool_decide_eq_true_2 in Ec by done. cbn [negb] in Ec.
    destruct (_ || _); injection Ec as <-; done. }
  assert (i < length conns)%nat as Hi.
  { destruct H4 as [[_ ->]|(pre & r & post & m & E & <- & _)]; [destruct conns; [done|cbn; lia]|].
    rewrite E in Hidx. apply Forall_app in Hidx as [_ [Hr _]%Forall_cons]. exact Hr. }
  cbn [fst]. unfold is_probing. rewrite H1. cbn [negb]. rewrite H3. destruct (lookup_lt_is_Some_2 conns i Hi) as [c Hc].
  cbn [mbind option_bind]. rewrite Hc. cbn [mbind option_bind]. eexists reg1, _, i. split; [done|]. split_and!; try done; [|apply length_insert].
  apply Forall_insert; [done|]. exact (Forall_lookup_1 _ _ _ _ Hn Hc).
Qed.

(** The state of the handshake between ticks. *)
Record quiet_reg (st : HkState) : Prop := mkQuiet {
  qr_state : probing_state (hk_reg st) = Complete;
  qr_broadcast : broadcast_reg2_pending (hk_reg st) = false;
  qr_links : no_link (hk_conns st) }.

(** The tick that ends probing sends REG1, or leaves it to the next one. *)
Lemma probing_tick env st classic now :
  probing_state (hk_reg st) = WaitingForProbes -> pending_timeout_at_ms (hk_reg st) <= he_clock env ->
  pending_reg2_idx (hk_reg st) = None -> broadcast_reg2_pending (hk_reg st) = false ->
  hk_conns st <> [] -> no_link (hk_conns st) -> Forall (fun r => pr_conn_idx r < length (hk_conns st))%nat (probe_results (hk_reg st)) ->
  exists i, (i < length (hk_conns st))%nat /\ quiet_reg (tick_front env st classic now) /\
    (if he_clock env <=? now
     then reg1_sent (tick_front env st classic now) i /\
          pending_timeout_at_ms (hk_reg (tick_front env st classic now)) = u64_wrap (now + REG2_TIMEOUT * 1000)
     else reg1_due (tick_front env st classic now) i (he_clock env)).
Proof.
  intros Hp Ht Hpend Hb Hne Hn Hidx. destruct (front_reg env st classic now) as (reg0 & conns0 & reg1 & conns1 & Hdp & Hk & Hg & Hr & Hc).
  unfold clear_pending_if_timed_out in Hdp. rewrite Hpend in Hdp. cbn [fst] in Hdp.
  destruct (probing_over (hk_reg st) (hk_conns st) now (he_clock env) Hp Ht Hne Hn Hidx) as (reg' & conns' & i & E & Hi & P1 & P2 & P3 & P4 & P5 & P6 & P7).
  rewrite E in Hdp. injection Hdp as -> ->. destruct Hk as [_ K2 K3 K4 K5 _]. destruct (K5 ltac:(congruence)) as [K6 K7].
  pose proof (no_gain_none _ _ Hg P6) as Hn1. destruct (driver_idle reg1 conns1 now i Hn1 ltac:(congruence)) as (D1 & D2 & _ & D3).
  rewrite <- Hr in D1, D2, D3. exists i. split; [done|]. split.
  - split; [congruence|done|]. by apply (connected_none conns1).
  - specialize (D3 ltac:(congruence) ltac:(congruence)). rewrite K7, P3 in D3. unfold reg1_sent, reg1_due.
    destruct (he_clock env <=? now); [done|]. destruct D3 as (-> & -> & ->). done.
Qed.

(** A later tick sends it, if it is due, and leaves one that is on its way. *)
Lemma reg1_tick env st classic now i : quiet_reg st ->
  (reg1_sent st i /\ now < pending_timeout_at_ms (hk_reg st) \/ exists at_, reg1_due st i at_ /\ at_ <= now) ->
  quiet_reg (tick_front env st classic now) /\ reg1_sent (tick_front env st classic now) i.
Proof.
  intros [Q1 Q2 Q3] Hd. destruct (front_reg env st classic now) as (reg0 & conns0 & reg1 & conns1 & Hdp & Hk & Hg & Hr & Hc).
  assert ((clear_pending_if_timed_out (hk_reg st) now).1 = hk_reg st) as Hcl.
  { unfold clear_pending_if_timed_out. destruct Hd as [[Hs Ht]|(at_ & (Hs & _) & _)]; rewrite Hs; [|done].
    assert ((now >=? pending_timeout_at_ms (hk_reg st)) = false) as -> by (rewrite Z.geb_leb; by apply Z.leb_gt). by rewrite andb_false_r. }
  rewrite Hcl in Hdp. unfold drive_probing, is_probing in Hdp. rewrite Q1 in Hdp. injection Hdp as <- <-.
  destruct Hk as [_ K2 K3 K4 K5 _]. pose proof (no_gain_none _ _ Hg Q3) as Hn1.
  destruct (driver_idle reg1 conns1 now i Hn1 ltac:(congruence)) as (D1 & D2 & D3 & D4). rewrite <- Hr in D1, D2, D3, D4.
  split; [split; [congruence|done|by apply (connected_none conns1)]|]. unfold reg1_sent.
  destruct Hd as [[Hs Ht]|(at_ & (Hs & Htg & Hat) & Hle)]; [apply D3; congruence|].
  destruct (K5 ltac:(congruence)) as [K6 K7]. specialize (D4 ltac:(congruence) ltac:(congruence)).
  rewrite K7, Hat, (proj2 (Z.leb_le _ _) Hle) in D4. apply D4.
Qed.

(** The tick after the REG2: every link is connected or may register. *)
Definition open_gate (st : HkState) : Prop :=
  forall j c, hk_conns st !! j = Some c -> connected c = true \/ grant (hk_reg st) j = 1%nat.

Lemma broadcast_tick env st classic now :
  is_probing (hk_reg st) = false -> pending_reg2_idx (hk_reg st) = None -> broadcast_reg2_pending (hk_reg st) = true ->
  open_gate (tick_front env st classic now) /\ srtla_id (hk_reg (tick_front env st classic now)) = srtla_id (hk_reg st).
Proof.
  intros Hp Hpend Hb. destruct (front_reg env st classic now) as (reg0 & conns0 & reg1 & conns1 & Hdp & Hk & Hg & Hr & Hc).
  unfold clear_pending_if_timed_out in Hdp. rewrite Hpend in Hdp. unfold drive_probing in Hdp. cbn [fst] in Hdp. rewrite Hp in Hdp.
  injection Hdp as <- <-. destruct Hk as [K1 K2 K3 K4 K5 K6]. rewrite Hr. rewrite driver_reg.
  set (u := update_active_connections reg1 conns1). change (broadcast_reg2_pending u) with (broadcast_reg2_pending reg1). rewrite K3, Hb.
  assert (forall j, is_connected_snapshot (after_reg1 u now) j = default false (map connected conns1 !! j)) as Hsnap.
  { intros j. unfold after_reg1, is_connected_snapshot. by repeat case_match. }
  split.
  - intros j c Hj. assert (map connected conns1 !! j = Some (connected c)) as Hj1.
    { rewrite <- Hc. change (map connected) with (fmap (M := list) connected). by rewrite list_lookup_fmap, Hj. }
    assert (j < length conns1)%nat as Hl by (apply lookup_lt_Some in Hj1; by rewrite length_map in Hj1).
    destruct (connected c); [by left|right]. rewrite Hr, driver_reg. fold u. change (broadcast_reg2_pending u) with (broadcast_reg2_pending reg1). rewrite K3, Hb.
    change (grant (foldl arm_step (after_reg1 u now) (seq 0 (length conns1))) j = 1%nat).
    rewrite (proj1 (grant_broadcast _ _ _)), Hsnap, Hj1, (proj2 (Nat.ltb_lt _ _) Hl). done.
  - change (srtla_id (foldl arm_step (after_reg1 u now) (seq 0 (length conns1))) = srtla_id (hk_reg st)).
    destruct (foldl_arm_frame (seq 0 (length conns1)) (after_reg1 u now)) as (_ & _ & ->). rewrite <- K1. unfold after_reg1. by repeat case_match.
Qed.

(** ** The loop *)
Section Loop.
Context (exp : f64 -> f64) (hash : bytes -> Z).

Lemma apply_pending_idle st outs : ml_pending st = None -> apply_pending st outs = st.
Proof. unfold apply_pending. by intros ->. Qed.
Lemma drain_idle st us : ml_queue st = [] -> drain_packet_queue hash st us = Ret st.
Proof. unfold drain_packet_queue, MAX_DRAIN_PACKETS. cbn [drain_loop]. by intros ->. Qed.

(** A tick of the loop with nothing queued is the tick of the bond, up to the
    verdicts it stamps on the links. *)
Lemma tick_quiet st t : ml_queue st = [] -> ml_pending st = None ->
  let h := (handle_housekeeping (tk_env t) (hk_of st) (is_classic (config_mode (sn_config (ml_sender st)))) (tk_now t)).1 in
  exists st', loop_step exp hash st (tick_event t) = Ret (Some st') /\ ml_queue st' = [] /\ ml_pending st' = None /\
    sn_reg (ml_sender st') = hk_reg h /\ map connected (ml_conns st') = map connected (hk_conns h) /\
    ml_all_failed_at st' = hk_all_failed_at h.
Proof.
  intros Hq Hp. cbv zeta. cbn [tick_event loop_step]. rewrite housekeeping_branch_eq. cbv zeta. unfold stamped.
  fold (tick_bond st (tk_env t) (tk_now t)).
  assert (ml_queue (tick_bond st (tk_env t) (tk_now t)) = [] /\ ml_pending (tick_bond st (tk_env t) (tk_now t)) = None) as [Hq' Hp'] by done.
  change (hk_reg (handle_housekeeping (tk_env t) (hk_of st) (is_classic (config_mode (sn_config (ml_sender st)))) (tk_now t)).1)
    with (sn_reg (ml_sender (tick_bond st (tk_env t) (tk_now t)))).
  change (hk_conns (handle_housekeeping (tk_env t) (hk_of st) (is_classic (config_mode (sn_config (ml_sender st)))) (tk_now t)).1)
    with (ml_conns (tick_bond st (tk_env t) (tk_now t))).
  change (hk_all_failed_at (handle_housekeeping (tk_env t) (hk_of st) (is_classic (config_mode (sn_config (ml_sender st)))) (tk_now t)).1)
    with (ml_all_failed_at (tick_bond st (tk_env t) (tk_now t))).
  generalize (tick_verdicts st (tk_env t) (tk_now t)) (tick_caps exp st (tk_env t) (tk_now t) (tk_cc_now t)). intros [f cl] [cc sn].
  generalize dependent (tick_bond st (tk_env t) (tk_now t)). intros b Hq' Hp'. cbn [fst snd].
  rewrite apply_pending_idle by exact Hp'. rewrite drain_idle by exact Hq'. cbn [mbind res_bind]. eexists. split; [done|]. split_and!; try done.
  change (map connected (map (stamp_link cl sn) (ml_conns b)) = map connected (ml_conns b)). by rewrite map_map.
Qed.

(** A datagram of the receiver reaches the reader of a link and then the loop. *)
Definition receive (id : Z) (d : bytes) (u : UplinkIo) : list loop_event := [LvReader id (Some [d]); LvUplink u (fun _ => u)].

Lemma position_unique conns i c : NoDup (map conn_id conns) -> conns !! i = Some c ->
  position (fun d => conn_id d =? conn_id c) conns = Some i.
Proof.
  revert i. induction conns as [|d conns IH]; intros i Hn Hi; [done|]. cbn [map] in Hn. apply NoDup_cons in Hn as [Hd Hn]. cbn [position].
  destruct i as [|i]; [injection Hi as ->; by rewrite Z.eqb_refl|]. cbn in Hi.
  destruct (Z.eqb_spec (conn_id d) (conn_id c)) as [E|_]; [|by rewrite (IH i Hn Hi)].
  destruct Hd. rewrite E. change (map conn_id) with (fmap (M := list) conn_id). apply list_elem_of_fmap_2. by eapply list_elem_of_lookup_2.
Qed.

(** Effects that carry no acknowledgement change no link. *)
Definition no_effects (inc : SrtlaIncoming) : Prop :=
  ack_numbers inc = [] /\ nak_numbers inc = [] /\ srtla_ack_numbers inc = [] /\ reg1_send inc = None /\ negotiated_latency_ms inc = None.

Lemma events_noop idx conns client t classic inc now : no_effects inc ->
  exists out, process_connection_events idx conns client t classic inc now = Ret (conns, out).
Proof.
  intros (H1 & H2 & H3 & _). unfold process_connection_events. case_bool_decide; [by eexists|]. destruct (_ && _); [by eexists|].
  rewrite H1, H2, H3. cbn [fold_res mbind res_bind]. by eexists.
Qed.

Lemma receive_exec st idx c d u us' inc relay :
  loop_ok st -> ml_queue st = [] -> d <> [] -> ml_conns st !! idx = Some c ->
  process_uplink_packet hash (mkUplink c (sn_reg (ml_sender st)) (sn_dedup (ml_sender st))) idx (sn_client (ml_sender st)) d (ui_recv u) (ui_try_send u)
    = Ret (us', inc, relay) -> no_effects inc ->
  exists st', loop_exec exp hash st (receive (conn_id c) d u) = Some st' /\ ml_queue st' = [] /\ ml_pending st' = ml_pending st /\
    sn_reg (ml_sender st') = us_reg us' /\ ml_conns st' = <[idx := us_conn us']> (ml_conns st) /\ ml_all_failed_at st' = ml_all_failed_at st.
Proof.
  intros Hok Hq Hd Hi Hu Hinc. unfold receive. cbn [loop_exec loop_step].
  assert (conn_id c ∈ ml_readers st) as Hr.
  { apply (ok_readers _ Hok). change (map conn_id) with (fmap (M := list) conn_id). apply list_elem_of_fmap_2. by eapply list_elem_of_lookup_2. }
  rewrite bool_decide_eq_true_2 by done. rewrite filter_cons, decide_True by done. rewrite filter_nil. cbn [map].
  destruct st as [s io af g f cc pend rd q]. cbn [ml_queue ml_sender ml_io ml_readers ml_pending ml_all_failed_at] in *. subst q.
  cbn [ml_queue upd eta_loop app]. cbn [eta ml_queue ml_sender ml_io ml_all_failed_at ml_gate ml_filter ml_cc ml_pending ml_readers app].
  unfold uplink_one. cbn [ml_sender ml_io ml_queue up_conn_id up_bytes]. unfold handle_uplink_packet. rewrite bool_decide_eq_false_2 by done.
  rewrite (position_unique (sn_conns s) idx c (lo_unique _ (ok_links _ Hok)) Hi), Hi, Hu. cbn [mbind res_bind].
  pose proof Hinc as (_ & _ & _ & -> & ->).
  destruct (events_noop idx (<[idx := us_conn us']> (sn_conns s)) (sn_client s) (sn_tracker s) (is_classic (cfg_mode (snapshot (sn_config s)))) inc (ui_apply u) Hinc)
    as [out ->]. cbn [mbind res_bind]. rewrite drain_idle by done. cbn [mbind res_bind]. eexists. split; [done|]. done.
Qed.

(** The receiver's REG2 on the link that was asked. *)
Lemma receive_reg2 st i c reply u : loop_ok st -> ml_queue st = [] -> ml_conns st !! i = Some c ->
  pending_reg2_idx (sn_reg (ml_sender st)) = Some i ->
  packet_type_of reply = Some SRTLA_TYPE_REG2 -> (2 + SRTLA_ID_LEN <= length reply)%nat ->
  exists st', loop_exec exp hash st (receive (conn_id c) reply u) = Some st' /\ ml_queue st' = [] /\ ml_pending st' = ml_pending st /\
    sn_reg (ml_sender st') = handle_reg2 (sn_reg (ml_sender st)) i reply (ui_recv u) /\ ml_conns st' = ml_conns st /\
    ml_all_failed_at st' = ml_all_failed_at st.
Proof.
  intros Hok Hq Hi Hp Ht Hl.
  destruct (receive_exec st i c reply u (mkUplink c (handle_reg2 (sn_reg (ml_sender st)) i reply (ui_recv u)) (sn_dedup (ml_sender st)))
    (incoming_default <| read_any := true |>) []) as (st' & H1 & H2 & H3 & H4 & H5 & H6); try done.
  - by intros ->.
  - unfold process_uplink_packet, process_registration_packet. rewrite get_packet_type_spec, Ht. done.
  - exists st'. split_and!; try done. rewrite H5. by apply list_insert_id.
Qed.

(** A REG3: the link is connected after it if it was, or if its gate was open. *)
Lemma receive_reg3 st j c r3 u : loop_ok st -> ml_queue st = [] -> ml_conns st !! j = Some c ->
  packet_type_of r3 = Some SRTLA_TYPE_REG3 ->
  exists st' c', loop_exec exp hash st (receive (conn_id c) r3 u) = Some st' /\ ml_queue st' = [] /\
    ml_conns st' = <[j := c']> (ml_conns st) /\ conn_id c' = conn_id c /\
    (connected c = true \/ grant (sn_reg (ml_sender st)) j = 1%nat -> connected c' = true) /\
    (forall k, k <> j -> grant (sn_reg (ml_sender st')) k = grant (sn_reg (ml_sender st)) k) /\
    srtla_id (sn_reg (ml_sender st')) = srtla_id (sn_reg (ml_sender st)).
Proof.
  intros Hok Hq Hj Ht. set (reg := sn_reg (ml_sender st)).
  assert (r3 <> []) as Hne by (by intros ->).
  destruct (contains (awaiting_reg3 reg) j) eqn:Eg.
  - destruct (receive_exec st j c r3 u (mkUplink (registered_now c (ui_recv u)) (handle_reg3 reg j).1 (sn_dedup (ml_sender st)))
      (incoming_default <| read_any := true |>) []) as (st' & H1 & H2 & H3 & H4 & H5 & H6); try done.
    { unfold process_uplink_packet, process_registration_packet. rewrite get_packet_type_spec, Ht. cbn [mbind res_bind]. 
      change (SRTLA_TYPE_REG3 =? SRTLA_TYPE_REG_NGP) with false. change (SRTLA_TYPE_REG3 =? SRTLA_TYPE_REG2) with false. cbv iota.
      rewrite Z.eqb_refl. cbn [us_reg us_conn us_dedup]. fold reg. unfold handle_reg3. rewrite Eg. done. }
    assert (conn_id (registered_now c (ui_recv u)) = conn_id c /\ connected (registered_now c (ui_recv u)) = true) as [Hid Hcon].
    { unfold registered_now. split; by case_match. }
    exists st', (registered_now c (ui_recv u)). split_and!; try done.
    + intros k Hk. rewrite H4. cbn [us_reg]. unfold handle_reg3. rewrite Eg. cbn [negb fst].
      change (grant (revoke_reg3_grant reg j) k = grant reg k). rewrite grant_revoke. by rewrite (proj2 (Nat.eqb_neq _ _) Hk).
    + rewrite H4. cbn [us_reg]. unfold handle_reg3. by rewrite Eg.
  - destruct (receive_exec st j c r3 u (mkUplink (refresh_liveness c (ui_recv u)) (handle_reg3 reg j).1 (sn_dedup (ml_sender st)))
      (incoming_default <| read_any := true |> <| forward_to_client := [r3] |>) []) as (st' & H1 & H2 & H3 & H4 & H5 & H6); try done.
    { unfold process_uplink_packet, process_registration_packet. rewrite get_packet_type_spec, Ht. cbn [mbind res_bind].
      change (SRTLA_TYPE_REG3 =? SRTLA_TYPE_REG_NGP) with false. change (SRTLA_TYPE_REG3 =? SRTLA_TYPE_REG2) with false. cbv iota.
      rewrite Z.eqb_refl. cbn [us_reg us_conn us_dedup]. fold reg. unfold handle_reg3. rewrite Eg. done. }
    exists st', (refresh_liveness c (ui_recv u)).
    assert (grant (handle_reg3 reg j).1 = grant reg /\ srtla_id (handle_reg3 reg j).1 = srtla_id reg) as [Hg Hs]
      by (unfold handle_reg3; rewrite Eg; done).
    split_and!; try done.
    + unfold refresh_liveness. by destruct (_ || _).
    + intros [Hc|Hgr]; [unfold refresh_liveness; by destruct (_ || _)|]. unfold grant in Hgr. by rewrite Eg in Hgr.
    + intros k _. rewrite H4. cbn [us_reg]. by rewrite Hg.
    + rewrite H4. exact Hs.
Qed.

(** ** Runs *)
Lemma loop_exec_app a b st : loop_exec exp hash st (a ++ b) = loop_exec exp hash st a ≫= fun s => loop_exec exp hash s b.
Proof. revert st. induction a as [|ev a IH]; intros st; [done|]. cbn [app loop_exec]. by destruct (loop_step exp hash st ev) as [[st'|]|]. Qed.

Lemma receive_ok st id d u st' : loop_ok st -> is_bytes d -> loop_exec exp hash st (receive id d u) = Some st' -> loop_ok st'.
Proof.
  intros Hok Hd. unfold receive. cbn [loop_exec].
  destruct (loop_step_ok exp hash st (LvReader id (Some [d])) Hok) as ([st1|] & E1 & H1); [by constructor| |by rewrite E1]. rewrite E1.
  destruct (loop_step_ok exp hash st1 (LvUplink u (fun _ => u)) (H1 _ eq_refl) I) as ([st2|] & E2 & H2); rewrite E2; [|done].
  intros [= <-]. by apply H2.
Qed.

(** A datagram for a link that is not there is dropped by its missing reader. *)
Lemma receive_stranger st id d u : loop_ok st -> ml_queue st = [] -> id ∉ map conn_id (ml_conns st) ->
  loop_exec exp hash st (receive id d u) = Some st.
Proof.
  intros Hok Hq Hid. unfold receive. cbn [loop_exec loop_step].
  rewrite bool_decide_eq_false_2 by (intros Hr; by apply Hid, (ok_readers _ Hok)). cbn [loop_step]. by rewrite Hq.
Qed.

(** Every link is connected or may register, and those of [ids] are connected. *)
Definition registering (st : LoopState) (ids : list Z) : Prop :=
  forall j c, ml_conns st !! j = Some c ->
    (connected c = true \/ grant (sn_reg (ml_sender st)) j = 1%nat) /\ (conn_id c ∈ ids -> connected c = true).

Lemma reg3_registers r3 order : is_bytes r3 -> packet_type_of r3 = Some SRTLA_TYPE_REG3 -> forall st ids,
  loop_ok st -> ml_queue st = [] -> registering st ids ->
  exists st', loop_exec exp hash st (flat_map (fun p => receive p.1 r3 p.2) order) = Some st' /\
    registering st' (reverse (map fst order) ++ ids) /\ map conn_id (ml_conns st') = map conn_id (ml_conns st) /\
    srtla_id (sn_reg (ml_sender st')) = srtla_id (sn_reg (ml_sender st)).
Proof.
  intros Hb Ht. induction order as [|[id u] order IH]; intros st ids Hok Hq Hreg; cbn [flat_map map]; [by exists st|].
  rewrite loop_exec_app. cbn [fst snd]. rewrite reverse_cons, <- app_assoc. cbn [app].
  destruct (decide (id ∈ map conn_id (ml_conns st))) as [Hin|Hout].
  - apply list_elem_of_fmap in Hin as (c & -> & Hc). apply list_elem_of_lookup in Hc as [j Hj].
    destruct (receive_reg3 st j c r3 u Hok Hq Hj Ht) as (st1 & c' & E & H1 & H2 & H3 & H4 & H5 & H6). rewrite E. cbn [mbind option_bind].
    destruct (IH st1 (conn_id c :: ids) (receive_ok _ _ _ _ _ Hok Hb E) H1) as (st' & -> & G1 & G2 & G3).
    + intros k d Hk. rewrite H2 in Hk. pose proof (lookup_lt_Some _ _ _ Hj) as Hl. destruct (Hreg j c Hj) as [Hj1 _].
      destruct (decide (k = j)) as [->|Hn].
      * rewrite list_lookup_insert_eq in Hk by done. injection Hk as <-. specialize (H4 Hj1). auto.
      * rewrite list_lookup_insert_ne in Hk by done. destruct (Hreg k d Hk) as [A B]. rewrite H5 by done. split; [done|].
        intros [Heq|Hi]%elem_of_cons; [|by apply B]. exfalso. apply Hn.
        eapply (NoDup_lookup (map conn_id (ml_conns st))); [exact (lo_unique _ (ok_links _ Hok))| |];
          change (map conn_id) with (fmap (M := list) conn_id); rewrite list_lookup_fmap; [by rewrite Hk|]. rewrite Hj. cbn. by rewrite Heq.
    + exists st'. split; [done|]. split; [done|]. split; [|congruence]. rewrite G2, H2. change (map conn_id) with (fmap (M := list) conn_id).
      rewrite list_fmap_insert, H3. apply list_insert_id. by rewrite list_lookup_fmap, Hj.
  - rewrite (receive_stranger st id r3 u Hok Hq Hout). cbn [mbind option_bind]. apply IH; [done|done|].
    intros k d Hk. destruct (Hreg k d Hk) as [A B]. split; [done|]. intros [Heq|Hi]%elem_of_cons; [|by apply B].
    destruct Hout. rewrite <- Heq. change (map conn_id) with (fmap (M := list) conn_id). apply list_elem_of_fmap_2. by eapply list_elem_of_lookup_2.
Qed.

(** A tick of a bond that has not been dead for long, as a step of the run. *)
Lemma tick_phase st t : loop_ok st -> ml_queue st = [] -> ml_pending st = None -> tk_outs t = [] ->
  (forall f, ml_all_failed_at st = Some f -> sat_sub (tk_now t) f <= GLOBAL_TIMEOUT_MS) ->
  let front := tick_front (tk_env t) (hk_of st) (is_classic (config_mode (sn_config (ml_sender st)))) (tk_now t) in
  exists st', loop_step exp hash st (tick_event t) = Ret (Some st') /\ loop_ok st' /\ ml_queue st' = [] /\ ml_pending st' = None /\
    map conn_id (ml_conns st') = map conn_id (ml_conns st) /\
    sn_reg (ml_sender st') = hk_reg front /\ map connected (ml_conns st') = map connected (hk_conns front) /\
    (forall f, ml_all_failed_at st' = Some f -> f = tk_now t \/ ml_all_failed_at st = Some f).
Proof.
  intros Hok Hq Hp Ho Hf. cbv zeta. destruct (tick_quiet st t Hq Hp) as (st' & E & H1 & H2 & H3 & H4 & H5).
  destruct (housekeeping_stays (tk_env t) (hk_of st) (is_classic (config_mode (sn_config (ml_sender st)))) (tk_now t) Hf) as (S1 & S2 & S3).
  assert (loop_event_ok st (tick_event t)) as Hev.
  { cbn. rewrite Ho. split; [constructor|]. by intros ? ?%elem_of_nil. }
  destruct (tick_step exp hash st t st' Hok Hev E) as (Hok' & Htags & _ & _). exists st'. split_and!; try done.
  - rewrite (tags_ids _ _ Htags), apply_pending_idle; [by apply stamped_ids|]. by rewrite stamped_pending.
  - by rewrite H3, S2.
  - by rewrite H4, S1.
  - intros f. rewrite H5. apply S3.
Qed.

(** ** The whole handshake *)

(** A bond that is probing: no link is connected, no REG1 was sent, the probes
    are those of its links, and no packet and no reload is queued. *)
Record probing_bond (st : LoopState) : Prop := mkProbing {
  pb_state : probing_state (sn_reg (ml_sender st)) = WaitingForProbes;
  pb_pending : pending_reg2_idx (sn_reg (ml_sender st)) = None;
  pb_broadcast : broadcast_reg2_pending (sn_reg (ml_sender st)) = false;
  pb_links : ml_conns st <> [] /\ no_link (ml_conns st);
  pb_probes : Forall (fun r => pr_conn_idx r < length (ml_conns st))%nat (probe_results (sn_reg (ml_sender st)));
  pb_idle : ml_queue st = [] /\ ml_pending st = None }.

(** When the ticks come: the first after the two seconds of probing, the second
    after its clock and before the REG2 timeout, all three before the bond has
    been dead for ten seconds. *)
Record on_time (st : LoopState) (t1 t2 t3 : Tick) : Prop := mkOnTime {
  ot_probed : pending_timeout_at_ms (sn_reg (ml_sender st)) <= he_clock (tk_env t1) <= tk_now t2;
  ot_range : 0 <= tk_now t1 /\ tk_now t1 + REG2_TIMEOUT * 1000 <= u64_max;
  ot_answer : tk_now t2 < tk_now t1 + REG2_TIMEOUT * 1000;
  ot_order : tk_now t1 <= tk_now t2 <= tk_now t3;
  ot_alive : tk_now t3 <= tk_now t1 + GLOBAL_TIMEOUT_MS /\
             forall f, ml_all_failed_at st = Some f -> tk_now t3 <= f + GLOBAL_TIMEOUT_MS;
  ot_outs : tk_outs t1 = [] /\ tk_outs t2 = [] /\ tk_outs t3 = [] }.

Lemma quiet_like h h' : hk_reg h' = hk_reg h -> map connected (hk_conns h') = map connected (hk_conns h) -> quiet_reg h -> quiet_reg h'.
Proof. intros Hr Hc [A B C]. split; [by rewrite Hr|by rewrite Hr|]. by apply (connected_none (hk_conns h)). Qed.

(** The REG1 of the bond is out after two ticks. *)
Lemma reg1_goes_out st t1 t2 t3 : loop_ok st -> probing_bond st -> on_time st t1 t2 t3 ->
  exists st2 i, loop_exec exp hash st [tick_event t1; tick_event t2] = Some st2 /\ loop_ok st2 /\ (i < length (ml_conns st2))%nat /\
    pending_reg2_idx (sn_reg (ml_sender st2)) = Some i /\ quiet_reg (hk_of st2) /\ ml_queue st2 = [] /\ ml_pending st2 = None /\
    map conn_id (ml_conns st2) = map conn_id (ml_conns st) /\
    (forall f, ml_all_failed_at st2 = Some f -> tk_now t3 <= f + GLOBAL_TIMEOUT_MS).
Proof.
  intros Hok [P1 P2 P3 [P4 P5] P6 [P7 P8]] [O1 O2 O3 O4 [O5 O6] (O7 & O8 & _)].
  destruct (tick_phase st t1 Hok P7 P8 O7) as (st1 & E1 & Hok1 & Q1 & Pe1 & I1 & R1 & C1 & F1).
  { intros f Hf. specialize (O6 f Hf). unfold sat_sub, GLOBAL_TIMEOUT_MS in *. lia. }
  set (k1 := is_classic (config_mode (sn_config (ml_sender st)))) in *.
  destruct (probing_tick (tk_env t1) (hk_of st) k1 (tk_now t1) P1 ltac:(exact (proj1 O1)) P2 P3 P4 P5 P6) as (i & Hi & HQ & Hsend).
  set (front1 := tick_front (tk_env t1) (hk_of st) k1 (tk_now t1)) in *. clearbody front1.
  pose proof (quiet_like front1 (hk_of st1) R1 C1 HQ) as HQ1.
  destruct (tick_phase st1 t2 Hok1 Q1 Pe1 O8) as (st2 & E2 & Hok2 & Q2 & Pe2 & I2 & R2 & C2 & F2).
  { intros f Hf. destruct (F1 f Hf) as [->|Hf']; [|specialize (O6 f Hf')]; unfold sat_sub, GLOBAL_TIMEOUT_MS in *; lia. }
  destruct (reg1_tick (tk_env t2) (hk_of st1) (is_classic (config_mode (sn_config (ml_sender st1)))) (tk_now t2) i HQ1) as [HQ2 Hsent].
  { destruct (he_clock (tk_env t1) <=? tk_now t1).
    - left. destruct Hsend as [Hs Ht]. unfold reg1_sent in *. cbn [hk_reg hk_of]. rewrite R1. split; [done|]. rewrite Ht.
      unfold u64_wrap. rewrite Z.mod_small; [done|]. unfold u64_max in O2. lia.
    - right. exists (he_clock (tk_env t1)). unfold reg1_due in *. cbn [hk_reg hk_of]. rewrite R1. split; [done|]. apply O1. }
  exists st2, i. cbn [loop_exec]. rewrite E1, E2. unfold reg1_sent in Hsent. split; [done|]. split; [done|]. split.
  { apply (f_equal length) in I1, I2. rewrite !length_map in I1, I2. rewrite I2, I1. exact Hi. }
  split; [by rewrite R2|]. split; [by eapply quiet_like; [| |exact HQ2]|]. split_and!; try done; [congruence|].
  intros f Hf. destruct (F2 f Hf) as [->|Hf1]; [lia|]. destruct (F1 f Hf1) as [->|Hf0]; [lia|]. by apply O6.
Qed.

(** C9: a bond registers with a receiver that answers.  From a bond that is
    probing, however few of its probes were answered: two ticks later REG1 is
    out on one of its links; and then, once any REG2 of full length has come
    back on that link and the tick after it has gone by, REG3s on the links, in
    any order, repeated or mixed with ones on unknown links, register every
    link they reach: when each link has had one, the whole bond is connected,
    with its links unchanged and the id the receiver gave. *)
Theorem bond_registers (st : LoopState) (t1 t2 t3 : Tick) (Hr : loop_reach exp hash st) (Hp : probing_bond st) (Ht : on_time st t1 t2 t3) :
  exists st2 i c, loop_exec exp hash st [tick_event t1; tick_event t2] = Some st2 /\
    pending_reg2_idx (sn_reg (ml_sender st2)) = Some i /\ ml_conns st2 !! i = Some c /\
    forall (reply r3 : bytes) (u : UplinkIo) (order : list (Z * UplinkIo)),
      is_bytes reply -> packet_type_of reply = Some SRTLA_TYPE_REG2 -> (2 + SRTLA_ID_LEN <= length reply)%nat ->
      is_bytes r3 -> packet_type_of r3 = Some SRTLA_TYPE_REG3 ->
      exists st', loop_exec exp hash st2 (receive (conn_id c) reply u ++ [tick_event t3] ++
                                          flat_map (fun p => receive p.1 r3 p.2) order) = Some st' /\
        map conn_id (ml_conns st') = map conn_id (ml_conns st) /\
        Forall (fun c => conn_id c ∈ map fst order -> connected c = true) (ml_conns st') /\
        srtla_id (sn_reg (ml_sender st')) = take SRTLA_ID_LEN (drop 2 reply).
Proof.
  destruct (reg1_goes_out st t1 t2 t3 (loop_reach_ok exp hash st Hr) Hp Ht) as (st2 & i & E & Hok & Hi & Hpend & [QS QB QL] & Hq & Hpe & Hids & Hf).
  destruct (lookup_lt_is_Some_2 _ _ Hi) as [c Hc]. exists st2, i, c. split; [done|]. split; [done|]. split; [done|].
  intros reply r3 u order Hb2 Ht2 Hl2 Hb3 Ht3.
  destruct (receive_reg2 st2 i c reply u Hok Hq Hc Hpend Ht2 Hl2) as (st3 & E3 & Q3 & Pe3 & R3 & C3 & F3).
  pose proof (receive_ok st2 _ _ _ st3 Hok Hb2 E3) as Hok3. rewrite loop_exec_app, E3. cbn [mbind option_bind app loop_exec].
  destruct (tick_phase st3 t3 Hok3 Q3 ltac:(congruence) ltac:(apply Ht)) as (st4 & E4 & Hok4 & Q4 & Pe4 & I4 & R4 & C4 & _).
  { intros f. rewrite F3. intros Hx. specialize (Hf f Hx). unfold sat_sub, GLOBAL_TIMEOUT_MS in *. lia. }
  rewrite E4. unfold handle_reg2 in R3. rewrite bool_decide_eq_false_2, bool_decide_eq_true_2 in R3 by (done || lia).
  destruct (broadcast_tick (tk_env t3) (hk_of st3) (is_classic (config_mode (sn_config (ml_sender st3)))) (tk_now t3)) as [Hgate Hid].
  { cbn [hk_reg hk_of]. rewrite R3. unfold is_probing. change (match probing_state (sn_reg (ml_sender st2)) with Probing | WaitingForProbes => true | _ => false end = false).
    cbn [hk_of hk_reg] in QS. by rewrite QS. }
  { cbn [hk_reg hk_of]. by rewrite R3. }
  { cbn [hk_reg hk_of]. by rewrite R3. }
  destruct (reg3_registers r3 order Hb3 Ht3 st4 [] Hok4 Q4) as (st' & E' & G1 & G2 & G3).
  { intros j d Hj. split; [|by intros ?%elem_of_nil]. rewrite R4.
    assert (map connected (ml_conns st4) !! j = Some (connected d)) as Hj4.
    { change (map connected) with (fmap (M := list) connected). by rewrite list_lookup_fmap, Hj. }
    rewrite C4 in Hj4. change (map connected) with (fmap (M := list) connected) in Hj4. rewrite list_lookup_fmap in Hj4.
    destruct (hk_conns (tick_front _ _ _ _) !! j) as [d'|] eqn:Ed; [|done]. injection Hj4 as <-. exact (Hgate j d' Ed). }
  exists st'. split; [done|]. split; [congruence|]. split; [|rewrite G3, R4, Hid; cbn [hk_reg hk_of]; by rewrite R3].
  apply Forall_lookup. intros j d Hd Hin. destruct (G1 j d Hd) as [_ H]. apply H. rewrite app_nil_r. by apply elem_of_reverse.
Qed.
End Loop.

(** ** Witness: three links, none of whose probes was answered *)
Lemma demo_state_reach : loop_reach (fun x => x) demo_hash demo_state.
Proof.
  assert (demo_run [] = demo_state) as <- by (unfold demo_run; generalize demo_state; reflexivity).
  apply demo_reach; vm_compute; reflexivity.
Qed.

Lemma demo_probing : probing_bond demo_state.
Proof.
  split; try (vm_compute; reflexivity).
  - split; [intros E; vm_compute in E; discriminate E|]. unfold no_link. apply (Forall_map connected (fun b => b = false)).
    assert (map connected (ml_conns demo_state) = [false; false; false]) as -> by (vm_compute; reflexivity). by repeat constructor.
  - apply (Forall_map pr_conn_idx (fun n => n < length (ml_conns demo_state))%nat).
    assert (map pr_conn_idx (probe_results (sn_reg (ml_sender demo_state))) = [0; 1; 2]%nat) as -> by (vm_compute; reflexivity).
    assert (length (ml_conns demo_state) = 3%nat) as -> by (vm_compute; reflexivity). repeat constructor; lia.
  - split; vm_compute; reflexivity.
Qed.

Lemma demo_on_time : on_time demo_state (demo_tick 2000) (demo_tick 3000) (demo_tick 4000).
Proof.
  assert (pending_timeout_at_ms (sn_reg (ml_sender demo_state)) = 2000 /\ ml_all_failed_at demo_state = None) as [Ht Hf] by (vm_compute; split; reflexivity).
  split; [rewrite Ht; cbn; lia|vm_compute; split; discriminate|vm_compute; reflexivity|cbn; lia| |by split_and!].
  split; [vm_compute; discriminate|]. intros f. by rewrite Hf.
Qed.

Lemma bond_registers_witness :
  let io := demo_io 4500 in
  exists st2 c st', loop_exec (fun x => x) demo_hash demo_state [tick_event (demo_tick 2000); tick_event (demo_tick 3000)] = Some st2 /\
    loop_exec (fun x => x) demo_hash st2 (receive (conn_id c) (create_reg2_packet id_a) io ++ [tick_event (demo_tick 4000)] ++
      flat_map (fun p => receive p.1 REG3_DATAGRAM p.2) [(3, io); (1, io); (7, io); (3, io); (2, io)]) = Some st' /\
    link_states st' = [(1, true); (2, true); (3, true)] /\ srtla_id (sn_reg (ml_sender st')) = id_a.
Proof.
  intros io. destruct (bond_registers (fun x => x) demo_hash demo_state (demo_tick 2000) (demo_tick 3000) (demo_tick 4000)) as (st2 & i & c & H1 & _ & _ & H2).
  - exact demo_state_reach.
  - exact demo_probing.
  - exact demo_on_time.
  - destruct (H2 (create_reg2_packet id_a) REG3_DATAGRAM io [(3, io); (1, io); (7, io); (3, io); (2, io)]) as (st' & E & Hids & Hcon & Hid).
    + assert (forallb (fun b => (0 <=? b) && (b <? 256)) (create_reg2_packet id_a) = true) as Hb by (vm_compute; reflexivity).
      apply Forall_forall. intros x Hx%list_elem_of_In. rewrite forallb_forall in Hb. specialize (Hb x Hx). unfold is_u8. lia.
    + vm_compute. reflexivity.
    + vm_compute. lia.
    + repeat constructor; unfold is_u8; lia.
    + reflexivity.
    + exists st2, c, st'. split; [exact H1|]. split; [exact E|]. split; [|rewrite Hid; vm_compute; reflexivity].
      assert (map conn_id (ml_conns demo_state) = [1; 2; 3]) as Hd by (vm_compute; reflexivity). rewrite Hd in Hids. unfold link_states.
      destruct (ml_conns st') as [|c1 [|c2 [|c3 [|]]]]; try discriminate Hids. injection Hids as E1 E2 E3.
      apply Forall_cons in Hcon as [A1 [A2 [A3 _]%Forall_cons]%Forall_cons]. rewrite E1, E2, E3 in *. cbn [map].
      rewrite A1, A2, A3, E1, E2, E3; [reflexivity|..]; cbn [map fst]; rewrite !elem_of_cons; tauto.
Defined.
