(* ===== verification/Net.v ===== *)
(** * Uplink sockets (src/net/mod.rs, src/net/batch_recv.rs)

    Sending a batch with [sendmmsg] and receiving one with [recvmmsg], on
    Linux, and one datagram at a time elsewhere, behind one interface
    ([BatchSend]).  What the kernel does is a script:
    one entry per turn of a loop that waits for the socket and calls the kernel.
    A run that uses the script up is still waiting.  The kernel's promises
    are in the meaning of an entry: [sendmmsg] takes a prefix of what it is
    offered, [recvmmsg] fills the first slots with the oldest datagrams, each
    cut to the slot's length.

    The theorems: a batch send puts a prefix of the batch on the wire and
    reports its length exactly, and ends; a batch receive gives the datagrams
    as they came, whatever older ones the buffer still holds; and a flush of a
    link over such a socket leaves link, tracker and wire in agreement. *)
From S2P Require Import Prelude Wire Batch Connection Classifier LinkCc Tracker Sender Routing Housekeeping MainLoop.
Open Scope Z_scope.

(** ** Errors *)
Inductive ErrorKind := EkInterrupted | EkWouldBlock | EkWriteZero | EkOther (errno : Z).
Global Instance ErrorKind_eq_dec : EqDecision ErrorKind.
Proof. solve_decision. Defined.

(** ** Sending *)

(** One turn of the send loop: waiting for readiness failed, the kernel had
    room for some datagrams, or the call failed. *)
Inductive SendPoll := SpNotReady (e : ErrorKind) | SpRoom (n : nat) | SpFails (e : ErrorKind).

Inductive io_result (A : Type) := IoOk (a : A) | IoErr (e : ErrorKind).
Arguments IoOk {A} a.
Arguments IoErr {A} e.

(** [try_send_batch]: what the kernel takes, and the result of the call. *)
Definition try_send_batch (bufs : list bytes) (answer : nat + ErrorKind) : list bytes * io_result nat :=
  let n := Nat.min (length bufs) BATCH_SEND_SIZE in
  if Nat.eqb n 0 then ([], IoOk 0%nat)
  else match answer with
       | inl room => let ret := Nat.min room n in (take ret (take n bufs), IoOk ret)
       | inr e => ([], IoErr e)
       end.

(** [send_batch]: [None] while it waits.  With the datagrams on the wire and the
    rest of the script. *)
Fixpoint send_batch_loop (bufs : list bytes) (script : list SendPoll) : option (io_result nat) * list bytes * list SendPoll :=
  match script with
  | [] => (None, [], [])
  | SpNotReady e :: script => (Some (IoErr e), [], script)
  | SpRoom room :: script =>
    let '(wire, r) := try_send_batch bufs (inl room) in (Some r, wire, script)
  | SpFails e :: script =>
    match (try_send_batch bufs (inr e)).2 with
    | IoErr EkWouldBlock | IoErr EkInterrupted => send_batch_loop bufs script
    | r => (Some r, [], script)
    end
  end.
Definition send_batch (bufs : list bytes) (script : list SendPoll) : option (io_result nat) * list bytes * list SendPoll :=
  if bool_decide (bufs = []) then (Some (IoOk 0%nat), [], script) else send_batch_loop bufs script.

Record BatchSendError := mkSendError { bse_sent : nat; bse_total : nat; bse_source : ErrorKind }.

(** ** Sending without [sendmmsg] *)

(** [fallback_impl::BatchUdpSocket::send_batch], one outcome per datagram
    offered: the result, what went out, and the outcomes that are left. *)
Fixpoint fallback_loop (sent : nat) (bufs : list bytes) (outcomes : list (unit + ErrorKind))
  : option (io_result nat) * list bytes * list (unit + ErrorKind) :=
  match bufs, outcomes with
  | [], _ => (Some (IoOk sent), [], outcomes)
  | _, [] => (None, [], [])
  | buf :: bufs, inl _ :: outcomes =>
    let '(r, wire, rest) := fallback_loop (S sent) bufs outcomes in (r, buf :: wire, rest)
  | _, inr e :: outcomes => (Some (if (0 <? sent)%nat then IoOk sent else IoErr e), [], outcomes)
  end.
Definition fallback_send_batch (bufs : list bytes) (outcomes : list (unit + ErrorKind))
  : option (io_result nat) * list bytes * list (unit + ErrorKind) :=
  fallback_loop 0 bufs outcomes.

(** ** The batch send as its caller sees it

    [batch_recv.rs] has a socket for Linux and one for other systems, chosen
    when the program is built; [turn] is a turn of its loop. *)
Class BatchSend (turn : Type) := {
  socket_send_batch : list bytes -> list turn -> option (io_result nat) * list bytes * list turn;
  decisive : turn -> bool }.

Abbreviation decisive_turns script := (length (filter (fun p => decisive p = true) script)).

(** A batch send puts a prefix on the wire and says how long it is, nothing
    when it fails, and takes at most [turn_cost] decisive turns per datagram. *)
Class BatchSendLaws (turn : Type) `{BatchSend turn} := {
  turn_cost : nat;
  send_batch_law : forall bufs script, bufs <> [] -> (length bufs <= BATCH_SEND_SIZE)%nat ->
    let '(r, wire, rest) := socket_send_batch bufs script in
    match r with
    | None => (exists k, (k < length bufs)%nat /\ wire = take k bufs) /\ rest = [] /\
              (decisive_turns script < turn_cost * length bufs)%nat
    | Some (IoOk n) => wire = take n bufs /\ (n <= length bufs)%nat /\
                       (0 < n -> decisive_turns script <= turn_cost * n + decisive_turns rest)%nat
    | Some (IoErr _) => wire = []
    end }.

Global Instance linux_send : BatchSend SendPoll := {
  socket_send_batch := send_batch;
  decisive p := match p with SpFails EkWouldBlock | SpFails EkInterrupted => false | _ => true end }.
Global Instance fallback_send_side : BatchSend (unit + ErrorKind) := {
  socket_send_batch := fallback_send_batch;
  decisive _ := true }.

(** [send_all_datagrams], over either socket: every turn that does not return
    sends at least one datagram, so [length bufs] turns are enough. *)
Fixpoint send_all_loop {turn : Type} `{BatchSend turn} (fuel : nat) (bufs : list bytes) (sent : nat) (script : list turn)
  : option (unit + BatchSendError) * list bytes * list turn :=
  let total := length bufs in
  match fuel with
  | O => (Some (inl ()), [], script)
  | S fuel =>
    if (sent <? total)%nat then
      let take_ := Nat.min (total - sent) BATCH_SEND_SIZE in
      match socket_send_batch (take take_ (drop sent bufs)) script with
      | (None, wire, script) => (None, wire, script)
      | (Some (IoOk O), wire, script) => (Some (inr (mkSendError sent total EkWriteZero)), wire, script)
      | (Some (IoOk n), wire, script) =>
        let '(r, wire', script) := send_all_loop fuel bufs (sent + n)%nat script in (r, wire ++ wire', script)
      | (Some (IoErr e), wire, script) => (Some (inr (mkSendError sent total e)), wire, script)
      end
    else (Some (inl ()), [], script)
  end.
Definition send_all_datagrams {turn : Type} `{BatchSend turn} (bufs : list bytes) (script : list turn)
  : option (unit + BatchSendError) * list bytes * list turn :=
  send_all_loop (length bufs) bufs 0 script.

(** What the sender is told. *)
Definition send_outcome (r : unit + BatchSendError) : SendOutcome :=
  match r with inl _ => SendAll | inr e => SendFailed (bse_sent e) end.

(** ** Both sockets keep the contract *)
Global Instance linux_send_laws : BatchSendLaws SendPoll.
Proof.
  refine {| turn_cost := 1 |}. intros bufs script Hne Hlen. rewrite Nat.mul_1_l. cbn [socket_send_batch linux_send].
  unfold send_batch. rewrite bool_decide_eq_false_2 by done.
  assert (Nat.min (length bufs) BATCH_SEND_SIZE = length bufs) as Hmin by lia.
  assert (0 < length bufs)%nat as Hpos by (destruct bufs; [done|cbn; lia]).
  assert (Nat.eqb (length bufs) 0 = false) as Hz by (apply Nat.eqb_neq; lia).
  induction script as [|p script IH]; cbn [send_batch_loop].
  { split; [by exists 0%nat|]. split; [done|]. cbn. lia. }
  destruct p as [e|room|e]; [done| |].
  - unfold try_send_batch. rewrite Hmin, Hz, (take_ge bufs (length bufs)) by lia. split; [done|]. split; [lia|].
    intros Hn. rewrite filter_cons. cbn [decisive linux_send]. rewrite decide_True by done. cbn [length]. lia.
  - unfold try_send_batch. rewrite Hmin, Hz. cbn [snd].
    destruct e; try done; rewrite filter_cons; cbn [decisive linux_send]; rewrite decide_False by done; exact IH.
Qed.

Lemma fallback_loop_spec bufs : forall sent (outcomes : list (unit + ErrorKind)),
  let '(r, wire, rest) := fallback_loop sent bufs outcomes in
  match r with
  | None => exists k, (k < length bufs)%nat /\ wire = take k bufs /\ rest = [] /\ length outcomes = k
  | Some (IoOk m) => exists n, m = (sent + n)%nat /\ (n <= length bufs)%nat /\ wire = take n bufs /\
      (0 < sent + n \/ bufs = [])%nat /\ (length outcomes <= S n + length rest)%nat
  | Some (IoErr e) => wire = [] /\ sent = 0%nat /\ bufs <> []
  end.
Proof.
  induction bufs as [|buf bufs IH]; intros sent outcomes; cbn [fallback_loop].
  - exists 0%nat. split_and!; [lia|done|done|by right|lia].
  - destruct outcomes as [|[[]|e] outcomes].
    + exists 0%nat. split_and!; try done. cbn. lia.
    + specialize (IH (S sent) outcomes). destruct (fallback_loop (S sent) bufs outcomes) as [[[[m|e]|] wire] rest].
      * destruct IH as (n & -> & Hn & -> & _ & Hl). exists (S n). split_and!; [lia|cbn; lia|done|left; lia|cbn [length]; lia].
      * by destruct IH as (_ & [=] & _).
      * destruct IH as (k & Hk & -> & -> & Hl). exists (S k). split_and!; [cbn; lia|done|done|cbn; lia].
    + destruct sent as [|sent]; cbn [Nat.ltb Nat.leb]; [done|]. exists 0%nat. split_and!; [lia|lia|done|left; lia|cbn [length]; lia].
Qed.

Lemma every_turn_decisive (script : list (unit + ErrorKind)) : decisive_turns script = length script.
Proof. induction script as [|p script IH]; [done|]. rewrite filter_cons. cbn [decisive fallback_send_side] in *. rewrite decide_True by done. cbn [length]. by f_equal. Qed.

Global Instance fallback_send_laws : BatchSendLaws (unit + ErrorKind).
Proof.
  refine {| turn_cost := 2 |}. intros bufs script Hne Hlen. cbn [socket_send_batch fallback_send_side]. unfold fallback_send_batch.
  pose proof (fallback_loop_spec bufs 0 script) as H. destruct (fallback_loop 0 bufs script) as [[[[m|e]|] wire] rest].
  - destruct H as (n & -> & Hn & -> & _ & Hl). cbn [Nat.add]. split; [done|]. split; [done|]. rewrite !every_turn_decisive. lia.
  - by destruct H.
  - destruct H as (k & Hk & -> & -> & Hl). split; [by exists k|]. split; [done|]. rewrite every_turn_decisive. lia.
Qed.

(** Sending one by one looks to the caller like a [sendmmsg] of the same batch:
    whatever happened to the datagrams, the kernel could have answered a single
    call with the same result and the same datagrams on the wire. *)
Theorem fallback_refines_sendmmsg bufs outcomes r wire rest (Hne : bufs <> []) (Hb : (length bufs <= BATCH_SEND_SIZE)%nat)
    (Hs : fallback_send_batch bufs outcomes = (Some r, wire, rest)) : exists answer, try_send_batch bufs answer = (wire, r).
Proof.
  unfold fallback_send_batch in Hs. pose proof (fallback_loop_spec bufs 0 outcomes) as H. rewrite Hs in H.
  unfold try_send_batch. rewrite Nat.min_l by lia. assert (Nat.eqb (length bufs) 0 = false) as -> by (by destruct bufs).
  destruct r as [m|e].
  - destruct H as (n & -> & Hn & -> & _). exists (inl n). cbv zeta. rewrite (take_ge bufs (length bufs)), Nat.min_l by lia. done.
  - destruct H as (-> & _). by exists (inr e).
Qed.

(** What draining a queue does to the log of its link. *)
Lemma register_drained_log (batch : list DrainedPacket) : forall c,
  let c' := fold_left register_drained batch c in
  connected c' = connected c /\ last_sent c' = last_sent c /\
  forall k, is_Some (packet_log c' !! k) <->
    is_Some (packet_log c !! k) \/ exists d s t, (d, Some s, t) ∈ batch /\ i32_wrap s = k.
Proof.
  induction batch as [|[[d o] t] batch IH]; intros c; cbn [fold_left].
  { split; [done|]. split; [done|]. intros k. split; [by left|]. by intros [Hl|(d & s & t & Hin%elem_of_nil & _)]. }
  destruct (IH (register_drained c (d, o, t))) as (H1 & H2 & H3). cbv zeta in *. rewrite H1, H2.
  split; [by destruct o|]. split; [by destruct o|]. intros k. rewrite H3. destruct o as [s|]; cbn [register_drained].
  - unfold register_packet. cbn. rewrite lookup_insert_is_Some. split.
    + intros [[<-|[_ Hl]]|(d' & s' & t' & Hin & <-)]; [right|by left|right].
      * exists d, s, t. split; [by left|done].
      * exists d', s', t'. split; [by right|done].
    + intros [Hl|(d' & s' & t' & [[= -> -> ->]|Hin]%elem_of_cons & <-)].
      * left. destruct (decide (i32_wrap s = k)); [by left|by right].
      * by left; left.
      * right. by exists d', s', t'.
  - split; (intros [Hl|(d' & s' & t' & Hin & <-)]; [by left|right]).
    + exists d', s', t'. split; [by right|done].
    + apply elem_of_cons in Hin as [[=]|Hin]. by exists d', s', t'.
Qed.

Lemma take_batch_log c now :
  batch_ok (batch_sender c) ->
  connected (take_batch c now).1 = connected c /\
  forall k, is_Some (packet_log (take_batch c now).1 !! k) <->
    is_Some (packet_log c !! k) \/ exists d s t, (d, Some s, t) ∈ pending (batch_sender c) /\ i32_wrap s = k.
Proof.
  intros Hb. unfold take_batch. pose proof (drain_refines (batch_sender c) now Hb) as (_ & H & _).
  destruct (drain (batch_sender c) now) as [b batch]. cbn [snd] in H. subst batch.
  destruct (register_drained_log (pending (batch_sender c)) (c <| batch_sender := b |>)) as (H1 & _ & H2).
  case_bool_decide as E; [|by split]. rewrite E in *. by split.
Qed.

(** ** The whole batch *)
Section SendAll.
Context {turn : Type} `{BatchSendLaws turn}.

Lemma send_all_loop_spec bufs : forall fuel sent (script : list turn), (sent <= length bufs <= sent + fuel)%nat ->
  let '(r, wire, rest) := send_all_loop fuel bufs sent script in
  match r with
  | None => (exists k, (k < length bufs - sent)%nat /\ wire = take k (drop sent bufs)) /\ rest = [] /\
            (decisive_turns script < turn_cost * (length bufs - sent))%nat
  | Some (inl _) => wire = drop sent bufs
  | Some (inr e) => bse_total e = length bufs /\ (sent <= bse_sent e < length bufs)%nat /\
                    wire = take (bse_sent e - sent) (drop sent bufs)
  end.
Proof.
  induction fuel as [|fuel IH]; intros sent script Hb; cbn [send_all_loop].
  { symmetry. apply drop_ge. lia. }
  destruct (sent <? length bufs)%nat eqn:Elt; [|apply Nat.ltb_ge in Elt; symmetry; apply drop_ge; lia].
  apply Nat.ltb_lt in Elt. set (chunk := take _ (drop sent bufs)).
  assert (length chunk = Nat.min (length bufs - sent) BATCH_SEND_SIZE) as Hl.
  { unfold chunk. rewrite length_take, length_drop. lia. }
  assert (0 < BATCH_SEND_SIZE)%nat as Hpos by (unfold BATCH_SEND_SIZE; lia).
  assert (chunk <> []) as Hne by (intros E; rewrite E in Hl; cbn [length] in Hl; lia).
  assert (forall n, (n <= length chunk)%nat -> take n chunk = take n (drop sent bufs)) as Htake.
  { intros n Hn. unfold chunk. rewrite take_take. f_equal. lia. }
  pose proof (send_batch_law chunk script Hne ltac:(lia)) as Hs.
  destruct (socket_send_batch chunk script) as [[r wire] rest]. destruct r as [[n|e]|].
  - destruct Hs as (-> & Hn & Hd). rewrite Htake by done. destruct n as [|n].
    { cbn [bse_total bse_sent]. split; [done|]. split; [lia|]. by rewrite Nat.sub_diag. }
    specialize (Hd ltac:(lia)).
    specialize (IH (sent + S n)%nat rest ltac:(lia)). destruct (send_all_loop fuel bufs _ rest) as [[r wire'] rest'].
    assert (forall m, take m (drop (sent + S n) bufs) = take m (drop (S n) (drop sent bufs))) as Hdd by (intros m; by rewrite drop_drop).
    assert (forall m, take (S n) (drop sent bufs) ++ take m (drop (S n) (drop sent bufs)) = take (S n + m) (drop sent bufs)) as Hcat.
    { intros m. apply take_take_drop. }
    destruct r as [[[]|e]|].
    + rewrite IH, <- drop_drop. apply take_drop.
    + destruct IH as (H1 & H2 & ->). split; [done|]. split; [lia|]. rewrite Hdd, Hcat. f_equal. lia.
    + destruct IH as ((k & Hk & ->) & -> & Hd'). split; [exists (S n + k)%nat; split; [lia|]; by rewrite Hdd, Hcat|]. split; [done|]. nia.
  - subst wire. cbn [bse_total bse_sent]. split; [done|]. split; [lia|]. by rewrite Nat.sub_diag.
  - destruct Hs as ((k & Hk & ->) & -> & Hd). split; [exists k; split; [lia|]; rewrite Htake by lia; done|]. split; [done|]. nia.
Qed.

(** C14: sending a batch, on either kind of socket, puts a prefix of it on the
    wire, in order and without repetition, and says exactly how long that prefix
    is: all of it on success, the confirmed count on failure, which is always
    short of the batch.  It ends: the kernel's answers (on Linux, interruptions
    and full buffers apart) while it waits are fewer than the datagrams on
    Linux, and than twice the datagrams elsewhere. *)
Theorem send_all_exact bufs (script : list turn) :
  let '(r, wire, rest) := send_all_datagrams bufs script in
  match r with
  | Some (inl _) => wire = bufs
  | Some (inr e) => bse_total e = length bufs /\ (bse_sent e < bse_total e)%nat /\ wire = take (bse_sent e) bufs
  | None => (exists k, (k < length bufs)%nat /\ wire = take k bufs) /\ rest = [] /\
            (decisive_turns script < turn_cost * length bufs)%nat
  end.
Proof.
  unfold send_all_datagrams. pose proof (send_all_loop_spec bufs (length bufs) 0 script ltac:(lia)) as Hs.
  destruct (send_all_loop _ _ _ _) as [[r wire] rest]. destruct r as [[[]|e]|]; cbn [drop] in Hs; [done| |].
  - destruct Hs as (H1 & H2 & ->). rewrite Nat.sub_0_r. rewrite H1. split; [done|]. split; [lia|done].
  - rewrite Nat.sub_0_r in Hs. exact Hs.
Qed.

(** C13: a flush of a link over its socket, on either kind of socket, from the
    queue to the wire.  When the send returns, the flush ends with an empty
    queue, and exactly the confirmed datagrams are on the wire.  On success
    these are all that were queued, in order; every queued data packet is now in
    the log of the link, which holds nothing else new, the link stays connected
    and the time of the send is noted.  On failure they are a strict prefix of
    the queue; the link is disconnected and has nothing in flight, not even the
    datagrams that left, and the tracker names the link for no sequence number,
    so none of the lost datagrams is charged to it later. *)
Theorem flush_over_socket conn t now (script : list turn) r wire rest
    (Hc : conn_ok conn) (Hs : send_all_datagrams (queued conn) script = (Some r, wire, rest)) :
  exists conn' t', flush_connection conn t now (send_outcome r) = (conn', t', wire) /\
    queued conn' = [] /\ conn_ok conn' /\ conn_id conn' = conn_id conn /\
    match r with
    | inl _ => wire = queued conn /\ t' = t /\ connected conn' = connected conn /\
        (wire <> [] -> last_sent conn' = Some now) /\
        forall k, is_Some (packet_log conn' !! k) <->
          is_Some (packet_log conn !! k) \/ exists d s tm, (d, Some s, tm) ∈ pending (batch_sender conn) /\ i32_wrap s = k
    | inr e => wire = take (bse_sent e) (queued conn) /\ (bse_sent e < length (queued conn))%nat /\
        connected conn' = false /\ last_received conn' = None /\ packet_log conn' = ∅ /\ in_flight_packets conn' = 0 /\
        forall s tm, tracker_get t' s tm <> Ret (Some (conn_id conn))
    end.
Proof using All.
  pose proof (send_all_loop_spec (queued conn) (length (queued conn)) 0 script ltac:(lia)) as Hx.
  unfold send_all_datagrams in Hs. rewrite Hs in Hx. cbn [drop] in Hx.
  pose proof Hc as (_ & _ & Hb & _). destruct (take_batch_spec conn now Hb) as (H1 & H2 & H3).
  destruct (take_batch_log conn now Hb) as [H4 H5]. pose proof (take_batch_ok conn now Hc) as Hok.
  unfold flush_connection, send_connection_batch. destruct (take_batch conn now) as [c1 batch]. cbn [fst snd] in *.
  case_bool_decide as E.
  { rewrite E in H1. cbn in H1. rewrite <- H1 in *. destruct r as [[]|e]; [|destruct Hx as (_ & Hx & _); cbn in Hx; lia].
    rewrite Hx. exists c1, t. by split_and!. }
  rewrite H1. destruct r as [[]|e]; cbn [send_outcome].
  - subst wire. exists (note_sent c1 now), t. by split_and!.
  - destruct Hx as (_ & Hl & ->). exists (mark_for_recovery c1), (remove_connection t (conn_id c1)).
    rewrite Nat.sub_0_r. split; [done|]. split; [done|]. split; [by apply mark_for_recovery_ok|]. split; [done|].
    split; [done|]. split; [lia|]. split; [done|]. split; [done|]. split; [done|]. split; [done|].
    intros s tm. rewrite <- H3. apply removed_not_found.
Qed.
End SendAll.

(** ** Receiving *)
Definition BATCH_RECV_SIZE : nat := 32.
Definition SOCKADDR_STORAGE_LENGTH : nat := 128.
Abbreviation SLOT_LEN := (Z.to_nat MTU).

Inductive SocketAddr := SaV4 (ip port : Z) | SaV6 (ip : bytes) (port flowinfo scope_id : Z).

(** [libc::sockaddr_storage] on a little-endian Linux: the family, then a
    [sockaddr_in] or a [sockaddr_in6]; port and address are in network order. *)
Definition AF_INET : Z := 2.
Definition AF_INET6 : Z := 10.
Definition bytes_at (l : bytes) (i n : nat) : bytes := take n (drop i l).
Definition of_le (l : bytes) : Z := of_be (rev l).
Definition sockaddr_storage_to_socket_addr (storage : bytes) : option SocketAddr :=
  let family := of_le (bytes_at storage 0 2) in
  if family =? AF_INET then Some (SaV4 (of_be (bytes_at storage 4 4)) (of_be (bytes_at storage 2 2)))
  else if family =? AF_INET6 then
    Some (SaV6 (bytes_at storage 8 16) (of_be (bytes_at storage 2 2)) (of_le (bytes_at storage 4 4)) (of_le (bytes_at storage 24 4)))
  else None.

(** One message of the buffer: source address, data and reported length. *)
Record RecvSlot := mkSlot { sl_addr : bytes; sl_data : bytes; sl_msg_len : Z }.
Record RecvMmsgBuffer := mkRecvBuffer { rb_slots : list RecvSlot; rb_nrecv : Z }.

Definition recv_buffer_new : RecvMmsgBuffer :=
  mkRecvBuffer (replicate BATCH_RECV_SIZE (mkSlot (replicate SOCKADDR_STORAGE_LENGTH 0) (replicate SLOT_LEN 0) 0)) 0.

(** The kernel writes a datagram over what a slot held: the address cut to the
    length that [init] sets before every call, the data to that of the slot. *)
Definition overwrite (old new : bytes) : bytes := new ++ drop (length new) old.
Definition kernel_fill (s : RecvSlot) (d : bytes * bytes) : RecvSlot :=
  let data := take SLOT_LEN d.2 in
  mkSlot (overwrite (sl_addr s) (take SOCKADDR_STORAGE_LENGTH d.1)) (overwrite (sl_data s) data) (Z.of_nat (length data)).
Definition kernel_fill_all (slots : list RecvSlot) (ds : list (bytes * bytes)) : list RecvSlot :=
  zip_with kernel_fill slots ds ++ drop (length ds) slots.

(** What the kernel has for a call: the waiting datagrams, or an error. *)
Definition recvmmsg (b : RecvMmsgBuffer) (answer : list (bytes * bytes) + ErrorKind) : RecvMmsgBuffer * io_result nat :=
  match answer with
  | inl [] => (mkRecvBuffer (rb_slots b) 0, IoErr EkWouldBlock)
  | inl queue =>
    let ds := take (length (rb_slots b)) queue in
    (mkRecvBuffer (kernel_fill_all (rb_slots b) ds) (Z.of_nat (length ds)), IoOk (length ds))
  | inr e => (mkRecvBuffer (rb_slots b) 0, IoErr e)
  end.

Inductive RecvAction := RaRetry | RaWouldBlock | RaHard.
Definition recv_retry_action (e : ErrorKind) : RecvAction :=
  match e with EkInterrupted => RaRetry | EkWouldBlock => RaWouldBlock | _ => RaHard end.

(** One turn of the receive loop. *)
Inductive RecvPoll := RpNotReady (e : ErrorKind) | RpCall (answer : list (bytes * bytes) + ErrorKind).

(** [recv_batch]: [None] while it waits. *)
Fixpoint poll_recv_batch (b : RecvMmsgBuffer) (script : list RecvPoll) : option (io_result nat) * RecvMmsgBuffer * list RecvPoll :=
  match script with
  | [] => (None, b, [])
  | RpNotReady e :: script => (Some (IoErr e), b, script)
  | RpCall answer :: script =>
    let '(b, r) := recvmmsg b answer in
    match r with
    | IoOk count => (Some (IoOk count), b, script)
    | IoErr e =>
      match recv_retry_action e with
      | RaRetry | RaWouldBlock => poll_recv_batch b script
      | RaHard => (Some (IoErr e), b, script)
      end
    end
  end.

(** The iterator over the received messages; indexing past the slots panics. *)
Fixpoint recv_iter_from (fuel : nat) (b : RecvMmsgBuffer) (current : nat) : res (list (option SocketAddr * bytes)) :=
  match fuel with
  | O => Ret []
  | S fuel =>
    if rb_nrecv b <=? Z.of_nat current then Ret []
    else
      match rb_slots b !! current with
      | None => Panic
      | Some s =>
        let len := Z.to_nat (Z.min (sl_msg_len s) MTU) in
        rest ← recv_iter_from fuel b (S current);
        Ret ((sockaddr_storage_to_socket_addr (sl_addr s), take len (sl_data s)) :: rest)
      end
  end.
Definition recv_iter (b : RecvMmsgBuffer) : res (list (option SocketAddr * bytes)) :=
  recv_iter_from (Z.to_nat (rb_nrecv b)) b 0.

(** ** The receive buffer *)
Definition slot_ok (s : RecvSlot) : Prop := length (sl_data s) = SLOT_LEN /\ length (sl_addr s) = SOCKADDR_STORAGE_LENGTH.
Definition buffer_ok (b : RecvMmsgBuffer) : Prop :=
  length (rb_slots b) = BATCH_RECV_SIZE /\ Forall slot_ok (rb_slots b) /\ 0 <= rb_nrecv b <= Z.of_nat BATCH_RECV_SIZE.

(** A source address as the kernel writes it: as long as its family says. *)
Definition sockaddr_ok (a : bytes) : Prop :=
  (length a <= SOCKADDR_STORAGE_LENGTH)%nat /\
  ((length a = 16%nat /\ of_le (bytes_at a 0 2) = AF_INET) \/ (length a = 28%nat /\ of_le (bytes_at a 0 2) = AF_INET6)).

Lemma overwrite_length old new : (length new <= length old)%nat -> length (overwrite old new) = length old.
Proof. intros H. unfold overwrite. rewrite length_app, length_drop. lia. Qed.
Lemma overwrite_at old new i n : (i + n <= length new)%nat -> bytes_at (overwrite old new) i n = bytes_at new i n.
Proof.
  intros H. unfold bytes_at, overwrite. rewrite drop_app_le by lia. rewrite take_app_le; [done|]. rewrite length_drop. lia.
Qed.

Lemma decode_overwrite old a : sockaddr_ok a ->
  sockaddr_storage_to_socket_addr (overwrite old a) = sockaddr_storage_to_socket_addr a.
Proof.
  intros [_ [[Hl Hf]|[Hl Hf]]]; unfold sockaddr_storage_to_socket_addr; rewrite (overwrite_at _ _ 0 2) by lia; rewrite Hf; cbn.
  - by rewrite !overwrite_at by lia.
  - by rewrite !overwrite_at by lia.
Qed.

Lemma kernel_fill_ok s (d : bytes * bytes) : slot_ok s -> slot_ok (kernel_fill s d).
Proof.
  intros [Hd Ha]. pose proof (length_take d.2 SLOT_LEN) as Ht. pose proof (length_take d.1 SOCKADDR_STORAGE_LENGTH) as Ht'.
  split; unfold kernel_fill; cbv zeta; cbn [sl_data sl_addr]; rewrite overwrite_length; lia.
Qed.
Lemma kernel_fill_data s (d : bytes * bytes) : take (Z.to_nat (Z.min (sl_msg_len (kernel_fill s d)) MTU)) (sl_data (kernel_fill s d)) = take SLOT_LEN d.2.
Proof.
  unfold kernel_fill, overwrite. cbn [sl_msg_len sl_data]. pose proof (length_take d.2 SLOT_LEN) as Hl.
  rewrite take_app_length'; [done|]. rewrite Hl. lia.
Qed.

Lemma kernel_fill_all_ok slots (ds : list (bytes * bytes)) : Forall slot_ok slots -> (length ds <= length slots)%nat ->
  Forall slot_ok (kernel_fill_all slots ds) /\ length (kernel_fill_all slots ds) = length slots.
Proof.
  revert ds. unfold kernel_fill_all. induction slots as [|s slots IH]; intros [|d ds] Hs Hl; cbn in *; [done|lia|done|].
  apply Forall_cons in Hs as [Hs Hss]. destruct (IH ds Hss ltac:(lia)) as [H1 H2].
  split; [constructor; [by apply kernel_fill_ok|done]|]. by rewrite H2.
Qed.
(** What the iterator gives for a message. *)
Definition item_of (s : RecvSlot) : option SocketAddr * bytes :=
  (sockaddr_storage_to_socket_addr (sl_addr s), take (Z.to_nat (Z.min (sl_msg_len s) MTU)) (sl_data s)).

Lemma recv_iter_spec fuel b current : (Z.to_nat (rb_nrecv b) <= length (rb_slots b))%nat ->
  (Z.to_nat (rb_nrecv b) = current + fuel)%nat ->
  recv_iter_from fuel b current = Ret (map item_of (take fuel (drop current (rb_slots b)))).
Proof.
  revert current. induction fuel as [|fuel IH]; intros current Hl Hn; cbn [recv_iter_from]; [done|].
  destruct (rb_nrecv b <=? Z.of_nat current) eqn:E; [apply Z.leb_le in E; lia|].
  destruct (lookup_lt_is_Some_2 (rb_slots b) current) as [s Hs]; [lia|]. rewrite Hs, (IH (S current)) by lia. cbn [mbind res_bind].
  by rewrite (drop_S _ _ _ Hs).
Qed.

Lemma recvmmsg_items b (ds : list (bytes * bytes)) : buffer_ok b -> (length ds <= BATCH_RECV_SIZE)%nat ->
  let b' := mkRecvBuffer (kernel_fill_all (rb_slots b) ds) (Z.of_nat (length ds)) in
  buffer_ok b' /\ exists items, recv_iter b' = Ret items /\ map snd items = map (fun d : bytes * bytes => take SLOT_LEN d.2) ds /\
    (Forall (fun d : bytes * bytes => sockaddr_ok d.1) ds -> map fst items = map (fun d : bytes * bytes => sockaddr_storage_to_socket_addr d.1) ds).
Proof.
  intros (Hlen & Hslots & _) Hl. destruct (kernel_fill_all_ok (rb_slots b) ds Hslots ltac:(lia)) as [H1 H2].
  split; [split; [cbn; lia|split; [done|cbn; lia]]|]. unfold recv_iter. rewrite recv_iter_spec; cbn [rb_nrecv rb_slots]; [|lia|lia].
  eexists. split; [done|]. rewrite Nat2Z.id, drop_0.
  assert (take (length ds) (kernel_fill_all (rb_slots b) ds) = zip_with kernel_fill (rb_slots b) ds) as ->.
  { unfold kernel_fill_all. apply take_app_length'. rewrite length_zip_with. lia. }
  assert (length ds <= length (rb_slots b))%nat as Hle by lia. clear -Hle. revert ds Hle. generalize (rb_slots b) as slots.
  induction slots as [|s slots IH]; intros [|d ds] Hle; cbn in *; [done|lia|done|]. destruct (IH ds ltac:(lia)) as [G1 G2].
  split; [f_equal; [apply kernel_fill_data|done]|]. intros [Hd Hds]%Forall_cons. f_equal; [|by apply G2].
  unfold kernel_fill. cbn [sl_addr]. rewrite take_ge by apply Hd. by apply decode_overwrite.
Qed.

Definition retry_turn (p : RecvPoll) : Prop :=
  match p with RpCall (inl []) | RpCall (inr EkInterrupted) | RpCall (inr EkWouldBlock) => True | _ => False end.

Definition failing_turn (e : ErrorKind) (p : RecvPoll) : Prop :=
  p = RpNotReady e \/ p = RpCall (inr e) /\ recv_retry_action e = RaHard.

(** The outcome of a receive, with the turns that led to it. *)
Inductive recv_outcome (script rest : list RecvPoll) : option (io_result nat) -> RecvMmsgBuffer -> Prop :=
  | RoWaiting b : Forall retry_turn script -> rest = [] -> recv_outcome script rest None b
  | RoFailed e b pre p : Forall retry_turn pre -> script = pre ++ p :: rest -> failing_turn e p -> recv_outcome script rest (Some (IoErr e)) b
  | RoGot b n pre q items : n = Nat.min BATCH_RECV_SIZE (length q) -> Forall retry_turn pre -> script = pre ++ RpCall (inl q) :: rest -> q <> [] ->
      recv_iter b = Ret items ->
      map snd items = map (fun d : bytes * bytes => take SLOT_LEN d.2) (take BATCH_RECV_SIZE q) ->
      (Forall (fun d : bytes * bytes => sockaddr_ok d.1) q ->
        map fst items = map (fun d : bytes * bytes => sockaddr_storage_to_socket_addr d.1) (take BATCH_RECV_SIZE q)) ->
      recv_outcome script rest (Some (IoOk n)) b.

Lemma recv_outcome_retry p script rest r b : retry_turn p -> recv_outcome script rest r b -> recv_outcome (p :: script) rest r b.
Proof.
  intros Hp [b' H1 ->|e b' pre p' Hpre -> He|b' n pre q items Hn Hpre -> Hq Hi Hs Hf].
  - by apply RoWaiting; [constructor|].
  - by apply (RoFailed _ _ _ _ (p :: pre) p'); [constructor| |].
  - apply (RoGot _ _ _ n (p :: pre) q items); [done|by constructor|done..].
Qed.

Lemma poll_recv_spec b script : buffer_ok b ->
  let '(r, b', rest) := poll_recv_batch b script in buffer_ok b' /\ recv_outcome script rest r b'.
Proof.
  revert b. induction script as [|p script IH]; intros b Hb; cbn [poll_recv_batch]; [split; [done|by apply RoWaiting]|].
  assert (buffer_ok (mkRecvBuffer (rb_slots b) 0)) as H0 by (destruct Hb as (? & ? & ?); split; [done|split; [done|cbn; lia]]).
  destruct p as [e|[[|d q]|e]]; cbn [recvmmsg recv_retry_action].
  - split; [done|]. apply (RoFailed _ _ _ _ [] (RpNotReady e)); [done|done|by left].
  - specialize (IH _ H0). destruct (poll_recv_batch _ script) as [[r b'] rest]. destruct IH as [H1 H2]. split; [done|]. by apply recv_outcome_retry.
  - pose proof Hb as (Hlen & _ & _). rewrite Hlen. set (ds := take BATCH_RECV_SIZE (d :: q)).
    assert (length ds = Nat.min BATCH_RECV_SIZE (length (d :: q))) as Hl by apply length_take.
    destruct (recvmmsg_items b ds Hb ltac:(lia)) as (Hok & items & Hi & Hs & Hf). split; [done|].
    apply (RoGot _ _ _ _ [] (d :: q) items); [done|constructor|done|done|done|done|]. intros Hq. apply Hf. unfold ds. by apply Forall_take.
  - destruct e; cbn [recv_retry_action];
      try (specialize (IH _ H0); destruct (poll_recv_batch _ script) as [[r b'] rest]; destruct IH as [H1 H2]; split; [done|by apply recv_outcome_retry]);
      (split; [done|]); (eapply (RoFailed _ _ _ _ []); [done|done|by right]).
Qed.

(** C24: a batch receive gives the oldest waiting datagrams, at most 32, in order
    and each cut to the MTU, with their source addresses; nothing of what the
    reused buffer held before shows through.  It survives interruptions and
    empty queues, ends with the first other answer of the kernel, and keeps
    the buffer well formed, so that the iterator never indexes out of it. *)
Theorem recv_batch_exact b script (Hb : buffer_ok b) :
  let '(r, b', rest) := poll_recv_batch b script in
  buffer_ok b' /\
  match r with
  | None => Forall retry_turn script /\ rest = []
  | Some (IoErr e) => exists pre p, Forall retry_turn pre /\ script = pre ++ p :: rest /\ failing_turn e p
  | Some (IoOk n) => exists pre q items, Forall retry_turn pre /\ script = pre ++ RpCall (inl q) :: rest /\
      n = Nat.min BATCH_RECV_SIZE (length q) /\ (0 < n)%nat /\ recv_iter b' = Ret items /\
      map snd items = map (fun d : bytes * bytes => take SLOT_LEN d.2) (take BATCH_RECV_SIZE q) /\
      (Forall (fun d : bytes * bytes => sockaddr_ok d.1) q ->
        map fst items = map (fun d : bytes * bytes => sockaddr_storage_to_socket_addr d.1) (take BATCH_RECV_SIZE q))
  end.
Proof.
  pose proof (poll_recv_spec b script Hb) as H. destruct (poll_recv_batch b script) as [[r b'] rest]. destruct H as [H1 H2].
  split; [done|]. destruct H2 as [b' H Hr|e b' pre p Hpre Hsc He|b' n pre q items Hn Hpre Hsc Hq Hi Hs Hf]; [done|by exists pre, p|].
  exists pre, q, items. rewrite Hn. assert (0 < Nat.min BATCH_RECV_SIZE (length q))%nat by (destruct q; [done|]; unfold BATCH_RECV_SIZE; cbn [length]; lia).
  done.
Qed.

(** ** Witnesses *)
Lemma recv_buffer_new_ok : buffer_ok recv_buffer_new.
Proof.
  split; [done|]. split; [|cbn; lia]. apply Forall_replicate. split; apply length_replicate.
Qed.

(** Forty datagrams in two chunks on Linux; one by one elsewhere, where the
    third fails twice. *)
Definition demo_batch : list bytes := map (fun n => [Z.of_nat n]) (seq 0 40).
Lemma send_all_exact_witness :
  (exists rest, send_all_datagrams demo_batch [SpRoom 32; SpFails EkInterrupted; SpRoom 32] = (Some (inl ()), demo_batch, rest)) /\
  (exists rest, send_all_datagrams demo_batch [inl (); inl (); inr (EkOther 101); inr (EkOther 101)] =
                (Some (inr (mkSendError 2 40 (EkOther 101))), take 2 demo_batch, rest)).
Proof.
  split.
  - pose proof (send_all_exact demo_batch [SpRoom 32; SpFails EkInterrupted; SpRoom 32]) as H.
    destruct (send_all_datagrams demo_batch _) as [[r wire] rest] eqn:E.
    assert (r = Some (inl ())) as -> by (vm_compute in E; congruence). exists rest. by rewrite H.
  - pose proof (send_all_exact (turn := unit + ErrorKind) demo_batch [inl (); inl (); inr (EkOther 101); inr (EkOther 101)]) as H.
    destruct (send_all_datagrams demo_batch [inl (); inl (); inr (EkOther 101); inr (EkOther 101)]) as [[r wire] rest] eqn:E.
    assert (r = Some (inr (mkSendError 2 40 (EkOther 101)))) as -> by (vm_compute in E; congruence). exists rest. by destruct H as (_ & _ & ->).
Defined.

(** A queue of one packet on a socket that is interrupted, full, then ready,
    and on one that fails. *)
Lemma flush_over_socket_witness :
  let conn := (queue_data_packet (new_registering 1 0 0) [1; 2; 3] (Some 7) 5).1 in
  (exists conn' t', flush_connection conn tracker_new 10 SendAll = (conn', t', [[1; 2; 3]]) /\ last_sent conn' = Some 10) /\
  exists conn' t', flush_connection conn tracker_new 10 (SendFailed 0) = (conn', t', []) /\ in_flight_packets conn' = 0.
Proof.
  intros conn.
  assert (conn_ok conn) as Hok by (apply queue_data_packet_ok, new_registering_ok). split.
  - assert (send_all_datagrams (queued conn) [SpFails EkInterrupted; SpFails EkWouldBlock; SpRoom 5] =
      (Some (inl ()), [[1; 2; 3]], [])) as Hs by (vm_compute; reflexivity).
    destruct (flush_over_socket conn tracker_new 10 _ _ _ _ Hok Hs) as (c' & t' & H & _ & _ & _ & _ & _ & _ & Hl & _).
    exists c', t'. split; [exact H|]. apply Hl. discriminate.
  - assert (send_all_datagrams (queued conn) [inr (EkOther 101) : unit + ErrorKind] =
      (Some (inr (mkSendError 0 1 (EkOther 101))), [], [])) as Hs by (vm_compute; reflexivity).
    destruct (flush_over_socket conn tracker_new 10 _ _ _ _ Hok Hs) as (c' & t' & H & _ & _ & _ & _ & _ & _ & _ & _ & Hl & _).
    exists c', t'. split; [exact H|exact Hl].
Defined.

(** Two datagrams, the second of them after a long one, in a buffer that is reused. *)
Definition demo_addr : bytes := [2; 0; 17; 149; 127; 0; 0; 1] ++ replicate 8 0.
Definition demo_buffer : RecvMmsgBuffer := (poll_recv_batch recv_buffer_new [RpCall (inl [(demo_addr, replicate 1600 9)])]).1.2.

Lemma demo_buffer_ok : buffer_ok demo_buffer.
Proof.
  pose proof (poll_recv_spec recv_buffer_new [RpCall (inl [(demo_addr, replicate 1600 9)])] recv_buffer_new_ok) as H.
  unfold demo_buffer. destruct (poll_recv_batch recv_buffer_new _) as [[r b] rest]. apply H.
Qed.

Lemma recv_batch_exact_witness :
  exists items, recv_iter (poll_recv_batch demo_buffer [RpCall (inr EkInterrupted); RpCall (inl [(demo_addr, [1; 2])])]).1.2 = Ret items /\
    map snd items = [[1; 2]] /\ (0 < length items)%nat.
Proof.
  pose proof (recv_batch_exact demo_buffer [RpCall (inr EkInterrupted); RpCall (inl [(demo_addr, [1; 2])])] demo_buffer_ok) as H.
  assert (exists b, poll_recv_batch demo_buffer [RpCall (inr EkInterrupted); RpCall (inl [(demo_addr, [1; 2])])] = (Some (IoOk 1%nat), b, [])) as [b E].
  { eexists. vm_compute. reflexivity. }
  rewrite E in H. rewrite E. cbn [fst snd]. destruct H as (_ & pre & q & items & Hpre & Hsc & Hn & _ & Hi & Hs & _).
  exists items. split; [exact Hi|]. destruct pre as [|p [|p' pre]]; [discriminate Hsc| |].
  - injection Hsc as _ <-. split; [exact Hs|]. apply (f_equal length) in Hs. rewrite !length_map in Hs. rewrite Hs. cbn. lia.
  - apply (f_equal length) in Hsc. cbn in Hsc. rewrite length_app in Hsc. cbn in Hsc. lia.
Defined.

