(* ===== verification/Sockets.v ===== *)
(** * Sockets behind one interface (src/net/batch_recv.rs, src/sender/uplink.rs)

    [batch_recv.rs] has two implementations of the uplink socket with the same
    operations, and the build picks one: [recvmmsg] into a buffer of 32 slots on
    Linux ([Net]), one [recv_from] into a buffer for a single datagram elsewhere.
    [BatchRecv] is what they offer, [BatchRecvLaws] what they promise: a receive
    gives the answer of the first turn that has one.  The task that reads an
    uplink ([spawn_reader]) is written once, over the interface; its theorem
    holds for both systems.  The sends of a single datagram are here too. *)
From S2P Require Import Prelude Wire Batch Connection Classifier LinkCc Sender Housekeeping MainLoop LoopSpec Net.
Open Scope Z_scope.

(** ** The socket and its single sends *)

(** The socket is not connected: every datagram is sent to [peer]. *)
Record BatchUdpSocket := mkUdpSocket { bus_peer : SocketAddr }.

(** Both constructors register the descriptor with the runtime, which can fail. *)
Definition socket_new (registered : unit + ErrorKind) (peer : SocketAddr) : io_result BatchUdpSocket :=
  match registered with inl _ => IoOk (mkUdpSocket peer) | inr e => IoErr e end.

(** One turn of [send]: waiting for room failed, or [send_to] answered. *)
Inductive SendToPoll := StNotReady (e : ErrorKind) | StCall (answer : unit + ErrorKind).

(** One call of [send_to]; a datagram is taken whole or not at all. *)
Definition udp_try_send (s : BatchUdpSocket) (buf : bytes) (answer : unit + ErrorKind)
  : io_result nat * list (SocketAddr * bytes) :=
  match answer with inl _ => (IoOk (length buf), [(bus_peer s, buf)]) | inr e => (IoErr e, []) end.

(** On Linux a full socket buffer is waited out; every other answer returns. *)
Fixpoint send (s : BatchUdpSocket) (buf : bytes) (script : list SendToPoll)
  : option (io_result nat) * list (SocketAddr * bytes) * list SendToPoll :=
  match script with
  | [] => (None, [], [])
  | StNotReady e :: script => (Some (IoErr e), [], script)
  | StCall answer :: script =>
    match udp_try_send s buf answer with
    | (IoErr EkWouldBlock, _) => send s buf script
    | (r, wire) => (Some r, wire, script)
    end
  end.

(** Elsewhere the runtime does the waiting. *)
Definition fallback_send (s : BatchUdpSocket) (buf : bytes) (outcomes : list (unit + ErrorKind))
  : option (io_result nat) * list (SocketAddr * bytes) * list (unit + ErrorKind) :=
  match outcomes with
  | [] => (None, [], [])
  | answer :: outcomes => let '(r, wire) := udp_try_send s buf answer in (Some r, wire, outcomes)
  end.

(** [try_recv]: the datagram is cut to the caller's buffer. *)
Definition udp_try_recv (buf : bytes) (answer : bytes + ErrorKind) : bytes * io_result nat :=
  match answer with
  | inl d => let data := take (length buf) d in (overwrite buf data, IoOk (length data))
  | inr e => (buf, IoErr e)
  end.

(** What a caller of [send] may conclude: a success is the datagram on the wire,
    whole, once and addressed to the peer; a failure is nothing on the wire. *)
Definition sent_whole (s : BatchUdpSocket) (buf : bytes) (r : option (io_result nat)) (wire : list (SocketAddr * bytes)) : Prop :=
  match r with
  | Some (IoOk n) => n = length buf /\ wire = [(bus_peer s, buf)]
  | _ => wire = []
  end.

(** A single send on either system reports what happened to the datagram, and
    on Linux it waits only while the socket buffer is full. *)
Lemma single_send_exact s buf script outcomes :
  (let '(r, wire, rest) := send s buf script in
   sent_whole s buf r wire /\ (r = None -> Forall (fun p => p = StCall (inr EkWouldBlock)) script /\ rest = [])) /\
  (let '(r, wire, rest) := fallback_send s buf outcomes in sent_whole s buf r wire /\ (r = None -> outcomes = [])).
Proof.
  split.
  - induction script as [|p script IH]; cbn [send]; [by repeat constructor|].
    destruct p as [e|[[]|e]]; [done|done|]. cbn [udp_try_send]. destruct e; try done.
    destruct (send s buf script) as [[r wire] rest]. destruct IH as [H1 H2]. split; [done|].
    intros Hr. destruct (H2 Hr). by split; [constructor|].
  - destruct outcomes as [|[[]|e] outcomes]; cbn; [done|done|done].
Qed.

(** ** Receiving without [recvmmsg] *)
Record FallbackBuffer := mkFbBuffer {
  fb_buffer : bytes; fb_len : nat; fb_addr : option SocketAddr; fb_has_packet : bool }.
Global Instance eta_fb : Eta FallbackBuffer := fun b =>
  mkFbBuffer (fb_buffer b) (fb_len b) (fb_addr b) (fb_has_packet b).

Definition fallback_buffer_new : FallbackBuffer := mkFbBuffer (replicate SLOT_LEN 0) 0 None false.

(** What [recv_from] gave: a datagram and its source, or an error. *)
Abbreviation FbTurn := (SocketAddr * bytes + ErrorKind)%type.

Definition fallback_recv_batch (b : FallbackBuffer) (script : list FbTurn)
  : option (io_result nat) * FallbackBuffer * list FbTurn :=
  match script with
  | [] => (None, b, [])
  | inl (addr, d) :: script =>
    let data := take (length (fb_buffer b)) d in
    (Some (IoOk 1%nat), mkFbBuffer (overwrite (fb_buffer b) data) (length data) (Some addr) true, script)
  | inr e :: script => (Some (IoErr e), b <| fb_has_packet := false |>, script)
  end.

(** [RecvMmsgIter::next]: the item and [yielded] after it; a slice past the
    buffer panics. *)
Definition fallback_next (b : FallbackBuffer) (yielded : bool) : res (option (option SocketAddr * bytes) * bool) :=
  if yielded || negb (fb_has_packet b) then Ret (None, yielded)
  else if (length (fb_buffer b) <? fb_len b)%nat then Panic
  else Ret (Some (fb_addr b, take (fb_len b) (fb_buffer b)), true).

(** The [for] loop over [iter()]: two calls of [next] always end it. *)
Fixpoint fallback_items (fuel : nat) (b : FallbackBuffer) (yielded : bool) : res (list (option SocketAddr * bytes)) :=
  match fuel with
  | O => Ret []
  | S fuel =>
    '(item, yielded) ← fallback_next b yielded;
    match item with
    | None => Ret []
    | Some it => rest ← fallback_items fuel b yielded; Ret (it :: rest)
    end
  end.
Definition fallback_iter (b : FallbackBuffer) : res (list (option SocketAddr * bytes)) := fallback_items 2 b false.

(** ** The interface *)
Class BatchRecv (buf turn : Type) := {
  buffer_new : buf;
  socket_recv_batch : buf -> list turn -> option (io_result nat) * buf * list turn;
  buffer_iter : buf -> res (list (option SocketAddr * bytes));
  turn_answer : turn -> option (io_result (list bytes)) }.

(** How a receive comes out: it goes on to the first turn that answers. *)
Inductive received {buf turn : Type} `{BatchRecv buf turn} (script rest : list turn) : option (io_result nat) -> buf -> Prop :=
  | RcvWaiting b : omap turn_answer script = [] -> rest = [] -> received script rest None b
  | RcvFailed e b pre t : omap turn_answer pre = [] -> script = pre ++ t :: rest ->
      turn_answer t = Some (IoErr e) -> received script rest (Some (IoErr e)) b
  | RcvGot b pre t ds items : omap turn_answer pre = [] -> script = pre ++ t :: rest ->
      turn_answer t = Some (IoOk ds) -> ds <> [] -> Forall (fun d : bytes => Z.of_nat (length d) <= MTU) ds ->
      buffer_iter b = Ret items -> map snd items = ds -> received script rest (Some (IoOk (length ds))) b.

Class BatchRecvLaws (buf turn : Type) `{BatchRecv buf turn} := {
  recv_buffer_ok : buf -> Prop;
  buffer_new_ok : recv_buffer_ok buffer_new;
  recv_law : forall b script, recv_buffer_ok b ->
    let '(r, b', rest) := socket_recv_batch b script in recv_buffer_ok b' /\ received script rest r b' }.

(** *** Linux: a turn is a [recvmmsg] call, interrupted and empty ones give nothing *)
Global Instance linux_recv : BatchRecv RecvMmsgBuffer RecvPoll := {
  buffer_new := recv_buffer_new;
  socket_recv_batch := poll_recv_batch;
  buffer_iter := recv_iter;
  turn_answer p :=
    match p with
    | RpNotReady e => Some (IoErr e)
    | RpCall (inl []) => None
    | RpCall (inl q) => Some (IoOk (map (fun d : bytes * bytes => take SLOT_LEN d.2) (take BATCH_RECV_SIZE q)))
    | RpCall (inr e) => match recv_retry_action e with RaHard => Some (IoErr e) | _ => None end
    end }.

Lemma retry_turns_silent script : Forall retry_turn script -> omap turn_answer script = [].
Proof.
  induction 1 as [|p script Hp _ IH]; [done|]. cbn [omap list_omap].
  destruct p as [|[[|]|[]]]; cbn in Hp |- *; try done; exact IH.
Qed.

Lemma slot_cut ds : Forall (fun d : bytes => Z.of_nat (length d) <= MTU) (map (fun d : bytes * bytes => take SLOT_LEN d.2) ds).
Proof. rewrite Forall_map. apply Forall_true. intros [a d]. cbn. rewrite length_take. unfold MTU. lia. Qed.

Global Instance linux_recv_laws : BatchRecvLaws RecvMmsgBuffer RecvPoll.
Proof.
  refine {| recv_buffer_ok := buffer_ok; buffer_new_ok := recv_buffer_new_ok |}. intros b script Hb.
  pose proof (poll_recv_spec b script Hb) as H. cbn [socket_recv_batch linux_recv].
  destruct (poll_recv_batch b script) as [[r b'] rest]. destruct H as [Hok H]. split; [done|].
  destruct H as [b' Hw Hr|e b' pre p Hpre Hsc He|b' n pre q items Hn Hpre Hsc Hq Hi Hs _].
  - apply RcvWaiting; [by apply retry_turns_silent|done].
  - apply (RcvFailed _ _ _ _ pre p); [by apply retry_turns_silent|done|].
    destruct He as [->|[-> He]]; cbn [turn_answer linux_recv]; [done|by rewrite He].
  - replace n with (length (map (fun d : bytes * bytes => take SLOT_LEN d.2) (take BATCH_RECV_SIZE q)))
      by (rewrite length_map, length_take; lia).
    apply (RcvGot _ _ _ pre (RpCall (inl q)) _ items); try done; [by apply retry_turns_silent|by destruct q|by destruct q|apply slot_cut].
Qed.

(** *** Other systems: a turn is a [recv_from] *)
Global Instance fallback_recv : BatchRecv FallbackBuffer FbTurn := {
  buffer_new := fallback_buffer_new;
  socket_recv_batch := fallback_recv_batch;
  buffer_iter := fallback_iter;
  turn_answer t := Some (match t with inl (_, d) => IoOk [take SLOT_LEN d] | inr e => IoErr e end) }.

Lemma fallback_iter_packet b : fb_has_packet b = true -> (fb_len b <= length (fb_buffer b))%nat ->
  fallback_iter b = Ret [(fb_addr b, take (fb_len b) (fb_buffer b))].
Proof.
  intros Hp Hl. assert (fallback_next b false = Ret (Some (fb_addr b, take (fb_len b) (fb_buffer b)), true)) as H1.
  { unfold fallback_next. rewrite Hp. cbn [orb negb]. by rewrite (proj2 (Nat.ltb_ge _ _) Hl). }
  unfold fallback_iter. cbn [fallback_items]. by rewrite H1.
Qed.

Global Instance fallback_recv_laws : BatchRecvLaws FallbackBuffer FbTurn.
Proof.
  refine {| recv_buffer_ok := fun b => length (fb_buffer b) = SLOT_LEN |}; [apply length_replicate|].
  intros b [|[[addr d]|e] script] Hb; cbn [socket_recv_batch fallback_recv fallback_recv_batch].
  - split; [done|]. by apply RcvWaiting.
  - rewrite Hb. pose proof (length_take d SLOT_LEN) as Hl.
    assert (length (overwrite (fb_buffer b) (take SLOT_LEN d)) = SLOT_LEN) as Hlen by (rewrite overwrite_length; lia).
    split; [done|]. apply (RcvGot _ _ _ [] (inl (addr, d)) [take SLOT_LEN d] [(Some addr, take SLOT_LEN d)]); try done.
    { apply Forall_singleton. rewrite length_take. unfold MTU. lia. }
    cbn [buffer_iter fallback_recv]. rewrite fallback_iter_packet by (cbn; lia). cbn [fb_addr fb_len fb_buffer].
    unfold overwrite. by rewrite take_app_length.
  - split; [done|]. by apply (RcvFailed _ _ _ _ [] (inr e)).
Qed.

(** ** The reader task, over the interface *)

(** The channel to the main loop takes packets until the loop is gone: [Some n]
    takes [n] more, [None] any number.  Sending stops at the first refusal. *)
Fixpoint push_all (room : option nat) (ps : list UplinkPacket) : list UplinkPacket * option (option nat) :=
  match ps with
  | [] => ([], Some room)
  | p :: ps =>
    match room with
    | Some O => ([], None)
    | _ => let '(sent, r) := push_all (Nat.pred <$> room) ps in (p :: sent, r)
    end
  end.

Section Reader.
Context {buf turn : Type} `{BatchRecvLaws buf turn}.

(** One turn of the loop of [spawn_reader] up to its sends: [None] while it
    waits, else the packets for the main loop.  The pause after an error is
    not part of the state. *)
Definition reader_turn (id : Z) (b : buf) (script : list turn)
  : res (option (list UplinkPacket) * buf * list turn) :=
  match socket_recv_batch b script with
  | (None, b, script) => Ret (None, b, script)
  | (Some (IoOk count), b, script) =>
    if (0 <? count)%nat then
      items ← buffer_iter b;
      Ret (Some (map (fun it => mkPacket id it.2) (filter (fun it => it.2 <> []) items)), b, script)
    else Ret (Some [], b, script)
  | (Some (IoErr e), b, script) => Ret (Some [mkPacket id []], b, script)
  end.

(** [spawn_reader]: the packets sent, and whether the task is still there.
    Every turn but the last uses an entry of the script up. *)
Fixpoint reader_loop (fuel : nat) (id : Z) (b : buf) (script : list turn) (room : option nat)
  : res (list UplinkPacket * bool) :=
  match fuel with
  | O => Ret ([], true)
  | S fuel =>
    '(r, b, script) ← reader_turn id b script;
    match r with
    | None => Ret ([], true)
    | Some ps =>
      match push_all room ps with
      | (sent, None) => Ret (sent, false)
      | (sent, Some room) => '(more, alive) ← reader_loop fuel id b script room; Ret (sent ++ more, alive)
      end
    end
  end.
Definition spawn_reader (id : Z) (script : list turn) (room : option nat) : res (list UplinkPacket * bool) :=
  reader_loop (S (length script)) id buffer_new script room.

(** What an answer of the socket means to the main loop, and the packets that
    stand for it. *)
Definition answer_recv (a : io_result (list bytes)) : option (list bytes) :=
  match a with IoOk ds => Some ds | IoErr _ => None end.
Definition answer_packets (id : Z) (a : io_result (list bytes)) : list UplinkPacket :=
  match a with IoOk ds => map (mkPacket id) (filter (fun d => d <> []) ds) | IoErr _ => [mkPacket id []] end.
Definition script_packets (id : Z) (script : list turn) : list UplinkPacket :=
  flat_map (answer_packets id) (omap turn_answer script).

(** The packets a channel with [room] takes of [ps]. *)
Definition fits (room : option nat) (ps : list UplinkPacket) : list UplinkPacket * bool :=
  match room with None => (ps, true) | Some n => (take n ps, Nat.leb (length ps) n) end.

Lemma push_all_spec ps : forall room,
  push_all room ps = match fits room ps with
                     | (sent, true) => (sent, Some (match room with Some n => Some (n - length ps)%nat | None => None end))
                     | (sent, false) => (sent, None)
                     end.
Proof.
  induction ps as [|p ps IH]; intros [n|]; cbn [push_all]; unfold fits in *; [by rewrite take_nil, Nat.sub_0_r|done| |].
  - destruct n as [|n]; [done|]. cbn [fmap option_fmap option_map Nat.pred]. rewrite (IH (Some n)). cbn [length Nat.leb take Nat.sub].
    by destruct (length ps <=? n)%nat.
  - cbn [fmap option_fmap option_map]. by rewrite (IH None).
Qed.

Lemma fits_app room ps qs : fits room (ps ++ qs) =
  match push_all room ps with
  | (sent, None) => (sent, false)
  | (sent, Some room) => let '(more, alive) := fits room qs in (sent ++ more, alive)
  end.
Proof.
  rewrite push_all_spec. unfold fits. destruct room as [n|]; [|done]. rewrite length_app.
  destruct (Nat.leb_spec (length ps) n) as [Hle|Hlt].
  - rewrite take_app, (take_ge ps) by lia. f_equal.
    destruct (Nat.leb_spec (length ps + length qs) n), (Nat.leb_spec (length qs) (n - length ps)); lia || done.
  - rewrite take_app_le by lia. f_equal. apply Nat.leb_gt. lia.
Qed.

Lemma nonempty_packets id (items : list (option SocketAddr * bytes)) :
  map (mkPacket id) (filter (fun d => d <> []) (map snd items)) = map (fun it => mkPacket id it.2) (filter (fun it => it.2 <> []) items).
Proof.
  induction items as [|[a d] items IH]; [done|]. cbn [map]. rewrite !filter_cons. cbn [snd].
  repeat case_decide; cbn [map snd] in *; [f_equal; exact IH|exact IH].
Qed.

(** A turn hands over the packets of the first answer in the script. *)
Lemma reader_turn_spec id b script : recv_buffer_ok b ->
  exists r b' rest, reader_turn id b script = Ret (r, b', rest) /\ recv_buffer_ok b' /\
    match r with
    | None => omap turn_answer script = []
    | Some ps => (length rest < length script)%nat /\
        exists a, omap turn_answer script = a :: omap turn_answer rest /\ ps = answer_packets id a
    end.
Proof.
  intros Hb. unfold reader_turn. pose proof (recv_law b script Hb) as Hr.
  destruct (socket_recv_batch b script) as [[r b'] rest]. destruct Hr as [Hok Hr].
  assert (forall pre (t : turn) a, omap turn_answer pre = [] -> script = pre ++ t :: rest -> turn_answer t = Some a ->
    (length rest < length script)%nat /\ omap turn_answer script = a :: omap turn_answer rest) as Hstep.
  { intros pre t a Hp -> Ht. split; [rewrite length_app; cbn; lia|]. rewrite omap_app, Hp. cbn [app omap list_omap]. by rewrite Ht. }
  destruct Hr as [b' Hw _|e b' pre t Hp Hsc Ht|b' pre t ds items Hp Hsc Ht Hne Hlen Hi Hs].
  - by exists None, b', rest.
  - destruct (Hstep _ _ _ Hp Hsc Ht) as [H1 H2]. exists (Some [mkPacket id []]), b', rest. split; [done|]. split; [done|].
    split; [done|]. by exists (IoErr e).
  - destruct (Hstep _ _ _ Hp Hsc Ht) as [H1 H2].
    assert ((0 <? length ds)%nat = true) as -> by (apply Nat.ltb_lt; destruct ds; [done|cbn; lia]).
    rewrite Hi. cbn [mbind res_bind]. eexists _, b', rest. split; [done|]. split; [done|]. split; [done|].
    exists (IoOk ds). split; [done|]. cbn [answer_packets]. by rewrite <- Hs, nonempty_packets.
Qed.

Lemma reader_loop_spec id fuel : forall b script room, recv_buffer_ok b -> (length script < fuel)%nat ->
  reader_loop fuel id b script room = Ret (fits room (script_packets id script)).
Proof.
  induction fuel as [|fuel IH]; intros b script room Hb Hf; [lia|]. cbn [reader_loop].
  destruct (reader_turn_spec id b script Hb) as (r & b' & rest & -> & Hb' & Hr). cbn [mbind res_bind]. unfold script_packets.
  destruct r as [ps|]; [|rewrite Hr; cbn [flat_map]; destruct room; cbn [fits]; by rewrite ?take_nil].
  destruct Hr as (Hlt & a & -> & ->). cbn [flat_map]. rewrite fits_app.
  destruct (push_all room (answer_packets id a)) as [sent [room'|]]; [|done].
  rewrite (IH b' rest room' Hb') by lia. cbn [mbind res_bind]. unfold script_packets. by destruct (fits room' _).
Qed.

(** The reader events of the loop model that stand for a script. *)
Definition reader_events (id : Z) (script : list turn) : list loop_event :=
  map (fun a => LvReader id (answer_recv a)) (omap turn_answer script).

Lemma reader_events_queue exp hash st id script : id ∈ ml_readers st ->
  loop_exec exp hash st (reader_events id script) = Some (st <| ml_queue ::= fun q => q ++ script_packets id script |>).
Proof.
  unfold reader_events, script_packets. generalize (omap turn_answer script) as answers. intros answers. revert st.
  induction answers as [|a answers IH]; intros st Hid; cbn [map loop_exec flat_map]; [destruct st; cbn; by rewrite app_nil_r|].
  cbn [loop_step]. rewrite bool_decide_eq_true_2 by done.
  assert ((match answer_recv a with
           | Some datagrams => map (mkPacket id) (filter (fun d => d <> []) datagrams)
           | None => [mkPacket id []] end) = answer_packets id a) as -> by (by destruct a).
  rewrite IH by done. destruct st. cbn. by rewrite <- app_assoc.
Qed.

(** C25: the reader task of an uplink, on Linux and elsewhere, loses and invents
    nothing: over any answers of the kernel it never panics and hands to the
    main loop, in order, the packets that stand for them (each datagram that is
    not empty, cut to the MTU, and an empty packet for an error), up to the
    first one the channel refuses, and it ends exactly then.  With the channel
    open the queue of the loop is what the reader events of the loop model make
    it. *)
Theorem reader_task_exact exp hash st id (script : list turn) (room : option nat) :
  spawn_reader id script room = Ret (fits room (script_packets id script)) /\
  (id ∈ ml_readers st ->
   exists ps, spawn_reader id script None = Ret (ps, true) /\
     loop_exec exp hash st (reader_events id script) = Some (st <| ml_queue ::= fun q => q ++ ps |>)).
Proof using All.
  assert (forall room, spawn_reader id script room = Ret (fits room (script_packets id script))) as Hs
    by (intros r; apply reader_loop_spec; [apply buffer_new_ok|lia]).
  split; [apply Hs|]. intros Hid. exists (script_packets id script). split; [apply Hs|]. by apply reader_events_queue.
Qed.
End Reader.

(** ** Readers across a reconnect *)

(** [restart_reader_for]: the old task is aborted, a new one reads the new
    socket.  Readers are kept by link id. *)
Definition restart_reader_for (id : Z) (readers : gset Z) : gset Z := {[id]} ∪ (readers ∖ {[id]}).

(** A tick that rebuilds sockets restarts the readers of its links: the set of
    links that are read does not change, which is why the model of the tick
    leaves it alone. *)
Lemma restart_keeps_readers st ids : loop_ok st -> (forall id, id ∈ ids -> id ∈ map conn_id (ml_conns st)) ->
  foldl (fun r id => restart_reader_for id r) (ml_readers st) ids = ml_readers st.
Proof.
  intros Hok. assert (forall id, id ∈ map conn_id (ml_conns st) -> id ∈ ml_readers st) as Hr by (intros id; apply (ok_readers _ Hok)).
  induction ids as [|id ids IH]; intros Hids; [done|]. cbn [foldl].
  assert (restart_reader_for id (ml_readers st) = ml_readers st) as ->.
  { unfold restart_reader_for. rewrite <- union_difference_L; [done|]. apply singleton_subseteq_l, Hr, Hids. left. }
  apply IH. intros x Hx. apply Hids. by right.
Qed.

(** ** Witnesses *)
Definition demo_reader : LoopState := mkLoop fresh_sender ∅ None (gate_new true) filter_new ∅ None {[1]} [].

(** A failed read, an empty datagram and two others, on Linux in one call and
    elsewhere one by one; the channel takes two packets. *)
Lemma reader_task_exact_witness :
  spawn_reader 1 [RpCall (inr EkInterrupted); RpNotReady (EkOther 9); RpCall (inl [(demo_addr, []); (demo_addr, [1]); (demo_addr, [2])])] (Some 2%nat)
    = Ret ([mkPacket 1 []; mkPacket 1 [1]], false) /\
  exists st', loop_exec (fun x => x) (fun _ => 0) demo_reader
    (reader_events (turn := FbTurn) 1 [inr (EkOther 9); inl (SaV4 1 5, []); inl (SaV4 1 5, [1]); inl (SaV4 1 5, [2])]) = Some st' /\
    ml_queue st' = [mkPacket 1 []; mkPacket 1 [1]; mkPacket 1 [2]].
Proof.
  split.
  - destruct (reader_task_exact (turn := RecvPoll) (fun x => x) (fun _ => 0) demo_reader 1
      [RpCall (inr EkInterrupted); RpNotReady (EkOther 9); RpCall (inl [(demo_addr, []); (demo_addr, [1]); (demo_addr, [2])])] (Some 2%nat)) as [H _].
    rewrite H. vm_compute. reflexivity.
  - destruct (reader_task_exact (turn := FbTurn) (fun x => x) (fun _ => 0) demo_reader 1
      [inr (EkOther 9); inl (SaV4 1 5, []); inl (SaV4 1 5, [1]); inl (SaV4 1 5, [2])] None) as [_ H].
    destruct H as (ps & H1 & H2); [vm_compute; reflexivity|]. eexists. split; [exact H2|]. vm_compute in H1. injection H1 as <-. reflexivity.
Defined.
