(* ===== verification/Stats.v ===== *)
(** * Statistics (src/stats.rs)

    The snapshot that a housekeeping tick takes of the links for the control
    socket and the metrics.  It is a value of the last tick; the lock around it
    is not modelled, nor are the label of a link and the JSON text.  The
    theorem says that the snapshot shows the links the way the scheduler
    sees them after the tick, the quality multiplier apart, which is computed
    anew while the scheduler keeps a cached one for up to 50 ms. *)
From stdpp Require Import strings.
From S2P Require Import Prelude F64 Rtt Batch Pacing Congestion Config Connection Selection Classifier LinkCc Registration.
From S2P Require Import Dedup Sender Housekeeping Links Reload MainLoop LoopSpec.
Open Scope Z_scope.

Record LinkStats := mkLinkStats {
  ls_ip : Z; ls_connected : bool; ls_timed_out : bool;
  ls_window : Z; ls_in_flight : Z; ls_rtt_ms : Z; ls_nak_count : Z; ls_bitrate_bytes_per_sec : Z;
  ls_rtt_min_ms : f64; ls_rtt_velocity : f64; ls_base_score : Z; ls_quality_multiplier : f64;
  ls_weak : bool; ls_weak_reason : string; ls_weak_share_permille : Z; ls_weak_threshold_permille : Z;
  ls_cc_state : string; ls_cc_climb_mode : string; ls_cc_target_bps : Z;
  ls_cc_rtt_ewma_ms : f64; ls_cc_rtt_var_ms : f64; ls_cc_rtt_min_ms : f64;
  ls_cc_loss_permille : Z; ls_cc_loss_ewma : f64; ls_cc_loss_degraded : bool;
  ls_batch_regime : string; ls_stall_gated : bool; ls_stall_gate_events : Z; ls_weight : Z; ls_silence_pulls : Z;
  ls_sole_carrier : bool; ls_sole_carrier_excluded : bool; ls_sole_carrier_elections : Z;
  ls_in_flight_cap_packets : Z; ls_in_flight_cap_active : bool }.

Record StatsSnapshot := mkStats {
  ss_mode : string; ss_quality_enabled : bool;
  ss_active_links : Z; ss_total_links : Z; ss_total_window : Z; ss_total_in_flight : Z;
  ss_estimated_max_delay_ms : Z; ss_selected_delay_ms : Z; ss_negotiated_latency_ms : Z;
  ss_links : list LinkStats }.
Global Instance eta_stats : Eta StatsSnapshot := fun s =>
  mkStats (ss_mode s) (ss_quality_enabled s) (ss_active_links s) (ss_total_links s) (ss_total_window s) (ss_total_in_flight s)
    (ss_estimated_max_delay_ms s) (ss_selected_delay_ms s) (ss_negotiated_latency_ms s) (ss_links s).

Definition stats_default : StatsSnapshot := mkStats "enhanced" true 0 0 0 0 0 0 0 [].

Definition weak_reason_str (reason : WeakReason) : string :=
  match reason with
  | Healthy => "healthy" | HighRtt => "high_rtt" | QueueBuilding => "queue_building"
  | NoTraffic => "no_traffic" | LowShare => "low_share" | Bypassed => "bypassed"
  end.
Definition cc_state_str (state : CcState) : string :=
  match state with
  | Bootstrap => "bootstrap" | Climbing => "climbing" | Holding => "holding" | BackingOff => "backing_off" | Drain => "drain"
  end.
Definition climb_mode_str (m : ClimbMode) : string :=
  match m with ClimbNormal => "normal" | ClimbHai => "hai" | ClimbFastRecovery => "fast_recovery" end.
Definition regime_str (r : BatchRegime) : string :=
  match r with LowActivity => "low_activity" | Normal => "normal" | HighLoad => "high_load" end.

Section Update.
Context (exp : f64 -> f64).
Context (classification : option ClassificationResult) (link_cc : option (gmap Z LinkCcSnapshot)).

Definition link_stats (quality_enabled : bool) (current_time_ms : Z) (conn : SrtlaConnection) : LinkStats :=
  let timed_out := is_timed_out conn current_time_ms in
  let quality_multiplier := if quality_enabled then calculate_quality_multiplier exp conn current_time_ms else f1 in
  let weak_entry := classification ≫= verdict (conn_id conn) in
  let '(weak, weak_reason, weak_share, weak_threshold) :=
    match weak_entry with
    | Some e => (lc_weak e, weak_reason_str (lc_reason e), lc_share_permille e, lc_threshold_permille e)
    | None => (false, "unknown"%string, 0, 0)
    end in
  let cc_entry := link_cc ≫= fun m => m !! conn_id conn in
  let '(cc_state, cc_climb_mode, cc_target, cc_rtt_ewma, cc_rtt_var, cc_rtt_min, cc_loss_pm, cc_loss_ewma, cc_loss_degraded) :=
    match cc_entry with
    | Some s => (cc_state_str (sn_state s), climb_mode_str (sn_climb_mode s), sn_target_bps s, sn_rtt_ewma_ms s,
                 sn_rtt_var_ms s, sn_rtt_min_ms s, sn_loss_permille s, sn_loss_ewma s, sn_loss_degraded s)
    | None => ("unknown"%string, "normal"%string, 0, f0, f0, f0, 0, f0, false)
    end in
  let cap := in_flight_cap_packets cc_target (get_rtt_min_ms conn) in
  {| ls_ip := local_ip conn; ls_connected := connected conn; ls_timed_out := timed_out;
     ls_window := window conn; ls_in_flight := in_flight_packets conn;
     ls_rtt_ms := f_as_u32 (get_smooth_rtt_ms conn); ls_nak_count := total_nak_count conn;
     ls_bitrate_bytes_per_sec := f_as_u32 (fdiv (fmul (current_bitrate_mbps conn) (f_of_Z 1000000)) (f_of_Z 8));
     ls_rtt_min_ms := get_rtt_min_ms conn; ls_rtt_velocity := get_rtt_velocity conn;
     ls_base_score := get_score conn; ls_quality_multiplier := quality_multiplier;
     ls_weak := weak; ls_weak_reason := weak_reason; ls_weak_share_permille := weak_share; ls_weak_threshold_permille := weak_threshold;
     ls_cc_state := cc_state; ls_cc_climb_mode := cc_climb_mode; ls_cc_target_bps := cc_target;
     ls_cc_rtt_ewma_ms := cc_rtt_ewma; ls_cc_rtt_var_ms := cc_rtt_var; ls_cc_rtt_min_ms := cc_rtt_min;
     ls_cc_loss_permille := cc_loss_pm; ls_cc_loss_ewma := cc_loss_ewma; ls_cc_loss_degraded := cc_loss_degraded;
     ls_batch_regime := regime_str (batch_regime (batch_sender conn));
     ls_stall_gated := stall_latched conn; ls_stall_gate_events := stall_gate_events conn;
     ls_weight := link_weight conn; ls_silence_pulls := silence_pulls conn;
     ls_sole_carrier := sole_carrier conn; ls_sole_carrier_excluded := sole_carrier_excluded conn;
     ls_sole_carrier_elections := sole_carrier_elections conn;
     ls_in_flight_cap_packets := Z.max (default 0 cap) 0;
     ls_in_flight_cap_active := default false ((fun c => in_flight_packets conn >? c) <$> cap) |}.

(** One turn of the loop over the connections. *)
Definition stats_step (current_time_ms : Z) (snapshot : StatsSnapshot) (conn : SrtlaConnection) : StatsSnapshot :=
  let is_active := connected conn && negb (is_timed_out conn current_time_ms) in
  let link := link_stats (ss_quality_enabled snapshot) current_time_ms conn in
  let snapshot :=
    if is_active then
      snapshot <| ss_active_links ::= fun n => u64_wrap (n + 1) |>
               <| ss_total_window ::= fun w => i32_wrap (w + window conn) |>
               <| ss_total_in_flight ::= fun n => i32_wrap (n + in_flight_packets conn) |>
    else snapshot in
  snapshot <| ss_links ::= fun ls => ls ++ [link] |>.

Definition stats_update (connections : list SrtlaConnection) (config : ConfigSnapshot) (current_time_ms : Z) : StatsSnapshot :=
  let quality_enabled := cfg_quality_enabled config && negb (is_classic (cfg_mode config)) in
  let snapshot :=
    stats_default <| ss_mode := mode_display (cfg_mode config) |> <| ss_quality_enabled := quality_enabled |>
      <| ss_total_links := Z.of_nat (length connections) |>
      <| ss_estimated_max_delay_ms := default 0 (estimated_max_delay_ms <$> classification) |>
      <| ss_selected_delay_ms := default 0 (selected_delay_ms <$> classification) |>
      <| ss_negotiated_latency_ms := cfg_negotiated_latency_ms config |> in
  foldl (stats_step current_time_ms) snapshot connections.
End Update.

(** ** The snapshot of a tick *)

Definition is_active (t : Z) (c : SrtlaConnection) : bool := connected c && negb (is_timed_out c t).
Definition Zsum (l : list Z) : Z := foldr Z.add 0 l.

Lemma i32_wrap_add a b : i32_wrap (i32_wrap a + b) = i32_wrap (a + b).
Proof. zlia. Qed.
Lemma i32_wrap_idem a : i32_wrap (i32_wrap a) = i32_wrap a.
Proof. zlia. Qed.
Lemma u64_wrap_add a b : u64_wrap (u64_wrap a + b) = u64_wrap (a + b).
Proof. unfold u64_wrap. apply Zplus_mod_idemp_l. Qed.

Lemma stats_fold exp cl cc t cs : forall s,
  i32_wrap (ss_total_window s) = ss_total_window s -> i32_wrap (ss_total_in_flight s) = ss_total_in_flight s ->
  u64_wrap (ss_active_links s) = ss_active_links s ->
  let r := foldl (stats_step exp cl cc t) s cs in
  let active := filter (fun c => is_active t c = true) cs in
  ss_quality_enabled r = ss_quality_enabled s /\ ss_total_links r = ss_total_links s /\
  ss_links r = ss_links s ++ map (link_stats exp cl cc (ss_quality_enabled s) t) cs /\
  ss_total_window r = i32_wrap (ss_total_window s + Zsum (map window active)) /\
  ss_total_in_flight r = i32_wrap (ss_total_in_flight s + Zsum (map in_flight_packets active)) /\
  ss_active_links r = u64_wrap (ss_active_links s + Z.of_nat (length active)).
Proof.
  induction cs as [|c cs IH]; intros s Hw Hf Ha; cbv zeta.
  - cbn. rewrite app_nil_r, !Z.add_0_r. done.
  - cbn [foldl map]. rewrite filter_cons. fold (is_active t c). destruct (IH (stats_step exp cl cc t s c)) as (H1 & H2 & H3 & H4 & H5 & H6).
    1-3: unfold stats_step; fold (is_active t c); destruct (is_active t c); cbn; zlia || done.
    rewrite H1, H2, H3, H4, H5, H6. unfold stats_step. fold (is_active t c). destruct (is_active t c); cbn [ss_quality_enabled].
    + rewrite decide_True by done. cbn. rewrite <- app_assoc, !i32_wrap_add, u64_wrap_add, !Z.add_assoc. repeat split; f_equal; lia.
    + rewrite decide_False by done. cbn. by rewrite <- app_assoc.
Qed.

(** How a line of the snapshot shows a link as the scheduler reads it. *)
Record describes (exp : f64 -> f64) (quality : bool) (t : Z) (c : SrtlaConnection) (l : LinkStats) : Prop := {
  de_ip : ls_ip l = local_ip c;
  de_live : ls_connected l && negb (ls_timed_out l) = is_active t c;
  de_score : ls_base_score l = get_score c;
  de_quality : quality = true -> QUALITY_CACHE_INTERVAL_MS <= sat_sub t (last_calculated_ms (quality_cache c)) ->
    ls_quality_multiplier l = (get_cached_quality_multiplier exp c t).2;
  de_no_quality : quality = false -> ls_quality_multiplier l = f1;
  de_weak : ls_weak l = weak c;
  de_reason : ls_weak l = true -> ls_weak_reason l = weak_reason_str (weak_reason c);
  de_target : ls_cc_target_bps l = cc_target_bps c;
  de_backing_off : ls_cc_state l = "backing_off"%string <-> cc_backing_off c = true;
  de_lossy : ls_cc_loss_degraded l = loss_degraded c;
  de_cap : ls_in_flight_cap_active l = in_flight_cap_exceeded c }.

Lemma backing_off_str state : cc_state_str state = "backing_off"%string <-> bool_decide (state = BackingOff) = true.
Proof. by destruct state. Qed.

Lemma link_stats_describes exp cl sn quality t c :
  describes exp quality t (stamp_link cl sn c) (link_stats exp (Some cl) (Some sn) quality t (stamp_link cl sn c)).
Proof.
  unfold link_stats. cbn [mbind option_bind].
  change (conn_id (stamp_link cl sn c)) with (conn_id c).
  assert (weak (stamp_link cl sn c) = default false (lc_weak <$> verdict (conn_id c) cl)) as E1 by done.
  assert (weak_reason (stamp_link cl sn c) = default Healthy (lc_reason <$> verdict (conn_id c) cl)) as E2 by done.
  assert (cc_target_bps (stamp_link cl sn c) = default 0 (sn_target_bps <$> sn !! conn_id c)) as E3 by done.
  assert (cc_backing_off (stamp_link cl sn c) = default false ((fun s => bool_decide (sn_state s = BackingOff)) <$> sn !! conn_id c)) as E4 by done.
  assert (loss_degraded (stamp_link cl sn c) = default false (sn_loss_degraded <$> sn !! conn_id c)) as E5 by done.
  revert E1 E2 E3 E4 E5. generalize (stamp_link cl sn c). intros c' E1 E2 E3 E4 E5.
  destruct (verdict (conn_id c) cl) as [e|]; destruct (sn !! conn_id c) as [s|]; cbn [fmap option_fmap option_map default from_option id] in *.
  all: split; cbn -[get_cached_quality_multiplier]; rewrite ?E1, ?E2, ?E4, ?E5; try done.
  all: try (intros ->; done).
  all: try (intros -> Hdue; unfold get_cached_quality_multiplier; by rewrite (proj2 (Z.geb_le _ _) Hdue)).
  1,4: apply backing_off_str.
  all: unfold in_flight_cap_exceeded; rewrite E3; first [done|by destruct (in_flight_cap_packets _ _)].
Qed.

(** The snapshot that the tick of the main loop stores and publishes, taken at time [t]. *)
Definition tick_stats (exp : f64 -> f64) (st : LoopState) (env : HkEnv) (now cc_now t : Z) : StatsSnapshot :=
  stats_update exp (Some (tick_verdicts st env now).2) (Some (tick_caps exp st env now cc_now).2)
    (ml_conns (stamped exp st env now cc_now)) (snapshot (sn_config (ml_sender st))) t.

Lemma apply_pending_id st outs : ml_pending st = None -> apply_pending st outs = st.
Proof. unfold apply_pending. by intros ->. Qed.

Lemma stamped_conns exp st env now cc_now : ml_conns (stamped exp st env now cc_now) =
  map (stamp_link (tick_verdicts st env now).2 (tick_caps exp st env now cc_now).2) (ml_conns (tick_bond st env now)).
Proof.
  unfold stamped. generalize (tick_verdicts st env now) (tick_caps exp st env now cc_now) (tick_bond st env now). by intros [f cl] [cc sn] b.
Qed.

Lemma tick_links exp st env now cc_now outs : ml_pending st = None ->
  ml_conns (housekeeping_branch exp st env now cc_now outs) = ml_conns (stamped exp st env now cc_now).
Proof.
  intros Hp. rewrite <- (stamped_pending exp st env now cc_now) in Hp. rewrite housekeeping_branch_eq. revert Hp.
  generalize (stamped exp st env now cc_now). intros b Hp. cbv zeta. by rewrite apply_pending_id.
Qed.

Lemma Zsum_bounds lo hi l : Forall (fun x => lo <= x <= hi) l -> lo * Z.of_nat (length l) <= Zsum l <= hi * Z.of_nat (length l).
Proof. induction 1 as [|x l Hx _ IH]; cbn [length Zsum foldr]; [lia|]. fold (Zsum l). lia. Qed.

(** C38: the statistics of a tick that applies no new list show the links as the
    scheduler sees them from then on: one line per link in order, with the
    weak verdict and its reason, the cap and its effect, the loss verdict and the
    base score that selection reads.  The quality multiplier is the one that a
    selection pass at that time would use if the link's cached one is due (50 ms
    old); a younger cached value may differ ([stats_multiplier_differs]).  The
    counts are those of the links alive, and up to 35000 links the sum of
    their windows cannot overflow. *)
Theorem stats_match_scheduler exp hash st env now cc_now t outs (Hr : loop_reach exp hash st) (Hp : ml_pending st = None)
    (Hn : Z.of_nat (length (ml_conns st)) <= 35000) :
  let conns := ml_conns (housekeeping_branch exp st env now cc_now outs) in
  let s := tick_stats exp st env now cc_now t in
  let active := filter (fun c => is_active t c = true) conns in
  Forall2 (describes exp (effective_quality_enabled (snapshot (sn_config (ml_sender st)))) t) conns (ss_links s) /\
  ss_total_links s = Z.of_nat (length conns) /\ ss_active_links s = Z.of_nat (length active) /\
  ss_total_window s = Zsum (map window active) /\
  ss_total_in_flight s = i32_wrap (Zsum (map in_flight_packets active)).
Proof.
  pose proof (loop_reach_ok exp hash st Hr) as Hok.
  pose proof (stamped_ok exp st env now cc_now Hok) as [(Hc & _ & _) _ _ _ _].
  pose proof (f_equal length (stamped_ids exp st env now cc_now Hok)) as Hl. rewrite !length_map in Hl.
  cbv zeta. rewrite (tick_links exp st env now cc_now outs Hp). unfold tick_stats, stats_update. rewrite stamped_conns in *.
  revert Hc Hl. generalize (tick_verdicts st env now).2 (tick_caps exp st env now cc_now).2 (ml_conns (tick_bond st env now)).
  intros cl sn cs Hc Hl. set (conns := map (stamp_link cl sn) cs) in *.
  match goal with |- context [foldl _ ?s0 _] => destruct (stats_fold exp (Some cl) (Some sn) t conns s0 eq_refl eq_refl eq_refl) as (_ & H2 & H3 & H4 & H5 & H6) end.
  assert (length (filter (fun c => is_active t c = true) conns) <= length conns)%nat as Hle by apply length_filter.
  assert (Forall (fun x => 1000 <= x <= 60000) (map window (filter (fun c => is_active t c = true) conns))) as Hw.
  { rewrite Forall_map, Forall_forall. intros c [_ Hin]%list_elem_of_filter. destruct (proj1 (Forall_forall _ _) Hc c Hin) as (_ & H & _). by apply window_ok_iff. }
  apply Zsum_bounds in Hw. rewrite length_map in Hw.
  rewrite H2, H3, H4, H5, H6. cbn [ss_links ss_total_links ss_total_window ss_total_in_flight ss_active_links ss_quality_enabled stats_default app]. split_and!.
  - unfold conns. rewrite map_map. apply Forall2_fmap_2, Forall_Forall2_diag, Forall_true. intros c. apply link_stats_describes.
  - done.
  - cbn. zlia.
  - cbn. zlia.
  - done.
Qed.

Lemma stats_match_scheduler_witness :
  map (fun l => (ls_ip l, ls_connected l)) (ss_links (tick_stats (fun x => x) (demo_run demo_handshake) (demo_env 5000) 5000 5000 5000)) =
    [(ip_key (V4 10 0 0 1), true); (ip_key (V4 10 0 0 2), false); (ip_key (V4 10 0 0 3), false)] /\
  ss_total_window (tick_stats (fun x => x) (demo_run demo_handshake) (demo_env 5000) 5000 5000 5000) = 20060.
Proof.
  split; [vm_compute; reflexivity|].
  destruct (stats_match_scheduler (fun x => x) demo_hash (demo_run demo_handshake) (demo_env 5000) 5000 5000 5000 []) as (_ & _ & _ & H & _).
  - apply demo_reach; vm_compute; reflexivity.
  - vm_compute; reflexivity.
  - vm_compute; discriminate.
  - rewrite H. vm_compute. reflexivity.
Defined.

(** A link that got its first NAK 10 ms ago: the statistics show 0.98 at once,
    the next selection pass still uses the cached 1.1. *)
Definition freshly_lossy : SrtlaConnection :=
  (get_cached_quality_multiplier (fun x => x) (registered_now (new_registering 1 0 0) 1000) 5000).1
    <| congestion ::= fun g => g <| nak_count := 1 |> |>.

Example stats_multiplier_differs :
  ls_quality_multiplier (link_stats (fun x => x) None None true 5010 freshly_lossy) = STARTUP_NAK_PENALTY /\
  (get_cached_quality_multiplier (fun x => x) freshly_lossy 5010).2 = PERFECT_CONNECTION_BONUS /\
  feq STARTUP_NAK_PENALTY PERFECT_CONNECTION_BONUS = false.
Proof. split_and!; vm_compute; reflexivity. Qed.
