(* ===== verification/Status.v ===== *)
(** * The status log (src/sender/status.rs)

    The report that the main loop logs every thirty ticks, as the values it
    prints; the texts and the labels of the links are left out.  Its timer is
    part of the loop's tick.

    The theorem: in every reachable state of the loop the remembered choice
    names a link of the bond, so the report's bounds check never fails, the
    counts add up, and its sums do not wrap. *)
From S2P Require Import Prelude F64 Wire Seq Filters Rtt Batch Pacing Congestion Config Connection Classifier Selection LinkCc.
From S2P Require Import Registration Tracker Dedup Uplink Sender Housekeeping Reload Links Identity MainLoop LoopSpec Stats.
Open Scope Z_scope.

Definition PKT_LOG_SIZE : Z := 256.
Definition HOUSEKEEPING_INTERVAL_MS : Z := 1000.
Definition STATUS_LOG_INTERVAL_MS : Z := 30000.

Inductive ScoreDesc := Disconnected | AtCapacity | Score (s : Z).
Record RttLine := mkRttLine { rl_kalman : f64; rl_velocity : f64; rl_jitter : f64; rl_stable : bool; rl_age_s : f64 }.
Record LinkLine := mkLinkLine {
  ll_index : nat; ll_timed_out : bool; ll_score : ScoreDesc; ll_last_recv : option f64; ll_last_send : option f64;
  ll_window : Z; ll_in_flight : Z; ll_bitrate : f64; ll_rtt : option RttLine }.
Inductive LastSelected := SelNone | SelLink (id : Z) | SelOutOfBounds (idx : nat).
Inductive StatusWarning := NoneActive | LessThanHalf.

Record StatusReport := mkReport {
  sr_total : Z; sr_bitrate : f64; sr_active : Z; sr_active_percent : f64; sr_timed_out : Z;
  sr_mode : SchedulingMode; sr_quality : option bool; sr_in_flight : Z; sr_utilization : f64;
  sr_last_selected : LastSelected; sr_links : list LinkLine; sr_warning : option StatusWarning }.

(** [a as f64 / b as f64 * 100.0], or zero. *)
Definition percent (a b : Z) : f64 := if b >? 0 then fmul (fdiv (f_of_Z a) (f_of_Z b)) (f_of_Z 100) else f0.
Definition seconds_ago (now t : Z) : f64 := fdiv (f_of_Z (sat_sub now t)) (f_of_Z 1000).

(** The pass that collects the totals: active links, bitrate, packets in flight. *)
Definition totals_step (now : Z) (acc : Z * f64 * Z) (conn : SrtlaConnection) : Z * f64 * Z :=
  let '(active, bitrate, in_flight) := acc in
  (if negb (is_timed_out conn now) then u64_wrap (active + 1) else active,
   fadd bitrate (current_bitrate_mbps conn),
   u64_wrap (in_flight + u64_wrap (in_flight_packets conn))).

Definition link_line (now rtt_now : Z) (i : nat) (conn : SrtlaConnection) : LinkLine :=
  let score := get_score conn in
  {| ll_index := i;
     ll_timed_out := is_timed_out conn now;
     ll_score := if score =? -1 then Disconnected else if score =? 0 then AtCapacity else Score score;
     ll_last_recv := seconds_ago now <$> last_received conn;
     ll_last_send := seconds_ago now <$> last_sent conn;
     ll_window := window conn; ll_in_flight := in_flight_packets conn; ll_bitrate := current_bitrate_mbps conn;
     ll_rtt := if fgt (estimated_rtt_ms (rtt conn)) f0
               then Some (mkRttLine (get_smooth_rtt_ms conn) (get_rtt_velocity conn) (get_rtt_jitter_ms conn) (is_rtt_stable conn)
                            (seconds_ago rtt_now (last_rtt_measurement_ms (rtt conn))))
               else None |}.

(** [log_connection_status] with logging enabled. *)
Definition log_connection_status (connections : list SrtlaConnection) (last_selected_idx : option nat) (config : DynamicConfig)
    (now : Z) (rtt_now : nat -> Z) : res StatusReport :=
  let total := Z.of_nat (length connections) in
  let '(active, bitrate, in_flight) := foldl (totals_step now) (0, f0, 0) connections in
  let snap := snapshot config in
  last ← match last_selected_idx with
         | Some idx =>
           if (idx <? length connections)%nat then
             match connections !! idx with Some c => Ret (SelLink (conn_id c)) | None => Panic end
           else Ret (SelOutOfBounds idx)
         | None => Ret SelNone
         end;
  Ret {| sr_total := total; sr_bitrate := bitrate; sr_active := active; sr_active_percent := percent active total;
         sr_timed_out := u64_wrap (total - active); sr_mode := cfg_mode snap;
         sr_quality := match cfg_mode snap with Classic => None | Enhanced => Some (cfg_quality_enabled snap) end;
         sr_in_flight := in_flight; sr_utilization := percent in_flight (u64_wrap (total * PKT_LOG_SIZE));
         sr_last_selected := last; sr_links := imap (fun i => link_line now (rtt_now i) i) connections;
         sr_warning := if active =? 0 then Some NoneActive
                       else if active <? total / 2 then Some LessThanHalf else None |}.

(** The timer of the log, one tick: the new count and whether to log. *)
Definition status_tick (elapsed : Z) : Z * bool :=
  let elapsed := Z.min u64_max (elapsed + HOUSEKEEPING_INTERVAL_MS) in
  if elapsed >=? STATUS_LOG_INTERVAL_MS then (sat_sub elapsed STATUS_LOG_INTERVAL_MS, true) else (elapsed, false).

(** ** The remembered choice names a link *)
Definition in_bounds (last : option nat) (conns : list SrtlaConnection) : Prop :=
  match last with Some i => (i < length conns)%nat | None => True end.
Definition selected_ok (st : LoopState) : Prop := in_bounds (sn_last_selected (ml_sender st)) (ml_conns st).

Lemma tags_length cs cs' : tags cs' = tags cs -> length cs' = length cs.
Proof. intros H%(f_equal length). by rewrite !length_map in H. Qed.
Lemma in_bounds_length last cs cs' : length cs = length cs' -> in_bounds last cs -> in_bounds last cs'.
Proof. intros H. unfold in_bounds. by rewrite H. Qed.

Section Selected.
Context (exp : f64 -> f64) (hash : bytes -> Z).

Lemma forward_selected sel pkt seq cs last t now env cs' last' t' sent :
  forward_via_connection sel pkt seq cs last t now env = Ret (cs', last', t', sent) -> in_bounds last cs -> in_bounds last' cs.
Proof.
  unfold forward_via_connection. destruct (cs !! sel) as [c|] eqn:Hl; [|by intros [= _ <- _ _]].
  cbv zeta. destruct (queue_data_packet c pkt seq now) as [c1 f].
  destruct (match seq with Some s => _ | None => _ end) as [t1|]; [|done]. cbn [mbind res_bind].
  destruct (if f then _ else _) as [[c2 t2] s2]. intros [= _ <- _ _] Hb. apply lookup_lt_Some in Hl.
  by destruct (negb _).
Qed.

Lemma srt_packet_selected s pkt src env s' sent : handle_srt_packet exp s pkt src env = Ret (s', sent) ->
  in_bounds (sn_last_selected s) (sn_conns s) -> in_bounds (sn_last_selected s') (sn_conns s').
Proof.
  intros E Hb. pose proof (tags_length _ _ (tags_srt_packet exp s pkt src env s' sent E)) as Hlen.
  apply (in_bounds_length _ (sn_conns s)); [by rewrite Hlen|]. revert E. unfold handle_srt_packet.
  case_bool_decide; [by intros [= <- _]|]. cbv zeta. destruct (get_srt_sequence_number pkt) as [seq|]; [|done]. cbn [mbind res_bind].
  destruct (negb _).
  - destruct (select_pre_registration_connection _ _ _); [|by intros [= <- _]].
    destruct (forward_via_connection _ _ _ _ _ _ _ _) as [[[[cs l] t] s1]|] eqn:E; [|done]. intros [= <- _].
    by apply forward_selected in E.
  - destruct (schedule _ _ _ _ _ _ _ _) as [[conns [sel|]]|] eqn:Es; cbn [mbind res_bind]; [|by intros [= <- _]|done].
    apply tags_schedule, tags_length in Es.
    destruct (forward_via_connection _ _ _ _ _ _ _ _) as [[[[cs l] t] s1]|] eqn:E; [|done]. cbn [mbind res_bind].
    apply forward_selected in E; [|by apply (in_bounds_length _ (sn_conns s))].
    destruct seq; [destruct (send_stall_probes _ _ _ _ _ _ _ _) as [[[? ?] ?]|]; [|done]|]; intros [= <- _];
      by apply (in_bounds_length _ conns).
Qed.

Lemma uplink_packet_selected s id data ts r1 t1 t2 t3 s' relay out :
  handle_uplink_packet hash s id data ts r1 t1 t2 t3 = Ret (s', relay, out) -> sn_last_selected s' = sn_last_selected s.
Proof.
  unfold handle_uplink_packet. case_bool_decide; [by intros [= <- _ _]|].
  destruct (position _ _) as [i|]; [|by intros [= <- _ _]]. destruct (sn_conns s !! i); [|done].
  destruct (process_uplink_packet _ _ _ _ _ _ _) as [[[us incoming] rl]|]; [|done]. cbn [mbind res_bind]. cbv zeta.
  destruct (process_connection_events _ _ _ _ _ _ _) as [[conns o]|]; [|done]. cbn [mbind res_bind]. by intros [= <- _ _].
Qed.

Lemma uplink_one_selected st p u st' : uplink_one hash st p u = Ret st' -> selected_ok st -> selected_ok st'.
Proof.
  unfold uplink_one. destruct (handle_uplink_packet _ _ _ _ _ _ _ _ _) as [[[s r] o]|] eqn:E; [|done]. cbn [mbind res_bind]. intros [= <-] Hs.
  pose proof (uplink_packet_selected _ _ _ _ _ _ _ _ _ _ _ E) as Hl. apply tags_uplink_packet, tags_length in E.
  unfold selected_ok. cbn. rewrite Hl. by apply (in_bounds_length _ (ml_conns st)).
Qed.
Lemma drain_selected us n : forall i st st', drain_loop hash n i st us = Ret st' -> selected_ok st -> selected_ok st'.
Proof.
  induction n as [|n IH]; intros i st st'; cbn [drain_loop]; [by intros [= <-]|].
  destruct (ml_queue st) as [|p rest]; [by intros [= <-]|].
  destruct (uplink_one hash _ p (us i)) as [st1|] eqn:E; [|done]. cbn [mbind res_bind]. intros H Hs. apply (IH _ _ _ H).
  by apply (uplink_one_selected _ p (us i) st1 E).
Qed.

Lemma stamped_selected st env now cc_now : selected_ok st -> selected_ok (stamped exp st env now cc_now).
Proof.
  intros Hs. unfold stamped, tick_bond. generalize (tick_verdicts st env now) (tick_caps exp st env now cc_now).
  pose proof (tags_housekeeping env (hk_of st) (is_classic (config_mode (sn_config (ml_sender st)))) now) as Ht. revert Ht.
  generalize (handle_housekeeping env (hk_of st) (is_classic (config_mode (sn_config (ml_sender st)))) now). intros [h r] Ht [f cl] [cc sn].
  cbn [fst] in Ht. apply tags_length in Ht. unfold selected_ok. cbn. apply (in_bounds_length _ (ml_conns st)); [|done].
  by rewrite length_map.
Qed.

Lemma changes_selected l ips ws outs : in_bounds (ln_last_selected l) (ln_conns l) ->
  in_bounds (ln_last_selected (apply_connection_changes l ips ws outs)) (ln_conns (apply_connection_changes l ips ws outs)).
Proof.
  intros Hb. pose proof (apply_connection_changes_eq l ips ws outs) as E. destruct (after_removal_spec l ips) as (Hl & _ & _). cbv zeta in E, Hl.
  destruct (create_connections_from_ips _ _ _ _) as [fresh io]. rewrite E. cbn [ln_last_selected ln_conns]. rewrite Hl.
  case_bool_decide as Hg; [|done]. rewrite (filter_listed_all _ _ Hg). unfold in_bounds in *. destruct (ln_last_selected l) as [i|]; [|done].
  rewrite length_app, length_map. lia.
Qed.

Lemma pending_selected b outs : selected_ok b -> selected_ok (apply_pending b outs).
Proof.
  intros Hb. unfold apply_pending. destruct (ml_pending b) as [[ips ws]|]; [|done]. cbv zeta.
  pose proof (changes_selected (mkLinks (ml_conns b) (ml_io b) (sn_last_selected (ml_sender b)) (sn_tracker (ml_sender b))) ips ws outs Hb) as H.
  revert H. generalize (apply_connection_changes (mkLinks (ml_conns b) (ml_io b) (sn_last_selected (ml_sender b)) (sn_tracker (ml_sender b))) ips ws outs).
  by intros [cs io last t] H.
Qed.

Lemma synced_selected b : selected_ok b ->
  let st' := b in selected_ok (st' <| ml_readers ::= sync_readers (ml_conns st') (ml_io st') |>).
Proof. by intros H. Qed.

Lemma tick_selected st env now cc_now outs : selected_ok st -> selected_ok (housekeeping_branch exp st env now cc_now outs).
Proof.
  intros Hs. rewrite housekeeping_branch_eq.
  exact (synced_selected _ (pending_selected _ outs (stamped_selected st env now cc_now Hs))).
Qed.

Lemma loop_step_selected st ev st' : loop_step exp hash st ev = Ret (Some st') -> selected_ok st -> selected_ok st'.
Proof.
  assert (forall us st1, (st0 ← drain_packet_queue hash st1 us; Ret (Some st0)) = Ret (Some st') -> selected_ok st1 -> selected_ok st') as Hd.
  { intros us st1. destruct (drain_packet_queue hash st1 us) as [st2|] eqn:E; [|done]. cbn [mbind res_bind]. intros [= <-].
    by apply (drain_selected us MAX_DRAIN_PACKETS 0). }
  destruct ev as [r io us|u us|env now cc outs us|read us|io| |id recv|op|buf now]; cbn [loop_step]; intros E Hs.
  - destruct r as [[pkt src]|]; [|by apply Hd in E].
    destruct (handle_srt_packet exp (ml_sender st) pkt src (send_env st io)) as [[s sent]|] eqn:Es; [|done]. cbn [mbind res_bind] in E.
    apply Hd in E; [done|]. by apply srt_packet_selected in Es.
  - destruct (ml_queue st) as [|p rest]; [by injection E as <-|].
    destruct (uplink_one hash _ p u) as [st1|] eqn:E1; [|done]. cbn [mbind res_bind] in E. apply Hd in E; [done|].
    by apply (uplink_one_selected _ p u st1 E1).
  - apply Hd in E; [done|]. by apply tick_selected.
  - apply Hd in E; [done|]. by destruct (analyze_ip_reload read).
  - pose proof (tags_length _ _ (tags_flush_all (ml_conns st) (sn_tracker (ml_sender st)) (send_env st io))) as Hl.
    destruct (flush_all_batches _ _ _) as [[cs t] sent]. injection E as <-. by apply (in_bounds_length _ (ml_conns st)).
  - done.
  - by destruct (bool_decide _); injection E as <-.
  - by injection E as <-.
  - destruct (priority_datagram _ _ _) as [w|]; [|done]. by injection E as <-.
Qed.

Lemma loop_reach_selected st : loop_reach exp hash st -> selected_ok st.
Proof.
  induction 1 as [config critical e st Hn Hs|st ev st' _ IH Hev Hs]; [|by apply (loop_step_selected st ev)].
  revert Hs. unfold start_sender. destruct (negb (se_bind e)); [done|]. destruct (read_weighted_ip_list (se_read e)) as [[ips ws]|]; [|done].
  cbv zeta. case_bool_decide; [done|]. destruct (create_connections_from_ips _ _ _ _) as [conns io]. case_bool_decide; [done|].
  destruct (start_probing _ _ _) as [[reg conns1] probes]. destruct (negb (se_signals e)); [done|].
  destruct (handle_housekeeping _ _ _ _) as [h r]. by intros [= <-].
Qed.
End Selected.

(** ** The report *)
Lemma totals_spec now cs : forall active bitrate in_flight, 0 <= active -> 0 <= in_flight ->
  Forall (fun c => 0 <= in_flight_packets c < two31) cs -> active + Z.of_nat (length cs) < two32 ->
  in_flight + two31 * Z.of_nat (length cs) < two64 ->
  let r := foldl (totals_step now) (active, bitrate, in_flight) cs in
  r.1.1 = active + Z.of_nat (length (filter (fun c => is_timed_out c now = false) cs)) /\
  r.2 = in_flight + Zsum (map in_flight_packets cs).
Proof.
  induction cs as [|c cs IH]; intros active bitrate in_flight Ha Hf Hc Hn Hs; cbv zeta; [cbn; lia|].
  apply Forall_cons in Hc as [Hc Hcs]. cbn [length] in Hn, Hs. cbn [foldl]. rewrite filter_cons.
  assert (u64_wrap (in_flight + u64_wrap (in_flight_packets c)) = in_flight + in_flight_packets c) as Ew by zlia.
  assert (u64_wrap (active + 1) = active + 1) as Ea by zlia.
  assert (totals_step now (active, bitrate, in_flight) c =
    (if is_timed_out c now then active else active + 1, fadd bitrate (current_bitrate_mbps c), in_flight + in_flight_packets c)) as ->.
  { unfold totals_step. rewrite Ew, Ea. by destruct (is_timed_out c now). }
  destruct (is_timed_out c now); [rewrite decide_False by done|rewrite decide_True by done].
  - destruct (IH active (fadd bitrate (current_bitrate_mbps c)) (in_flight + in_flight_packets c)) as [-> ->]; [lia|lia|done|lia|lia|].
    cbn [map Zsum foldr]. fold (Zsum (map in_flight_packets cs)). lia.
  - destruct (IH (active + 1) (fadd bitrate (current_bitrate_mbps c)) (in_flight + in_flight_packets c)) as [-> ->]; [lia|lia|done|lia|lia|].
    cbn [map Zsum foldr length]. fold (Zsum (map in_flight_packets cs)). lia.
Qed.

(** The status report of a reachable state of the loop never panics and adds
    up: active and timed-out links make all links, the packets in flight are
    the sum over the links without wrapping, there is a line per link, and
    the remembered choice names a link of the bond, which no reload makes it
    lose sight of: the out-of-bounds case never arises. *)
Theorem status_report_sound exp hash st now rtt_now (Hr : loop_reach exp hash st) (Hn : Z.of_nat (length (ml_conns st)) < two32)
    (Hl : Forall (fun c => Z.of_nat (size (packet_log c)) < two31) (ml_conns st)) :
  exists r, log_connection_status (ml_conns st) (sn_last_selected (ml_sender st)) (sn_config (ml_sender st)) now rtt_now = Ret r /\
    sr_active r = Z.of_nat (length (filter (fun c => is_timed_out c now = false) (ml_conns st))) /\
    sr_active r + sr_timed_out r = sr_total r /\ sr_total r = Z.of_nat (length (ml_conns st)) /\
    sr_in_flight r = Zsum (map (fun c => Z.of_nat (size (packet_log c))) (ml_conns st)) /\
    length (sr_links r) = length (ml_conns st) /\
    match sr_last_selected r with
    | SelNone => sn_last_selected (ml_sender st) = None
    | SelLink id => exists i c, sn_last_selected (ml_sender st) = Some i /\ ml_conns st !! i = Some c /\ conn_id c = id
    | SelOutOfBounds _ => False
    end.
Proof.
  pose proof (loop_reach_ok exp hash st Hr) as Hok. destruct (ok_sender _ Hok) as (Hc & _ & _).
  pose proof (loop_reach_selected exp hash st Hr) as Hs. unfold selected_ok in Hs.
  set (cs := ml_conns st) in *. set (last := sn_last_selected (ml_sender st)) in *. clearbody cs last.
  assert (Forall (fun c => in_flight_packets c = Z.of_nat (size (packet_log c)) /\ 0 <= in_flight_packets c < two31) cs) as Hf.
  { rewrite Forall_forall in *. intros c Hin. destruct (Hc c Hin) as (E & _). specialize (Hl c Hin). cbn in Hl.
    unfold log_len in E. rewrite E. split; zlia. }
  destruct (totals_spec now cs 0 f0 0) as [T1 T2]; [lia|lia|by eapply Forall_impl; [exact Hf|intros ? []]|lia|unfold two31, two32, two64 in *; lia|].
  unfold log_connection_status. destruct (foldl (totals_step now) (0, f0, 0) cs) as [[active bitrate] in_flight]. cbn [fst snd] in T1, T2.
  assert (length (filter (fun c => is_timed_out c now = false) cs) <= length cs)%nat as Hle by apply length_filter.
  assert (map in_flight_packets cs = map (fun c => Z.of_nat (size (packet_log c))) cs) as Em.
  { apply map_ext_Forall. eapply Forall_impl; [exact Hf|by intros ? []]. }
  assert (exists sel, match last with
    | Some idx => if (idx <? length cs)%nat then match cs !! idx with Some c => Ret (SelLink (conn_id c)) | None => Panic end
                  else Ret (SelOutOfBounds idx)
    | None => Ret SelNone end = Ret sel /\
    match sel with
    | SelNone => last = None
    | SelLink id => exists i c, last = Some i /\ cs !! i = Some c /\ conn_id c = id
    | SelOutOfBounds _ => False end) as (sel & -> & Hsel).
  { destruct last as [i|]; [|by exists SelNone]. cbn in Hs. rewrite (proj2 (Nat.ltb_lt _ _) Hs).
    destruct (lookup_lt_is_Some_2 cs i Hs) as [c Ec]. rewrite Ec. exists (SelLink (conn_id c)). split; [done|]. eauto. }
  cbn [mbind res_bind]. eexists. split; [done|]. cbn [sr_active sr_timed_out sr_total sr_in_flight sr_links sr_last_selected].
  rewrite T1, T2, Em, length_imap, Z.add_0_l. split; [done|]. split; [zlia|]. done.
Qed.

(** The log is written at every thirtieth tick. *)
Fixpoint status_ticks (n : nat) : Z * nat :=
  match n with
  | O => (0, 0%nat)
  | S n => let '(elapsed, logs) := status_ticks n in
           let '(elapsed, log) := status_tick elapsed in (elapsed, if log : bool then S logs else logs)
  end.
Theorem status_every_thirty n : (status_ticks n).2 = (n / 30)%nat.
Proof.
  assert ((status_ticks n).1 = 1000 * Z.of_nat (Nat.modulo n 30) /\ (status_ticks n).2 = (n / 30)%nat) as [_ ?]; [|done].
  induction n as [|n [IH1 IH2]]; [done|]. cbn [status_ticks]. destruct (status_ticks n) as [elapsed logs]. cbn [fst snd] in IH1, IH2.
  unfold status_tick, HOUSEKEEPING_INTERVAL_MS, STATUS_LOG_INTERVAL_MS. cbv zeta.
  pose proof (Nat.mod_upper_bound n 30 ltac:(lia)) as Hm. pose proof (Nat.div_mod_eq n 30) as Hd.
  replace (Z.min u64_max (elapsed + 1000)) with (1000 * Z.of_nat (Nat.modulo n 30) + 1000) by (unfold u64_max, two64; lia).
  destruct (Nat.eq_dec (Nat.modulo n 30) 29%nat) as [E|E].
  - rewrite E. cbn [fst snd]. change (1000 * Z.of_nat 29%nat + 1000 >=? 30000) with true. cbn [fst snd].
    assert (S n = (S (n / 30)) * 30 + 0)%nat as -> by lia.
    rewrite Nat.add_0_r, Nat.Div0.mod_mul, Nat.div_mul by lia. split; [done|lia].
  - assert ((1000 * Z.of_nat (Nat.modulo n 30) + 1000 >=? 30000) = false) as -> by lia. cbn [fst snd].
    assert (S n = (n / 30) * 30 + S (Nat.modulo n 30))%nat as -> by lia.
    assert (Nat.modulo (n / 30 * 30 + S (Nat.modulo n 30)) 30 = S (Nat.modulo n 30)) as ->
      by (rewrite Nat.add_comm, Nat.Div0.mod_add; apply Nat.mod_small; lia).
    rewrite Nat.div_add_l, (Nat.div_small (S (Nat.modulo n 30))) by lia. split; lia.
Qed.

Definition shown (x : res StatusReport) : LastSelected := match x with Ret r => sr_last_selected r | Panic => SelNone end.
Lemma status_report_sound_witness :
  exists r, log_connection_status (ml_conns (demo_run demo_traffic)) (sn_last_selected (ml_sender (demo_run demo_traffic)))
      (sn_config (ml_sender (demo_run demo_traffic))) 6600 (fun _ => 6600) = Ret r /\
    sr_active r + sr_timed_out r = sr_total r /\ sr_last_selected r = SelLink 1.
Proof.
  destruct (status_report_sound (fun x => x) demo_hash (demo_run demo_traffic) 6600 (fun _ => 6600)) as (r & E & _ & Ha & _).
  - apply demo_reach; vm_compute; reflexivity.
  - vm_compute. reflexivity.
  - apply (bool_decide_eq_true_1 (Forall _ _)). vm_compute. reflexivity.
  - exists r. split; [exact E|]. split; [exact Ha|].
    change (shown (Ret r) = SelLink 1). rewrite <- E. vm_compute. reflexivity.
Defined.
