(* ===== verification/Subscriptions.v ===== *)
(** * Server-push subscriptions (src/subscriptions.rs)

    The hub shared by the control connections and the publishers.  A sender is
    the number of the connection whose push channel it feeds; the channels are a
    map from open connections to the events waiting in them, so a connection
    that is not in the map has dropped its receiver.  An event stands for the
    line it is written as: topic, subscription id and data.  Every operation
    takes the lock once, except [publish], which takes it again to prune. *)
From stdpp Require Import strings pretty.
From S2P Require Import Prelude.
Open Scope Z_scope.

(** The channel made for each connection holds 128 events. *)
Definition PUSH_CAPACITY : nat := 128.

Record Entry := mkEntry { en_id : string; en_topic : string; en_sender : nat }.
Record SubscriptionHub := mkHub { next_id : Z; hub_entries : list Entry }.
Global Instance eta_hub : Eta SubscriptionHub := fun h => mkHub (next_id h) (hub_entries h).
Definition hub_new : SubscriptionHub := mkHub 0 [].

Definition subscription_name (n : Z) : string := "sub-" +:+ pretty (Z.to_N n).

Definition subscribe (self : SubscriptionHub) (topic : string) (push_tx : nat) : SubscriptionHub * string :=
  let id := subscription_name (next_id self) in
  (mkHub (u64_wrap (next_id self + 1)) (hub_entries self ++ [mkEntry id topic push_tx]), id).

Definition unsubscribe (self : SubscriptionHub) (id : string) : SubscriptionHub * bool :=
  let entries := filter (fun e => en_id e <> id) (hub_entries self) in
  (self <| hub_entries := entries |>, negb (Nat.eqb (length (hub_entries self)) (length entries))).

Definition hub_len (self : SubscriptionHub) : nat := length (hub_entries self).

Section Publish.
Context {Data : Type}.

Record Push := mkPush { ps_topic : string; ps_id : string; ps_data : Data }.
Abbreviation channels := (gmap nat (list Push)).

(** [try_send] on the channel of a connection. *)
Inductive TrySendResult := SendOk | SendFull | SendClosed.
Definition try_send (ch : channels) (tx : nat) (p : Push) : channels * TrySendResult :=
  match ch !! tx with
  | None => (ch, SendClosed)
  | Some q => if bool_decide (length q < PUSH_CAPACITY)%nat then (<[tx := q ++ [p]]> ch, SendOk) else (ch, SendFull)
  end.

(** The fan-out under the first lock: the channels after it and the ids to prune. *)
Fixpoint publish_scan (topic : string) (data : Data) (es : list Entry) (ch : channels) (to_prune : list string)
  : channels * list string :=
  match es with
  | [] => (ch, to_prune)
  | e :: es =>
    if negb (bool_decide (en_topic e = topic)) then publish_scan topic data es ch to_prune
    else
      let '(ch, r) := try_send ch (en_sender e) (mkPush topic (en_id e) data) in
      publish_scan topic data es ch (match r with SendClosed => to_prune ++ [en_id e] | _ => to_prune end)
  end.

(** The second lock, taken only when something is to be pruned. *)
Definition prune (self : SubscriptionHub) (to_prune : list string) : SubscriptionHub :=
  if bool_decide (to_prune = []) then self
  else self <| hub_entries ::= filter (fun e => en_id e ∉ to_prune) |>.

Definition publish (self : SubscriptionHub) (topic : string) (data : Data) (ch : channels) : SubscriptionHub * channels :=
  let '(ch, to_prune) := publish_scan topic data (hub_entries self) ch [] in
  (prune self to_prune, ch).
End Publish.
Arguments Push : clear implicits.

(** ** Names *)
Lemma subscription_name_inj a b : 0 <= a -> 0 <= b -> subscription_name a = subscription_name b -> a = b.
Proof.
  intros Ha Hb H. unfold subscription_name in H. apply (inj (String.append "sub-")) in H. apply (inj pretty) in H. lia.
Qed.

Lemma unsubscribe_entries h id : hub_entries (unsubscribe h id).1 = filter (fun e => en_id e <> id) (hub_entries h).
Proof. done. Qed.

(** The answer says whether the subscription was there. *)
Lemma unsubscribe_result h id : (unsubscribe h id).2 = bool_decide (id ∈ map en_id (hub_entries h)).
Proof.
  unfold unsubscribe. cbn [snd]. generalize (hub_entries h). induction l as [|e l IH]; [by rewrite bool_decide_eq_false_2 by apply not_elem_of_nil|].
  rewrite filter_cons. cbn [map length]. destruct (decide (en_id e <> id)) as [Hn|Hn].
  - cbn [length Nat.eqb]. rewrite IH. apply bool_decide_ext. rewrite elem_of_cons. split; [by right|]. intros [?|?]; [congruence|done].
  - pose proof (length_filter (fun e => en_id e <> id) l) as Hl.
    rewrite bool_decide_eq_true_2 by (apply elem_of_cons; left; symmetry; by apply dec_stable).
    apply negb_true_iff, Nat.eqb_neq. lia.
Qed.

(** ** Fan-out *)
Section Fanout.
Context {Data : Type}.

(** The events a connection is owed by an event on a topic. *)
Definition owed (topic : string) (data : Data) (es : list Entry) (tx : nat) : list (Push Data) :=
  map (fun e => mkPush topic (en_id e) data) (filter (fun e => en_topic e = topic /\ en_sender e = tx) es).

(** What a channel takes of the events offered to it. *)
Definition accept (q offered : list (Push Data)) : list (Push Data) := q ++ take (PUSH_CAPACITY - length q) offered.

Lemma accept_nil q : accept q [] = q.
Proof. unfold accept. by rewrite take_nil, app_nil_r. Qed.
Lemma accept_cons q p ps : accept q (p :: ps) = accept (if bool_decide (length q < PUSH_CAPACITY)%nat then q ++ [p] else q) ps.
Proof.
  unfold accept. case_bool_decide as H.
  - rewrite length_app. cbn [length]. replace (PUSH_CAPACITY - length q)%nat with (S (PUSH_CAPACITY - (length q + 1))) by lia.
    cbn [take]. by rewrite <- app_assoc.
  - replace (PUSH_CAPACITY - length q)%nat with 0%nat by lia. done.
Qed.

Lemma owed_cons topic data e es tx :
  owed topic data (e :: es) tx =
  (if bool_decide (en_topic e = topic /\ en_sender e = tx) then [mkPush topic (en_id e) data] else []) ++ owed topic data es tx.
Proof. unfold owed. rewrite filter_cons. by case_bool_decide; case_decide. Qed.

Lemma publish_scan_spec topic (data : Data) es : forall ch acc,
  (forall tx, (publish_scan topic data es ch acc).1 !! tx = (fun q => accept q (owed topic data es tx)) <$> ch !! tx) /\
  (publish_scan topic data es ch acc).2 = acc ++ map en_id (filter (fun e => en_topic e = topic /\ ch !! en_sender e = None) es).
Proof.
  induction es as [|e es IH]; intros ch acc; cbn [publish_scan fst snd].
  { split; [|cbn; by rewrite app_nil_r]. intros tx. destruct (ch !! tx); cbn; [|done]. by rewrite accept_nil. }
  destruct (decide (en_topic e = topic)) as [Ht|Ht].
  2: { rewrite bool_decide_eq_false_2 by done. cbn [negb]. destruct (IH ch acc) as [H1 H2]. split.
       - intros tx. rewrite H1, owed_cons, bool_decide_eq_false_2 by tauto. done.
       - rewrite H2, filter_cons, decide_False by tauto. done. }
  rewrite bool_decide_eq_true_2 by done. cbn [negb]. unfold try_send. destruct (ch !! en_sender e) as [q|] eqn:Eq.
  - assert (forall ch', (ch' = <[en_sender e := accept q [mkPush topic (en_id e) data]]> ch \/ ch' = ch /\ accept q [mkPush topic (en_id e) data] = q) ->
      (forall tx, (fun q => accept q (owed topic data es tx)) <$> ch' !! tx = (fun q => accept q (owed topic data (e :: es) tx)) <$> ch !! tx) /\
      (forall x, ch' !! x = None <-> ch !! x = None)) as Hch.
    { intros ch' Hc. assert (forall tx, ch' !! tx = if decide (tx = en_sender e) then Some (accept q [mkPush topic (en_id e) data]) else ch !! tx) as Hl.
      { intros tx. destruct (decide (tx = en_sender e)) as [->|Hne]; destruct Hc as [->|[-> Hq]];
          [by rewrite lookup_insert_eq|by rewrite Eq, Hq|by rewrite lookup_insert_ne|done]. }
      split; intros tx; rewrite Hl; destruct (decide (tx = en_sender e)) as [->|Hne].
      - rewrite Eq. cbn [fmap option_fmap option_map]. rewrite owed_cons, bool_decide_eq_true_2 by done. cbn [app]. f_equal.
        by rewrite (accept_cons q _ []), accept_nil, accept_cons.
      - rewrite owed_cons, bool_decide_eq_false_2 by (intros [_ ?]; congruence). done.
      - by rewrite Eq.
      - done. }
    assert (forall ch' : gmap nat (list (Push Data)), (forall x, ch' !! x = None <-> ch !! x = None) -> forall l : list Entry,
      filter (fun e => en_topic e = topic /\ ch' !! en_sender e = None) l = filter (fun e => en_topic e = topic /\ ch !! en_sender e = None) l) as Hf.
    { intros ch' Hx l. apply list_filter_iff. intros x. by rewrite Hx. }
    case_bool_decide as Hlen.
    + destruct (Hch (<[en_sender e := q ++ [mkPush topic (en_id e) data]]> ch)) as [G1 G2].
      { left. by rewrite accept_cons, accept_nil, bool_decide_eq_true_2. }
      destruct (IH (<[en_sender e := q ++ [mkPush topic (en_id e) data]]> ch) acc) as [H1 H2]. split.
      * intros tx. by rewrite H1, G1.
      * rewrite H2, (Hf _ G2), filter_cons, decide_False by (rewrite Eq; by intros [_ [=]]). done.
    + destruct (Hch ch) as [G1 G2]. { right. by rewrite accept_cons, accept_nil, bool_decide_eq_false_2. }
      destruct (IH ch acc) as [H1 H2]. split.
      * intros tx. by rewrite H1, G1.
      * rewrite H2, filter_cons, decide_False by (rewrite Eq; by intros [_ [=]]). done.
  - destruct (IH ch (acc ++ [en_id e])) as [H1 H2]. split.
    + intros tx. rewrite H1, owed_cons. case_bool_decide as Hx; [|done]. destruct Hx as [_ <-]. by rewrite Eq.
    + rewrite H2, filter_cons, decide_True by done. cbn [map]. by rewrite <- app_assoc.
Qed.
End Fanout.
