(* ===== verification/Control.v ===== *)
(** * The control protocol (src/control.rs, control_socket.rs)

    JSON-RPC requests, one per line: parameter checks, the effect on the shared
    configuration, error codes, notifications, and the subscriptions of the Unix
    socket.  Decoding a line into a request is serde's work and a parameter
    ([from_str]); responses are values, their text is not modelled.  The JSON
    the statistics give is an argument. *)
From stdpp Require Import strings pretty.
From S2P Require Import Prelude F64 Config Connection Selection Reload Subscriptions.
Open Scope Z_scope.

(** ** JSON values *)
Inductive Number := PosInt (n : Z) | NegInt (n : Z) | Float (f : f64).
Inductive Value :=
  | VNull
  | VBool (b : bool)
  | VNum (n : Number)
  | VStr (s : string)
  | VArr (l : list Value)
  | VObj (fields : list (string * Value)).

Fixpoint field (key : string) (fields : list (string * Value)) : option Value :=
  match fields with
  | [] => None
  | (k, v) :: rest => if bool_decide (k = key) then Some v else field key rest
  end.
Definition value_get (v : Value) (key : string) : option Value :=
  match v with VObj fields => field key fields | _ => None end.
Definition as_str (v : Value) : option string := match v with VStr s => Some s | _ => None end.
Definition as_bool (v : Value) : option bool := match v with VBool b => Some b | _ => None end.
Definition as_u64 (v : Value) : option Z := match v with VNum (PosInt n) => Some n | _ => None end.
Definition json_int (n : Z) : Value := VNum (if 0 <=? n then PosInt n else NegInt n).

(** ** Requests and responses *)
Definition JSONRPC_VERSION : string := "2.0".
Definition PARSE_ERROR : Z := -32700.
Definition INVALID_REQUEST : Z := -32600.
Definition METHOD_NOT_FOUND : Z := -32601.
Definition INVALID_PARAMS : Z := -32602.
Definition INTERNAL_ERROR : Z := -32603.

Record Request := mkRequest { rq_jsonrpc : string; rq_method : string; rq_params : Value; rq_id : option Value }.
Record ErrorObject := mkError { er_code : Z; er_message : string; er_data : option Value }.
Definition error_new (code : Z) (message : string) : ErrorObject := mkError code message None.
Record Response := mkResponse { rs_result : option Value; rs_error : option ErrorObject; rs_id : Value }.
Definition response_ok (id result : Value) : Response := mkResponse (Some result) None id.
Definition response_err (id : Value) (e : ErrorObject) : Response := mkResponse None (Some e) id.

Definition dquote : string := String (Ascii.ascii_of_nat 34) EmptyString.
Definition version_message : string := "jsonrpc version must be " +:+ dquote +:+ "2.0" +:+ dquote.

Definition parse_mode (s : string) : SchedulingMode + ErrorObject :=
  if bool_decide (s = "classic"%string) then inl Classic
  else if bool_decide (s = "enhanced"%string) then inl Enhanced
  else inr (error_new INVALID_PARAMS ("unknown mode '" +:+ s +:+ "': use classic or enhanced")).

(** [params.get(key).and_then(as_).ok_or_else(INVALID_PARAMS)]. *)
Definition param {A : Type} (params : Value) (key : string) (as_ : Value -> option A) (message : string) : A + ErrorObject :=
  match value_get params key ≫= as_ with Some x => inl x | None => inr (error_new INVALID_PARAMS message) end.

(** What [get_stats] finds: no provider, or the JSON of the statistics with the
    outcome of parsing it again. *)
Definition StatsProvider : Type := option (Value + string).

Definition status_json (snap : ConfigSnapshot) (critical_window : option CriticalWindow) : Value :=
  let '(received, malformed) :=
    match critical_window with Some w => (windows_received w, malformed_datagrams w) | None => (0, 0) end in
  VObj [("mode", VStr (mode_display (cfg_mode snap))); ("quality_enabled", VBool (cfg_quality_enabled snap));
        ("stall_deselect", VBool (cfg_stall_deselect snap)); ("stall_min_in_flight", json_int (cfg_stall_min_in_flight snap));
        ("stall_ack_stale_ms", json_int (cfg_stall_ack_stale_ms snap)); ("conn_timeout_ms", json_int (cfg_conn_timeout_ms snap));
        ("critical_windows_received", json_int received); ("critical_malformed_datagrams", json_int malformed)]%string.

Definition handle_method (config : DynamicConfig) (stats : StatsProvider) (critical_window : option CriticalWindow)
    (method : string) (params : Value) : DynamicConfig * (Value + ErrorObject) :=
  if bool_decide (method = "set_mode"%string) then
    match param params "mode" as_str "expected params.mode: string" with
    | inr e => (config, inr e)
    | inl mode_str =>
      match parse_mode mode_str with
      | inr e => (config, inr e)
      | inl mode => (set_mode config mode, inl (VObj [("mode"%string, VStr (mode_display mode))]))
      end
    end
  else if bool_decide (method = "set_quality"%string) then
    match param params "enabled" as_bool "expected params.enabled: bool" with
    | inr e => (config, inr e)
    | inl enabled => (set_quality_enabled config enabled, inl (VObj [("enabled"%string, VBool enabled)]))
    end
  else if bool_decide (method = "set_stall_deselect"%string) then
    match param params "enabled" as_bool "expected params.enabled: bool" with
    | inr e => (config, inr e)
    | inl enabled => (set_stall_deselect config enabled, inl (VObj [("enabled"%string, VBool enabled)]))
    end
  else if bool_decide (method = "set_conn_timeout"%string) then
    match param params "ms" as_u64 "expected params.ms: u64" with
    | inr e => (config, inr e)
    | inl ms =>
      let '(config, applied) := set_conn_timeout_ms config ms in
      (config, inl (VObj [("ms"%string, json_int applied)]))
    end
  else if bool_decide (method = "get_status"%string) then (config, inl (status_json (snapshot config) critical_window))
  else if bool_decide (method = "get_stats"%string) then
    (config, match stats with
             | None => inr (error_new INTERNAL_ERROR "stats provider not registered")
             | Some (inl v) => inl v
             | Some (inr e) => inr (mkError INTERNAL_ERROR "failed to re-parse stats JSON" (Some (VStr e)))
             end)
  else if bool_decide (method = "subscribe"%string) || bool_decide (method = "unsubscribe"%string) then
    (config, inr (error_new METHOD_NOT_FOUND (method +:+ " is reserved for a future streaming protocol, not yet implemented")))
  else (config, inr (error_new METHOD_NOT_FOUND ("unknown method: " +:+ method))).

(** The answer to a request, given what its method returned. *)
Definition answer (id : option Value) (result : Value + ErrorObject) : option Response :=
  match id with
  | None => None
  | Some id => Some (match result with inl v => response_ok id v | inr e => response_err id e end)
  end.

(** ** Subscriptions of a connection *)
Definition is_known_topic (topic : string) : bool :=
  bool_decide (topic = "stats"%string) || bool_decide (topic = "priority.window"%string).

(** The hub, the ids the connection owns, and its push channel. *)
Record SubscriptionContext := mkContext { sc_hub : SubscriptionHub; sc_push_tx : nat; sc_owned_ids : list string }.

Definition handle_subscribe (ctx : SubscriptionContext) (params : Value) : SubscriptionContext * (Value + ErrorObject) :=
  match param params "topic" as_str "expected params.topic: string" with
  | inr e => (ctx, inr e)
  | inl topic =>
    if negb (is_known_topic topic) then (ctx, inr (error_new INVALID_PARAMS ("unknown topic: " +:+ topic)))
    else
      let '(hub, id) := subscribe (sc_hub ctx) topic (sc_push_tx ctx) in
      (mkContext hub (sc_push_tx ctx) (sc_owned_ids ctx ++ [id]), inl (VObj [("subscription_id"%string, VStr id)]))
  end.

Definition handle_unsubscribe (ctx : SubscriptionContext) (params : Value) : SubscriptionContext * (Value + ErrorObject) :=
  match param params "subscription_id" as_str "expected params.subscription_id: string" with
  | inr e => (ctx, inr e)
  | inl id =>
    let '(hub, removed) := unsubscribe (sc_hub ctx) id in
    (mkContext hub (sc_push_tx ctx) (filter (fun x => x <> id) (sc_owned_ids ctx)),
     inl (VObj [("removed"%string, VBool removed)]))
  end.

Section Dispatch.
(** [serde_json::from_str::<Request>]: the request or the text of the error. *)
Context (from_str : chars -> Request + string).

(** [dispatch], on the stdin loop. *)
Definition dispatch_inner (config : DynamicConfig) (stats : StatsProvider) (critical_window : option CriticalWindow)
    (line : chars) : DynamicConfig * option Response :=
  let line := trim line in
  if bool_decide (line = []) then (config, None)
  else
    match from_str line with
    | inr e => (config, Some (response_err VNull (mkError PARSE_ERROR "parse error" (Some (VStr e)))))
    | inl req =>
      if negb (bool_decide (rq_jsonrpc req = JSONRPC_VERSION)) then
        (config, (fun id => response_err id (error_new INVALID_REQUEST version_message)) <$> rq_id req)
      else
        let '(config, result) := handle_method config stats critical_window (rq_method req) (rq_params req) in
        (config, answer (rq_id req) result)
    end.

(** [dispatch_async], on the Unix socket; [ctx] is there for every request of it. *)
Definition dispatch_async (config : DynamicConfig) (stats : StatsProvider) (critical_window : option CriticalWindow)
    (ctx : SubscriptionContext) (line : chars) : DynamicConfig * SubscriptionContext * option Response :=
  let line := trim line in
  if bool_decide (line = []) then (config, ctx, None)
  else
    match from_str line with
    | inr e => (config, ctx, Some (response_err VNull (mkError PARSE_ERROR "parse error" (Some (VStr e)))))
    | inl req =>
      if negb (bool_decide (rq_jsonrpc req = JSONRPC_VERSION)) then
        (config, ctx, (fun id => response_err id (error_new INVALID_REQUEST version_message)) <$> rq_id req)
      else
        let '(config, ctx, result) :=
          if bool_decide (rq_method req = "subscribe"%string) then
            let '(ctx, r) := handle_subscribe ctx (rq_params req) in (config, ctx, r)
          else if bool_decide (rq_method req = "unsubscribe"%string) then
            let '(ctx, r) := handle_unsubscribe ctx (rq_params req) in (config, ctx, r)
          else if bool_decide (rq_method req = "get_subscription_count"%string) then
            (config, ctx, inl (VObj [("count"%string, json_int (Z.of_nat (hub_len (sc_hub ctx))))]))
          else
            let '(config, r) := handle_method config stats critical_window (rq_method req) (rq_params req) in (config, ctx, r) in
        (config, ctx, answer (rq_id req) result)
    end.
End Dispatch.

(** ** What a request asks for *)
Definition setters : list string := ["set_mode"; "set_quality"; "set_stall_deselect"; "set_conn_timeout"]%string.
Definition readers : list string := ["get_status"; "get_stats"]%string.
Definition streaming : list string := ["subscribe"; "unsubscribe"; "get_subscription_count"]%string.

(** The change of the configuration that a method with these parameters stands for. *)
Definition request_op (method : string) (params : Value) : option config_op :=
  if bool_decide (method = "set_mode"%string) then SetMode <$> ((value_get params "mode" ≫= as_str) ≫= mode_from_str)
  else if bool_decide (method = "set_quality"%string) then SetQuality <$> (value_get params "enabled" ≫= as_bool)
  else if bool_decide (method = "set_stall_deselect"%string) then SetStallDeselect <$> (value_get params "enabled" ≫= as_bool)
  else if bool_decide (method = "set_conn_timeout"%string) then SetConnTimeout <$> (value_get params "ms" ≫= as_u64)
  else None.

Lemma parse_mode_spec s :
  match mode_from_str s with Some m => parse_mode s = inl m | None => exists e, parse_mode s = inr e /\ er_code e = INVALID_PARAMS end.
Proof. unfold mode_from_str, parse_mode. repeat case_bool_decide; eauto. Qed.

(** How a method ends: done, or failed with a code that names the cause. *)
Inductive method_outcome (stats : StatsProvider) (method : string) (params : Value) (config : DynamicConfig)
    : DynamicConfig * (Value + ErrorObject) -> Prop :=
  | MoSet op v : method ∈ setters -> request_op method params = Some op ->
      method_outcome stats method params config (config_step config op, inl v)
  | MoRead v : method ∈ readers -> request_op method params = None ->
      ~ (method = "get_stats"%string /\ ~ exists v, stats = Some (inl v)) ->
      method_outcome stats method params config (config, inl v)
  | MoParams e : method ∈ setters -> request_op method params = None -> er_code e = INVALID_PARAMS ->
      method_outcome stats method params config (config, inr e)
  | MoInternal e : method = "get_stats"%string -> request_op method params = None -> ~ (exists v, stats = Some (inl v)) ->
      er_code e = INTERNAL_ERROR -> method_outcome stats method params config (config, inr e)
  | MoUnknown e : method ∉ setters ++ readers -> request_op method params = None -> er_code e = METHOD_NOT_FOUND ->
      method_outcome stats method params config (config, inr e).

(** One branch of the dispatch on the method's name. *)
Ltac method_branch method m :=
  destruct (decide (method = m)) as [->|];
  [rewrite bool_decide_eq_true_2 by done|rewrite (bool_decide_eq_false_2 (method = m)) by done].
Ltac setter_branch op :=
  match goal with
  | |- context [match ?x with Some _ => _ | None => _ end] =>
      destruct x as [a|] eqn:?; [apply (MoSet _ _ _ _ (op a)); [set_solver|done]|apply MoParams; [set_solver|done|done]]
  end.

Lemma handle_method_outcome config stats w method params :
  method_outcome stats method params config (handle_method config stats w method params).
Proof.
  pose proof (eq_refl (request_op method params)) as Ho. unfold request_op at 2 in Ho. revert Ho. unfold handle_method, param.
  method_branch method "set_mode"%string.
  { intros Ho. destruct (value_get params "mode" ≫= as_str) as [s|] eqn:E; [|by apply MoParams; [set_solver| |]].
    cbn [mbind option_bind] in Ho. pose proof (parse_mode_spec s) as Hp. destruct (mode_from_str s) as [m|].
    - rewrite Hp. by apply (MoSet _ _ _ _ (SetMode m)); [set_solver|].
    - destruct Hp as (e & -> & He). by apply MoParams; [set_solver| |]. }
  method_branch method "set_quality"%string. { intros Ho. setter_branch SetQuality. }
  method_branch method "set_stall_deselect"%string. { intros Ho. setter_branch SetStallDeselect. }
  method_branch method "set_conn_timeout"%string. { intros Ho. setter_branch SetConnTimeout. }
  intros Ho. method_branch method "get_status"%string. { apply MoRead; [set_solver|done|by intros [? _]]. }
  method_branch method "get_stats"%string.
  { destruct stats as [[v|e]|].
    - apply MoRead; [set_solver|done|]. intros [_ H]. apply H. eauto.
    - apply MoInternal; [done..| |done]. by intros [? [=]].
    - apply MoInternal; [done..| |done]. by intros [? [=]]. }
  assert (method ∉ setters ++ readers) as Hn by (unfold setters, readers; cbn; rewrite !not_elem_of_cons; repeat split; [done..|apply not_elem_of_nil]).
  destruct (_ || _); by apply MoUnknown.
Qed.

(** ** Answers *)
Section Answers.
Context (from_str : chars -> Request + string).

(** The request that gets as far as its method. *)
Definition admitted (line : chars) : option Request :=
  if bool_decide (trim line = []) then None
  else match from_str (trim line) with
       | inl req => if bool_decide (rq_jsonrpc req = JSONRPC_VERSION) then Some req else None
       | inr _ => None
       end.

(** The causes of an error, by code. *)
Definition error_cause (stats : StatsProvider) (line : chars) (code : Z) : Prop :=
  (code = PARSE_ERROR /\ exists t, from_str (trim line) = inr t) \/
  (code = INVALID_REQUEST /\ exists req, from_str (trim line) = inl req /\ rq_jsonrpc req <> JSONRPC_VERSION) \/
  (exists req, admitted line = Some req /\ request_op (rq_method req) (rq_params req) = None /\
    ((code = INVALID_PARAMS /\ rq_method req ∈ setters) \/
     (code = METHOD_NOT_FOUND /\ rq_method req ∉ setters ++ readers) \/
     (code = INTERNAL_ERROR /\ rq_method req = "get_stats"%string /\ ~ exists v, stats = Some (inl v)))).

(** The id an answer to a line carries: that of the request, or null when there is none to read. *)
Definition reply_id (line : chars) : option Value :=
  match from_str (trim line) with inl req => rq_id req | inr _ => Some VNull end.

Lemma handle_method_answer config stats w req line id r
    (Ha : admitted line = Some req) (Hid : rq_id req = Some id)
    (Hr : answer (rq_id req) (handle_method config stats w (rq_method req) (rq_params req)).2 = Some r) :
  (rs_error r = None <-> is_Some (rs_result r)) /\
  (rs_error r = None -> is_Some (request_op (rq_method req) (rq_params req)) \/ rq_method req ∈ readers) /\
  (forall e, rs_error r = Some e ->
    (handle_method config stats w (rq_method req) (rq_params req)).1 = config /\ error_cause stats line (er_code e)).
Proof.
  rewrite Hid in Hr. injection Hr as <-.
  destruct (handle_method_outcome config stats w (rq_method req) (rq_params req)) as [op v Hs Ho|v Hs Ho Hx|e Hs Ho Hc|e Hs Ho Hx Hc|e Hs Ho Hc];
    cbn [fst snd response_ok response_err rs_error rs_result].
  - split; [by split|]. split; [left; by rewrite Ho|done].
  - split; [by split|]. split; [by right|done].
  - split; [split; [done|by intros [? [=]]]|]. split; [done|]. intros ? [= <-]. split; [done|]. right; right. exists req. rewrite Hc. tauto.
  - split; [split; [done|by intros [? [=]]]|]. split; [done|]. intros ? [= <-]. split; [done|]. right; right. exists req. rewrite Hc. tauto.
  - split; [split; [done|by intros [? [=]]]|]. split; [done|]. intros ? [= <-]. split; [done|]. right; right. exists req. rewrite Hc. tauto.
Qed.

Lemma handle_method_config config stats w method params :
  (handle_method config stats w method params).1 = from_option (config_step config) config (request_op method params).
Proof. by destruct (handle_method_outcome config stats w method params) as [? ? ? ->|? ? ->|? ? ->|? ? ->|? ? ->]. Qed.

(** The change of the configuration that a line asks for. *)
Definition line_op (line : chars) : option config_op := admitted line ≫= fun req => request_op (rq_method req) (rq_params req).

Lemma dispatch_inner_config config stats w line :
  (dispatch_inner from_str config stats w line).1 = from_option (config_step config) config (line_op line).
Proof.
  unfold dispatch_inner, line_op, admitted. case_bool_decide; [done|]. destruct (from_str (trim line)) as [req|]; [|done].
  case_bool_decide; [|done]. cbn [negb mbind option_bind]. pose proof (handle_method_config config stats w (rq_method req) (rq_params req)) as Hm.
  by destruct (handle_method _ _ _ _ _).
Qed.

Lemma dispatch_async_config config stats w ctx line :
  (dispatch_async from_str config stats w ctx line).1.1 = from_option (config_step config) config (line_op line).
Proof.
  unfold dispatch_async, line_op, admitted. case_bool_decide; [done|]. destruct (from_str (trim line)) as [req|]; [|done].
  case_bool_decide; [|done]. cbn [negb mbind option_bind]. pose proof (handle_method_config config stats w (rq_method req) (rq_params req)) as Hm.
  assert (rq_method req ∈ streaming -> request_op (rq_method req) (rq_params req) = None) as Hs.
  { intros Hin. unfold streaming in Hin. repeat (apply elem_of_cons in Hin as [->|Hin]; [done|]). by apply elem_of_nil in Hin. }
  case_bool_decide as E1; [|case_bool_decide as E2; [|case_bool_decide as E3]].
  - destruct (handle_subscribe _ _). cbn. rewrite Hs; [done|]. rewrite E1. by left.
  - destruct (handle_unsubscribe _ _). cbn. rewrite Hs; [done|]. rewrite E2. right. by left.
  - cbn. rewrite Hs; [done|]. rewrite E3. right. right. by left.
  - by destruct (handle_method _ _ _ _ _).
Qed.

(** C32: a line on the control channel changes the shared configuration exactly
    as the setter it names with well-formed parameters does, and not at all
    otherwise; it is answered, under the id of its request, unless it is blank
    or a notification, whose effect is still applied; an answer holds a result
    or an error, an error means that nothing was changed and its code tells the
    cause (unparsable line, wrong version, unknown method, bad parameters of a
    setter, missing statistics). *)
Theorem dispatch_spec config stats w line :
  let '(config', resp) := dispatch_inner from_str config stats w line in
  config' = from_option (config_step config) config (admitted line ≫= fun req => request_op (rq_method req) (rq_params req)) /\
  rs_id <$> resp = (if bool_decide (trim line = []) then None else reply_id line) /\
  (forall r, resp = Some r ->
    (rs_error r = None <-> is_Some (rs_result r)) /\
    (rs_error r = None -> exists req, admitted line = Some req /\
       (is_Some (request_op (rq_method req) (rq_params req)) \/ rq_method req ∈ readers)) /\
    (forall e, rs_error r = Some e -> config' = config /\ error_cause stats line (er_code e))).
Proof.
  unfold dispatch_inner, reply_id. pose proof (eq_refl (admitted line)) as Ha. unfold admitted at 2 in Ha.
  case_bool_decide as Hb; [by rewrite Ha|].
  destruct (from_str (trim line)) as [req|t] eqn:Ef.
  2: { rewrite Ha. split; [done|]. split; [done|]. intros r [= <-]. split; [split; [done|by intros [? [=]]]|]. split; [done|].
       intros e [= <-]. split; [done|]. left. eauto. }
  case_bool_decide as Hv; cbn [negb].
  - pose proof (handle_method_config config stats w (rq_method req) (rq_params req)) as Hc.
    pose proof (fun id r => handle_method_answer config stats w req line id r Ha) as Hm.
    destruct (handle_method config stats w (rq_method req) (rq_params req)) as [config' result]. cbn [fst snd] in Hc, Hm.
    rewrite Ha. split; [done|]. split; [by destruct (rq_id req), result|]. intros r Hr.
    destruct (rq_id req) as [id|] eqn:Ei; [|done]. destruct (Hm id r eq_refl Hr) as (H1 & H2 & H3). eauto 6.
  - rewrite Ha. split; [done|]. split; [by destruct (rq_id req)|]. intros r Hr. destruct (rq_id req) as [id|]; [|done]. injection Hr as <-.
    split; [split; [done|by intros [? [=]]]|]. split; [done|]. intros e [= <-]. split; [done|]. right; left. eauto.
Qed.

(** The Unix socket and the standard input answer alike: the same effect on
    the configuration, the same lines answered, and outside the three methods
    of subscriptions the same answer with the subscriptions left alone; those
    three methods are unknown on the standard input and never touch the
    configuration. *)
Theorem transports_agree config stats w ctx line :
  let '(config1, resp1) := dispatch_inner from_str config stats w line in
  let '(config2, ctx', resp2) := dispatch_async from_str config stats w ctx line in
  config2 = config1 /\ rs_id <$> resp2 = rs_id <$> resp1 /\
  match admitted line with
  | Some req =>
      if bool_decide (rq_method req ∈ streaming) then
        config1 = config /\ forall r, resp1 = Some r -> er_code <$> rs_error r = Some METHOD_NOT_FOUND
      else ctx' = ctx /\ resp2 = resp1
  | None => ctx' = ctx /\ resp2 = resp1
  end.
Proof.
  unfold dispatch_inner, dispatch_async. pose proof (eq_refl (admitted line)) as Ha. unfold admitted at 2 in Ha.
  case_bool_decide as Hb; [by rewrite Ha|]. destruct (from_str (trim line)) as [req|t]; [|by rewrite Ha].
  case_bool_decide as Hv; cbn [negb]; [|by rewrite Ha]. rewrite Ha.
  destruct (decide (rq_method req ∈ streaming)) as [Hs|Hs].
  - rewrite (bool_decide_eq_true_2 (_ ∈ _)) by done.
    pose proof (handle_method_config config stats w (rq_method req) (rq_params req)) as Hc.
    assert (request_op (rq_method req) (rq_params req) = None /\ rq_method req ∉ setters ++ readers) as [Ho Hn].
    { revert Hs. generalize (rq_method req). intros m Hm. unfold streaming in Hm.
      repeat (apply elem_of_cons in Hm as [->|Hm]; [split; [done|by apply (bool_decide_eq_false_1 _)]|]). by apply elem_of_nil in Hm. }
    rewrite Ho in Hc. cbn in Hc.
    destruct (handle_method_outcome config stats w (rq_method req) (rq_params req)) as [op v Hx ?|v Hx|e Hx|e Hx|e _ _ He];
      [congruence|by destruct Hn; apply elem_of_app; right|by destruct Hn; apply elem_of_app; left|
       by destruct Hn; rewrite Hx; apply (bool_decide_eq_true_1 _)|].
    cbn [answer].
    assert (forall r, answer (rq_id req) (inr e) = Some r -> er_code <$> rs_error r = Some METHOD_NOT_FOUND) as Hr.
    { intros r. destruct (rq_id req); [|done]. cbn. intros [= <-]. cbn. by rewrite He. }
    revert Hr. generalize (inr e : Value + ErrorObject). intros res1 Hr.
    destruct (if bool_decide _ then _ else _) as [[config2 ctx'] res2] eqn:E.
    assert (config2 = config) as ->.
    { revert E. repeat case_bool_decide; [..|by repeat (apply elem_of_cons in Hs as [?|Hs]; [done|]); apply elem_of_nil in Hs].
      - destruct (handle_subscribe _ _). by intros [= <- <- <-].
      - destruct (handle_unsubscribe _ _). by intros [= <- <- <-].
      - by intros [= <- <- <-]. }
    split; [done|]. split; [|done]. by destruct (rq_id req), res1, res2.
  - rewrite (bool_decide_eq_false_2 (_ ∈ _)) by done. unfold streaming in Hs. rewrite !not_elem_of_cons in Hs. destruct Hs as (H1 & H2 & H3 & _).
    rewrite !bool_decide_eq_false_2 by done. by destruct (handle_method _ _ _ _ _).
Qed.
End Answers.
