(* ===== verification/ControlSocket.v ===== *)
(** * The control socket (src/control_socket.rs)

    The connections of the Unix socket as a transition system over the shared
    configuration, the subscription hub and the push channels.  Every event is
    one stretch of a task between two awaits: an accepted connection, a line
    read and answered, a push written, the end of the input, one step of the
    clean-up of a closed connection, its end, the two critical sections of
    [publish], and a change of the shared configuration by another task.  [subscribe] takes its number and adds its entry in one event.
    [sk_pruning] holds the publications that wait for their second lock. *)
From stdpp Require Import strings pretty.
From S2P Require Import Prelude Config Connection Selection Reload Subscriptions Control.
Open Scope Z_scope.

Inductive Phase := Serving | Closing.
Inductive Line := Reply (r : Response) | Event (p : Push Value).

(** One [handle] task: where it is, the ids it owns and the lines it has written. *)
Record Conn := mkConn { cn_phase : Phase; cn_owned : list string; cn_written : list Line }.
Global Instance eta_conn : Eta Conn := fun c => mkConn (cn_phase c) (cn_owned c) (cn_written c).

Record Sock := mkSock {
  sk_config : DynamicConfig;
  sk_hub : SubscriptionHub;
  sk_channels : gmap nat (list (Push Value));
  sk_conns : gmap nat Conn;
  sk_pruning : list (list string);
  sk_next : nat }.
Global Instance eta_sock : Eta Sock := fun s =>
  mkSock (sk_config s) (sk_hub s) (sk_channels s) (sk_conns s) (sk_pruning s) (sk_next s).

Definition sock_start (config : DynamicConfig) : Sock := mkSock config hub_new ∅ ∅ [] 0.

(** [wrote]: whether the write to the socket succeeds. *)
Inductive sock_event :=
  | SkAccept
  | SkLine (c : nat) (stats : StatsProvider) (w : option CriticalWindow) (line : chars) (wrote : bool)
  | SkPush (c : nat) (wrote : bool)
  | SkEnd (c : nat)
  | SkCleanup (c : nat)
  | SkDrop (c : nat)
  | SkPublish (topic : string) (data : Value)
  | SkPrune
  | SkShared (config : DynamicConfig).

Section Socket.
Context (from_str : chars -> Request + string).

(** Writing a line, or leaving the loop when that fails. *)
Definition write_line (cn : Conn) (l : Line) (wrote : bool) : Conn :=
  if wrote then cn <| cn_written ::= fun ls => ls ++ [l] |> else cn <| cn_phase := Closing |>.

Definition handle_line (st : Sock) (c : nat) (cn : Conn) (stats : StatsProvider) (w : option CriticalWindow)
    (line : chars) (wrote : bool) : Sock :=
  let trimmed := trim line in
  if bool_decide (trimmed = []) then st
  else
    let '(config, ctx, resp) :=
      dispatch_async from_str (sk_config st) stats w (mkContext (sk_hub st) c (cn_owned cn)) trimmed in
    let cn := cn <| cn_owned := sc_owned_ids ctx |> in
    let cn := match resp with Some r => write_line cn (Reply r) wrote | None => cn end in
    st <| sk_config := config |> <| sk_hub := sc_hub ctx |> <| sk_conns ::= <[c := cn]> |>.

(** [None] where the event cannot happen. *)
Definition sock_step (st : Sock) (ev : sock_event) : option Sock :=
  match ev with
  | SkAccept =>
      Some (st <| sk_conns ::= <[sk_next st := mkConn Serving [] []]> |>
               <| sk_channels ::= <[sk_next st := []]> |> <| sk_next ::= S |>)
  | SkLine c stats w line wrote =>
      match sk_conns st !! c with
      | Some cn => if cn_phase cn is Serving then Some (handle_line st c cn stats w line wrote) else None
      | None => None
      end
  | SkPush c wrote =>
      match sk_conns st !! c, sk_channels st !! c with
      | Some cn, Some (p :: q) =>
          if cn_phase cn is Serving then
            Some (st <| sk_channels ::= <[c := q]> |> <| sk_conns ::= <[c := write_line cn (Event p) wrote]> |>)
          else None
      | _, _ => None
      end
  | SkEnd c =>
      match sk_conns st !! c with
      | Some cn => if cn_phase cn is Serving then Some (st <| sk_conns ::= <[c := cn <| cn_phase := Closing |>]> |>) else None
      | None => None
      end
  | SkCleanup c =>
      match sk_conns st !! c with
      | Some (mkConn Closing (id :: rest) ls) =>
          Some (st <| sk_hub := (unsubscribe (sk_hub st) id).1 |> <| sk_conns ::= <[c := mkConn Closing rest ls]> |>)
      | _ => None
      end
  | SkDrop c =>
      match sk_conns st !! c with
      | Some (mkConn Closing [] _) => Some (st <| sk_conns ::= delete c |> <| sk_channels ::= delete c |>)
      | _ => None
      end
  | SkPublish topic data =>
      let '(ch, to_prune) := publish_scan topic data (hub_entries (sk_hub st)) (sk_channels st) [] in
      let st := st <| sk_channels := ch |> in
      Some (if bool_decide (to_prune = []) then st else st <| sk_pruning ::= fun l => l ++ [to_prune] |>)
  | SkPrune =>
      match sk_pruning st with
      | ids :: rest => Some (st <| sk_hub := prune (sk_hub st) ids |> <| sk_pruning := rest |>)
      | [] => None
      end
  | SkShared config => Some (st <| sk_config := config |>)
  end.

Definition sock_run (evs : list sock_event) (st : Sock) : option Sock :=
  foldl (fun o ev => o ≫= fun st => sock_step st ev) (Some st) evs.

(** The states reached by [n] events. *)
Inductive sock_reach : Z -> Sock -> Prop :=
  | sk_init config : sock_reach 0 (sock_start config)
  | sk_more n st ev st' : sock_reach n st -> sock_step st ev = Some st' -> sock_reach (n + 1) st'.

(** ** The invariant *)

(** The ids a connection owns. *)
Definition owned (st : Sock) (c : nat) : option (list string) := cn_owned <$> sk_conns st !! c.

(** Every subscription belongs to an open connection that owns its id. *)
Definition entries_owned (es : list Entry) (ow : nat -> option (list string)) : Prop :=
  forall e, e ∈ es -> exists ids, ow (en_sender e) = Some ids /\ en_id e ∈ ids.

(** Ids are distinct, were handed out, and are owned only by the connection of their subscription. *)
Record ids_ok (next : Z) (es : list Entry) (ow : nat -> option (list string)) : Prop := {
  io_names : forall c ids x, ow c = Some ids -> x ∈ ids -> exists k, 0 <= k < next /\ x = subscription_name k;
  io_owner : forall c ids e, ow c = Some ids -> e ∈ es -> en_id e ∈ ids -> en_sender e = c;
  io_distinct : NoDup (map en_id es) }.

Definition sock_ids (st : Sock) : Prop := ids_ok (next_id (sk_hub st)) (hub_entries (sk_hub st)) (owned st).

Record sock_ok (st : Sock) : Prop := {
  so_owned : entries_owned (hub_entries (sk_hub st)) (owned st);
  so_channels : forall c, is_Some (sk_channels st !! c) <-> is_Some (sk_conns st !! c);
  so_capacity : forall c q, sk_channels st !! c = Some q -> (length q <= PUSH_CAPACITY)%nat;
  so_pruning : sk_pruning st = [];
  so_fresh : forall c, is_Some (sk_conns st !! c) -> (c < sk_next st)%nat }.

Section Ownership.
Context (es : list Entry) (ow ow' : nat -> option (list string)) (c : nat) (ids ids' : list string).
Context (Hc : ow c = Some ids) (Hc' : ow' c = Some ids') (Hrest : forall x, x <> c -> ow' x = ow x).

Lemma entries_owned_subscribe id topic : entries_owned es ow -> ids' = ids ++ [id] -> entries_owned (es ++ [mkEntry id topic c]) ow'.
Proof using Hc Hc' Hrest.
  intros H -> e [He| ->%list_elem_of_singleton]%elem_of_app.
  - destruct (H e He) as (l & Hl & Hin). destruct (decide (en_sender e = c)) as [Ec|Ec].
    + rewrite Ec in *. exists (ids ++ [id]). split; [done|]. apply elem_of_app; left. congruence.
    + exists l. by rewrite Hrest.
  - exists (ids ++ [id]). split; [done|]. apply elem_of_app; right. by apply list_elem_of_singleton.
Qed.

Lemma entries_owned_unsubscribe id : entries_owned es ow -> (forall y, y ∈ ids -> y <> id -> y ∈ ids') ->
  entries_owned (filter (fun e => en_id e <> id) es) ow'.
Proof using Hc Hc' Hrest.
  intros H Hk e [Hn He]%list_elem_of_filter. destruct (H e He) as (l & Hl & Hin). destruct (decide (en_sender e = c)) as [Ec|Ec].
  - rewrite Ec in *. exists ids'. split; [done|]. apply Hk; [congruence|done].
  - exists l. by rewrite Hrest.
Qed.

Lemma ids_ok_subscribe next topic : 0 <= next -> entries_owned es ow -> ids_ok next es ow -> ids' = ids ++ [subscription_name next] ->
  ids_ok (next + 1) (es ++ [mkEntry (subscription_name next) topic c]) ow'.
Proof using Hc Hc' Hrest.
  intros H0 Ho Hi E. assert (forall d l x, ow' d = Some l -> x ∈ l -> d = c /\ x = subscription_name next \/ exists l0, ow d = Some l0 /\ x ∈ l0) as Hl.
  { intros d l x Hd Hx. destruct (decide (d = c)) as [->|Hne]; [|right; rewrite Hrest in Hd by done; eauto].
    rewrite Hc' in Hd. injection Hd as <-. rewrite E in Hx. apply elem_of_app in Hx as [Hx|Hx%list_elem_of_singleton]; eauto. }
  assert (forall e, e ∈ es -> en_id e <> subscription_name next) as Hf.
  { intros e He Heq. destruct (Ho e He) as (l & Hol & Hin). destruct (io_names _ _ _ Hi _ _ _ Hol Hin) as (k & Hk & Hx).
    rewrite Heq in Hx. apply subscription_name_inj in Hx; lia. }
  split.
  - intros d l x Hd Hx. destruct (Hl d l x Hd Hx) as [[-> ->]|(l0 & Hl0 & Hx0)]; [exists next; split; [lia|done]|].
    destruct (io_names _ _ _ Hi _ _ _ Hl0 Hx0) as (k & Hk & ->). exists k. split; [lia|done].
  - intros d l e Hd He Hx. destruct (Hl d l _ Hd Hx) as [[-> Heq]|(l0 & Hl0 & Hx0)].
    + apply elem_of_app in He as [He| ->%list_elem_of_singleton]; [|done]. by destruct (Hf e He).
    + apply elem_of_app in He as [He| ->%list_elem_of_singleton]; [by apply (io_owner _ _ _ Hi d l0)|].
      destruct (io_names _ _ _ Hi _ _ _ Hl0 Hx0) as (k & Hk & Hx'). apply subscription_name_inj in Hx'; lia.
  - rewrite map_app. apply NoDup_app. split; [apply (io_distinct _ _ _ Hi)|]. split; [|apply NoDup_singleton].
    intros x Hx Hx'. apply list_elem_of_singleton in Hx'. subst x. apply list_elem_of_fmap in Hx as (e & Hx & He). by apply (Hf e He).
Qed.

Lemma ids_ok_unsubscribe next id : ids_ok next es ow -> (forall y, y ∈ ids' -> y ∈ ids) ->
  ids_ok next (filter (fun e => en_id e <> id) es) ow'.
Proof using Hc Hc' Hrest.
  intros Hi Hk. assert (forall d l x, ow' d = Some l -> x ∈ l -> exists l0, ow d = Some l0 /\ x ∈ l0) as Hl.
  { intros d l x Hd Hx. destruct (decide (d = c)) as [->|Hne]; [|rewrite Hrest in Hd by done; eauto].
    exists ids. split; [done|]. apply Hk. congruence. }
  split.
  - intros d l x Hd Hx. destruct (Hl d l x Hd Hx) as (l0 & Hl0 & Hx0). eapply io_names; eauto.
  - intros d l e Hd [_ He]%list_elem_of_filter Hx. destruct (Hl d l _ Hd Hx) as (l0 & Hl0 & Hx0). eapply io_owner; eauto.
  - eapply sublist_NoDup; [apply (io_distinct _ _ _ Hi)|]. apply fmap_sublist, sublist_filter.
Qed.
End Ownership.

Lemma entries_owned_ext es ow ow' : (forall e, e ∈ es -> ow' (en_sender e) = ow (en_sender e)) -> entries_owned es ow -> entries_owned es ow'.
Proof. intros He H e Hin. destruct (H e Hin) as (l & Hl & Hx). exists l. by rewrite He. Qed.
Lemma ids_ok_sub next es ow ow' : (forall c ids, ow' c = Some ids -> ids = [] \/ ow c = Some ids) -> ids_ok next es ow -> ids_ok next es ow'.
Proof.
  intros Hs Hi. split; [| |apply (io_distinct _ _ _ Hi)].
  - intros c ids x Hc Hx. destruct (Hs c ids Hc) as [->|Ho]; [by apply elem_of_nil in Hx|]. eapply io_names; eauto.
  - intros c ids e Hc He Hx. destruct (Hs c ids Hc) as [->|Ho]; [by apply elem_of_nil in Hx|]. eapply io_owner; eauto.
Qed.

(** ** Steps *)

(** What a request can do to the subscriptions. *)
Inductive ctx_move (ctx : SubscriptionContext) : SubscriptionContext -> Prop :=
  | CmSame : ctx_move ctx ctx
  | CmSubscribe topic : ctx_move ctx
      (mkContext (subscribe (sc_hub ctx) topic (sc_push_tx ctx)).1 (sc_push_tx ctx)
         (sc_owned_ids ctx ++ [subscription_name (next_id (sc_hub ctx))]))
  | CmUnsubscribe id : ctx_move ctx
      (mkContext (unsubscribe (sc_hub ctx) id).1 (sc_push_tx ctx) (filter (fun x => x <> id) (sc_owned_ids ctx))).

Lemma dispatch_async_move config stats w ctx line : ctx_move ctx (dispatch_async from_str config stats w ctx line).1.2.
Proof.
  unfold dispatch_async, handle_subscribe, handle_unsubscribe. case_bool_decide; [constructor|].
  destruct (from_str (trim line)) as [req|]; [|constructor]. case_bool_decide; cbn [negb]; [|constructor].
  case_bool_decide; [|case_bool_decide; [|case_bool_decide]].
  - destruct (param _ _ _ _); [|constructor]. destruct (negb _); [constructor|apply CmSubscribe].
  - destruct (param _ _ _ _); [|constructor]. apply CmUnsubscribe.
  - constructor.
  - destruct (handle_method _ _ _ _ _). constructor.
Qed.

(** The steps by what they do to hub and ownership. *)
Inductive hub_move (st st' : Sock) : Prop :=
  | HmFrame : sk_hub st' = sk_hub st -> (forall c, owned st' c = owned st c) -> hub_move st st'
  | HmAccept : sk_hub st' = sk_hub st -> owned st (sk_next st) = None -> owned st' (sk_next st) = Some [] ->
      (forall x, x <> sk_next st -> owned st' x = owned st x) -> hub_move st st'
  | HmDrop c : sk_hub st' = sk_hub st -> owned st c = Some [] -> owned st' c = None ->
      (forall x, x <> c -> owned st' x = owned st x) -> hub_move st st'
  | HmSubscribe c ids topic : owned st c = Some ids -> sk_hub st' = (subscribe (sk_hub st) topic c).1 ->
      owned st' c = Some (ids ++ [subscription_name (next_id (sk_hub st))]) ->
      (forall x, x <> c -> owned st' x = owned st x) -> hub_move st st'
  | HmUnsubscribe c ids id ids' : owned st c = Some ids -> sk_hub st' = (unsubscribe (sk_hub st) id).1 -> owned st' c = Some ids' ->
      (forall y, y ∈ ids -> y <> id -> y ∈ ids') -> (forall y, y ∈ ids' -> y ∈ ids) ->
      (forall x, x <> c -> owned st' x = owned st x) -> hub_move st st'.

Lemma owned_insert_eq st c cn : cn_owned <$> <[c := cn]> (sk_conns st) !! c = Some (cn_owned cn).
Proof. by rewrite lookup_insert_eq. Qed.
Lemma owned_insert_ne st c cn x : x <> c -> cn_owned <$> <[c := cn]> (sk_conns st) !! x = owned st x.
Proof. intros Hx. by rewrite lookup_insert_ne. Qed.
Lemma owned_same st c cn cn' x : sk_conns st !! c = Some cn -> cn_owned cn' = cn_owned cn ->
  cn_owned <$> <[c := cn']> (sk_conns st) !! x = owned st x.
Proof.
  intros Hc He. destruct (decide (x = c)) as [->|Hx]; [|by apply owned_insert_ne]. rewrite owned_insert_eq. unfold owned. by rewrite Hc, He.
Qed.
Lemma write_line_owned cn l wrote : cn_owned (write_line cn l wrote) = cn_owned cn.
Proof. by destruct wrote. Qed.

Lemma handle_line_move st c cn stats w line wrote : sk_conns st !! c = Some cn -> hub_move st (handle_line st c cn stats w line wrote).
Proof.
  intros Hc. unfold handle_line. case_bool_decide; [by apply HmFrame|].
  pose proof (dispatch_async_move (sk_config st) stats w (mkContext (sk_hub st) c (cn_owned cn)) (trim line)) as Hm.
  destruct (dispatch_async _ _ _ _ _ _) as [[config ctx] resp]. cbn [fst snd] in Hm.
  assert (forall cn', cn_owned cn' = sc_owned_ids ctx ->
    hub_move st (st <| sk_config := config |> <| sk_hub := sc_hub ctx |> <| sk_conns ::= <[c := cn']> |>)) as Hmove.
  { intros cn' He. assert (owned st c = Some (cn_owned cn)) as Ho by (unfold owned; by rewrite Hc).
    assert (cn_owned <$> <[c := cn']> (sk_conns st) !! c = Some (sc_owned_ids ctx)) as Hx by (by rewrite owned_insert_eq, He).
    destruct Hm as [|topic|id].
    - apply HmFrame; [done|]. intros x. by apply (owned_same st c cn).
    - apply (HmSubscribe _ _ c (cn_owned cn) topic); [done..|]. exact (owned_insert_ne st c cn').
    - apply (HmUnsubscribe _ _ c (cn_owned cn) id (filter (fun x => x <> id) (cn_owned cn))); [done|done|exact Hx|..|exact (owned_insert_ne st c cn')].
      + intros y Hy Hne. by apply list_elem_of_filter.
      + by intros y [_ Hy]%list_elem_of_filter. }
  apply Hmove. destruct resp; [apply write_line_owned|done].
Qed.

Lemma step_hub_move st ev st' : sock_ok st -> sock_step st ev = Some st' -> hub_move st st'.
Proof.
  intros Hok. destruct ev as [|c stats w line wrote|c wrote|c|c|c|topic data| |op]; cbn [sock_step].
  - intros [= <-]. apply HmAccept; [done| |exact (owned_insert_eq st _ _)|exact (owned_insert_ne st _ _)].
    unfold owned. destruct (sk_conns st !! sk_next st) eqn:E; [|done]. pose proof (so_fresh _ Hok (sk_next st) ltac:(eauto)). lia.
  - destruct (sk_conns st !! c) as [cn|] eqn:Hc; [|done]. destruct (cn_phase cn); [|done]. intros [= <-]. by apply handle_line_move.
  - destruct (sk_conns st !! c) as [cn|] eqn:Hc; [|done]. destruct (sk_channels st !! c) as [[|p q]|]; [done| |done].
    destruct (cn_phase cn); [|done]. intros [= <-]. apply HmFrame; [done|]. intros x. apply (owned_same st c cn _ x Hc), write_line_owned.
  - destruct (sk_conns st !! c) as [cn|] eqn:Hc; [|done]. destruct (cn_phase cn); [|done]. intros [= <-].
    apply HmFrame; [done|]. intros x. by apply (owned_same st c cn _ x Hc).
  - destruct (sk_conns st !! c) as [[[] [|id rest] ls]|] eqn:Hc; [done..| |done]. intros [= <-].
    apply (HmUnsubscribe _ _ c (id :: rest) id rest); [by unfold owned; rewrite Hc|done|exact (owned_insert_eq st _ _)|..|exact (owned_insert_ne st _ _)].
    + by intros y [->|Hy]%elem_of_cons Hn.
    + intros y Hy. by right.
  - destruct (sk_conns st !! c) as [[[] [|id rest] ls]|] eqn:Hc; [done|done| |done|done]. intros [= <-].
    apply (HmDrop _ _ c); [done|by unfold owned; rewrite Hc|by unfold owned; cbn; rewrite lookup_delete_eq|].
    intros x Hx. unfold owned. cbn. by rewrite lookup_delete_ne.
  - destruct (publish_scan _ _ _ _ _) as [ch to_prune]. intros [= <-]. by apply HmFrame; destruct (bool_decide _).
  - by rewrite (so_pruning _ Hok).
  - intros [= <-]. by apply HmFrame.
Qed.

Lemma hub_move_owned st st' : sock_ok st -> hub_move st st' -> entries_owned (hub_entries (sk_hub st')) (owned st').
Proof.
  intros Hok Hm. pose proof (so_owned _ Hok) as Ho.
  destruct Hm as [Eh Hx|Eh Hn Hs Hx|c Eh Hs Hn Hx|c ids topic Hc Eh Hc' Hx|c ids id ids' Hc Eh Hc' H1 H2 Hx]; rewrite Eh.
  - apply (entries_owned_ext _ (owned st)); [by intros|done].
  - apply (entries_owned_ext _ (owned st)); [|done]. intros e He. apply Hx. intros En. destruct (Ho e He) as (l & Hl & _). congruence.
  - apply (entries_owned_ext _ (owned st)); [|done]. intros e He. apply Hx. intros En. destruct (Ho e He) as (l & Hl & Hin).
    rewrite En, Hs in Hl. injection Hl as <-. by apply elem_of_nil in Hin.
  - by apply (entries_owned_subscribe _ _ _ c _ _ Hc Hc' Hx).
  - by apply (entries_owned_unsubscribe _ _ _ c _ _ Hc Hc' Hx).
Qed.

Lemma hub_move_ids st st' n : sock_ok st -> hub_move st st' -> n < two64 - 1 ->
  0 <= next_id (sk_hub st) <= n -> sock_ids st -> 0 <= next_id (sk_hub st') <= n + 1 /\ sock_ids st'.
Proof.
  intros Hok Hm Hn Hid Hi. unfold sock_ids in *.
  destruct Hm as [Eh Hx|Eh Hnn Hs Hx|c Eh Hs Hnn Hx|c ids topic Hc Eh Hc' Hx|c ids id ids' Hc Eh Hc' H1 H2 Hx]; rewrite Eh.
  - split; [lia|]. apply (ids_ok_sub _ _ (owned st)); [|done]. intros c ids H. right. by rewrite <- Hx.
  - split; [lia|]. apply (ids_ok_sub _ _ (owned st)); [|done]. intros c ids H. destruct (decide (c = sk_next st)) as [->|Hne]; [left|right]; [congruence|].
    by rewrite <- Hx.
  - split; [lia|]. apply (ids_ok_sub _ _ (owned st)); [|done]. intros d ids H. right. rewrite <- Hx; [done|]. intros ->. congruence.
  - cbn. replace (u64_wrap (next_id (sk_hub st) + 1)) with (next_id (sk_hub st) + 1) by zlia. split; [lia|].
    apply (ids_ok_subscribe _ _ _ c _ _ Hc Hc' Hx); [lia|apply (so_owned _ Hok)|done..].
  - split; [cbn; lia|]. by apply (ids_ok_unsubscribe _ _ _ c _ _ Hc Hc' Hx).
Qed.

(** No publication finds a closed channel. *)
Lemma publish_prunes_nothing st topic data : sock_ok st ->
  (publish_scan topic data (hub_entries (sk_hub st)) (sk_channels st) []).2 = [].
Proof.
  intros Hok. rewrite (proj2 (publish_scan_spec topic data _ _ _)). cbn [app].
  rewrite (elem_of_nil_inv (filter _ _)); [done|]. intros e [[_ Hn] He]%list_elem_of_filter.
  destruct (so_owned _ Hok e He) as (ids & Ho & _). unfold owned in Ho. destruct (sk_conns st !! en_sender e) eqn:Ec; [|done].
  destruct (proj2 (so_channels _ Hok (en_sender e))) as [q Hq]; [by rewrite Ec|congruence].
Qed.

(** The channels after a publication. *)
Lemma publish_channels st topic data c :
  (publish_scan topic data (hub_entries (sk_hub st)) (sk_channels st) []).1 !! c =
  (fun q => accept q (owed topic data (hub_entries (sk_hub st)) c)) <$> sk_channels st !! c.
Proof. apply publish_scan_spec. Qed.

Lemma accept_length {Data} (q offered : list (Push Data)) :
  (length q <= PUSH_CAPACITY)%nat -> (length (accept q offered) <= PUSH_CAPACITY)%nat.
Proof. intros H. unfold accept. rewrite length_app, length_take. lia. Qed.

(** A step that keeps the set of connections and shortens or keeps the channels. *)
Lemma sock_ok_frame st st' : sock_ok st -> hub_move st st' -> sk_pruning st' = [] -> sk_next st' = sk_next st ->
  (forall c, is_Some (sk_conns st' !! c) <-> is_Some (sk_conns st !! c)) ->
  (forall c, is_Some (sk_channels st' !! c) <-> is_Some (sk_channels st !! c)) ->
  (forall c q, sk_channels st' !! c = Some q -> (length q <= PUSH_CAPACITY)%nat) -> sock_ok st'.
Proof.
  intros Hok Hm Hp Hn Hc Hch Hq. split; [by apply (hub_move_owned st)| |done|done|].
  - intros c. by rewrite Hc, Hch, (so_channels _ Hok).
  - intros c. rewrite Hc, Hn. apply (so_fresh _ Hok).
Qed.

Lemma insert_same_dom {A} (m : gmap nat A) c v v' x : m !! c = Some v -> is_Some (<[c := v']> m !! x) <-> is_Some (m !! x).
Proof. intros Hc. destruct (decide (x = c)) as [->|Hx]; [rewrite lookup_insert_eq, Hc; by split; eauto|by rewrite lookup_insert_ne]. Qed.

Lemma handle_line_frame st c cn stats w line wrote : sk_conns st !! c = Some cn ->
  let st' := handle_line st c cn stats w line wrote in
  sk_channels st' = sk_channels st /\ sk_pruning st' = sk_pruning st /\ sk_next st' = sk_next st /\
  forall x, is_Some (sk_conns st' !! x) <-> is_Some (sk_conns st !! x).
Proof.
  intros Hc. unfold handle_line. case_bool_decide; [done|]. destruct (dispatch_async _ _ _ _ _ _) as [[config ctx] resp].
  do 3 (split; [done|]). intros x. exact (insert_same_dom (sk_conns st) c cn _ x Hc).
Qed.

Lemma sock_step_ok st ev st' : sock_ok st -> sock_step st ev = Some st' -> sock_ok st'.
Proof.
  intros Hok Hs. pose proof (step_hub_move st ev st' Hok Hs) as Hm. revert Hs.
  destruct ev as [|c stats w line wrote|c wrote|c|c|c|topic data| |op]; cbn [sock_step].
  - intros [= <-]. split; [by apply (hub_move_owned st)| | |apply (so_pruning _ Hok)|].
    + intros x. cbn. destruct (decide (x = sk_next st)) as [->|Hx]; [rewrite !lookup_insert_eq; by split; eauto|].
      rewrite !lookup_insert_ne by done. apply (so_channels _ Hok).
    + intros x q. cbn. destruct (decide (x = sk_next st)) as [->|Hx]; [rewrite lookup_insert_eq; intros [= <-]; cbn; lia|].
      rewrite lookup_insert_ne by done. apply (so_capacity _ Hok).
    + intros x. cbn. destruct (decide (x = sk_next st)) as [->|Hx]; [lia|]. rewrite lookup_insert_ne by done.
      intros H%(so_fresh _ Hok). lia.
  - destruct (sk_conns st !! c) as [cn|] eqn:Hc; [|done]. destruct (cn_phase cn); [|done]. intros [= <-].
    destruct (handle_line_frame st c cn stats w line wrote Hc) as (Ec & Ep & En & Hd).
    apply (sock_ok_frame st); [done..|by rewrite Ep, (so_pruning _ Hok)|done|done|by rewrite Ec|rewrite Ec; apply (so_capacity _ Hok)].
  - destruct (sk_conns st !! c) as [cn|] eqn:Hc; [|done]. destruct (sk_channels st !! c) as [[|p q]|] eqn:Hq; [done| |done].
    destruct (cn_phase cn); [|done]. intros [= <-].
    apply (sock_ok_frame st); [done..|apply (so_pruning _ Hok)|done|intros x; exact (insert_same_dom (sk_conns st) c cn _ x Hc)|intros x; exact (insert_same_dom (sk_channels st) c _ _ x Hq)|].
    intros x l. cbn. destruct (decide (x = c)) as [->|Hx]; [rewrite lookup_insert_eq|rewrite lookup_insert_ne by done; apply (so_capacity _ Hok)].
    intros [= <-]. pose proof (so_capacity _ Hok c _ Hq) as H. cbn [length] in H. lia.
  - destruct (sk_conns st !! c) as [cn|] eqn:Hc; [|done]. destruct (cn_phase cn); [|done]. intros [= <-].
    apply (sock_ok_frame st); [done..|apply (so_pruning _ Hok)|done|intros x; exact (insert_same_dom (sk_conns st) c cn _ x Hc)|done|apply (so_capacity _ Hok)].
  - destruct (sk_conns st !! c) as [[[] [|id rest] ls]|] eqn:Hc; [done..| |done]. intros [= <-].
    apply (sock_ok_frame st); [done..|apply (so_pruning _ Hok)|done|intros x; exact (insert_same_dom (sk_conns st) c _ _ x Hc)|done|apply (so_capacity _ Hok)].
  - destruct (sk_conns st !! c) as [[[] [|id rest] ls]|] eqn:Hc; [done|done| |done|done]. intros [= <-].
    split; [by apply (hub_move_owned st)| | |apply (so_pruning _ Hok)|].
    + intros x. cbn. rewrite !lookup_delete_is_Some, (so_channels _ Hok). done.
    + intros x q. cbn. intros [_ H]%lookup_delete_Some. by apply (so_capacity _ Hok) in H.
    + intros x. cbn. intros [_ H]%lookup_delete_is_Some. by apply (so_fresh _ Hok).
  - pose proof (publish_prunes_nothing st topic data Hok) as Hp. pose proof (publish_channels st topic data) as Hch.
    destruct (publish_scan _ _ _ _ _) as [ch to_prune]. cbn [fst snd] in *. subst to_prune. rewrite bool_decide_eq_true_2 by done.
    intros [= <-]. apply (sock_ok_frame st); [done..|apply (so_pruning _ Hok)|done|done| |]; intros x; cbn; rewrite Hch.
    + apply fmap_is_Some.
    + intros l (q & Hq & ->)%fmap_Some. apply accept_length. by apply (so_capacity _ Hok) in Hq.
  - by rewrite (so_pruning _ Hok).
  - intros [= <-]. apply (sock_ok_frame st); [done..|apply (so_pruning _ Hok)|done|done|done|apply (so_capacity _ Hok)].
Qed.

Lemma sock_start_ok config : sock_ok (sock_start config) /\ sock_ids (sock_start config).
Proof.
  split; split.
  - intros e He. by apply elem_of_nil in He.
  - intros c. cbn. by rewrite !lookup_empty.
  - intros c q. cbn. by rewrite lookup_empty.
  - done.
  - intros c. cbn. rewrite lookup_empty. by intros [? [=]].
  - intros c ids x. unfold owned. cbn. by rewrite lookup_empty.
  - intros c ids e _ He. by apply elem_of_nil in He.
  - apply NoDup_nil. done.
Qed.

Lemma sock_reach_ok n st : sock_reach n st -> sock_ok st /\ (n < two64 -> 0 <= next_id (sk_hub st) <= n /\ sock_ids st).
Proof.
  induction 1 as [config|n st ev st' Hr [IH1 IH2] Hs].
  - destruct (sock_start_ok config). split; [done|]. intros _. split; [cbn; lia|done].
  - split; [by apply (sock_step_ok st ev)|]. intros Hn. destruct IH2 as [H1 H2]; [lia|].
    apply (hub_move_ids st); [done|by apply (step_hub_move st ev)|lia|done..].
Qed.

(** ** Closing a connection *)
Definition close_events (c : nat) (ids : list string) : list sock_event :=
  SkEnd c :: repeat (SkCleanup c) (length ids) ++ [SkDrop c].

Lemma sock_run_app evs evs' st : sock_run (evs ++ evs') st = sock_run evs st ≫= sock_run evs'.
Proof.
  unfold sock_run. rewrite foldl_app. destruct (foldl _ (Some st) evs) as [st'|]; [done|]. by induction evs'.
Qed.

Lemma filter_nothing (es : list Entry) : filter (fun e => en_id e ∉ []) es = es.
Proof. induction es as [|e es IH]; [done|]. rewrite filter_cons_True by apply not_elem_of_nil. by rewrite IH. Qed.
Lemma filter_filter_ids (es : list Entry) id ids :
  filter (fun e => en_id e ∉ ids) (filter (fun e => en_id e <> id) es) = filter (fun e => en_id e ∉ id :: ids) es.
Proof. rewrite list_filter_filter. apply list_filter_iff. intros e. rewrite not_elem_of_cons. tauto. Qed.

Lemma cleanup_run c ls ids : forall st, sk_conns st !! c = Some (mkConn Closing ids ls) ->
  exists st', sock_run (repeat (SkCleanup c) (length ids)) st = Some st' /\
    sk_hub st' = sk_hub st <| hub_entries ::= filter (fun e => en_id e ∉ ids) |> /\
    sk_channels st' = sk_channels st /\ sk_config st' = sk_config st /\
    sk_conns st' = <[c := mkConn Closing [] ls]> (sk_conns st).
Proof.
  induction ids as [|id ids IH]; intros st Hc.
  - exists st. split; [done|]. split; [|by rewrite insert_id].
    destruct (sk_hub st) as [next es]. cbn. f_equal. by rewrite filter_nothing.
  - destruct (IH (st <| sk_hub := (unsubscribe (sk_hub st) id).1 |> <| sk_conns ::= <[c := mkConn Closing ids ls]> |>)) as (st' & Hr & Hh & Hch & Hcf & Hcn).
    { cbn. by rewrite lookup_insert_eq. }
    exists st'. cbn [length repeat]. unfold sock_run in *. cbn [foldl mbind option_bind sock_step]. rewrite Hc. split; [done|].
    split; [rewrite Hh; cbn; by rewrite filter_filter_ids|]. split; [done|]. split; [done|]. rewrite Hcn. cbn. by rewrite insert_insert_eq.
Qed.

(** The entries whose id a connection owns are the entries of that connection. *)
Lemma owned_entries st c ids : sock_ok st -> sock_ids st -> owned st c = Some ids ->
  filter (fun e => en_id e ∉ ids) (hub_entries (sk_hub st)) = filter (fun e => en_sender e <> c) (hub_entries (sk_hub st)).
Proof.
  intros Hok Hi Hc. pose proof (so_owned _ Hok) as Ho. unfold sock_ids in Hi. pose proof (io_owner _ _ _ Hi c ids) as Hx.
  assert (forall e, e ∈ hub_entries (sk_hub st) -> en_id e ∉ ids <-> en_sender e <> c) as Hiff.
  { intros e He. split.
    - intros Hn En. destruct (Ho e He) as (l & Hl & Hin). rewrite En, Hc in Hl. injection Hl as <-. done.
    - intros Hn Hin. apply Hn. by apply Hx. }
  clear Hi Ho Hx. induction (hub_entries (sk_hub st)) as [|e es IH]; [done|].
  assert (filter (fun e => en_id e ∉ ids) es = filter (fun e => en_sender e <> c) es) as IH'.
  { apply IH. intros e' He'. apply Hiff. by right. }
  rewrite !filter_cons, IH'. pose proof (Hiff e ltac:(by left)). repeat case_decide; tauto.
Qed.

(** ** Theorems *)

(** C40: in every reachable state of the control socket each subscription belongs to a
    connection that is still open and owns its id, a push channel never holds
    more than 128 events, and no publication ever finds a closed channel to
    prune; until 2^64 events have happened ids are pairwise distinct and a
    connection owns no id of another's subscription. *)
Theorem subscriptions_owned n st (Hr : sock_reach n st) :
  (forall e, e ∈ hub_entries (sk_hub st) -> exists cn, sk_conns st !! en_sender e = Some cn /\ en_id e ∈ cn_owned cn) /\
  (forall c q, sk_channels st !! c = Some q -> (length q <= PUSH_CAPACITY)%nat) /\
  (forall topic data, sk_hub st = (publish (sk_hub st) topic data (sk_channels st)).1) /\
  (n < two64 -> NoDup (map en_id (hub_entries (sk_hub st))) /\
     forall c cn e, sk_conns st !! c = Some cn -> e ∈ hub_entries (sk_hub st) -> en_id e ∈ cn_owned cn -> en_sender e = c).
Proof.
  destruct (sock_reach_ok n st Hr) as [Hok Hi]. split; [|split; [|split]].
  - intros e He. destruct (so_owned _ Hok e He) as (ids & Ho & Hin). unfold owned in Ho. apply fmap_Some in Ho as (cn & Hcn & ->). eauto.
  - apply (so_capacity _ Hok).
  - intros topic data. pose proof (publish_prunes_nothing st topic data Hok) as Hp. unfold publish.
    destruct (publish_scan _ _ _ _ _) as [ch l]. cbn in Hp. by subst l.
  - intros Hn. destruct (Hi Hn) as [_ Hids]. split; [apply (io_distinct _ _ _ Hids)|].
    intros c cn e Hc. apply (io_owner _ _ _ Hids). unfold owned. by rewrite Hc.
Qed.

(** A publication can always run and only fills channels: every open
    connection gets, behind what already waits, one event for each of its
    subscriptions to the topic in the order they were made, of which those
    beyond a backlog of 128 are dropped. *)
Theorem publish_delivers n st topic data (Hr : sock_reach n st) :
  exists st', sock_step st (SkPublish topic data) = Some st' /\
    sk_hub st' = sk_hub st /\ sk_conns st' = sk_conns st /\ sk_pruning st' = [] /\
    forall c, sk_channels st' !! c =
      (fun q => q ++ take (PUSH_CAPACITY - length q)
         (map (fun e => mkPush topic (en_id e) data)
            (filter (fun e => en_topic e = topic /\ en_sender e = c) (hub_entries (sk_hub st))))) <$> sk_channels st !! c.
Proof.
  destruct (sock_reach_ok n st Hr) as [Hok _]. pose proof (publish_prunes_nothing st topic data Hok) as Hp.
  pose proof (publish_channels st topic data) as Hch. cbn [sock_step].
  destruct (publish_scan _ _ _ _ _) as [ch l]. cbn [fst snd] in *. subst l. rewrite bool_decide_eq_true_2 by done.
  eexists. split; [done|]. do 2 (split; [done|]). split; [apply (so_pruning _ Hok)|exact Hch].
Qed.

(** When the client of an open connection hangs up, its task runs to its end in one
    clean-up step per id it owns, and then exactly its subscriptions are gone:
    those of the other connections, their channels and what they have written
    stay as they were. *)
Theorem close_removes_exactly n st c cn (Hr : sock_reach n st) (Hn : n < two64) (Hc : sk_conns st !! c = Some cn) (Hs : cn_phase cn = Serving) :
  exists st', sock_run (close_events c (cn_owned cn)) st = Some st' /\
    hub_entries (sk_hub st') = filter (fun e => en_sender e <> c) (hub_entries (sk_hub st)) /\
    sk_conns st' = delete c (sk_conns st) /\ sk_channels st' = delete c (sk_channels st) /\ sk_config st' = sk_config st.
Proof.
  destruct (sock_reach_ok n st Hr) as [Hok Hi]. destruct (Hi Hn) as [_ Hids]. destruct cn as [ph ids ls]. cbn in Hs. subst ph. cbn [cn_owned].
  set (st1 := st <| sk_conns ::= <[c := mkConn Closing ids ls]> |>).
  destruct (cleanup_run c ls ids st1) as (st2 & Hrun & Hh & Hch & Hcf & Hcn). { cbn. by rewrite lookup_insert_eq. }
  exists (st2 <| sk_conns ::= delete c |> <| sk_channels ::= delete c |>). split; [|split; [|split; [|split]]].
  - unfold close_events. change (SkEnd c :: ?l) with ([SkEnd c] ++ l). rewrite sock_run_app.
    replace (sock_run [SkEnd c] st) with (Some st1) by (cbn; by rewrite Hc). cbn [mbind option_bind].
    rewrite sock_run_app, Hrun. cbn. by rewrite Hcn, lookup_insert_eq.
  - cbn. rewrite Hh. cbn. apply (owned_entries st c ids Hok Hids). unfold owned. by rewrite Hc.
  - cbn. rewrite Hcn. cbn. by rewrite !delete_insert_eq.
  - cbn. by rewrite Hch.
  - cbn. by rewrite Hcf.
Qed.
End Socket.

(** ** A run *)
Lemma sock_run_reach from_str evs : forall n st st', sock_reach from_str n st -> sock_run from_str evs st = Some st' ->
  sock_reach from_str (n + Z.of_nat (length evs)) st'.
Proof.
  induction evs as [|ev evs IH]; intros n st st' Hr; unfold sock_run; cbn [foldl mbind option_bind length].
  - intros [= <-]. by rewrite Z.add_0_r.
  - destruct (sock_step from_str st ev) as [st1|] eqn:E.
    + intros H. replace (n + Z.of_nat (S (length evs))) with (n + 1 + Z.of_nat (length evs)) by lia.
      apply (IH _ st1); [by apply (sk_more _ _ st ev)|done].
    + clear. intros H. exfalso. revert H. by induction evs.
Qed.

(** A stand-in for the decoder that knows two lines: [s] subscribes to the
    statistics, [u] cancels [sub-0]. *)
Definition demo_from_str (line : chars) : Request + string :=
  if bool_decide (line = [115]) then
    inl (mkRequest "2.0" "subscribe" (VObj [("topic"%string, VStr "stats")]) (Some (json_int 1)))
  else if bool_decide (line = [117]) then
    inl (mkRequest "2.0" "unsubscribe" (VObj [("subscription_id"%string, VStr "sub-0")]) (Some (json_int 2)))
  else inr "expected value at line 1 column 1"%string.

Definition demo_run : list sock_event :=
  [SkAccept; SkAccept; SkLine 0 None None [115; 10] true; SkLine 1 None None [115; 10] true; SkLine 1 None None [115] true].
Definition demo_state : Sock := default (sock_start dynamic_new) (sock_run demo_from_str demo_run (sock_start dynamic_new)).

Lemma demo_reached : sock_reach demo_from_str 5 demo_state.
Proof. by apply (sock_run_reach demo_from_str demo_run 0 (sock_start dynamic_new)); [apply sk_init|vm_compute]. Qed.

Lemma subscriptions_owned_witness :
  map en_sender (hub_entries (sk_hub demo_state)) = [0; 1; 1]%nat /\ NoDup (map en_id (hub_entries (sk_hub demo_state))).
Proof.
  split; [by vm_compute|].
  exact (proj1 (proj2 (proj2 (proj2 (subscriptions_owned demo_from_str 5 demo_state demo_reached))) eq_refl)).
Defined.

Lemma publish_delivers_witness :
  exists st', sock_step demo_from_str demo_state (SkPublish "stats" VNull) = Some st' /\
    sk_channels st' !! 1%nat = Some [mkPush "stats" "sub-1" VNull; mkPush "stats" "sub-2" VNull]%string.
Proof.
  destruct (publish_delivers demo_from_str 5 demo_state "stats" VNull demo_reached) as (st' & Hs & _ & _ & _ & Hc).
  exists st'. split; [exact Hs|]. rewrite Hc. by vm_compute.
Defined.

Lemma close_removes_exactly_witness :
  exists st', sock_run demo_from_str (close_events 1 ["sub-1"; "sub-2"]%string) demo_state = Some st' /\
    map en_id (hub_entries (sk_hub st')) = ["sub-0"]%string.
Proof.
  assert (exists ls, sk_conns demo_state !! 1%nat = Some (mkConn Serving ["sub-1"; "sub-2"]%string ls)) as [ls Hc].
  { eexists. by vm_compute. }
  destruct (close_removes_exactly demo_from_str 5 demo_state 1 _ demo_reached eq_refl Hc eq_refl) as (st' & Hs & He & _).
  exists st'. split; [exact Hs|]. rewrite He. by vm_compute.
Defined.

(** A request on one connection cancels the subscription of another one, which
    stays open and still holds the id: nothing checks who owns it. *)
Theorem foreign_unsubscribe :
  exists st', sock_step demo_from_str demo_state (SkLine 1 None None [117] true) = Some st' /\
    map en_id (hub_entries (sk_hub demo_state)) = ["sub-0"; "sub-1"; "sub-2"]%string /\
    map en_id (hub_entries (sk_hub st')) = ["sub-1"; "sub-2"]%string /\
    (fun cn => (cn_phase cn, cn_owned cn)) <$> sk_conns st' !! 0%nat = Some (Serving, ["sub-0"%string]).
Proof.
  destruct (sock_step demo_from_str demo_state (SkLine 1 None None [117] true)) as [st'|] eqn:E; [|by vm_compute in E].
  exists st'. vm_compute in E. injection E as <-. by repeat split; vm_compute.
Qed.
