(* ===== verification/Cli.v ===== *)
(** * Program entry (src/main.rs, src/toml_config.rs, the standard input of src/config.rs)

    The command line as clap hands it over, the TOML file that fills what was not
    typed, and the configuration the sender starts with; then the thread that
    serves requests from the standard input.  Splitting the command line and
    parsing TOML text are left to clap and toml: the first gives a [Cli] with the
    options that were typed, the second a table.  Decoding the table into
    [TomlConfig] follows the derive attributes of the source. *)
From stdpp Require Import strings.
From S2P Require Import Prelude F64 Config Connection Selection Reload Subscriptions Control.
Open Scope Z_scope.

(** ** toml_config.rs *)
Inductive TomlValue := TmStr (s : string) | TmInt (n : Z) | TmBool (b : bool) | TmOther.

Record TomlConfig := mkToml {
  tc_mode : option SchedulingMode;
  tc_no_quality : option bool;
  tc_no_stall_deselect : option bool;
  tc_stall_min_in_flight : option Z;
  tc_stall_ack_stale_ms : option Z;
  tc_conn_timeout_ms : option Z }.
Global Instance eta_toml : Eta TomlConfig := fun t =>
  mkToml (tc_mode t) (tc_no_quality t) (tc_no_stall_deselect t) (tc_stall_min_in_flight t) (tc_stall_ack_stale_ms t) (tc_conn_timeout_ms t).
Definition toml_default : TomlConfig := mkToml None None None None None None.

(** [deserialize_mode]. *)
Definition deserialize_mode (v : TomlValue) : option SchedulingMode :=
  match v with TmStr s => mode_from_str s | _ => None end.
Definition de_bool (v : TomlValue) : option bool := match v with TmBool b => Some b | _ => None end.
Definition de_i32 (v : TomlValue) : option Z :=
  match v with TmInt n => if (- two31 <=? n) && (n <? two31) then Some n else None | _ => None end.
Definition de_u64 (v : TomlValue) : option Z :=
  match v with TmInt n => if (0 <=? n) && (n <? two64) then Some n else None | _ => None end.

(** One key of the file; [None]: the load fails. *)
Definition toml_field (t : TomlConfig) (kv : string * TomlValue) : option TomlConfig :=
  let '(k, v) := kv in
  if bool_decide (k = "mode"%string) then (fun m => t <| tc_mode := Some m |>) <$> deserialize_mode v
  else if bool_decide (k = "no_quality"%string) then (fun b => t <| tc_no_quality := Some b |>) <$> de_bool v
  else if bool_decide (k = "no_stall_deselect"%string) then (fun b => t <| tc_no_stall_deselect := Some b |>) <$> de_bool v
  else if bool_decide (k = "stall_min_in_flight"%string) then (fun n => t <| tc_stall_min_in_flight := Some n |>) <$> de_i32 v
  else if bool_decide (k = "stall_ack_stale_ms"%string) then (fun n => t <| tc_stall_ack_stale_ms := Some n |>) <$> de_u64 v
  else if bool_decide (k = "conn_timeout_ms"%string) then (fun n => t <| tc_conn_timeout_ms := Some n |>) <$> de_u64 v
  else None.

Fixpoint toml_fields (t : TomlConfig) (table : list (string * TomlValue)) : option TomlConfig :=
  match table with
  | [] => Some t
  | kv :: table => t ← toml_field t kv; toml_fields t table
  end.

(** [TomlConfig::load]: [read] is the file's content, [from_str] the TOML parser. *)
Definition toml_load (from_str : chars -> option (list (string * TomlValue))) (read : option chars) : option TomlConfig :=
  content ← read; table ← from_str content; toml_fields toml_default table.

(** ** main.rs *)
Record Cli := mkCli {
  cli_print_version : bool;
  cli_local_srt_port : option Z;
  cli_receiver_host : option string;
  cli_receiver_port : option Z;
  cli_ips_file : option string;
  cli_control_socket : option string;
  cli_config_file : option string;
  cli_mode : SchedulingMode;
  cli_no_quality : bool;
  cli_no_stall_deselect : bool;
  cli_stall_min_in_flight : Z;
  cli_stall_ack_stale_ms : Z;
  cli_conn_timeout_ms : Z;
  cli_no_rehome : bool;
  cli_priority_bind : option Z;
  cli_metrics_bind : option Z }.
Global Instance eta_cli : Eta Cli := fun c =>
  mkCli (cli_print_version c) (cli_local_srt_port c) (cli_receiver_host c) (cli_receiver_port c) (cli_ips_file c)
    (cli_control_socket c) (cli_config_file c) (cli_mode c) (cli_no_quality c) (cli_no_stall_deselect c)
    (cli_stall_min_in_flight c) (cli_stall_ack_stale_ms c) (cli_conn_timeout_ms c) (cli_no_rehome c)
    (cli_priority_bind c) (cli_metrics_bind c).

Section Main.
(** [matches.value_source(id) == Some(CommandLine)]. *)
Context (typed : string -> bool).

(** One field of [fill!]. *)
Definition fill {A : Type} (id : string) (value : option A) (set : A -> Cli -> Cli) (self : Cli) : Cli :=
  match value with
  | Some v => if negb (typed id) then set v self else self
  | None => self
  end.

Definition apply_config_file (self : Cli) (file : TomlConfig) : Cli :=
  let self := fill "mode" (tc_mode file) (fun v c => c <| cli_mode := v |>) self in
  let self := fill "no_quality" (tc_no_quality file) (fun v c => c <| cli_no_quality := v |>) self in
  let self := fill "no_stall_deselect" (tc_no_stall_deselect file) (fun v c => c <| cli_no_stall_deselect := v |>) self in
  let self := fill "stall_min_in_flight" (tc_stall_min_in_flight file) (fun v c => c <| cli_stall_min_in_flight := v |>) self in
  let self := fill "stall_ack_stale_ms" (tc_stall_ack_stale_ms file) (fun v c => c <| cli_stall_ack_stale_ms := v |>) self in
  fill "conn_timeout_ms" (tc_conn_timeout_ms file) (fun v c => c <| cli_conn_timeout_ms := v |>) self.

(** What [main] hands to [run_sender_with_config]. *)
Record Launch := mkLaunch {
  la_local_srt_port : Z; la_receiver_host : string; la_receiver_port : Z; la_ips_file : string; la_config : DynamicConfig }.
Inductive MainResult := PrintVersion | LoadFailed | Run (l : Launch).

(** [expect] panics on a missing positional argument. *)
Definition expect {A : Type} (o : option A) : res A := match o with Some a => Ret a | None => Panic end.

(** [load] is the outcome of loading the file that [--config] names. *)
Definition main_ (args : Cli) (load : option TomlConfig) : res MainResult :=
  if cli_print_version args then Ret PrintVersion
  else
    match (match cli_config_file args with
           | None => Some args
           | Some _ => apply_config_file args <$> load
           end) with
    | None => Ret LoadFailed
    | Some args =>
      local_srt_port ← expect (cli_local_srt_port args);
      receiver_host ← expect (cli_receiver_host args);
      receiver_port ← expect (cli_receiver_port args);
      ips_file ← expect (cli_ips_file args);
      Ret (Run (mkLaunch local_srt_port receiver_host receiver_port ips_file
        (from_cli (cli_mode args) (cli_no_quality args) (cli_no_stall_deselect args) (cli_stall_min_in_flight args)
           (cli_stall_ack_stale_ms args) (cli_conn_timeout_ms args) (cli_no_rehome args))))
    end.
End Main.

(** ** The configuration file *)

Fixpoint table_get (k : string) (table : list (string * TomlValue)) : option TomlValue :=
  match table with
  | [] => None
  | (k', v) :: table => if bool_decide (k' = k) then Some v else table_get k table
  end.

(** A key of the file that is one of the six and has a value of its type. *)
Definition entry_ok (kv : string * TomlValue) : Prop :=
  (kv.1 = "mode"%string /\ is_Some (deserialize_mode kv.2)) \/
  ((kv.1 = "no_quality"%string \/ kv.1 = "no_stall_deselect"%string) /\ is_Some (de_bool kv.2)) \/
  (kv.1 = "stall_min_in_flight"%string /\ is_Some (de_i32 kv.2)) \/
  ((kv.1 = "stall_ack_stale_ms"%string \/ kv.1 = "conn_timeout_ms"%string) /\ is_Some (de_u64 kv.2)).

(** A field after the file: what the file says, or what it was. *)
Definition field_from {A : Type} (k : string) (de : TomlValue -> option A) (table : list (string * TomlValue)) (old : option A) : option A :=
  match table_get k table with Some v => de v | None => old end.

Record toml_reads (t : TomlConfig) (table : list (string * TomlValue)) (t' : TomlConfig) : Prop := {
  tr_mode : tc_mode t' = field_from "mode" deserialize_mode table (tc_mode t);
  tr_quality : tc_no_quality t' = field_from "no_quality" de_bool table (tc_no_quality t);
  tr_stall : tc_no_stall_deselect t' = field_from "no_stall_deselect" de_bool table (tc_no_stall_deselect t);
  tr_in_flight : tc_stall_min_in_flight t' = field_from "stall_min_in_flight" de_i32 table (tc_stall_min_in_flight t);
  tr_stale : tc_stall_ack_stale_ms t' = field_from "stall_ack_stale_ms" de_u64 table (tc_stall_ack_stale_ms t);
  tr_timeout : tc_conn_timeout_ms t' = field_from "conn_timeout_ms" de_u64 table (tc_conn_timeout_ms t) }.

Lemma field_from_skip {A} k k' v (de : TomlValue -> option A) table old : k' <> k ->
  field_from k de ((k', v) :: table) old = field_from k de table old.
Proof. intros H. unfold field_from. cbn [table_get]. by rewrite bool_decide_eq_false_2. Qed.
Lemma field_from_hit {A} k v a (de : TomlValue -> option A) table old : k ∉ map fst table -> de v = Some a ->
  field_from k de table (Some a) = field_from k de ((k, v) :: table) old.
Proof.
  intros Hn Hv. unfold field_from. cbn [table_get]. rewrite (bool_decide_eq_true_2 (k = k)) by done. rewrite Hv.
  assert (table_get k table = None) as ->; [|done]. induction table as [|[k' v'] table IH]; [done|].
  cbn in Hn. rewrite not_elem_of_cons in Hn. destruct Hn as [H1 H2]. cbn [table_get]. rewrite bool_decide_eq_false_2 by congruence. by apply IH.
Qed.

Lemma toml_field_spec t k v :
  match toml_field t (k, v) with
  | None => ~ entry_ok (k, v)
  | Some t' => entry_ok (k, v) /\ forall table t'', k ∉ map fst table -> toml_reads t' table t'' -> toml_reads t ((k, v) :: table) t''
  end.
Proof.
  unfold toml_field. repeat case_bool_decide; subst;
    try (match goal with |- context [fmap _ ?x] => destruct x as [a|] eqn:Ea end; cbn [fmap option_fmap option_map]).
  all: try (intros [[? [? ?]]|[[[?|?] [? ?]]|[[? [? ?]]|[[?|?] [? ?]]]]]; cbn in *; congruence).
  all: (split; [unfold entry_ok; cbn [fst snd]; rewrite Ea; eauto 8|]); intros table t'' Hn [R1 R2 R3 R4 R5 R6];
    split; cbn in R1, R2, R3, R4, R5, R6; rewrite ?R1, ?R2, ?R3, ?R4, ?R5, ?R6;
    first [by rewrite field_from_skip|by apply field_from_hit].
Qed.

Lemma toml_fields_spec table : forall t, NoDup (map fst table) ->
  match toml_fields t table with
  | None => Exists (fun kv => ~ entry_ok kv) table
  | Some t' => Forall entry_ok table /\ toml_reads t table t'
  end.
Proof.
  induction table as [|[k v] table IH]; intros t Hn; cbn [toml_fields]; [done|].
  cbn [map fst] in Hn. apply NoDup_cons in Hn as [Hk Hn]. pose proof (toml_field_spec t k v) as Hf.
  destruct (toml_field t (k, v)) as [t1|]; cbn [mbind option_bind]; [|by left].
  destruct Hf as [Hok Hf]. specialize (IH t1 Hn). destruct (toml_fields t1 table) as [t2|]; [|by right].
  destruct IH as [H1 H2]. split; [by constructor|]. by apply Hf.
Qed.

(** Loading a configuration file fails exactly when it cannot be read or
    parsed, names an unknown key, or gives a key a value of the wrong type or
    range; otherwise every setting is what its key says, and absent without it. *)
Theorem toml_load_spec (from_str : chars -> option (list (string * TomlValue))) (read : option chars)
    (Hkeys : forall text table, from_str text = Some table -> NoDup (map fst table)) :
  match toml_load from_str read with
  | None => read = None \/ exists text, read = Some text /\
              (from_str text = None \/ exists table, from_str text = Some table /\ Exists (fun kv => ~ entry_ok kv) table)
  | Some t => exists text table, read = Some text /\ from_str text = Some table /\ Forall entry_ok table /\
      tc_mode t = table_get "mode" table ≫= deserialize_mode /\
      tc_no_quality t = table_get "no_quality" table ≫= de_bool /\
      tc_no_stall_deselect t = table_get "no_stall_deselect" table ≫= de_bool /\
      tc_stall_min_in_flight t = table_get "stall_min_in_flight" table ≫= de_i32 /\
      tc_stall_ack_stale_ms t = table_get "stall_ack_stale_ms" table ≫= de_u64 /\
      tc_conn_timeout_ms t = table_get "conn_timeout_ms" table ≫= de_u64
  end.
Proof.
  unfold toml_load. destruct read as [text|]; cbn [mbind option_bind]; [|by left].
  destruct (from_str text) as [table|] eqn:Et; cbn [mbind option_bind]; [|right; eauto].
  pose proof (toml_fields_spec table toml_default (Hkeys text table Et)) as H. destruct (toml_fields toml_default table) as [t|].
  - destruct H as [Hf [R1 R2 R3 R4 R5 R6]]. exists text, table. by split_and!.
  - right. exists text. split; [done|]. right. eauto.
Qed.

(** ** Precedence *)

(** What clap promises: positional arguments are there unless the version is
    asked for, and an option that was not typed has its default. *)
Record clap_ok (typed : string -> bool) (args : Cli) : Prop := {
  ck_required : cli_print_version args = false ->
    is_Some (cli_local_srt_port args) /\ is_Some (cli_receiver_host args) /\ is_Some (cli_receiver_port args) /\ is_Some (cli_ips_file args);
  ck_mode : typed "mode"%string = false -> cli_mode args = Enhanced;
  ck_quality : typed "no_quality"%string = false -> cli_no_quality args = false;
  ck_stall : typed "no_stall_deselect"%string = false -> cli_no_stall_deselect args = false;
  ck_in_flight : typed "stall_min_in_flight"%string = false -> cli_stall_min_in_flight args = STALL_MIN_IN_FLIGHT_PACKETS;
  ck_stale : typed "stall_ack_stale_ms"%string = false -> cli_stall_ack_stale_ms args = STALL_ACK_STALE_MS;
  ck_timeout : typed "conn_timeout_ms"%string = false -> cli_conn_timeout_ms args = CONN_TIMEOUT_MS }.

(** Command line, then file, then default. *)
Definition setting {A : Type} (typed : string -> bool) (id : string) (given : A) (file : option A) (dflt : A) : A :=
  if typed id then given else default dflt file.

Lemma fill_setting {A} typed id (file : option A) (set : A -> Cli -> Cli) (get : Cli -> A) dflt args :
  (forall v c, get (set v c) = v) -> (typed id = false -> get args = dflt) ->
  get (fill typed id file set args) = setting typed id (get args) file dflt.
Proof. intros Hs Hd. unfold fill, setting. destruct file, (typed id); cbn; auto. Qed.
Lemma fill_other {A B} typed id (file : option A) (set : A -> Cli -> Cli) (get : Cli -> B) args :
  (forall v c, get (set v c) = get c) -> get (fill typed id file set args) = get args.
Proof. intros Hs. unfold fill. destruct file, (typed id); cbn; auto. Qed.

(** The settings in effect, given the file. *)
Record launched (typed : string -> bool) (args : Cli) (file : TomlConfig) (l : Launch) : Prop := {
  ln_mode : cfg_mode (snapshot (la_config l)) = setting typed "mode" (cli_mode args) (tc_mode file) Enhanced;
  ln_quality : cfg_quality_enabled (snapshot (la_config l)) =
    negb (setting typed "no_quality" (cli_no_quality args) (tc_no_quality file) false);
  ln_stall : cfg_stall_deselect (snapshot (la_config l)) =
    negb (setting typed "no_stall_deselect" (cli_no_stall_deselect args) (tc_no_stall_deselect file) false);
  ln_in_flight : cfg_stall_min_in_flight (snapshot (la_config l)) =
    setting typed "stall_min_in_flight" (cli_stall_min_in_flight args) (tc_stall_min_in_flight file) STALL_MIN_IN_FLIGHT_PACKETS;
  ln_stale : cfg_stall_ack_stale_ms (snapshot (la_config l)) =
    setting typed "stall_ack_stale_ms" (cli_stall_ack_stale_ms args) (tc_stall_ack_stale_ms file) STALL_ACK_STALE_MS;
  ln_timeout : cfg_conn_timeout_ms (snapshot (la_config l)) =
    clamp_Z (setting typed "conn_timeout_ms" (cli_conn_timeout_ms args) (tc_conn_timeout_ms file) CONN_TIMEOUT_MS)
      CONN_TIMEOUT_MS_MIN CONN_TIMEOUT_MS_MAX;
  ln_rehome : rehome_on_failure (la_config l) = negb (cli_no_rehome args);
  ln_local_port : Some (la_local_srt_port l) = cli_local_srt_port args;
  ln_host : Some (la_receiver_host l) = cli_receiver_host args;
  ln_port : Some (la_receiver_port l) = cli_receiver_port args;
  ln_ips : Some (la_ips_file l) = cli_ips_file args }.

Lemma apply_config_other {A} typed (get : Cli -> A) args file :
  (forall m c, get (c <| cli_mode := m |>) = get c) -> (forall b c, get (c <| cli_no_quality := b |>) = get c) ->
  (forall b c, get (c <| cli_no_stall_deselect := b |>) = get c) -> (forall n c, get (c <| cli_stall_min_in_flight := n |>) = get c) ->
  (forall n c, get (c <| cli_stall_ack_stale_ms := n |>) = get c) -> (forall n c, get (c <| cli_conn_timeout_ms := n |>) = get c) ->
  get (apply_config_file typed args file) = get args.
Proof. intros. unfold apply_config_file. by rewrite !fill_other. Qed.

(** C26: what main does with its arguments, on every branch: the version is
    printed if asked for; a configuration file that was named and cannot be
    loaded stops the start; otherwise the sender starts with the positional
    arguments as given and each of the six settings from the command line when it
    was typed there, else from the file, else at its default, the timeout cut to
    its range.  Nothing panics. *)
Theorem settings_precedence typed args load (Hc : clap_ok typed args) :
  exists r, main_ typed args load = Ret r /\
  match cli_print_version args, cli_config_file args, load with
  | true, _, _ => r = PrintVersion
  | false, Some _, None => r = LoadFailed
  | false, Some _, Some file => exists l, r = Run l /\ launched typed args file l
  | false, None, _ => exists l, r = Run l /\ launched typed args toml_default l
  end.
Proof.
  unfold main_. destruct (cli_print_version args) eqn:Ev; [by eexists|].
  destruct (ck_required _ _ Hc Ev) as ([p Hp] & [h Hh] & [rp Hrp] & [f Hf]).
  destruct (cli_config_file args) as [path|] eqn:Ef.
  - destruct load as [file|]; cbn [fmap option_fmap option_map]; [|by eexists].
    rewrite (apply_config_other typed cli_local_srt_port), (apply_config_other typed cli_receiver_host),
      (apply_config_other typed cli_receiver_port), (apply_config_other typed cli_ips_file), Hp, Hh, Hrp, Hf by done.
    cbn [expect mbind res_bind]. eexists. split; [done|]. eexists. split; [done|]. destruct Hc as [_ C1 C2 C3 C4 C5 C6].
    split; cbn [la_config snapshot from_cli cfg_mode cfg_quality_enabled cfg_stall_deselect cfg_stall_min_in_flight cfg_stall_ack_stale_ms
      cfg_conn_timeout_ms dyn_mode dyn_quality_enabled dyn_stall_deselect dyn_stall_min_in_flight dyn_stall_ack_stale_ms dyn_conn_timeout_ms
      rehome_on_failure dyn_rehome_on_failure]; rewrite ?mode_u8_roundtrip.
    8-11: done.
    7: { by rewrite (apply_config_other typed cli_no_rehome). }
    all: unfold apply_config_file; repeat (rewrite fill_other by done); repeat f_equal.
    all: (etrans; [apply fill_setting; [done|]|]); repeat (rewrite fill_other by done); done.
  - rewrite Hp, Hh, Hrp, Hf. cbn [expect mbind res_bind]. eexists. split; [done|].
    assert (launched typed args toml_default (mkLaunch p h rp f (from_cli (cli_mode args) (cli_no_quality args)
      (cli_no_stall_deselect args) (cli_stall_min_in_flight args) (cli_stall_ack_stale_ms args) (cli_conn_timeout_ms args)
      (cli_no_rehome args)))) as Hl; [|by eauto].
    destruct Hc as [_ C1 C2 C3 C4 C5 C6].
    split; cbn; rewrite ?mode_u8_roundtrip; unfold setting; cbn; [..|done|done|done|done|done];
      match goal with |- context [typed ?x] => destruct (typed x) eqn:E end; rewrite ?C1, ?C2, ?C3, ?C4, ?C5, ?C6 by done; done.
Qed.

(** ** Standard input (config.rs) *)
Section Stdin.
Context (from_str : chars -> Request + string).

(** [spawn_stdin_listener]: the lines until the first one that cannot be read;
    the configuration and the answers printed. *)
Fixpoint stdin_loop (config : DynamicConfig) (stats : StatsProvider) (w : option CriticalWindow) (input : list (option chars))
  : DynamicConfig * list Response :=
  match input with
  | Some line :: input =>
    let '(config, resp) := dispatch_inner from_str config stats w (trim line) in
    let '(config, printed) := stdin_loop config stats w input in
    (config, match resp with Some r => r :: printed | None => printed end)
  | _ => (config, [])
  end.
End Stdin.

(** ** Witnesses *)
Definition demo_toml (text : chars) : option (list (string * TomlValue)) :=
  if bool_decide (text = []) then Some [] else Some [("conn_timeout_ms"%string, TmInt 90000); ("no_quality"%string, TmBool true)].
Definition demo_cli : Cli :=
  mkCli false (Some 5000) (Some "rec.example"%string) (Some 5001) (Some "ips.txt"%string) None (Some "a.toml"%string)
    Enhanced false false STALL_MIN_IN_FLIGHT_PACKETS 2000 CONN_TIMEOUT_MS false None None.
Definition demo_typed (id : string) : bool := bool_decide (id = "stall_ack_stale_ms"%string).

Lemma toml_load_spec_witness :
  match toml_load demo_toml (Some [1]) with Some t => tc_conn_timeout_ms t = Some 90000 /\ tc_mode t = None | None => False end.
Proof.
  pose proof (toml_load_spec demo_toml (Some [1])) as H. vm_compute toml_load in H. vm_compute toml_load.
  destruct H as (text & table & Ht & Hf & _ & H1 & _ & _ & _ & _ & H6).
  - intros text table. unfold demo_toml. destruct (bool_decide (text = [])); intros E; injection E as <-; [constructor|].
    apply (bool_decide_eq_true_1 (NoDup _)). vm_compute. reflexivity.
  - injection Ht as <-. vm_compute in Hf. injection Hf as <-. split; [exact H6|exact H1].
Defined.

Lemma settings_precedence_witness :
  (exists l, main_ demo_typed demo_cli (toml_load demo_toml (Some [1])) = Ret (Run l) /\
    cfg_conn_timeout_ms (snapshot (la_config l)) = 60000 /\ cfg_stall_ack_stale_ms (snapshot (la_config l)) = 2000 /\
    cfg_quality_enabled (snapshot (la_config l)) = false) /\
  main_ demo_typed demo_cli None = Ret LoadFailed.
Proof.
  assert (clap_ok demo_typed demo_cli) as Hc.
  { split; vm_compute; intros H; try discriminate H; try reflexivity. split_and!; eexists; reflexivity. }
  split.
  - destruct (settings_precedence demo_typed demo_cli (toml_load demo_toml (Some [1])) Hc) as (r & Hm & l & -> & Hr).
    exists l. split; [exact Hm|]. destruct Hr as [_ L2 _ _ L5 L6 _]. rewrite L6, L5, L2. vm_compute. split_and!; reflexivity.
  - destruct (settings_precedence demo_typed demo_cli None Hc) as (r & Hm & ->). exact Hm.
Defined.
