(* ===== verification/Metrics.v ===== *)
(** * The Prometheus endpoint (src/metrics.rs)

    [render] writes the statistics of the last tick, the mode and the counters
    of the priority sidecar in the text format; [serve_one] answers one HTTP
    connection.  A read of the socket is one entry of a script: the bytes that
    have arrived, or an error; the end of the script is the end of the input.
    The [Display] texts of addresses and floats are parameters.

    The theorems: the exposition read back by a scraper gives exactly one sample
    per link and family, with what the link's own state says at the tick,
    distinct as series if and only if the addresses of the links are; and the answer depends only on the first 4096 bytes of the
    request, however the network splits them. *)
From stdpp Require Import strings pretty.
From S2P Require Import Prelude Text F64 Wire Config Rtt Pacing Congestion Connection Selection Classifier LinkCc Reload Subscriptions Control Stats.
Open Scope Z_scope.

(** ** Text *)
Definition newline : Ascii.ascii := Ascii.ascii_of_nat 10.
Definition space : Ascii.ascii := Ascii.ascii_of_nat 32.
Definition crlf : string := String (Ascii.ascii_of_nat 13) (String newline "").
Definition show_int (n : Z) : string := pretty n.
Definition show_flag (b : bool) : string := show_int (if b then 1 else 0).

(** A family: its name, help, type and samples, each for a link or for all. *)
Record Family := mkFamily { fm_name : string; fm_help : string; fm_type : string; fm_samples : list (option Z * string) }.

Section Render.
Context (show_ip : Z -> string) (show_f64 : f64 -> string).

Definition series (name : string) (ip : option Z) : string :=
  match ip with
  | Some ip => name +:+ "{ip=" +:+ dquote +:+ show_ip ip +:+ dquote +:+ "}"
  | None => name
  end.

Definition family_lines (f : Family) : list string :=
  ("# HELP " +:+ fm_name f +:+ " " +:+ fm_help f) :: ("# TYPE " +:+ fm_name f +:+ " " +:+ fm_type f) ::
  map (fun s : option Z * string => series (fm_name f) s.1 +:+ " " +:+ s.2) (fm_samples f).

(** One series per link, labelled by its address. *)
Definition per_link (snap : StatsSnapshot) (value : LinkStats -> string) : list (option Z * string) :=
  map (fun link => (Some (ls_ip link), value link)) (ss_links snap).
Definition single (value : string) : list (option Z * string) := [(None, value)].

Definition link_traffic (snap : StatsSnapshot) : list Family :=
  [mkFamily "srtla_send_link_up" "1 if the link is connected and not timed out" "gauge"
     (per_link snap (fun link => show_flag (ls_connected link && negb (ls_timed_out link))));
   mkFamily "srtla_send_link_rtt_ms" "smoothed RTT" "gauge" (per_link snap (fun link => show_int (ls_rtt_ms link)));
   mkFamily "srtla_send_link_rtt_min_ms" "dual-window minimum RTT baseline" "gauge"
     (per_link snap (fun link => show_f64 (ls_rtt_min_ms link)));
   mkFamily "srtla_send_link_rtt_velocity" "Kalman RTT velocity, ms/sample (positive = rising)" "gauge"
     (per_link snap (fun link => show_f64 (ls_rtt_velocity link)));
   mkFamily "srtla_send_link_window" "congestion window size (packets)" "gauge" (per_link snap (fun link => show_int (ls_window link)));
   mkFamily "srtla_send_link_in_flight" "packets sent but not yet ACKed" "gauge" (per_link snap (fun link => show_int (ls_in_flight link)));
   mkFamily "srtla_send_link_nak_total" "cumulative NAK count" "counter" (per_link snap (fun link => show_int (ls_nak_count link)));
   mkFamily "srtla_send_link_bitrate_bytes_per_second" "measured send rate, bytes/sec" "gauge"
     (per_link snap (fun link => show_int (ls_bitrate_bytes_per_sec link)))]%string.

Definition link_scheduling (snap : StatsSnapshot) : list Family :=
  [mkFamily "srtla_send_link_quality_multiplier" "scheduler quality multiplier in [0.35, 1.1]" "gauge"
     (per_link snap (fun link => show_f64 (ls_quality_multiplier link)));
   mkFamily "srtla_send_link_stall_gated" "link is stall-gated out of the payload rotation (0/1)" "gauge"
     (per_link snap (fun link => show_flag (ls_stall_gated link)));
   mkFamily "srtla_send_link_stall_gate_events" "cumulative stall-latch engagements" "counter"
     (per_link snap (fun link => show_int (ls_stall_gate_events link)));
   mkFamily "srtla_send_link_sole_carrier" "link is the elected sole carrier while every link is quality gated (0/1)" "gauge"
     (per_link snap (fun link => show_flag (ls_sole_carrier link)));
   mkFamily "srtla_send_link_sole_carrier_elections" "cumulative sole-carrier handovers taken from another link" "counter"
     (per_link snap (fun link => show_int (ls_sole_carrier_elections link)));
   mkFamily "srtla_send_link_silence_pulls" "cumulative fast silence-pull engagements" "counter"
     (per_link snap (fun link => show_int (ls_silence_pulls link)));
   mkFamily "srtla_send_link_weight"
     "operator link weight from the ips file, normalised so the lowest link is 1 (classic mode only)" "gauge"
     (per_link snap (fun link => show_int (ls_weight link)))]%string.

Definition aggregates (snap : StatsSnapshot) (config : DynamicConfig) (cw : CriticalWindow) : list Family :=
  [mkFamily "srtla_send_active_links" "links currently connected and live" "gauge" (single (show_int (ss_active_links snap)));
   mkFamily "srtla_send_total_links" "configured link count" "gauge" (single (show_int (ss_total_links snap)));
   mkFamily "srtla_send_total_window" "summed window across active links" "gauge" (single (show_int (ss_total_window snap)));
   mkFamily "srtla_send_total_in_flight" "summed in-flight across active links" "gauge" (single (show_int (ss_total_in_flight snap)));
   mkFamily "srtla_send_mode" "scheduling mode (0=classic,1=enhanced)" "gauge"
     (single (show_int (match config_mode config with Classic => 0 | Enhanced => 1 end)));
   mkFamily "srtla_send_critical_windows_total" "total keyframe-priority datagrams applied" "counter"
     (single (show_int (windows_received cw)));
   mkFamily "srtla_send_critical_malformed_datagrams_total" "malformed priority-sidecar datagrams" "counter"
     (single (show_int (malformed_datagrams cw)))]%string.

Definition families (snap : StatsSnapshot) (config : DynamicConfig) (cw : CriticalWindow) : list Family :=
  link_traffic snap ++ link_scheduling snap ++ aggregates snap config cw.

(** [writeln!] of every line. *)
Definition unlines (ls : list string) : string := foldr (fun l out => l +:+ String newline out) "" ls.

Definition render (snap : StatsSnapshot) (config : DynamicConfig) (cw : CriticalWindow) : string :=
  unlines (flat_map family_lines (families snap config cw)).
End Render.

(** ** Requests *)

(** [std::str::from_utf8]: the well-formed sequences of the Unicode standard. *)
Definition tail (b : Z) : bool := (128 <=? b) && (b <=? 191).
Fixpoint utf8_valid (l : bytes) : bool :=
  match l with
  | [] => true
  | b :: l =>
    if b <? 128 then utf8_valid l
    else if (194 <=? b) && (b <=? 223) then match l with c :: l => tail c && utf8_valid l | _ => false end
    else if (224 <=? b) && (b <=? 239) then
      match l with
      | c :: d :: l =>
        (if b =? 224 then (160 <=? c) && (c <=? 191) else if b =? 237 then (128 <=? c) && (c <=? 159) else tail c) &&
        tail d && utf8_valid l
      | _ => false
      end
    else if (240 <=? b) && (b <=? 244) then
      match l with
      | c :: d :: e :: l =>
        (if b =? 240 then (144 <=? c) && (c <=? 191) else if b =? 244 then (128 <=? c) && (c <=? 143) else tail c) &&
        tail d && tail e && utf8_valid l
      | _ => false
      end
    else false
  end.

(** The bytes before the first [sep], and what follows it if it is there. *)
Fixpoint split_at (sep : Z) (l : bytes) : bytes * option bytes :=
  match l with
  | [] => ([], None)
  | b :: l => if b =? sep then ([], Some l) else let '(a, r) := split_at sep l in (b :: a, r)
  end.

Definition ascii_lower (b : Z) : Z := if (65 <=? b) && (b <=? 90) then b + 32 else b.

Definition request_path (request : bytes) : option bytes :=
  match split_at 13 request with
  | (_, None) => None
  | (line, Some _) =>
    if negb (utf8_valid line) then None
    else
      let '(method, rest) := split_at 32 line in
      if bool_decide (map ascii_lower method = [103; 101; 116]) then
        match rest with Some rest => Some (split_at 32 rest).1 | None => None end
      else None
  end.

Inductive ReadOutcome := RdData (arrived : bytes) | RdError.
Definition BUF_LEN : nat := 4096.

(** [windows(4).any(..)]: the end of the headers is in the buffer. *)
Fixpoint headers_end (l : bytes) : bool :=
  match l with
  | [] => false
  | _ :: l' => bool_decide (take 4 l = [13; 10; 13; 10]) || headers_end l'
  end.

(** The read loop; [None]: a read failed. *)
Fixpoint read_request (buf : bytes) (script : list ReadOutcome) : option bytes :=
  if Nat.eqb (length buf) BUF_LEN then Some buf
  else
    match script with
    | [] => Some buf
    | RdError :: _ => None
    | RdData arrived :: script =>
      let data := take (BUF_LEN - length buf) arrived in
      if bool_decide (data = []) then Some buf
      else
        let buf := buf ++ data in
        if headers_end buf then Some buf else read_request buf script
    end.

Inductive HttpResponse := NotFound | Found (content_length : Z) (body : string).
Definition METRICS : bytes := [47; 109; 101; 116; 114; 105; 99; 115].

(** The answer to a request, given the text [render] would give. *)
Definition respond (path : option bytes) (rendered : string) : HttpResponse :=
  match path with
  | Some p => if bool_decide (p = METRICS) || bool_decide (p = [47])
              then Found (Z.of_nat (String.length rendered)) rendered else NotFound
  | None => NotFound
  end.

Definition serve_one (rendered : string) (script : list ReadOutcome) : option HttpResponse :=
  (fun request => respond (request_path request) rendered) <$> read_request [] script.

(** The bytes of a response. *)
Definition response_text (r : HttpResponse) : string :=
  match r with
  | NotFound => "HTTP/1.1 404 Not Found" +:+ crlf +:+ "Content-Length: 0" +:+ crlf +:+ "Connection: close" +:+ crlf +:+ crlf
  | Found n body =>
      "HTTP/1.1 200 OK" +:+ crlf +:+ "Content-Type: text/plain; version=0.0.4" +:+ crlf +:+ "Content-Length: " +:+ show_int n +:+
      crlf +:+ "Connection: close" +:+ crlf +:+ crlf +:+ body
  end.

(** ** A scraper *)

(** The lines of a text in which every line is ended. *)
Fixpoint text_lines (s : string) : list string :=
  match s with
  | "" => []
  | String c s =>
    if bool_decide (c = newline) then ""%string :: text_lines s
    else match text_lines s with l :: ls => String c l :: ls | [] => [String c ""] end
  end%string.

(** A string up to the first [c], and what follows. *)
Fixpoint cut (c : Ascii.ascii) (s : string) : option (string * string) :=
  match s with
  | "" => None
  | String x s => if bool_decide (x = c) then Some (""%string, s)
                  else match cut c s with Some (a, b) => Some (String x a, b) | None => None end
  end%string.

Definition is_comment (l : string) : bool := match l with String c _ => bool_decide (c = Ascii.ascii_of_nat 35) | _ => false end.
(** The samples of an exposition: series and value of each line that is no comment. *)
Definition scrape (text : string) : list (string * string) :=
  omap (fun l => if is_comment l then None else cut space l) (text_lines text).

Lemma text_lines_line l s : lacks newline l = true -> text_lines (l +:+ String newline s) = l :: text_lines s.
Proof.
  induction l as [|x l IH]; [done|]. rewrite append_String. cbn [lacks text_lines]. intros [Hx Hl]%andb_true_iff.
  apply negb_true_iff in Hx. by rewrite Hx, IH.
Qed.
Lemma cut_first c a b : lacks c a = true -> cut c (a +:+ String c b) = Some (a, b).
Proof.
  induction a as [|x a IH]; cbn [lacks].
  - intros _. change ("" +:+ String c b) with (String c b). cbn [cut]. by rewrite bool_decide_eq_true_2.
  - intros [Hx Ha]%andb_true_iff. rewrite append_String. cbn [cut]. apply negb_true_iff in Hx. by rewrite Hx, IH.
Qed.
Lemma text_lines_unlines ls : Forall (fun l => lacks newline l = true) ls -> text_lines (unlines ls) = ls.
Proof. induction 1 as [|l ls Hl _ IH]; [done|]. unfold unlines. cbn [foldr]. rewrite text_lines_line by done. f_equal. exact IH. Qed.

(** Numbers are printed in digits. *)
Definition brace : Ascii.ascii := Ascii.ascii_of_nat 123.
Definition quote : Ascii.ascii := Ascii.ascii_of_nat 34.

Lemma show_int_lacks_any (c : Ascii.ascii) n : c = space \/ c = newline \/ c = quote -> lacks c (show_int n) = true.
Proof.
  intros Hc. assert (forall x : N, pretty_N_char x <> c) as Hx.
  { intros x. unfold pretty_N_char. destruct Hc as [-> |[-> | ->]]; repeat case_match; done. }
  unfold show_int. destruct n as [|p|p]; [by destruct Hc as [-> |[-> | ->]]|exact (pretty_N_lacks c (Npos p) Hx)|].
  change (pretty (Z.neg p)) with ("-" +:+ pretty (Npos p)). rewrite lacks_app, pretty_N_lacks by done. by destruct Hc as [-> |[-> | ->]].
Qed.
Lemma show_int_lacks n : lacks newline (show_int n) = true.
Proof. apply show_int_lacks_any. auto. Qed.

(** ** The exposition *)

(** A label value that needs no escape and ends where its quote ends. *)
Definition label_text (s : string) : Prop := lacks space s = true /\ lacks newline s = true /\ lacks quote s = true.

(** Names that are metric names, and help and type on one line. *)
Definition family_ok (f : Family) : bool :=
  lacks space (fm_name f) && lacks newline (fm_name f) && lacks brace (fm_name f) && negb (is_comment (fm_name f)) &&
  negb (bool_decide (fm_name f = ""%string)) && lacks newline (fm_help f) && lacks newline (fm_type f).

Lemma families_ok show_f64 snap config cw : forallb family_ok (families show_f64 snap config cw) = true.
Proof. by vm_compute. Qed.
Lemma families_distinct show_f64 snap config cw : NoDup (map fm_name (families show_f64 snap config cw)).
Proof. apply (bool_decide_eq_true_1 (NoDup _)). by vm_compute. Qed.

Section Exposition.
Context (show_ip : Z -> string) (show_f64 : f64 -> string).
Context (Hip : forall ip, label_text (show_ip ip)) (Hf64 : forall x, lacks newline (show_f64 x) = true).

Lemma families_values snap config cw f s :
  f ∈ families show_f64 snap config cw -> s ∈ fm_samples f -> lacks newline s.2 = true.
Proof using Hf64.
  intros Hf. assert (forall value, (forall l, lacks newline (value l) = true) -> forall s, s ∈ per_link snap value -> lacks newline s.2 = true) as Hl.
  { intros value Hv x (l & -> & _)%list_elem_of_fmap. apply Hv. }
  assert (forall b, lacks newline (show_flag b) = true) as Hb by (intros; apply show_int_lacks).
  assert (forall n x, x ∈ single (show_int n) -> lacks newline x.2 = true) as Hs.
  { intros n x ->%list_elem_of_singleton. apply show_int_lacks. }
  unfold families, link_traffic, link_scheduling, aggregates in Hf. cbn [app] in Hf.
  repeat (apply elem_of_cons in Hf as [->|Hf]; [cbn [fm_samples]; first [apply Hs|apply Hl; intros; first [apply show_int_lacks|apply Hb|apply Hf64]]|]).
  by apply elem_of_nil in Hf.
Qed.

Lemma series_lacks (c : Ascii.ascii) name ip : c = space \/ c = newline -> lacks c name = true -> lacks c (series show_ip name ip) = true.
Proof using Hip.
  intros Hc Hn. destruct ip as [ip|]; [|done]. unfold series. rewrite !lacks_app, Hn. destruct (Hip ip) as (H1 & H2 & _).
  by destruct Hc as [-> | ->]; rewrite ?H1, ?H2.
Qed.

Lemma scrape_line name ip v :
  lacks space name = true -> is_comment name = false -> name <> ""%string ->
  (fun l => if is_comment l then None else cut space l) (series show_ip name ip +:+ " " +:+ v) = Some (series show_ip name ip, v).
Proof using Hip.
  intros Hs Hc He. cbv beta. assert (is_comment (series show_ip name ip +:+ " " +:+ v) = false) as ->.
  { destruct name as [|x name]; [done|]. by destruct ip. }
  change (" " +:+ v) with (String space v). apply cut_first, series_lacks; [by left|done].
Qed.

Definition samples_of (f : Family) : list (string * string) :=
  map (fun s : option Z * string => (series show_ip (fm_name f) s.1, s.2)) (fm_samples f).

Lemma flat_map_ext_elem {A B} (g h : A -> list B) l : (forall x, x ∈ l -> g x = h x) -> flat_map g l = flat_map h l.
Proof.
  induction l as [|x l IH]; intros H; [done|]. cbn [flat_map]. rewrite (H x) by (by left). f_equal. apply IH. intros y Hy. apply H. by right.
Qed.
Lemma omap_all {A B} (g : A -> option B) (h : A -> B) l : (forall x, x ∈ l -> g x = Some (h x)) -> omap g l = map h l.
Proof.
  induction l as [|x l IH]; intros H; [done|]. cbn [omap list_omap map]. rewrite (H x) by (by left). f_equal. apply IH. intros y Hy. apply H. by right.
Qed.

Lemma family_parts f : family_ok f = true ->
  lacks space (fm_name f) = true /\ lacks newline (fm_name f) = true /\ lacks brace (fm_name f) = true /\ is_comment (fm_name f) = false /\
  fm_name f <> ""%string /\ lacks newline (fm_help f) = true /\ lacks newline (fm_type f) = true.
Proof.
  unfold family_ok. rewrite !andb_true_iff, !negb_true_iff, bool_decide_eq_false. tauto.
Qed.

Lemma scrape_render snap config cw :
  scrape (render show_ip show_f64 snap config cw) = flat_map samples_of (families show_f64 snap config cw).
Proof using Hip Hf64.
  assert (forall f, f ∈ families show_f64 snap config cw -> family_ok f = true) as Hok.
  { intros f Hf. by apply (proj1 (forallb_forall _ _) (families_ok show_f64 snap config cw)), list_elem_of_In. }
  unfold scrape, render. rewrite text_lines_unlines.
  - rewrite omap_flat_map. apply flat_map_ext_elem. intros f Hf. destruct (family_parts f (Hok f Hf)) as (N1 & _ & _ & N4 & N5 & _).
    assert ((forall x, is_comment ("# HELP " +:+ x) = true) /\ forall x, is_comment ("# TYPE " +:+ x) = true) as [C1 C2] by done.
    unfold family_lines, samples_of. cbn [omap list_omap]. rewrite C1, C2.
    transitivity (omap (fun s : option Z * string => Some (series show_ip (fm_name f) s.1, s.2)) (fm_samples f)).
    + induction (fm_samples f) as [|s l IH]; [done|]. cbn [map omap list_omap]. rewrite (scrape_line _ _ _ N1 N4 N5). f_equal. exact IH.
    + by apply omap_all.
  - rewrite Forall_forall. intros l Hl. apply list_elem_of_In, in_flat_map in Hl as (f & Hf%list_elem_of_In & Hl%list_elem_of_In).
    destruct (family_parts f (Hok f Hf)) as (N1 & N2 & _ & _ & _ & N6 & N7). unfold family_lines in Hl.
    apply elem_of_cons in Hl as [->|[->|Hl]%elem_of_cons]; [by rewrite !lacks_app, N2, N6|by rewrite !lacks_app, N2, N7|].
    apply list_elem_of_fmap in Hl as (s & -> & Hs). rewrite !lacks_app, (families_values snap config cw f s Hf Hs).
    rewrite series_lacks; [done|by right|done].
Qed.

(** A series names its family and its address. *)
Lemma cut_none c s : lacks c s = true -> cut c s = None.
Proof. induction s as [|x s IH]; [done|]. cbn [lacks cut]. intros [Hx Hs]%andb_true_iff. apply negb_true_iff in Hx. by rewrite Hx, IH. Qed.
Lemma cut_series name ip : lacks brace name = true ->
  cut brace (series show_ip name ip) =
  match ip with Some ip => Some (name, "ip=" +:+ dquote +:+ show_ip ip +:+ dquote +:+ "}") | None => None end.
Proof. intros Hn. destruct ip as [ip|]; [exact (cut_first brace name _ Hn)|by apply cut_none]. Qed.
Lemma series_inj n1 n2 i1 i2 : lacks brace n1 = true -> lacks brace n2 = true ->
  series show_ip n1 i1 = series show_ip n2 i2 -> n1 = n2 /\ show_ip <$> i1 = show_ip <$> i2.
Proof using Hip.
  intros H1 H2 E. pose proof (f_equal (cut brace) E) as Ec. rewrite !cut_series in Ec by done.
  destruct i1 as [i1|], i2 as [i2|]; [|done..]. apply (Some_inj _ _), pair_equal_spec in Ec as [-> Et]. split; [done|]. cbn. f_equal.
  apply (f_equal (fun s => match s with String _ (String _ (String _ (String _ s))) => cut quote s | _ => None end)) in Et.
  change (cut quote (show_ip i1 +:+ String quote "}") = cut quote (show_ip i2 +:+ String quote "}")) in Et.
  rewrite !cut_first in Et by apply Hip. congruence.
Qed.

Definition family_series (f : Family) : list string := map (fun s : option Z * string => series show_ip (fm_name f) s.1) (fm_samples f).

Lemma series_distinct (known : option Z -> Prop) fs :
  (forall i j, known i -> known j -> show_ip <$> i = show_ip <$> j -> i = j) -> NoDup (map fm_name fs) ->
  (forall f, f ∈ fs -> lacks brace (fm_name f) = true /\ NoDup (map fst (fm_samples f)) /\ Forall (fun s => known s.1) (fm_samples f)) ->
  NoDup (flat_map family_series fs).
Proof using Hip.
  intros Hk. induction fs as [|f fs IH]; intros Hn Hf; [constructor|]. cbn [flat_map map] in *. apply NoDup_cons in Hn as [Hx Hn].
  destruct (Hf f ltac:(by left)) as (Hb & Hd & Ha). apply NoDup_app. split; [|split].
  - unfold family_series. clear -Hip Hk Hb Hd Ha. induction (fm_samples f) as [|s l IHl]; [constructor|]. cbn [map] in *.
    apply NoDup_cons in Hd as [Hs Hd]. apply Forall_cons in Ha as [H1 Ha]. apply NoDup_cons. split; [|by apply IHl].
    intros (s' & E & Hs')%list_elem_of_fmap. apply series_inj in E as [_ E]; [|done..]. apply Hs.
    apply list_elem_of_fmap. exists s'. split; [|done]. apply Hk; [done| |done]. by apply (proj1 (Forall_forall _ _) Ha).
  - intros x (s & -> & _)%list_elem_of_fmap (g & Hg%list_elem_of_In & Hs%list_elem_of_In)%list_elem_of_In%in_flat_map.
    apply list_elem_of_fmap in Hs as (s' & E & _). apply series_inj in E as [E _]; [|done|apply (Hf g); by right].
    apply Hx. rewrite E. by apply list_elem_of_fmap_2.
  - apply IH; [done|]. intros g Hg. apply Hf. by right.
Qed.

Lemma family_keys snap config cw f : f ∈ families show_f64 snap config cw ->
  map fst (fm_samples f) = map Some (map ls_ip (ss_links snap)) \/ map fst (fm_samples f) = [None].
Proof.
  intros Hf. unfold families, link_traffic, link_scheduling, aggregates in Hf. cbn [app] in Hf.
  repeat (apply elem_of_cons in Hf as [->|Hf];
    [cbn [fm_samples]; first [by right|left; unfold per_link; rewrite !map_map; by apply map_ext]|]).
  by apply elem_of_nil in Hf.
Qed.

Lemma samples_series fs : map fst (flat_map samples_of fs) = flat_map family_series fs.
Proof.
  induction fs as [|f fs IH]; [done|]. cbn [flat_map]. rewrite map_app, IH. f_equal. unfold samples_of, family_series. by rewrite map_map.
Qed.
End Exposition.

(** ** What the families mean

    Each metric by its name, as a reading of a link at the time of the tick or
    of the whole program; stated over the links, not over the snapshot. *)
Section Readings.
Context (show_f64 : f64 -> string) (exp : f64 -> f64).

Definition link_readings (quality : bool) (t : Z) : list (string * (SrtlaConnection -> string)) :=
  [("srtla_send_link_up", fun c => if connected c && negb (is_timed_out c t) then "1" else "0");
   ("srtla_send_link_rtt_ms", fun c => show_int (f_as_u32 (get_smooth_rtt_ms c)));
   ("srtla_send_link_rtt_min_ms", fun c => show_f64 (get_rtt_min_ms c));
   ("srtla_send_link_rtt_velocity", fun c => show_f64 (get_rtt_velocity c));
   ("srtla_send_link_window", fun c => show_int (window c));
   ("srtla_send_link_in_flight", fun c => show_int (in_flight_packets c));
   ("srtla_send_link_nak_total", fun c => show_int (nak_count (congestion c)));
   ("srtla_send_link_bitrate_bytes_per_second", fun c =>
      show_int (f_as_u32 (fdiv (fmul (mbps (bitrate c)) (f_of_Z 1000000)) (f_of_Z 8))));
   ("srtla_send_link_quality_multiplier", fun c =>
      show_f64 (if quality then calculate_quality_multiplier exp c t else f1));
   ("srtla_send_link_stall_gated", fun c => if (stall_latched_since_ms c =? 0)%Z then "0" else "1");
   ("srtla_send_link_stall_gate_events", fun c => show_int (stall_gate_events c));
   ("srtla_send_link_sole_carrier", fun c => if sole_carrier c then "1" else "0");
   ("srtla_send_link_sole_carrier_elections", fun c => show_int (sole_carrier_elections c));
   ("srtla_send_link_silence_pulls", fun c => show_int (silence_pulls c));
   ("srtla_send_link_weight", fun c => show_int (link_weight c))]%string.

Definition bond_readings (conns : list SrtlaConnection) (t : Z) (config : DynamicConfig) (cw : CriticalWindow)
  : list (string * string) :=
  let alive := filter (fun c => connected c && negb (is_timed_out c t) = true) conns in
  [("srtla_send_active_links", show_int (u64_wrap (Z.of_nat (length alive))));
   ("srtla_send_total_links", show_int (Z.of_nat (length conns)));
   ("srtla_send_total_window", show_int (i32_wrap (Zsum (map window alive))));
   ("srtla_send_total_in_flight", show_int (i32_wrap (Zsum (map in_flight_packets alive))));
   ("srtla_send_mode", if is_classic (config_mode config) then "0" else "1");
   ("srtla_send_critical_windows_total", show_int (windows_received cw));
   ("srtla_send_critical_malformed_datagrams_total", show_int (malformed_datagrams cw))]%string.

(** The samples of a bond: a metric at a time, the links in order. *)
Definition expected_samples (show_ip : Z -> string) (quality : bool) (conns : list SrtlaConnection) (t : Z)
    (config : DynamicConfig) (cw : CriticalWindow) : list (string * string) :=
  flat_map (fun m : string * (SrtlaConnection -> string) =>
    map (fun c => (series show_ip m.1 (Some (local_ip c)), m.2 c)) conns) (link_readings quality t) ++
  bond_readings conns t config cw.

(** The snapshot of a tick, over its links. *)
Lemma stats_update_links cl cc conns cfg t :
  let s := stats_update exp cl cc conns cfg t in
  let alive := filter (fun c => connected c && negb (is_timed_out c t) = true) conns in
  ss_links s = map (link_stats exp cl cc (effective_quality_enabled cfg) t) conns /\
  ss_total_links s = Z.of_nat (length conns) /\ ss_active_links s = u64_wrap (Z.of_nat (length alive)) /\
  ss_total_window s = i32_wrap (Zsum (map window alive)) /\ ss_total_in_flight s = i32_wrap (Zsum (map in_flight_packets alive)).
Proof.
  cbv zeta. unfold stats_update.
  match goal with |- context [foldl _ ?s0 _] => destruct (stats_fold exp cl cc t conns s0 eq_refl eq_refl eq_refl) as (_ & H2 & H3 & H4 & H5 & H6) end.
  by rewrite H2, H3, H4, H5, H6.
Qed.

(** Each family of the snapshot is the reading of its name. *)
Lemma families_readings show_ip cl cc conns cfg t config cw :
  flat_map (samples_of show_ip) (families show_f64 (stats_update exp cl cc conns cfg t) config cw) =
  expected_samples show_ip (effective_quality_enabled cfg) conns t config cw.
Proof.
  destruct (stats_update_links cl cc conns cfg t) as (H1 & H2 & H3 & H4 & H5).
  unfold families, link_traffic, link_scheduling, aggregates, expected_samples, link_readings, bond_readings.
  cbn [app flat_map]. unfold samples_of, per_link, single. cbn [fm_samples fm_name].
  rewrite H1, H2, H3, H4, H5. rewrite !map_map, <- !app_assoc. cbn [fst snd].
  repeat (f_equal; [apply map_ext; intros c; unfold link_stats, total_nak_count, current_bitrate_mbps, show_flag, stall_latched;
    destruct (cl ≫= verdict (conn_id c)), (cc ≫= fun m => m !! conn_id c); cbn -[show_int]; repeat case_match; done|]).
  cbn [map app fst snd series]. by destruct (config_mode config).
Qed.
End Readings.

(** C39: a scraper reads back from the exposition, in this order, one sample per
    link in each of the fifteen link families and one in each of the seven
    others, and the value of each is what the state of the link (or of the
    program) says: liveness, window, packets in flight, round trips, losses,
    rates and verdicts as they were at the tick, mode and counters as they are
    now.  If the addresses print differently, the series are distinct exactly
    when the links have distinct addresses. *)
Theorem exposition_roundtrip show_ip show_f64 exp cl cc conns cfg t config cw
    (Hip : forall ip, label_text (show_ip ip)) (Hf64 : forall x, lacks newline (show_f64 x) = true)
    (Hinj : forall i j, i ∈ map local_ip conns -> j ∈ map local_ip conns -> show_ip i = show_ip j -> i = j) :
  let samples := scrape (render show_ip show_f64 (stats_update exp cl cc conns cfg t) config cw) in
  samples = expected_samples show_f64 exp show_ip (effective_quality_enabled cfg) conns t config cw /\
  length samples = (15 * length conns + 7)%nat /\
  (NoDup (map fst samples) <-> NoDup (map local_ip conns)).
Proof.
  cbv zeta. set (snap := stats_update exp cl cc conns cfg t). rewrite (scrape_render show_ip show_f64 Hip Hf64).
  split; [apply families_readings|].
  assert (map ls_ip (ss_links snap) = map local_ip conns) as Eip.
  { unfold snap. rewrite (proj1 (stats_update_links exp cl cc conns cfg t)), map_map. apply map_ext. intros c. unfold link_stats.
    by destruct (cl ≫= verdict (conn_id c)), (cc ≫= fun m => m !! conn_id c). }
  pose proof (f_equal length Eip) as El. rewrite !length_map in El. split.
  { unfold families, link_traffic, link_scheduling, aggregates. cbn [app flat_map].
    unfold samples_of, per_link, single. cbn [fm_samples]. rewrite !length_app, !length_map. cbn [length]. lia. }
  rewrite samples_series, <- Eip. rewrite <- Eip in Hinj. clear El Eip. split.
  - intros Hn. unfold families, link_traffic in Hn. cbn [app flat_map] in Hn. apply NoDup_app in Hn as [Hn _].
    unfold family_series, per_link in Hn. cbn [fm_samples] in Hn. rewrite map_map in Hn. cbn [fst] in Hn.
    rewrite <- (map_map ls_ip (fun ip => series show_ip _ (Some ip))) in Hn. by apply NoDup_fmap_1 in Hn.
  - intros Hn. apply (series_distinct show_ip Hip (fun o => match o with Some i => i ∈ map ls_ip (ss_links snap) | None => True end)).
    + intros [i|] [j|] Hi Hj E; [|done..]. f_equal. apply Hinj; [done..|]. by injection E.
    + apply families_distinct.
    + intros f Hf. pose proof (proj1 (forallb_forall _ _) (families_ok show_f64 snap config cw) f (proj1 (list_elem_of_In _ _) Hf)) as Hk.
      destruct (family_parts f Hk) as (_ & _ & Hb & _). split; [done|].
      set (known := fun o : option Z => match o with Some i => i ∈ map ls_ip (ss_links snap) | None => True end).
      assert (Forall known (map fst (fm_samples f)) -> Forall (fun s => known s.1) (fm_samples f)) as HP by (by rewrite Forall_map).
      destruct (family_keys show_f64 snap config cw f Hf) as [E|E]; (split; [rewrite E|apply HP; rewrite E]).
      * apply (NoDup_fmap_2 Some). done.
      * rewrite Forall_map, Forall_forall. done.
      * apply NoDup_singleton.
      * by constructor.
Qed.

(** ** Serving a request *)

Lemma split_at_app sep l m : is_Some (split_at sep l).2 -> exists r, split_at sep (l ++ m) = ((split_at sep l).1, Some r).
Proof.
  induction l as [|b l IH]; cbn [split_at app]; [by intros [? [=]]|]. destruct (b =? sep); [by eexists|].
  destruct (split_at sep l) as [a r] eqn:E. cbn [snd fst] in *. intros Hr. destruct (IH Hr) as [r' ->]. by eexists.
Qed.

(** A request line that is complete is not changed by what follows. *)
Lemma request_path_app l m : is_Some (split_at 13 l).2 -> request_path (l ++ m) = request_path l.
Proof.
  intros Hs. unfold request_path. destruct (split_at_app 13 l m Hs) as [r ->]. destruct (split_at 13 l) as [line [rest|]]; [done|].
  by destruct Hs.
Qed.
Lemma headers_end_line l : headers_end l = true -> is_Some (split_at 13 l).2.
Proof.
  induction l as [|b l IH]; [done|]. cbn [headers_end split_at]. intros [H%bool_decide_eq_true|H]%orb_true_iff.
  - destruct l; [done|]. cbn [take] in H. injection H as -> _. cbn. by eexists.
  - destruct (b =? 13); [by eexists|]. specialize (IH H). by destruct (split_at 13 l).
Qed.

(** What has arrived before the end of the input. *)
Fixpoint arrived (script : list ReadOutcome) : bytes :=
  match script with RdData d :: script => if bool_decide (d = []) then [] else d ++ arrived script | _ => [] end.
(** A read fails before the input ends. *)
Fixpoint fails (script : list ReadOutcome) : bool :=
  match script with RdData d :: script => negb (bool_decide (d = [])) && fails script | RdError :: _ => true | [] => false end.

Lemma read_request_spec script : forall buf, (length buf <= BUF_LEN)%nat ->
  match read_request buf script with
  | Some request => exists more, take BUF_LEN (buf ++ arrived script) = request ++ more /\ (more = [] \/ headers_end request = true)
  | None => fails script = true
  end.
Proof.
  induction script as [|r script IH]; intros buf Hb; cbn [read_request].
  - assert (read_request buf [] = Some buf) as Hr by (cbn; by destruct (Nat.eqb _ _)). cbn in Hr |- *. rewrite Hr.
    exists []. rewrite !app_nil_r, take_ge by done. auto.
  - destruct (Nat.eqb_spec (length buf) BUF_LEN) as [E|E].
    { exists []. rewrite app_nil_r, take_app_le, take_ge by lia. auto. }
    destruct r as [d|]; cbn [arrived fails]; [|done].
    destruct (decide (d = [])) as [->|Hd].
    { rewrite take_nil, !bool_decide_eq_true_2 by done. exists []. rewrite !app_nil_r, take_ge by lia. auto. }
    rewrite (bool_decide_eq_false_2 (d = [])) by done. cbn [negb andb].
    assert (take (BUF_LEN - length buf) d <> []) as Ht.
    { intros Ht%(f_equal length). rewrite length_take in Ht. destruct d; [done|]. cbn [length] in Ht. lia. }
    rewrite (bool_decide_eq_false_2 (take _ _ = [])) by done. cbv zeta. set (data := take (BUF_LEN - length buf) d) in *.
    assert (length (buf ++ data) <= BUF_LEN)%nat as Hl by (unfold data; rewrite length_app, length_take; lia).
    assert (take BUF_LEN (buf ++ d ++ arrived script) = take BUF_LEN ((buf ++ data) ++ arrived script)) as Hx.
    { destruct (decide (length d <= BUF_LEN - length buf)%nat) as [Hs|Hs].
      - unfold data. rewrite (take_ge d) by lia. by rewrite app_assoc.
      - assert (length (buf ++ data) = BUF_LEN) as Hfull by (unfold data; rewrite length_app, length_take; lia).
        rewrite (take_app_le (buf ++ data)), (take_ge (buf ++ data)) by lia.
        rewrite take_app_ge by lia. f_equal. rewrite take_app_le by lia. done. }
    rewrite Hx. destruct (headers_end (buf ++ data)) eqn:He; [|by apply IH].
    exists (drop (length (buf ++ data)) (take BUF_LEN ((buf ++ data) ++ arrived script))). split; [|by right].
    rewrite <- (take_drop (length (buf ++ data)) (take BUF_LEN ((buf ++ data) ++ arrived script))) at 1. f_equal.
    rewrite take_take, Nat.min_l by lia. by rewrite take_app_length.
Qed.

(** A request for the exposition: its first line is a GET, in any case of
    letters, of [/] or [/metrics]. *)
Definition wants_metrics (request : bytes) : Prop :=
  exists method path tail rest, request = (method ++ 32 :: path ++ tail) ++ 13 :: rest /\
    (13 ∉ method ++ 32 :: path ++ tail) /\ utf8_valid (method ++ 32 :: path ++ tail) = true /\
    (32 ∉ method) /\ map ascii_lower method = [103; 101; 116] /\
    (path = METRICS \/ path = [47]) /\ (tail = [] \/ exists t, tail = 32 :: t).

Lemma split_at_spec sep l a r : split_at sep l = (a, r) <->
  (sep ∉ a) /\ match r with Some r => l = a ++ sep :: r | None => l = a end.
Proof.
  revert a r. induction l as [|b l IH]; intros a r; cbn [split_at].
  - split; [intros [= <- <-]; split; [apply not_elem_of_nil|done]|]. intros [_ H]. destruct r as [r|]; [by destruct a|by subst].
  - destruct (Z.eqb_spec b sep) as [->|Hne].
    + split; [intros [= <- <-]; split; [apply not_elem_of_nil|done]|]. intros [Hn H].
      destruct a as [|x a]; [destruct r as [r|]; [by injection H as ->|done]|].
      exfalso. apply Hn. assert (x = sep) as -> by (by destruct r; injection H as ->). by left.
    + destruct (split_at sep l) as [a' r'] eqn:E. destruct (IH a' r') as [H1 _]. specialize (H1 eq_refl) as [Hn Hl]. split.
      * intros [= <- <-]. split; [by apply not_elem_of_cons|]. destruct r'; by rewrite Hl.
      * intros [Hn' H]. destruct a as [|x a]; [destruct r as [r|]; [by injection H|done]|].
        apply not_elem_of_cons in Hn' as [_ Hn']. assert (x = b) as -> by (by destruct r; injection H as ->).
        assert ((a', r') = (a, r)) as E2; [|by injection E2 as -> ->]. apply IH. split; [done|]. by destruct r; injection H as ->.
Qed.

Lemma request_path_spec request : wants_metrics request <-> request_path request = Some METRICS \/ request_path request = Some [47].
Proof.
  unfold request_path. split.
  - intros (method & path & tl & rest & -> & Hcr & Hu & Hsp & Hm & Hp & Ht).
    rewrite (proj2 (split_at_spec 13 _ (method ++ 32 :: path ++ tl) (Some rest))) by done. rewrite Hu. cbn [negb].
    rewrite (proj2 (split_at_spec 32 _ method (Some (path ++ tl)))) by done. rewrite bool_decide_eq_true_2 by done.
    assert (32 ∉ path) as Hn by (destruct Hp as [-> | ->]; by apply (bool_decide_eq_false_1 _)).
    assert ((split_at 32 (path ++ tl)).1 = path) as ->; [|by destruct Hp as [-> | ->]; auto].
    destruct Ht as [->|[t ->]].
    + rewrite app_nil_r. by rewrite (proj2 (split_at_spec 32 path path None)).
    + by rewrite (proj2 (split_at_spec 32 _ path (Some t))).
  - destruct (split_at 13 request) as [line [rest|]] eqn:E1; [|by intros [?|?]].
    destruct (utf8_valid line) eqn:Eu; cbn [negb]; [|by intros [?|?]].
    destruct (split_at 32 line) as [method [after|]] eqn:E2; [|by case_bool_decide; intros [?|?]].
    case_bool_decide as Em; [|by intros [?|?]]. destruct (split_at 32 after) as [path tl] eqn:E3. cbn [fst].
    apply split_at_spec in E1 as [N1 ->], E2 as [N2 ->], E3 as [N3 E3]. intros Hp.
    exists method, path, (match tl with Some t => 32 :: t | None => [] end), rest.
    assert (path ++ match tl with Some t => 32 :: t | None => [] end = after) as -> by (destruct tl; [done|by rewrite app_nil_r]).
    split_and!; [done..|by destruct Hp as [[= ->]|[= ->]]; auto|]. destruct tl; eauto.
Qed.

(** A connection is answered by what its first 4096 bytes ask for, however
    the network cuts them into reads: the whole exposition with its length if
    the first line is a GET of [/] or [/metrics], and 404 otherwise; only a
    failed read leaves it unanswered. *)
Theorem serve_one_spec (rendered : string) (script : list ReadOutcome) :
  match serve_one rendered script with
  | Some (Found n body) => wants_metrics (take BUF_LEN (arrived script)) /\ n = Z.of_nat (String.length rendered) /\ body = rendered
  | Some NotFound => ~ wants_metrics (take BUF_LEN (arrived script))
  | None => fails script = true
  end.
Proof.
  unfold serve_one. pose proof (read_request_spec script [] ltac:(cbn; lia)) as H.
  destruct (read_request [] script) as [request|]; [|done]. cbn [fmap option_fmap option_map app] in *.
  destruct H as (more & -> & Hm). pose proof (request_path_spec (request ++ more)) as Hw.
  assert (request_path (request ++ more) = request_path request) as Ep.
  { destruct Hm as [->|He]; [by rewrite app_nil_r|]. by apply request_path_app, headers_end_line. }
  rewrite Ep in Hw. unfold respond. destruct (request_path request) as [p|]; [|by rewrite Hw; intros [?|?]].
  destruct (bool_decide_reflect (p = METRICS)) as [->|N1]; [by split; [apply Hw; left|]|].
  destruct (bool_decide_reflect (p = [47])) as [->|N2]; [by split; [apply Hw; right|]|]. cbn [orb]. rewrite Hw. intros [[= ->]|[= ->]]; auto.
Qed.

(** ** A scrape of two links, one registered with a packet in flight *)
Definition demo_conns : list SrtlaConnection :=
  [register_packet (registered_now (new_registering 1 7 0) 1000) 5 1500; new_registering 2 8 0].
Definition demo_ip (ip : Z) : string := show_int ip.
Definition demo_f64 (x : f64) : string := show_int (f_as_u32 x).
Definition demo_scrape : list (string * string) :=
  scrape (render demo_ip demo_f64 (stats_update (fun x => x) None None demo_conns (snapshot dynamic_new) 2000) dynamic_new critical_new).

Lemma exposition_roundtrip_witness :
  NoDup (map fst demo_scrape) /\
  ("srtla_send_link_up{ip=" +:+ dquote +:+ "7" +:+ dquote +:+ "}", "1")%string ∈ demo_scrape /\
  ("srtla_send_link_in_flight{ip=" +:+ dquote +:+ "7" +:+ dquote +:+ "}", "1")%string ∈ demo_scrape /\
  ("srtla_send_active_links", "1")%string ∈ demo_scrape.
Proof.
  destruct (exposition_roundtrip demo_ip demo_f64 (fun x => x) None None demo_conns (snapshot dynamic_new) 2000 dynamic_new critical_new)
    as (Hs & _ & H).
  - intros ip. split_and!; apply show_int_lacks_any; auto.
  - intros x. apply show_int_lacks.
  - intros i j _ _ H. exact (pretty_Z_inj _ _ H).
  - unfold demo_scrape. split.
    + apply H. apply (bool_decide_eq_true_1 (NoDup _)). vm_compute. reflexivity.
    + rewrite Hs. split_and!; apply (bool_decide_eq_true_1 (_ ∈ _)); vm_compute; reflexivity.
Defined.
