(* ===== verification/Pipe.v ===== *)
(** * Captured output of the test stack (crates/network-sim/src/harness.rs)

    [drain_pipe]: the thread that reads what a child process prints, line by
    line, through a [BufReader].  The reads of the pipe are a script; a read of
    no bytes is the end of the file, a script used up is a thread that waits.
    The reference is a split of the whole text into lines.  The child, the pipe
    of the kernel (64 KiB) and the thread run side by side as a step relation.

    The theorems: the lines captured do not depend on how the text is cut into
    reads; a child whose output is read never hangs on a full pipe and all of
    it is captured, if it is text; from the first line that is not UTF-8 on, the
    capture ends and the pipe is closed. *)
From S2P Require Import Prelude Text Wire Reload Metrics.
Open Scope Z_scope.

(** ** [BufReader] and [BufRead::lines] *)
Inductive PipeRead := PrData (d : bytes) | PrInterrupted | PrError.
Inductive ReadLine := RlLine (raw buffered : bytes) (script : list PipeRead) | RlError | RlWaiting.

(** [read_until(b'\n')]: an interrupted read is repeated. *)
Fixpoint read_until (acc buffered : bytes) (script : list PipeRead) : ReadLine :=
  match split_at 10 buffered with
  | (a, Some rest) => RlLine (acc ++ a ++ [10]) rest script
  | (_, None) =>
    match script with
    | [] => RlWaiting
    | PrData [] :: _ => RlLine (acc ++ buffered) [] script
    | PrData d :: script => read_until (acc ++ buffered) d script
    | PrInterrupted :: script => read_until (acc ++ buffered) [] script
    | PrError :: _ => RlError
    end
  end.

(** [Lines::next] drops the line feed and a carriage return before it. *)
Definition strip_line (raw : bytes) : bytes :=
  match rev raw with c :: r => if c =? 10 then strip_cr (rev r) else raw | [] => raw end.

(** How the thread stands: it waits for the pipe, it has seen its end, or it
    stopped at an error and closed the pipe. *)
Inductive DrainEnd := DrWaiting | DrEof | DrClosed.
Global Instance DrainEnd_eq_dec : EqDecision DrainEnd.
Proof. solve_decision. Defined.

(** The loop of [drain_pipe]: the lines pushed to the sink.  A line is at
    least one byte long, so the bytes of the script bound the turns. *)
Fixpoint drain_loop (fuel : nat) (buffered : bytes) (script : list PipeRead) : list bytes * DrainEnd :=
  match fuel with
  | O => ([], DrWaiting)
  | S fuel =>
    match read_until [] buffered script with
    | RlWaiting => ([], DrWaiting)
    | RlError => ([], DrClosed)
    | RlLine raw buffered script =>
      if bool_decide (raw = []) then ([], DrEof)
      else if negb (utf8_valid raw) then ([], DrClosed)
      else let '(sink, e) := drain_loop fuel buffered script in (strip_line raw :: sink, e)
    end
  end.

(** ** The reference: a split of the text *)

(** What the reads give together, and how they end. *)
Fixpoint pipe_data (script : list PipeRead) : bytes * DrainEnd :=
  match script with
  | [] => ([], DrWaiting)
  | PrData [] :: _ => ([], DrEof)
  | PrData d :: script => let '(data, e) := pipe_data script in (d ++ data, e)
  | PrInterrupted :: script => pipe_data script
  | PrError :: _ => ([], DrClosed)
  end.

Definition drain_pipe (script : list PipeRead) : list bytes * DrainEnd :=
  drain_loop (S (length (pipe_data script).1)) [] script.

(** The lines that have ended, and the one that has not. *)
Fixpoint split_lines (cur text : bytes) : list bytes * bytes :=
  match text with
  | [] => ([], cur)
  | c :: text =>
    if c =? 10 then let '(ls, p) := split_lines [] text in ((cur ++ [10]) :: ls, p)
    else split_lines (cur ++ [c]) text
  end.
Definition last_line (p : bytes) : list bytes := if bool_decide (p = []) then [] else [p].
Definition raw_lines (text : bytes) : list bytes := let '(ls, p) := split_lines [] text in ls ++ last_line p.

Fixpoint take_while {A : Type} (f : A -> bool) (l : list A) : list A :=
  match l with x :: l => if f x then x :: take_while f l else [] | [] => [] end.

Definition drained (ls : list bytes) (p : bytes) (e : DrainEnd) : list bytes * DrainEnd :=
  let all := ls ++ (if bool_decide (e = DrEof) then last_line p else []) in
  (map strip_line (take_while utf8_valid all), if forallb utf8_valid all then e else DrClosed).

Lemma split_lines_app t1 : forall cur t2,
  split_lines cur (t1 ++ t2) = let '(l1, p1) := split_lines cur t1 in let '(l2, p2) := split_lines p1 t2 in (l1 ++ l2, p2).
Proof.
  induction t1 as [|c t1 IH]; intros cur t2; cbn [app split_lines]; [by destruct (split_lines cur t2)|].
  destruct (c =? 10); [|apply IH]. rewrite IH. destruct (split_lines [] t1) as [l1 p1]. by destruct (split_lines p1 t2).
Qed.

Lemma split_at_lines t : forall cur,
  match split_at 10 t with
  | (a, Some rest) => t = a ++ 10 :: rest /\ split_lines cur t = let '(ls, p) := split_lines [] rest in ((cur ++ a ++ [10]) :: ls, p)
  | (a, None) => split_lines cur t = ([], cur ++ t)
  end.
Proof.
  induction t as [|c t IH]; intros cur; cbn [split_at split_lines]; [by rewrite app_nil_r|].
  destruct (Z.eqb_spec c 10) as [->|Hc]; [done|]. specialize (IH (cur ++ [c])).
  destruct (split_at 10 t) as [a [rest|]].
  - destruct IH as [-> IH]. split; [done|]. rewrite IH. destruct (split_lines [] rest). by rewrite <- !app_assoc.
  - rewrite IH. by rewrite <- app_assoc.
Qed.

(** A read of a line from any state of the buffer is a read from the text. *)
Lemma read_until_spec script : forall acc buffered,
  let '(data, e) := pipe_data script in
  match split_at 10 (buffered ++ data), read_until acc buffered script with
  | (a, Some rest), RlLine raw b s => raw = acc ++ a ++ [10] /\ b ++ (pipe_data s).1 = rest /\ (pipe_data s).2 = e
  | (_, None), RlLine raw b s => e = DrEof /\ raw = acc ++ buffered ++ data /\ b = [] /\ pipe_data s = ([], DrEof)
  | (_, None), RlError => e = DrClosed
  | (_, None), RlWaiting => e = DrWaiting
  | _, _ => False
  end.
Proof.
  assert (forall x y : bytes, match split_at 10 x with
    | (a, Some rest) => split_at 10 (x ++ y) = (a, Some (rest ++ y))
    | (_, None) => split_at 10 (x ++ y) = let '(a, r) := split_at 10 y in (x ++ a, r)
    end) as Happ.
  { intros x y. induction x as [|c x IH]; cbn [split_at app]; [by destruct (split_at 10 y)|].
    destruct (c =? 10); [done|]. destruct (split_at 10 x) as [a [rest|]]; rewrite IH; [done|]. by destruct (split_at 10 y). }
  induction script as [|p script IH]; intros acc buffered.
  - cbn [pipe_data read_until]. rewrite app_nil_r. destruct (split_at 10 buffered) as [a [rest|]]; cbn; [by rewrite app_nil_r|done].
  - pose proof (Happ buffered (pipe_data (p :: script)).1) as Hb.
    assert (forall d, match split_at 10 buffered with (_, None) => True | _ => False end ->
      let '(data, e) := pipe_data script in
      match split_at 10 (buffered ++ d ++ data), read_until (acc ++ buffered) d script with
      | (a, Some rest), RlLine raw b s => raw = acc ++ a ++ [10] /\ b ++ (pipe_data s).1 = rest /\ (pipe_data s).2 = e
      | (_, None), RlLine raw b s => e = DrEof /\ raw = acc ++ buffered ++ d ++ data /\ b = [] /\ pipe_data s = ([], DrEof)
      | (_, None), RlError => e = DrClosed
      | (_, None), RlWaiting => e = DrWaiting
      | _, _ => False
      end) as Hnext.
    { intros d Hn. specialize (IH (acc ++ buffered) d). destruct (pipe_data script) as [data e].
      specialize (Happ buffered (d ++ data)). destruct (split_at 10 buffered) as [a0 [?|]]; [done|]. rewrite Happ.
      destruct (split_at 10 (d ++ data)) as [a [rest|]]; destruct (read_until (acc ++ buffered) d script) as [raw b s| |]; try done.
      - destruct IH as (-> & H2 & H3). split_and!; [by rewrite <- !app_assoc|done|done].
      - destruct IH as (H1 & -> & -> & H4). split_and!; [done|by rewrite <- !app_assoc|done..]. }
    cbn [read_until]. destruct (split_at 10 buffered) as [a [rest|]] eqn:Ea.
    + destruct (pipe_data (p :: script)) as [data e] eqn:Ep. cbn [fst] in Hb. rewrite Hb. done.
    + destruct p as [[|c d]| |].
      * cbn [pipe_data]. rewrite app_nil_r, Ea. done.
      * specialize (Hnext (c :: d) I). cbn [pipe_data]. destruct (pipe_data script) as [data e]. exact Hnext.
      * specialize (Hnext [] I). cbn [pipe_data]. exact Hnext.
      * cbn [pipe_data]. rewrite app_nil_r, Ea. done.
Qed.

Lemma drain_loop_spec fuel : forall buffered script,
  (length (buffered ++ (pipe_data script).1) < fuel)%nat ->
  drain_loop fuel buffered script =
    let '(ls, p) := split_lines [] (buffered ++ (pipe_data script).1) in drained ls p (pipe_data script).2.
Proof.
  induction fuel as [|fuel IH]; intros buffered script Hf; [lia|]. cbn [drain_loop].
  pose proof (read_until_spec script [] buffered) as Hr. destruct (pipe_data script) as [data e]. cbn [fst snd] in *.
  pose proof (split_at_lines (buffered ++ data) []) as Hl.
  destruct (split_at 10 (buffered ++ data)) as [a [rest|]].
  - destruct (read_until [] buffered script) as [raw b s| |]; try done. destruct Hr as (-> & <- & He). destruct Hl as [Ht ->].
    cbn [app] in *. rewrite (bool_decide_eq_false_2 (a ++ [10] = [])) by (by destruct a).
    assert (drain_loop fuel b s = let '(ls, p) := split_lines [] (b ++ (pipe_data s).1) in drained ls p e) as IH'.
    { rewrite IH; [by rewrite He|]. rewrite Ht, length_app in Hf. cbn [length] in Hf. lia. }
    rewrite IH'. destruct (split_lines [] (b ++ (pipe_data s).1)) as [ls p]. unfold drained. cbn [app take_while forallb].
    by destruct (utf8_valid (a ++ [10])).
  - rewrite Hl. cbn [app]. destruct (read_until [] buffered script) as [raw b s| |]; [|by subst e|by subst e].
    destruct Hr as (-> & -> & -> & Hs). unfold drained, last_line. cbn [app]. rewrite (bool_decide_eq_true_2 (DrEof = DrEof)) by done.
    case_bool_decide as Hn; [done|]. cbn [take_while forallb].
    destruct (utf8_valid (buffered ++ data)); [|done]. cbn [negb andb]. destruct fuel as [|fuel].
    { destruct (buffered ++ data); [done|cbn in Hf; lia]. }
    rewrite IH; rewrite Hs; [done|]. cbn. lia.
Qed.

(** The lines captured are those of the text the reads give together. *)
Lemma drain_pipe_spec script :
  drain_pipe script = let '(ls, p) := split_lines [] (pipe_data script).1 in drained ls p (pipe_data script).2.
Proof. unfold drain_pipe. by rewrite drain_loop_spec by (cbn; lia). Qed.

(** ** The child, the pipe and the thread *)
Definition PIPE_CAPACITY : nat := Z.to_nat 65536.
Definition READ_SIZE : nat := Z.to_nat 8192.

(** What the child has still to write, what is in the pipe, and what the thread
    has read.  The child's end of the pipe is closed when it has written all. *)
Record Capture := mkCapture { cp_todo : bytes; cp_pipe : bytes; cp_reads : list PipeRead }.
Definition capture_start (output : bytes) : Capture := mkCapture output [] [].
Definition thread (s : Capture) : DrainEnd := (drain_pipe (cp_reads s)).2.
Definition sink (s : Capture) : list bytes := (drain_pipe (cp_reads s)).1.

Inductive capture_step : Capture -> Capture -> Prop :=
  | CpWrite k todo pipe reads : thread (mkCapture todo pipe reads) = DrWaiting ->
      (0 < k <= length todo)%nat -> (k + length pipe <= PIPE_CAPACITY)%nat ->
      capture_step (mkCapture todo pipe reads) (mkCapture (drop k todo) (pipe ++ take k todo) reads)
  | CpRead k todo pipe reads : thread (mkCapture todo pipe reads) = DrWaiting ->
      (0 < k <= length pipe)%nat -> (k <= READ_SIZE)%nat ->
      capture_step (mkCapture todo pipe reads) (mkCapture todo (drop k pipe) (reads ++ [PrData (take k pipe)]))
  | CpInterrupted todo pipe reads : thread (mkCapture todo pipe reads) = DrWaiting ->
      capture_step (mkCapture todo pipe reads) (mkCapture todo pipe (reads ++ [PrInterrupted]))
  | CpEof reads : thread (mkCapture [] [] reads) = DrWaiting ->
      capture_step (mkCapture [] [] reads) (mkCapture [] [] (reads ++ [PrData []])).

(** The bytes that are still on their way, those of the child counted twice. *)
Definition work (s : Capture) : nat :=
  2 * length (cp_todo s) + length (cp_pipe s) + (if bool_decide (thread s = DrWaiting) then 1 else 0).

(** Where the output is: read, in the pipe or still to be written. *)
Definition accounted (output : bytes) (s : Capture) : Prop :=
  (pipe_data (cp_reads s)).1 ++ cp_pipe s ++ cp_todo s = output /\
  ((pipe_data (cp_reads s)).2 = DrWaiting \/ (pipe_data (cp_reads s)).2 = DrEof /\ cp_pipe s = [] /\ cp_todo s = []).

Lemma pipe_data_app reads more : (pipe_data reads).2 = DrWaiting ->
  pipe_data (reads ++ more) = ((pipe_data reads).1 ++ (pipe_data more).1, (pipe_data more).2).
Proof.
  induction reads as [|[[|c d]| |] reads IH]; cbn [app pipe_data]; intros H; try done; [by destruct (pipe_data more)| |by apply IH].
  destruct (pipe_data reads) as [data e]. cbn [fst snd] in *. rewrite IH by done. f_equal. cbn [app]. f_equal. apply app_assoc.
Qed.

Lemma thread_spec s : let '(ls, p) := split_lines [] (pipe_data (cp_reads s)).1 in
  thread s = (drained ls p (pipe_data (cp_reads s)).2).2 /\ sink s = (drained ls p (pipe_data (cp_reads s)).2).1.
Proof. unfold thread, sink. rewrite drain_pipe_spec. by destruct (split_lines _ _). Qed.

Lemma thread_waiting s : thread s = DrWaiting -> (pipe_data (cp_reads s)).2 = DrWaiting.
Proof.
  pose proof (thread_spec s) as H. destruct (split_lines [] _) as [ls p]. destruct H as [-> _]. unfold drained. cbn [snd].
  by destruct (forallb _ _).
Qed.

Lemma capture_step_accounted output s s' : capture_step s s' -> accounted output s -> accounted output s' /\ (work s' <= work s)%nat.
Proof.
  unfold accounted. intros Hs [Ho _].
  assert (forall t, (if bool_decide (thread t = DrWaiting) then 1 else 0) <= 1)%nat as H1 by (intros t; by case_bool_decide; lia).
  destruct Hs as [k todo pipe reads Ht Hk Hc|k todo pipe reads Ht Hk Hc|todo pipe reads Ht|reads Ht];
    pose proof (thread_waiting _ Ht) as Hw; cbn [cp_reads cp_pipe cp_todo] in *; unfold work; rewrite (bool_decide_eq_true_2 _ Ht); cbn [cp_todo cp_pipe].
  - split; [split; [by rewrite <- app_assoc, take_drop|by left]|]. specialize (H1 (mkCapture (drop k todo) (pipe ++ take k todo) reads)).
    rewrite length_drop, length_app, length_take. lia.
  - assert (take k pipe <> []) as Hne by (destruct pipe; [cbn in Hk; lia|destruct k; [lia|done]]).
    assert (pipe_data [PrData (take k pipe)] = (take k pipe, DrWaiting)) as Hd by (cbn; destruct (take k pipe); [done|by rewrite app_nil_r]).
    rewrite pipe_data_app, Hd by done. cbn [fst snd].
    split; [split; [by rewrite <- !app_assoc, (app_assoc (take k pipe)), take_drop|by left]|].
    specialize (H1 (mkCapture todo (drop k pipe) (reads ++ [PrData (take k pipe)]))). rewrite length_drop. lia.
  - rewrite pipe_data_app by done. cbn. rewrite app_nil_r. split; [by split; [|left]|]. specialize (H1 (mkCapture todo pipe (reads ++ [PrInterrupted]))). lia.
  - rewrite pipe_data_app by done. cbn. rewrite app_nil_r. split; [split; [done|by right]|]. specialize (H1 (mkCapture [] [] (reads ++ [PrData []]))). lia.
Qed.

Lemma capture_reach_accounted output s : rtc capture_step (capture_start output) s -> accounted output s.
Proof.
  intros Hr. cut (accounted output (capture_start output)); [|by split; [|left]].
  induction Hr as [|s s' s'' Hs _ IH]; intros Ha; [done|]. apply IH. by apply (capture_step_accounted output s s').
Qed.

(** While the thread waits something moves, for the child, the thread or both. *)
Lemma capture_progress s : thread s = DrWaiting -> exists s', capture_step s s' /\ (work s' < work s)%nat.
Proof.
  intros Ht. pose proof (thread_waiting s Ht) as Hw. destruct s as [todo pipe reads].
  assert (forall t, (if bool_decide (thread t = DrWaiting) then 1 else 0) <= 1)%nat as H1 by (intros t; by case_bool_decide; lia).
  assert (0 < PIPE_CAPACITY /\ 0 < READ_SIZE)%nat as [Hcap Hsize] by (unfold PIPE_CAPACITY, READ_SIZE; lia).
  unfold work. rewrite (bool_decide_eq_true_2 _ Ht). cbn [cp_todo cp_pipe cp_reads] in *. destruct pipe as [|c pipe].
  - destruct todo as [|c todo].
    + eexists. split; [by apply CpEof|]. cbn [cp_todo cp_pipe length].
      rewrite bool_decide_eq_false_2; [cbn; lia|]. intros Hx%thread_waiting. cbn [cp_reads] in Hx. by rewrite pipe_data_app in Hx.
    + eexists. split; [apply (CpWrite 1); [done|cbn; lia|cbn [length]; lia]|].
      cbn [cp_todo cp_pipe length drop take app]. specialize (H1 (mkCapture todo [c] reads)). rewrite drop_0, take_0. cbn [length]. lia.
  - eexists. split; [apply (CpRead 1); [done|cbn; lia|lia]|]. cbn [cp_todo cp_pipe length drop take app].
    specialize (H1 (mkCapture todo pipe (reads ++ [PrData [c]]))). rewrite drop_0, take_0. lia.
Qed.

Lemma take_while_app {A} (f : A -> bool) l1 l2 : forallb f l1 = false -> take_while f (l1 ++ l2) = take_while f l1.
Proof. induction l1 as [|x l1 IH]; cbn; [done|]. destruct (f x); [|done]. intros H. f_equal. by apply IH. Qed.

Lemma take_while_all {A} (f : A -> bool) l : forallb f l = true -> take_while f l = l.
Proof. induction l as [|x l IH]; cbn; [done|]. destruct (f x); [|done]. intros H. f_equal. by apply IH. Qed.

Lemma strip_line_ended l : strip_line (l ++ [10]) = strip_cr l.
Proof. unfold strip_line. rewrite rev_app_distr. cbn. by rewrite rev_involutive. Qed.

Lemma strip_line_open l : 10 ∉ l -> strip_line l = l.
Proof.
  intros H. unfold strip_line. destruct (rev l) as [|c r] eqn:E; [done|]. destruct (Z.eqb_spec c 10) as [->|]; [|done].
  destruct H. rewrite <- (rev_involutive l), E. cbn. apply elem_of_app. right. by apply list_elem_of_singleton.
Qed.

(** The lines of the reference are those of [str::lines]. *)
Lemma lines_raw text : forall cur, 10 ∉ cur ->
  lines_from cur text = (let '(ls, p) := split_lines cur text in map strip_line (ls ++ last_line p)).
Proof.
  induction text as [|c text IH]; intros cur Hc; cbn [lines_from split_lines].
  - unfold last_line. destruct cur as [|x cur]; [done|]. rewrite bool_decide_eq_false_2 by done. cbn [app map]. by rewrite strip_line_open.
  - destruct (Z.eqb_spec c 10) as [->|Hn].
    + rewrite (IH []) by (by intros ?%elem_of_nil). destruct (split_lines [] text) as [ls p]. cbn [app map]. by rewrite strip_line_ended.
    + apply IH. rewrite elem_of_app, list_elem_of_singleton. intros [?|?]; [done|congruence].
Qed.

(** C37: a child process whose output is drained never hangs on a full pipe, and
    what it printed is captured.  However the child's writes, the thread's reads
    and interruptions interleave: no step adds to the bytes that are on their
    way, and while the thread waits some step takes from them; when the thread
    has ended, the sink holds the lines of the whole output up to the first that
    is not UTF-8.  If there is none, everything was written and the sink is the
    output split into lines; if there is one, the thread has closed the pipe at
    it. *)
Theorem capture_complete (output : bytes) (s : Capture) (Hr : rtc capture_step (capture_start output) s) :
  (forall s', capture_step s s' -> (work s' <= work s)%nat) /\
  (thread s = DrWaiting -> exists s', capture_step s s' /\ (work s' < work s)%nat) /\
  (thread s <> DrWaiting ->
   sink s = map strip_line (take_while utf8_valid (raw_lines output)) /\
   (if forallb utf8_valid (raw_lines output)
    then thread s = DrEof /\ cp_todo s = [] /\ cp_pipe s = [] /\ sink s = lines output
    else thread s = DrClosed)).
Proof.
  pose proof (capture_reach_accounted output s Hr) as Ha.
  split; [intros s' Hs; by apply (capture_step_accounted output s s')|]. split; [apply capture_progress|]. intros Hend.
  assert (lines output = map strip_line (raw_lines output)) as ->.
  { unfold lines, raw_lines. rewrite lines_raw by (by intros ?%elem_of_nil). by destruct (split_lines [] output). }
  pose proof (thread_spec s) as Ht. destruct Ha as [Ho He]. unfold raw_lines.
  destruct He as [He|(He & Hp & Htodo)]; rewrite He in Ht.
  - rewrite <- Ho, split_lines_app. destruct (split_lines [] (pipe_data (cp_reads s)).1) as [ls p].
    destruct (split_lines p _) as [ls2 p2]. destruct Ht as [Ht Hs]. unfold drained in *. cbn [fst snd] in *.
    rewrite (bool_decide_eq_false_2 (DrWaiting = DrEof)), app_nil_r in * by done.
    destruct (forallb utf8_valid ls) eqn:Ev; [congruence|].
    rewrite <- (app_assoc ls), take_while_app, forallb_app, Ev by done. cbn [andb]. by rewrite Ht, Hs.
  - rewrite Hp, Htodo, !app_nil_r in Ho. rewrite Ho in Ht. destruct (split_lines [] output) as [ls p].
    unfold drained in Ht. rewrite (bool_decide_eq_true_2 (DrEof = DrEof)) in Ht by done. destruct Ht as [-> ->]. cbn [fst snd].
    split; [done|]. destruct (forallb _ _) eqn:Ev; [|done]. split_and!; try done. by rewrite take_while_all.
Qed.

(** Two lines of text, the second without its end; and a line that is no text
    between two that are. *)
Definition demo_text : bytes := [97; 13; 10; 98].
Definition demo_binary : bytes := [97; 10; 255; 10; 98; 10].
Definition written (output : bytes) : Capture := mkCapture [] output [].
Definition read_all (output : bytes) (more : list PipeRead) : Capture := mkCapture [] [] (PrData output :: more).

Lemma run_written output : (0 < length output <= READ_SIZE)%nat ->
  capture_step (capture_start output) (written output) /\ capture_step (written output) (read_all output []).
Proof.
  intros Hl. split.
  - unfold capture_start, written.
    pose proof (CpWrite (length output) output [] [] eq_refl ltac:(lia) ltac:(unfold PIPE_CAPACITY, READ_SIZE in *; cbn [length]; lia)) as H.
    by rewrite drop_all, take_ge in H by lia.
  - pose proof (CpRead (length output) [] output [] eq_refl ltac:(lia) ltac:(lia)) as H. by rewrite drop_all, take_ge in H by lia.
Qed.

Lemma capture_complete_witness :
  sink (read_all demo_text [PrData []]) = [[97]; [98]] /\
  sink (read_all demo_binary []) = [[97]] /\ thread (read_all demo_binary []) = DrClosed.
Proof.
  split.
  - destruct (capture_complete demo_text (read_all demo_text [PrData []])) as (_ & _ & H).
    { destruct (run_written demo_text) as [H1 H2]; [vm_compute; lia|]. eapply rtc_l; [exact H1|]. eapply rtc_l; [exact H2|].
      apply rtc_once. apply (CpEof [PrData demo_text]). vm_compute. reflexivity. }
    destruct H as [H _]; [vm_compute; discriminate|]. rewrite H. vm_compute. reflexivity.
  - destruct (capture_complete demo_binary (read_all demo_binary [])) as (_ & _ & H).
    { destruct (run_written demo_binary) as [H1 H2]; [vm_compute; lia|]. eapply rtc_l; [exact H1|]. apply rtc_once. exact H2. }
    destruct H as [H1 H2]; [vm_compute; discriminate|]. split; [rewrite H1; vm_compute; reflexivity|exact H2].
Defined.
