(* ===== verification/Binder.v ===== *)
(** * Egress binding (src/net/socket.rs, src/net/apple.rs, opening in src/sender/connections.rs)

    How an uplink's socket is opened and steered onto its egress.  A socket is
    what the calls have made of it so far; what the kernel answers, the list of
    interfaces and the name lookup are a record of functions.  [UplinkBinder] is
    the interface the sender opens its links through; its law is what the
    sender relies on: the socket is bound to the address that is the link's
    identity.  The binders of the command line and of Apple's systems obey it;
    a host's callback binder is whatever the host supplies. *)
From stdpp Require Import strings.
From S2P Require Import Prelude Wire Config Connection Reload Net Metrics.
Open Scope Z_scope.

Inductive Domain := IPV4 | IPV6.
Record Socket := mkSocket {
  so_domain : Domain; so_nonblocking : bool; so_send_buffer : bool; so_recv_buffer : bool;
  so_bound_if : option (Domain * Z); so_local : option SocketAddr }.
Global Instance eta_socket : Eta Socket := fun s =>
  mkSocket (so_domain s) (so_nonblocking s) (so_send_buffer s) (so_recv_buffer s) (so_bound_if s) (so_local s).

(** An entry of [getifaddrs]: the name and, unless null, the raw address. *)
Record IfAddr := mkIfAddr { ifa_name : bytes; ifa_addr : option bytes }.

Record Kernel := mkKernel {
  k_socket : Domain -> bool;
  k_set_nonblocking : bool;
  k_set_send_buffer : bool;
  k_set_recv_buffer : bool;
  k_bind : Socket -> SocketAddr -> bool;
  k_setsockopt : Socket -> Domain -> Z -> bool;
  k_if_nametoindex : bytes -> Z;
  k_getifaddrs : option (list IfAddr) }.

(** [SocketAddr::new(ip, port)]. *)
Definition octets (groups : list Z) : bytes := flat_map (to_be 2) groups.
Definition socket_addr_new (ip : IpAddr) (port : Z) : SocketAddr :=
  match ip with V4 a b c d => SaV4 (ip_key (V4 a b c d)) port | V6 gs => SaV6 (octets gs) port 0 0 end.
Definition domain_of (ip : IpAddr) : Domain := match ip with V4 _ _ _ _ => IPV4 | V6 _ => IPV6 end.

(** The source address of a socket is [ip], on an ephemeral port. *)
Definition source_is (ip : IpAddr) (addr : SocketAddr) : Prop :=
  match addr, socket_addr_new ip 0 with
  | SaV4 x p, SaV4 y q => x = y /\ p = q
  | SaV6 x p _ _, SaV6 y q _ _ => x = y /\ p = q
  | _, _ => False
  end.

(** ** The interface *)
Class UplinkBinder (B : Type) := {
  bind : B -> Kernel -> Socket -> IpAddr -> option Socket;
  bind_source b k s ip s' : bind b k s ip = Some s' ->
    so_domain s' = so_domain s /\ so_nonblocking s' = so_nonblocking s /\
    exists addr, so_local s' = Some addr /\ source_is ip addr }.

Definition create_uplink_socket (k : Kernel) (domain_for : IpAddr) : option Socket :=
  let domain := domain_of domain_for in
  if negb (k_socket k domain) then None
  else if negb (k_set_nonblocking k) then None
  else Some (mkSocket domain true (k_set_send_buffer k) (k_set_recv_buffer k) None None).

(** [sock.bind]. *)
Definition sock_bind (k : Kernel) (s : Socket) (addr : SocketAddr) : option Socket :=
  if k_bind k s addr then Some (s <| so_local := Some addr |>) else None.

(** [resolve_remote]: the first of the addresses the lookup gives. *)
Definition resolve_remote (lookup : option (list SocketAddr)) : option SocketAddr :=
  match lookup with Some (a :: _) => Some a | _ => None end.

(** The socket half of [connect_uplink]: resolve, create, bind. *)
Definition open_uplink {B} `{UplinkBinder B} (binder : B) (k : Kernel) (lookup : option (list SocketAddr)) (ip : IpAddr)
  : option (Socket * SocketAddr) :=
  remote ← resolve_remote lookup;
  sock ← create_uplink_socket k ip;
  sock ← bind binder k sock ip;
  if k_set_nonblocking k then Some (sock <| so_nonblocking := true |>, remote) else None.

(** The socket half of [rebuild_uplink_socket]: the remote stays. *)
Definition reopen_uplink {B} `{UplinkBinder B} (binder : B) (k : Kernel) (remote : SocketAddr) (ip : IpAddr)
  : option (Socket * SocketAddr) :=
  sock ← create_uplink_socket k ip;
  sock ← bind binder k sock ip;
  if k_set_nonblocking k then Some (sock <| so_nonblocking := true |>, remote) else None.

(** ** The default binder *)
Inductive SourceIpBinder := SourceIp.
Definition source_ip_bind (_ : SourceIpBinder) (k : Kernel) (s : Socket) (ip : IpAddr) : option Socket :=
  sock_bind k s (socket_addr_new ip 0).

Lemma source_is_new ip : source_is ip (socket_addr_new ip 0).
Proof. by destruct ip. Qed.
Lemma sock_bind_source k s ip addr s' : sock_bind k s addr = Some s' -> source_is ip addr ->
  so_domain s' = so_domain s /\ so_nonblocking s' = so_nonblocking s /\ exists addr, so_local s' = Some addr /\ source_is ip addr.
Proof. unfold sock_bind. destruct (k_bind k s addr); [|done]. intros [= <-] H. cbn. eauto. Qed.

Global Program Instance source_ip_binder : UplinkBinder SourceIpBinder := {| bind := source_ip_bind |}.
Next Obligation. intros b k s ip s' E. exact (sock_bind_source k s ip _ s' E (source_is_new ip)). Qed.

(** ** A host's callback *)
Record CallbackBinder := mkCallback { callback : IpAddr -> bool }.
Definition callback_bind (self : CallbackBinder) (s : Socket) (ip : IpAddr) : option Socket :=
  if callback self ip then Some s else None.

(** ** Apple's systems *)
Record AppleInterfaceBinder := mkApple { overrides : list (IpAddr * bytes) }.
Definition apple_new : AppleInterfaceBinder := mkApple [].
(** A [HashMap] insert replaces an older entry. *)
Definition with_interface (self : AppleInterfaceBinder) (ip : IpAddr) (ifname : bytes) : AppleInterfaceBinder :=
  mkApple ((ip, ifname) :: filter (fun kv => kv.1 <> ip) (overrides self)).
Fixpoint override_for (os : list (IpAddr * bytes)) (ip : IpAddr) : option bytes :=
  match os with
  | [] => None
  | (a, name) :: os => if bool_decide (a = ip) then Some name else override_for os ip
  end.

(** A [sockaddr] there starts with its length; the family is the second byte. *)
Definition DARWIN_AF_INET : Z := 2.
Definition DARWIN_AF_INET6 : Z := 30.
Fixpoint segments (l : bytes) : list Z :=
  match l with
  | a :: b :: l => of_be [a; b] :: segments l
  | _ => []
  end.
Definition sockaddr_to_ip (sa : option bytes) : option IpAddr :=
  match sa with
  | None => None
  | Some sa =>
    let family := default 0 (sa !! 1%nat) in
    if family =? DARWIN_AF_INET then
      match bytes_at sa 4 4 with [a; b; c; d] => Some (V4 a b c d) | _ => None end
    else if family =? DARWIN_AF_INET6 then Some (V6 (segments (bytes_at sa 8 16)))
    else None
  end.

(** The name of the first interface that carries the address. *)
Fixpoint interface_scan (ip : IpAddr) (entries : list IfAddr) : option bytes :=
  match entries with
  | [] => None
  | e :: entries =>
    if negb (bool_decide (sockaddr_to_ip (ifa_addr e) = Some ip)) then interface_scan ip entries
    else if utf8_valid (ifa_name e) then Some (ifa_name e) else None
  end.
Definition interface_name_for_ip (k : Kernel) (ip : IpAddr) : option bytes :=
  entries ← k_getifaddrs k; interface_scan ip entries.

Definition interface_index (k : Kernel) (ifname : bytes) : option Z :=
  if bool_decide (0 ∈ ifname) then None
  else let index := k_if_nametoindex k ifname in if index =? 0 then None else Some index.

Definition bind_to_interface_index (k : Kernel) (s : Socket) (ip : IpAddr) (index : Z) : option Socket :=
  let level := domain_of ip in
  if k_setsockopt k s level index then Some (s <| so_bound_if := Some (level, index) |>) else None.

(** fe80::/10. *)
Definition is_unicast_link_local (groups : list Z) : bool := Z.land (default 0 (head groups)) 0xffc0 =? 0xfe80.

Definition scoped_local (ip : IpAddr) (index : Z) : SocketAddr :=
  match ip with
  | V6 gs => if is_unicast_link_local gs then SaV6 (octets gs) 0 0 index else socket_addr_new ip 0
  | _ => socket_addr_new ip 0
  end.

Definition apple_bind (self : AppleInterfaceBinder) (k : Kernel) (sock : Socket) (ip : IpAddr) : option Socket :=
  ifname ← match override_for (overrides self) ip with Some name => Some name | None => interface_name_for_ip k ip end;
  index ← interface_index k ifname;
  sock ← bind_to_interface_index k sock ip index;
  sock_bind k sock (scoped_local ip index).

Lemma override_registered self ip name ip' :
  override_for (overrides (with_interface self ip name)) ip' = if bool_decide (ip = ip') then Some name else override_for (overrides self) ip'.
Proof.
  cbn. case_bool_decide as E; [done|]. induction (overrides self) as [|[a n] os IH]; [done|]. rewrite filter_cons. cbn [override_for fst].
  destruct (decide (a = ip)) as [->|Hne].
  - rewrite decide_False by (intros H; by apply H). by rewrite IH, bool_decide_eq_false_2.
  - rewrite decide_True by done. cbn [override_for]. by rewrite IH.
Qed.

Lemma scoped_source ip index : source_is ip (scoped_local ip index).
Proof. destruct ip as [a b c d|gs]; [done|]. unfold scoped_local. by destruct (is_unicast_link_local gs). Qed.

(** What a successful bind went through. *)
Lemma apple_bind_steps self k s ip s' : apple_bind self k s ip = Some s' ->
  exists name index,
    match override_for (overrides self) ip with Some n => name = n | None => interface_name_for_ip k ip = Some name end /\
    (0 ∉ name) /\ k_if_nametoindex k name = index /\ index <> 0 /\ k_setsockopt k s (domain_of ip) index = true /\
    k_bind k (s <| so_bound_if := Some (domain_of ip, index) |>) (scoped_local ip index) = true /\
    s' = s <| so_bound_if := Some (domain_of ip, index) |> <| so_local := Some (scoped_local ip index) |>.
Proof.
  unfold apple_bind, interface_index, bind_to_interface_index, sock_bind. intros E.
  assert (exists name, match override_for (overrides self) ip with Some n => name = n | None => interface_name_for_ip k ip = Some name end /\
    (match override_for (overrides self) ip with Some name => Some name | None => interface_name_for_ip k ip end) = Some name) as (name & Hn & En).
  { destruct (override_for (overrides self) ip) as [n|]; [by exists n|]. destruct (interface_name_for_ip k ip) as [n|]; [by exists n|done]. }
  rewrite En in E. cbn [mbind option_bind] in E. case_bool_decide as Hz; [done|]. cbv zeta in E.
  destruct (Z.eqb_spec (k_if_nametoindex k name) 0) as [|Hi]; [done|]. cbn [mbind option_bind] in E.
  destruct (k_setsockopt k s (domain_of ip) (k_if_nametoindex k name)) eqn:Es; [|done]. cbn [mbind option_bind] in E.
  destruct (k_bind k _ _) eqn:Eb; [|done]. injection E as <-. exists name, (k_if_nametoindex k name). done.
Qed.

Global Program Instance apple_binder : UplinkBinder AppleInterfaceBinder := {| bind := apple_bind |}.
Next Obligation.
  intros b k s ip s' (name & index & _ & _ & _ & _ & _ & _ & ->)%apple_bind_steps. cbn.
  split; [done|]. split; [done|]. eexists. split; [done|]. apply scoped_source.
Qed.

(** ** Theorems *)

(** An uplink that opened, through any binder that keeps the interface's law, has
    a non-blocking socket of its address family whose source is the address
    the link is known by, and sends to the first address the receiver's name
    resolves to; nothing is opened when the name does not resolve. *)
Theorem opened_uplink_sound {B} `{UplinkBinder B} (binder : B) k lookup ip s remote
    (Ho : open_uplink binder k lookup ip = Some (s, remote)) :
  so_domain s = domain_of ip /\ so_nonblocking s = true /\ (exists addr, so_local s = Some addr /\ source_is ip addr) /\
  exists rest, lookup = Some (remote :: rest).
Proof.
  unfold open_uplink, resolve_remote, create_uplink_socket in Ho. destruct lookup as [[|a rest]|]; [done| |done]. cbn [mbind option_bind] in Ho. cbv zeta in Ho.
  destruct (negb (k_socket k (domain_of ip))); [done|]. destruct (negb (k_set_nonblocking k)); [done|]. cbn [mbind option_bind] in Ho.
  destruct (bind binder k _ ip) as [s1|] eqn:Eb; [|done]. cbn [mbind option_bind] in Ho. destruct (k_set_nonblocking k); [|done]. injection Ho as <- <-.
  destruct (bind_source _ _ _ _ _ Eb) as (Hd & _ & Ha). cbn. split; [exact Hd|]. split; [done|]. split; [exact Ha|]. by exists rest.
Qed.

Lemma interface_scan_first ip entries name : interface_scan ip entries = Some name ->
  exists pre e post, entries = pre ++ e :: post /\ ifa_name e = name /\ utf8_valid name = true /\ sockaddr_to_ip (ifa_addr e) = Some ip /\
    Forall (fun e => sockaddr_to_ip (ifa_addr e) <> Some ip) pre.
Proof.
  induction entries as [|e entries IH]; cbn [interface_scan]; [done|]. case_bool_decide as Hc; cbn [negb].
  - destruct (utf8_valid (ifa_name e)) eqn:Eu; [|done]. intros [= <-]. exists [], e, entries. split_and!; try done.
  - intros (pre & x & post & -> & H1 & H2 & H3 & H4)%IH. exists (e :: pre), x, post. split_and!; try done. by constructor.
Qed.

(** On Apple's systems the socket is pinned to one interface before it is bound:
    the one the host named for the address, or else the first that carries it;
    its index is never the unspecified zero, and a link-local source address
    carries it as its scope. *)
Theorem apple_binds_interface self k s ip s' (Hb : bind self k s ip = Some s') :
  exists name index addr,
    match override_for (overrides self) ip with
    | Some n => name = n
    | None => exists entries pre e post, k_getifaddrs k = Some entries /\ entries = pre ++ e :: post /\ ifa_name e = name /\
        sockaddr_to_ip (ifa_addr e) = Some ip /\ Forall (fun e => sockaddr_to_ip (ifa_addr e) <> Some ip) pre
    end /\
    k_if_nametoindex k name = index /\ index <> 0 /\
    so_bound_if s' = Some (domain_of ip, index) /\ so_local s' = Some addr /\ source_is ip addr /\
    k_bind k (s <| so_bound_if := Some (domain_of ip, index) |>) addr = true /\
    (forall gs, ip = V6 gs -> is_unicast_link_local gs = true -> addr = SaV6 (octets gs) 0 0 index).
Proof.
  apply apple_bind_steps in Hb as (name & index & Hn & _ & Hi & Hz & _ & Hk & ->). exists name, index, (scoped_local ip index).
  split_and!; try done.
  - destruct (override_for (overrides self) ip) as [n|]; [done|]. unfold interface_name_for_ip in Hn.
    destruct (k_getifaddrs k) as [entries|]; [|done]. cbn [mbind option_bind] in Hn.
    apply interface_scan_first in Hn as (pre & e & post & -> & H1 & _ & H3 & H4). exists (pre ++ e :: post), pre, e, post. done.
  - apply scoped_source.
  - intros gs -> Hg. unfold scoped_local. by rewrite Hg.
Qed.

(** ** A link-local uplink *)
Definition demo_kernel : Kernel :=
  mkKernel (fun _ => true) true true false (fun s _ => bool_decide (is_Some (so_bound_if s))) (fun _ _ _ => true)
    (fun name => if bool_decide (name = [101; 110; 48]) then 7 else 0)
    (Some [mkIfAddr [108; 111] None;
           mkIfAddr [101; 110; 48] (Some ([28; 30; 0; 0; 0; 0; 0; 0; 254; 128] ++ replicate 13 0 ++ [1] ++ [0; 0; 0; 0]))]).
Definition demo_local : IpAddr := V6 [0xfe80; 0; 0; 0; 0; 0; 0; 1].

Lemma opened_uplink_sound_witness :
  exists s, open_uplink apple_new demo_kernel (Some [SaV4 1 5000]) demo_local = Some (s, SaV4 1 5000) /\
    so_local s = Some (SaV6 [254; 128; 0; 0; 0; 0; 0; 0; 0; 0; 0; 0; 0; 0; 0; 1] 0 0 7) /\ so_domain s = IPV6.
Proof.
  destruct (open_uplink apple_new demo_kernel (Some [SaV4 1 5000]) demo_local) as [[s r]|] eqn:E; [|by vm_compute in E].
  destruct (opened_uplink_sound apple_new demo_kernel _ _ s r E) as (Hd & _ & _ & rest & Hr). injection Hr as <- _.
  exists s. split; [done|]. split; [vm_compute in E; by injection E as <-|exact Hd].
Defined.

Lemma apple_binds_interface_witness :
  exists s, bind apple_new demo_kernel (mkSocket IPV6 true true true None None) demo_local = Some s /\ so_bound_if s = Some (IPV6, 7).
Proof.
  destruct (bind apple_new demo_kernel (mkSocket IPV6 true true true None None) demo_local) as [s|] eqn:E; [|by vm_compute in E].
  exists s. split; [done|].
  destruct (apple_binds_interface apple_new demo_kernel _ _ s E) as (name & index & addr & (es & pre & e & post & He & Hes & Hn & Hip & _) & Hi & _ & Hb & _).
  rewrite Hb. vm_compute in E. injection E as <-. vm_compute in Hb. injection Hb as <-. reflexivity.
Defined.
