(* ===== verification/Program.v ===== *)
(** * The whole program (src/main.rs)

    The tasks [main] starts, over the state they share: the main loop, the
    control socket, the standard input and the priority sidecar.  They share one
    configuration, one critical window, one subscription hub and the statistics
    of the last tick; the copy of the configuration in the socket's state is the
    same value as the loop's after every step.  An event is one turn of one task;
    the control tasks begin to serve when the loop does.  An event that cannot
    happen (a turn of a closed connection) leaves the state as it is.

    The theorems: every state of the program is a state of the main loop and of
    the control socket as they are modelled alone, no event panics, only a
    control line changes a setting, and a tick's statistics reach its subscribers
    and are what the next scrape shows. *)
From stdpp Require Import strings pretty.
From S2P Require Import Prelude Text F64 Wire Seq Filters Rtt Batch Pacing Congestion Config Connection Classifier Selection LinkCc.
From S2P Require Import Registration Tracker Dedup Uplink Sender Housekeeping Reload Links Identity MainLoop LoopSpec.
From S2P Require Import Stats Subscriptions Control ControlSocket Metrics Cli.
Open Scope Z_scope.

Record Program := mkProgram {
  pg_loop : LoopState; pg_sock : Sock; pg_stats : StatsSnapshot; pg_printed : list Response }.
Global Instance eta_program : Eta Program := fun p => mkProgram (pg_loop p) (pg_sock p) (pg_stats p) (pg_printed p).

Abbreviation pg_config p := (sn_config (ml_sender (pg_loop p))).
Abbreviation pg_critical p := (sn_critical (ml_sender (pg_loop p))).

Inductive prog_event :=
  | PvLoop (ev : loop_event)
  | PvTick (tick : Tick) (stats_now : Z)
  | PvPriority (buf : bytes) (now : Z)
  | PvStdin (line : chars)
  | PvLine (c : nat) (line : chars) (wrote : bool)
  | PvSock (ev : sock_event).

(** The turns of the main loop that concern no other task. *)
Definition own_turn (ev : loop_event) : bool :=
  match ev with LvHousekeeping _ _ _ _ _ | LvCommand _ | LvPriority _ _ => false | _ => true end.
(** The turns of the control socket that concern no other task. *)
Definition own_sock (ev : sock_event) : bool :=
  match ev with SkLine _ _ _ _ _ | SkPublish _ _ | SkShared _ => false | _ => true end.

(** The event a priority datagram is announced with. *)
Definition priority_event (buf : bytes) (now : Z) : option Value :=
  if negb (Nat.eqb (length buf) DATAGRAM_LEN) then None
  else
    match idx buf 0, idx32 buf 1 with
    | Ret magic, Ret window_ms =>
      if negb (magic =? PROTO_MAGIC) then None
      else Some (VObj [("at_ms", json_int now); ("window_ms", json_int window_ms); ("deadline_ms", json_int (u64_wrap (now + window_ms)))]%string)
    | _, _ => None
    end.

Section Program.
Context (exp : f64 -> f64) (hash : bytes -> Z) (from_str : chars -> Request + string).
(** serde: the statistics as JSON, and the JSON printed and parsed again. *)
Context (to_value : StatsSnapshot -> option Value) (reparse : StatsSnapshot -> Value + string).

Definition prog_start (l : Launch) (e : StartEnv) : Program + StartError :=
  match start_sender (la_config l) critical_new e with
  | inl st => inl (mkProgram st (sock_start (sn_config (ml_sender st))) stats_default [])
  | inr err => inr err
  end.

(** The main loop moved on. *)
Definition set_loop (p : Program) (st : LoopState) : Program :=
  p <| pg_loop := st |> <| pg_sock ::= fun k => k <| sk_config := sn_config (ml_sender st) |> |>.
(** A control task changed the configuration. *)
Definition set_config (p : Program) (config : DynamicConfig) : Program :=
  set_loop p (pg_loop p <| ml_sender ::= fun s => s <| sn_config := config |> |>).
Definition set_sock (p : Program) (k : Sock) : Program := set_config (p <| pg_sock := k |>) (sk_config k).

Definition sock_turn (p : Program) (ev : sock_event) : Program :=
  match sock_step from_str (pg_sock p) ev with Some k => set_sock p k | None => p end.
Definition prog_publish (p : Program) (topic : string) (data : option Value) : Program :=
  match data with Some v => sock_turn p (SkPublish topic v) | None => p end.

Definition loop_turn_of (p : Program) (ev : loop_event) : res (option Program) :=
  o ← loop_step exp hash (pg_loop p) ev; Ret (option_map (set_loop p) o).

(** One turn of one task; [None]: the program ended. *)
Definition prog_step (p : Program) (ev : prog_event) : res (option Program) :=
  match ev with
  | PvLoop ev => if own_turn ev then loop_turn_of p ev else Ret (Some p)
  | PvTick tick t =>
    let stats := tick_stats exp (pg_loop p) (tk_env tick) (tk_now tick) (tk_cc_now tick) t in
    o ← loop_turn_of p (tick_event tick);
    Ret (option_map (fun p => prog_publish (p <| pg_stats := stats |>) "stats" (to_value stats)) o)
  | PvPriority buf now =>
    o ← loop_turn_of p (LvPriority buf now);
    Ret (option_map (fun p => prog_publish p "priority.window" (priority_event buf now)) o)
  | PvStdin line =>
    let '(config, resp) := dispatch_inner from_str (pg_config p) (Some (reparse (pg_stats p))) (Some (pg_critical p)) (trim line) in
    let p := set_config p config in
    Ret (Some (p <| pg_printed ::= fun out => match resp with Some r => out ++ [r] | None => out end |>))
  | PvLine c line wrote => Ret (Some (sock_turn p (SkLine c (Some (reparse (pg_stats p))) (Some (pg_critical p)) line wrote)))
  | PvSock ev => Ret (Some (if own_sock ev then sock_turn p ev else p))
  end.

Definition prog_event_ok (p : Program) (ev : prog_event) : Prop :=
  match ev with
  | PvLoop ev => loop_event_ok (pg_loop p) ev
  | PvTick tick _ => loop_event_ok (pg_loop p) (tick_event tick)
  | _ => True
  end.

Inductive prog_reach (l : Launch) : Program -> Prop :=
  | prog_init e p : NoDup (opened_ids (se_outs e)) -> prog_start l e = inl p -> prog_reach l p
  | prog_turn p ev p' : prog_reach l p -> prog_event_ok p ev -> prog_step p ev = Ret (Some p') -> prog_reach l p'.
End Program.

(** ** Settings *)

(** Equal but for the latency, which the packet path negotiates. *)
Definition settings_eq (d d' : DynamicConfig) : Prop :=
  d <| dyn_negotiated_latency_ms := 0 |> = d' <| dyn_negotiated_latency_ms := 0 |>.
Global Instance settings_equivalence : Equivalence settings_eq.
Proof. unfold settings_eq. split; [done|by intros ?? ->|by intros ??? -> ->]. Qed.
Global Instance config_step_proper op : Proper (settings_eq ==> settings_eq) (fun d => config_step d op).
Proof.
  intros [] [] H. unfold settings_eq in *. cbn in H. injection H as -> -> -> -> -> -> ->. by destruct op.
Qed.
Lemma settings_latency d ms : settings_eq (set_negotiated_latency_ms d ms).1 d.
Proof. done. Qed.

Section Frame.
Context (exp : f64 -> f64) (hash : bytes -> Z).

Lemma srt_packet_config s pkt src env s' sent : handle_srt_packet exp s pkt src env = Ret (s', sent) ->
  sn_config s' = sn_config s /\ sn_critical s' = sn_critical s.
Proof.
  unfold handle_srt_packet. case_bool_decide; [by intros [= <- <-]|]. cbv zeta.
  destruct (get_srt_sequence_number pkt) as [seq|]; [|done]. cbn [mbind res_bind]. destruct (negb _).
  - destruct (select_pre_registration_connection _ _ _); [|by intros [= <- <-]].
    destruct (forward_via_connection _ _ _ _ _ _ _ _) as [[[[? ?] ?] ?]|]; [|done]. by intros [= <- <-].
  - destruct (schedule _ _ _ _ _ _ _) as [[conns [sel|]]|]; cbn [mbind res_bind]; [|by intros [= <- <-]|done].
    destruct (forward_via_connection _ _ _ _ _ _ _ _) as [[[[? ?] ?] ?]|]; [|done]. cbn [mbind res_bind].
    destruct seq; [destruct (send_stall_probes _ _ _ _ _ _ _ _) as [[[? ?] ?]|]; [|done]|]; by intros [= <- <-].
Qed.

Lemma uplink_packet_config s id data ts r1 t1 t2 t3 s' relay out : handle_uplink_packet hash s id data ts r1 t1 t2 t3 = Ret (s', relay, out) ->
  settings_eq (sn_config s') (sn_config s) /\ sn_critical s' = sn_critical s.
Proof.
  unfold handle_uplink_packet. case_bool_decide; [by intros [= <- <- <-]|].
  destruct (position _ _) as [i|]; [|by intros [= <- <- <-]]. destruct (sn_conns s !! i); [|done].
  destruct (process_uplink_packet _ _ _ _ _ _ _) as [[[us incoming] rl]|]; [|done]. cbn [mbind res_bind]. cbv zeta.
  destruct (process_connection_events _ _ _ _ _ _ _) as [[conns o]|]; [|done]. cbn [mbind res_bind]. intros [= <- <- <-].
  cbn. destruct (negotiated_latency_ms incoming); [|done]. done.
Qed.

Lemma drain_config us n : forall i st st', drain_loop hash n i st us = Ret st' ->
  settings_eq (sn_config (ml_sender st')) (sn_config (ml_sender st)) /\ sn_critical (ml_sender st') = sn_critical (ml_sender st).
Proof.
  induction n as [|n IH]; intros i st st'; cbn [drain_loop]; [by intros [= <-]|].
  destruct (ml_queue st) as [|p rest]; [by intros [= <-]|].
  destruct (uplink_one hash _ p (us i)) as [st1|] eqn:E; [|done]. cbn [mbind res_bind]. intros H%IH. revert E. unfold uplink_one.
  destruct (handle_uplink_packet _ _ _ _ _ _ _ _ _) as [[[s r] o]|] eqn:E; [|done]. cbn [mbind res_bind]. intros [= <-].
  apply uplink_packet_config in E as [E1 E2]. destruct H as [H1 H2]. split; [by rewrite H1|]. rewrite H2. exact E2.
Qed.

Lemma stamped_config st env now cc_now : ml_sender (stamped exp st env now cc_now) =
  ml_sender (stamped exp st env now cc_now) <| sn_config := sn_config (ml_sender st) |> <| sn_critical := sn_critical (ml_sender st) |>.
Proof.
  unfold stamped, tick_bond. generalize (tick_verdicts st env now) (tick_caps exp st env now cc_now).
  generalize (handle_housekeeping env (hk_of st) (is_classic (config_mode (sn_config (ml_sender st)))) now). intros [h r] [f cl] [cc sn].
  done.
Qed.

Lemma tick_config st env now cc_now outs :
  sn_config (ml_sender (housekeeping_branch exp st env now cc_now outs)) = sn_config (ml_sender st) /\
  sn_critical (ml_sender (housekeeping_branch exp st env now cc_now outs)) = sn_critical (ml_sender st).
Proof.
  rewrite housekeeping_branch_eq. cbv zeta. pose proof (stamped_config st env now cc_now) as E. revert E.
  generalize (stamped exp st env now cc_now). intros b E.
  assert (sn_config (ml_sender (apply_pending b outs)) = sn_config (ml_sender b) /\
          sn_critical (ml_sender (apply_pending b outs)) = sn_critical (ml_sender b)) as [H1 H2].
  { unfold apply_pending. by destruct (ml_pending b) as [[ips ws]|]. }
  split; [etrans; [exact H1|]|etrans; [exact H2|]]; by rewrite E.
Qed.

(** A turn of the loop that is no command keeps the settings. *)
Lemma loop_step_settings st ev st' : loop_step exp hash st ev = Ret (Some st') ->
  (forall op, ev <> LvCommand op) -> settings_eq (sn_config (ml_sender st')) (sn_config (ml_sender st)).
Proof.
  assert (forall us st1, (st0 ← drain_packet_queue hash st1 us; Ret (Some st0)) = Ret (Some st') ->
    settings_eq (sn_config (ml_sender st')) (sn_config (ml_sender st1))) as Hd.
  { intros us st1. destruct (drain_packet_queue hash st1 us) as [st2|] eqn:E; [|done]. cbn [mbind res_bind]. intros [= <-].
    by apply (drain_config us MAX_DRAIN_PACKETS 0). }
  destruct ev as [r io us|u us|env now cc outs us|read us|io| |id recv|op|buf now]; cbn [loop_step]; intros E Hn.
  - destruct r as [[pkt src]|]; [|by apply Hd in E].
    destruct (handle_srt_packet exp (ml_sender st) pkt src (send_env st io)) as [[s sent]|] eqn:Es; [|done]. cbn [mbind res_bind] in E.
    apply srt_packet_config in Es as [Es _]. apply Hd in E. rewrite E. cbn. by rewrite Es.
  - destruct (ml_queue st) as [|p rest]; [by injection E as <-|].
    destruct (uplink_one hash _ p u) as [st1|] eqn:E1; [|done]. cbn [mbind res_bind] in E. apply Hd in E. rewrite E. revert E1. unfold uplink_one.
    destruct (handle_uplink_packet _ _ _ _ _ _ _ _ _) as [[[s r] o]|] eqn:E2; [|done]. cbn [mbind res_bind]. intros [= <-].
    by apply uplink_packet_config in E2 as [E2 _].
  - apply Hd in E. rewrite E. by rewrite (proj1 (tick_config st env now cc outs)).
  - apply Hd in E. rewrite E. by destruct (analyze_ip_reload read).
  - destruct (flush_all_batches _ _ _) as [[cs t] sent]. by injection E as <-.
  - done.
  - by destruct (bool_decide _); injection E as <-.
  - by destruct (Hn op).
  - destruct (priority_datagram _ _ _) as [w|]; [|done]. by injection E as <-.
Qed.
End Frame.

(** ** Composition *)
Section Compose.
Context (exp : f64 -> f64) (hash : bytes -> Z) (from_str : chars -> Request + string).
Context (to_value : StatsSnapshot -> option Value) (reparse : StatsSnapshot -> Value + string).
Abbreviation step := (prog_step exp hash from_str to_value reparse).
Abbreviation reach := (prog_reach exp hash from_str to_value reparse).

(** The state of one program: a state of the loop and one of the socket over the same configuration. *)
Record prog_ok (p : Program) : Prop := {
  po_loop : loop_reach exp hash (pg_loop p);
  po_sock : exists n, sock_reach from_str n (pg_sock p);
  po_shared : sk_config (pg_sock p) = pg_config p }.

Definition apply_op (d : DynamicConfig) (o : option config_op) : DynamicConfig := from_option (config_step d) d o.

(** The command an event carries; a line on a connection that is closing is not read. *)
Definition event_op (p : Program) (ev : prog_event) : option config_op :=
  match ev with
  | PvStdin line => line_op from_str (trim line)
  | PvLine c line _ =>
    match sk_conns (pg_sock p) !! c with
    | Some cn => if cn_phase cn is Serving then line_op from_str (trim line) else None
    | None => None
    end
  | _ => None
  end.

Lemma handle_line_config k c cn stats w line wrote :
  sk_config (handle_line from_str k c cn stats w line wrote) = apply_op (sk_config k) (line_op from_str (trim line)).
Proof.
  unfold handle_line. cbv zeta. case_bool_decide as E; [by rewrite E|].
  pose proof (dispatch_async_config from_str (sk_config k) stats w (mkContext (sk_hub k) c (cn_owned cn)) (trim line)) as H.
  by destruct (dispatch_async _ _ _ _ _ _) as [[config ctx] resp].
Qed.

Lemma sock_step_config k ev k' : sock_step from_str k ev = Some k' ->
  sk_config k' = match ev with
                 | SkLine _ _ _ line _ => apply_op (sk_config k) (line_op from_str (trim line))
                 | SkShared config => config
                 | _ => sk_config k
                 end.
Proof.
  destruct ev as [|c stats w line wrote|c wrote|c|c|c|topic data| |config]; cbn [sock_step].
  - by intros [= <-].
  - destruct (sk_conns k !! c) as [cn|]; [|done]. destruct (cn_phase cn); [|done]. intros [= <-]. apply handle_line_config.
  - destruct (sk_conns k !! c) as [cn|]; [|done]. destruct (sk_channels k !! c) as [[|x q]|]; [done| |done]. destruct (cn_phase cn); [|done]. by intros [= <-].
  - destruct (sk_conns k !! c) as [cn|]; [|done]. destruct (cn_phase cn); [|done]. by intros [= <-].
  - destruct (sk_conns k !! c) as [[[] [|x ids] ls]|]; try done. by intros [= <-].
  - destruct (sk_conns k !! c) as [[[] [|x ids] ls]|]; try done. by intros [= <-].
  - destruct (publish_scan _ _ _ _ _) as [ch [|x l]]; by intros [= <-].
  - destruct (sk_pruning k); [done|]. by intros [= <-].
  - by intros [= <-].
Qed.

Lemma command_reach st o : loop_reach exp hash st ->
  loop_reach exp hash (st <| ml_sender ::= fun s => s <| sn_config := apply_op (sn_config (ml_sender st)) o |> |>).
Proof.
  intros H. destruct o as [op|]; cbn [apply_op from_option].
  - apply (loop_turn exp hash st (LvCommand op)); [done|done|]. by destruct st.
  - by destruct st as [[] ? ? ? ? ? ? ? ?].
Qed.

Lemma set_config_ok p o n : prog_ok p -> sock_reach from_str n (pg_sock p) -> prog_ok (set_config p (apply_op (pg_config p) o)).
Proof.
  intros [H1 _ H3] Hn. split; [by apply command_reach| |done].
  exists (n + 1). by apply (sk_more _ _ (pg_sock p) (SkShared (apply_op (pg_config p) o))).
Qed.

Lemma sock_turn_ok p ev : prog_ok p -> (forall config, ev <> SkShared config) -> prog_ok (sock_turn from_str p ev).
Proof.
  intros [H1 [n Hn] H3] Hev. unfold sock_turn. destruct (sock_step from_str (pg_sock p) ev) as [k|] eqn:E; [|by split; eauto].
  pose proof (sock_step_config _ _ _ E) as Hc. split; cbn.
  - assert (exists o, sk_config k = apply_op (pg_config p) o) as [o ->]; [|by apply command_reach].
    rewrite Hc, <- H3. destruct ev; try (by exists None); [by eexists|]. by destruct (Hev config).
  - exists (n + 1). apply (sk_more _ _ (pg_sock p) ev); [done|]. rewrite E. by destruct k.
  - done.
Qed.

Lemma loop_turn_of_ok p ev p' : prog_ok p -> loop_event_ok (pg_loop p) ev -> loop_turn_of exp hash p ev = Ret (Some p') -> prog_ok p'.
Proof.
  intros [H1 [n Hn] H3] Hev. unfold loop_turn_of. destruct (loop_step exp hash (pg_loop p) ev) as [[st|]|] eqn:E; [|done..].
  cbn. intros [= <-]. split; cbn; [by apply (loop_turn exp hash (pg_loop p) ev)| |done].
  exists (n + 1). by apply (sk_more _ _ (pg_sock p) (SkShared (sn_config (ml_sender st)))).
Qed.

Lemma publish_ok p topic data : prog_ok p -> prog_ok (prog_publish from_str p topic data).
Proof. intros H. destruct data as [v|]; [|done]. by apply sock_turn_ok. Qed.

Lemma loop_turn_of_total p ev : prog_ok p -> loop_event_ok (pg_loop p) ev -> exists o, loop_turn_of exp hash p ev = Ret o.
Proof.
  intros H Hev. unfold loop_turn_of. destruct (loop_step_ok exp hash (pg_loop p) ev (loop_reach_ok _ _ _ (po_loop _ H)) Hev) as (o & -> & _).
  by eexists.
Qed.

Lemma prog_step_ok p ev : prog_ok p -> prog_event_ok p ev ->
  exists o, step p ev = Ret o /\ forall p', o = Some p' -> prog_ok p'.
Proof.
  intros Hp Hev. destruct ev as [ev|tick t|buf now|line|c line wrote|ev]; cbn [prog_step].
  - destruct (own_turn ev); [|eexists; split; [done|]; by intros ? [= <-]].
    destruct (loop_turn_of_total p ev Hp Hev) as [o E]. exists o. split; [done|]. intros p' ->. by apply (loop_turn_of_ok p ev).
  - destruct (loop_turn_of_total p (tick_event tick) Hp Hev) as [o E]. rewrite E. cbn [mbind res_bind]. cbv zeta. eexists. split; [done|].
    destruct o as [p1|]; [|done]. cbn. intros p' [= <-]. apply publish_ok. by destruct (loop_turn_of_ok p _ p1 Hp Hev E).
  - destruct (loop_turn_of_total p (LvPriority buf now) Hp I) as [o E]. rewrite E. cbn [mbind res_bind]. eexists. split; [done|].
    destruct o as [p1|]; [|done]. cbn. intros p' [= <-]. apply publish_ok. by apply (loop_turn_of_ok p (LvPriority buf now)).
  - pose proof (dispatch_inner_config from_str (pg_config p) (Some (reparse (pg_stats p))) (Some (pg_critical p)) (trim line)) as Hc.
    destruct (dispatch_inner _ _ _ _ _) as [config resp]. cbn [fst] in Hc. eexists. split; [done|]. intros p' [= <-].
    destruct (po_sock _ Hp) as [n Hn]. rewrite Hc. by destruct (set_config_ok p (line_op from_str (trim line)) n Hp Hn).
  - eexists. split; [done|]. intros p' [= <-]. by apply sock_turn_ok.
  - eexists. split; [done|]. intros p' [= <-]. destruct (own_sock ev) eqn:E; [|done]. apply sock_turn_ok; [done|]. by intros config ->.
Qed.

Lemma prog_start_ok l e p : NoDup (opened_ids (se_outs e)) -> prog_start l e = inl p -> prog_ok p.
Proof.
  unfold prog_start. destruct (start_sender (la_config l) critical_new e) as [st|] eqn:E; [|done]. intros Hn [= <-].
  split; cbn; [by apply (loop_start exp hash (la_config l) critical_new e)|exists 0; apply sk_init|done].
Qed.

Lemma prog_reach_ok l p : reach l p -> prog_ok p.
Proof.
  induction 1 as [e p Hn Hs|p ev p' _ IH Hev Hs]; [by apply (prog_start_ok l e)|].
  destruct (prog_step_ok p ev IH Hev) as (o & E & Ho). rewrite Hs in E. injection E as <-. by apply Ho.
Qed.

(** C3: the tasks of the program fit together.  However whole turns of the main loop,
    lines on the standard input and the control connections, priority
    datagrams, ticks and the clean-up of connections interleave, the loop and
    the control socket are in states that their own models reach, over one and
    the same configuration, and no turn panics; so what is proved of each alone
    holds of the program. *)
Theorem program_refines l p (Hr : reach l p) :
  loop_reach exp hash (pg_loop p) /\ loop_ok (pg_loop p) /\
  (exists n, sock_reach from_str n (pg_sock p)) /\ sock_ok (pg_sock p) /\ sk_config (pg_sock p) = pg_config p /\
  forall ev, prog_event_ok p ev -> exists o, step p ev = Ret o /\ forall p', o = Some p' -> reach l p'.
Proof.
  pose proof (prog_reach_ok l p Hr) as Hok. pose proof Hok as [H1 [n Hn] H3]. split; [done|]. split; [by apply (loop_reach_ok exp hash)|].
  split; [by exists n|]. split; [by apply (sock_reach_ok from_str n)|]. split; [done|]. intros ev Hev.
  destruct (prog_step_ok p ev Hok Hev) as (o & E & _). exists o. split; [done|]. intros p' ->. by apply (prog_turn _ _ _ _ _ l p ev).
Qed.

(** ** Settings *)
Lemma sock_turn_config p ev : sk_config (pg_sock p) = pg_config p -> own_sock ev = true \/ (exists topic data, ev = SkPublish topic data) ->
  pg_config (sock_turn from_str p ev) = pg_config p.
Proof.
  intros Hp Hev. unfold sock_turn. destruct (sock_step from_str (pg_sock p) ev) as [k|] eqn:E; [|done]. cbn.
  rewrite (sock_step_config _ _ _ E), <- Hp. destruct ev; try done; by destruct Hev as [?|(? & ? & ?)].
Qed.
Lemma publish_config p topic data : sk_config (pg_sock p) = pg_config p -> pg_config (prog_publish from_str p topic data) = pg_config p.
Proof. intros Hp. destruct data as [v|]; [|done]. apply sock_turn_config; eauto. Qed.

Lemma loop_turn_settings p ev p' : loop_turn_of exp hash p ev = Ret (Some p') -> (forall op, ev <> LvCommand op) ->
  settings_eq (pg_config p') (pg_config p) /\ sk_config (pg_sock p') = pg_config p'.
Proof.
  unfold loop_turn_of. destruct (loop_step exp hash (pg_loop p) ev) as [[st|]|] eqn:E; [|done..]. cbn. intros [= <-] Hn.
  split; [|done]. by apply (loop_step_settings exp hash _ ev).
Qed.

Lemma step_settings p ev p' : prog_ok p -> step p ev = Ret (Some p') ->
  settings_eq (pg_config p') (apply_op (pg_config p) (event_op p ev)).
Proof.
  intros Hp. destruct ev as [ev|tick t|buf now|line|c line wrote|ev]; cbn [prog_step event_op].
  - destruct (own_turn ev) eqn:Eo; [|by intros [= <-]]. intros [H _]%loop_turn_settings; [done|]. by intros op ->.
  - destruct (loop_turn_of exp hash p (tick_event tick)) as [[p1|]|] eqn:E; [|done..]. cbn [mbind res_bind option_map]. cbv zeta. intros [= <-].
    apply loop_turn_settings in E as [E1 E2]; [|done]. rewrite publish_config; [exact E1|exact E2].
  - destruct (loop_turn_of exp hash p (LvPriority buf now)) as [[p1|]|] eqn:E; [|done..]. cbn [mbind res_bind option_map]. intros [= <-].
    apply loop_turn_settings in E as [E1 E2]; [|done]. by rewrite publish_config.
  - pose proof (dispatch_inner_config from_str (pg_config p) (Some (reparse (pg_stats p))) (Some (pg_critical p)) (trim line)) as Hc.
    destruct (dispatch_inner _ _ _ _ _) as [config resp]. cbn [fst] in Hc. intros [= <-]. cbn. by rewrite Hc.
  - intros [= <-]. unfold sock_turn.
    destruct (sock_step from_str (pg_sock p) _) as [k|] eqn:E.
    + cbn. rewrite (sock_step_config _ _ _ E), (po_shared _ Hp). cbn [sock_step] in E.
      destruct (sk_conns (pg_sock p) !! c) as [cn|]; [|done]. by destruct (cn_phase cn).
    + cbn [sock_step] in E. destruct (sk_conns (pg_sock p) !! c) as [cn|]; [|done]. by destruct (cn_phase cn).
  - intros [= <-]. destruct (own_sock ev) eqn:E; [|done]. by rewrite (sock_turn_config p ev (po_shared _ Hp) (or_introl E)).
Qed.

Definition timeout_ok (d : DynamicConfig) : Prop := CONN_TIMEOUT_MS_MIN <= dyn_conn_timeout_ms d <= CONN_TIMEOUT_MS_MAX.
Lemma timeout_settings d d' : settings_eq d d' -> timeout_ok d <-> timeout_ok d'.
Proof. unfold timeout_ok. intros H. by injection H as _ _ _ _ _ -> _. Qed.
Lemma timeout_op d o : timeout_ok d -> timeout_ok (apply_op d o).
Proof. intros H. destruct o as [[]|]; cbn; try done. unfold timeout_ok, clamp_Z, CONN_TIMEOUT_MS_MIN, CONN_TIMEOUT_MS_MAX. cbn. lia. Qed.

(** What no command can change. *)
Definition fixed (d : DynamicConfig) : Z * Z * bool := (dyn_stall_min_in_flight d, dyn_stall_ack_stale_ms d, dyn_rehome_on_failure d).
Lemma fixed_settings d d' : settings_eq d d' -> fixed d = fixed d'.
Proof. intros H. unfold fixed. by injection H as _ _ _ -> -> _ ->. Qed.
Lemma fixed_op d o : fixed (apply_op d o) = fixed d.
Proof. by destruct o as [[]|]. Qed.

Lemma start_config l e p : prog_start l e = inl p -> pg_config p = la_config l.
Proof.
  unfold prog_start, start_sender. destruct (negb (se_bind e)); [done|]. destruct (read_weighted_ip_list (se_read e)) as [[ips ws]|]; [|done].
  cbv zeta. case_bool_decide; [done|]. destruct (create_connections_from_ips _ _ _ _) as [conns io]. case_bool_decide; [done|].
  destruct (start_probing _ _ _) as [[reg conns1] probes]. destruct (negb (se_signals e)); [done|].
  destruct (handle_housekeeping _ _ _ _) as [h r]. by intros [= <-].
Qed.

Lemma main_timeout typed args load l : main_ typed args load = Ret (Run l) -> timeout_ok (la_config l).
Proof.
  unfold main_. destruct (cli_print_version args); [done|]. destruct (match cli_config_file args with Some _ => _ | None => _ end) as [a|]; [|done].
  unfold expect. destruct (cli_local_srt_port a); [|done]. destruct (cli_receiver_host a); [|done]. destruct (cli_receiver_port a); [|done].
  destruct (cli_ips_file a); [|done]. cbn [mbind res_bind]. intros [= <-]. unfold timeout_ok.
  cbn [la_config from_cli dyn_conn_timeout_ms]. unfold clamp_Z, CONN_TIMEOUT_MS_MIN, CONN_TIMEOUT_MS_MAX. lia.
Qed.

(** C12: the settings of the running program are those of the command line and the
    configuration file, changed by nothing but control lines: a turn changes
    them exactly as the setter named by the line it reads does, and leaves them
    alone otherwise, the latency apart, which the handshake of the client
    negotiates.  The liveness timeout stays within 1 s and 60 s, and the stall
    thresholds and the re-home switch stay as they were started. *)
Theorem settings_only_by_command typed args load l p (Hm : main_ typed args load = Ret (Run l)) (Hr : reach l p) :
  timeout_ok (pg_config p) /\ fixed (pg_config p) = fixed (la_config l) /\
  forall ev p', step p ev = Ret (Some p') -> settings_eq (pg_config p') (apply_op (pg_config p) (event_op p ev)).
Proof.
  assert (timeout_ok (pg_config p) /\ fixed (pg_config p) = fixed (la_config l)) as [H1 H2].
  { induction Hr as [e p Hn Hs|p ev p' Hr [IH1 IH2] Hev Hs].
    - rewrite (start_config l e p Hs). split; [by apply (main_timeout typed args load)|done].
    - pose proof (step_settings p ev p' (prog_reach_ok l p Hr) Hs) as H.
      split; [apply (timeout_settings _ _ H), timeout_op, IH1|]. by rewrite (fixed_settings _ _ H), fixed_op. }
  split; [done|]. split; [done|]. intros ev p'. apply step_settings. by apply (prog_reach_ok l).
Qed.

(** ** Statistics *)
Definition is_stats_tick (ev : prog_event) : bool := match ev with PvTick _ _ => true | _ => false end.

Lemma sock_turn_stats p ev : pg_stats (sock_turn from_str p ev) = pg_stats p.
Proof. unfold sock_turn. by destruct (sock_step from_str (pg_sock p) ev). Qed.
Lemma publish_stats p topic data : pg_stats (prog_publish from_str p topic data) = pg_stats p.
Proof. destruct data as [v|]; [|done]. apply sock_turn_stats. Qed.
Lemma loop_turn_frame p ev p' : loop_turn_of exp hash p ev = Ret (Some p') ->
  pg_stats p' = pg_stats p /\ pg_printed p' = pg_printed p /\ exists d, pg_sock p' = pg_sock p <| sk_config := d |>.
Proof. unfold loop_turn_of. destruct (loop_step exp hash (pg_loop p) ev) as [[st|]|]; [|done..]. cbn. intros [= <-]. cbn. eauto. Qed.

Lemma quiet_stats p ev p' : is_stats_tick ev = false -> step p ev = Ret (Some p') -> pg_stats p' = pg_stats p.
Proof.
  intros Hq. destruct ev as [ev|tick t|buf now|line|c line wrote|ev]; cbn [prog_step]; [| done | | | |].
  - destruct (own_turn ev); [|by intros [= <-]]. by intros [? _]%loop_turn_frame.
  - destruct (loop_turn_of exp hash p (LvPriority buf now)) as [[p1|]|] eqn:E; [|done..]. cbn [mbind res_bind option_map]. intros [= <-].
    rewrite publish_stats. by apply loop_turn_frame in E as [? _].
  - destruct (dispatch_inner _ _ _ _ _) as [config resp]. by intros [= <-].
  - intros [= <-]. apply sock_turn_stats.
  - intros [= <-]. destruct (own_sock ev); [apply sock_turn_stats|done].
Qed.

(** The statistics since the last tick, whatever else has happened. *)
Inductive quiet_turns : Program -> Program -> Prop :=
  | qt_refl p : quiet_turns p p
  | qt_turn p ev p' p'' : is_stats_tick ev = false -> step p ev = Ret (Some p') -> quiet_turns p' p'' -> quiet_turns p p''.
Lemma quiet_turns_stats p p' : quiet_turns p p' -> pg_stats p' = pg_stats p.
Proof. induction 1 as [|p ev p' p'' Hq Hs _ IH]; [done|]. rewrite IH. by apply (quiet_stats p ev). Qed.

(** The request that asks for the statistics. *)
Definition asks_stats (line : chars) (id : Value) : Prop :=
  exists req, admitted from_str line = Some req /\ rq_method req = "get_stats"%string /\ rq_id req = Some id.

Lemma dispatch_stats config v w line id : asks_stats line id ->
  dispatch_inner from_str config (Some (inl v)) w line = (config, Some (response_ok id v)).
Proof.
  intros (req & Ha & Hm & Hid). unfold admitted in Ha. unfold dispatch_inner. case_bool_decide; [done|].
  destruct (from_str (trim line)) as [req'|]; [|done]. case_bool_decide; [|done]. injection Ha as ->. cbn [negb].
  rewrite Hm. unfold handle_method. cbn. by rewrite Hid.
Qed.

(** The statistics of a tick reach whoever wants them.  At the tick every
    control connection is offered one event with them for each of its [stats]
    subscriptions, behind what already waits there and up to a backlog of 128,
    with no subscription lost; and until the next tick [get_stats] is
    answered with these same statistics. *)
Theorem stats_published l p tick t p' (Hr : reach l p) (Hev : prog_event_ok p (PvTick tick t)) (Hs : step p (PvTick tick t) = Ret (Some p')) :
  let stats := tick_stats exp (pg_loop p) (tk_env tick) (tk_now tick) (tk_cc_now tick) t in
  (forall v, to_value stats = Some v ->
    sk_hub (pg_sock p') = sk_hub (pg_sock p) /\ sk_conns (pg_sock p') = sk_conns (pg_sock p) /\
    forall c, sk_channels (pg_sock p') !! c =
      (fun q => q ++ take (PUSH_CAPACITY - length q)
         (map (fun e => mkPush "stats" (en_id e) v)
            (filter (fun e => en_topic e = "stats"%string /\ en_sender e = c) (hub_entries (sk_hub (pg_sock p)))))) <$>
      sk_channels (pg_sock p) !! c) /\
  forall p'' line id v p3, quiet_turns p' p'' -> reparse stats = inl v -> asks_stats (trim line) id ->
    step p'' (PvStdin line) = Ret (Some p3) -> pg_printed p3 = pg_printed p'' ++ [response_ok id v].
Proof.
  cbv zeta. pose proof (prog_reach_ok l p Hr) as Hok. destruct (po_sock _ Hok) as [n Hn]. destruct (sock_reach_ok from_str n _ Hn) as [Hso _].
  cbn [prog_step] in Hs. revert Hs. set (stats := tick_stats _ _ _ _ _ _).
  destruct (loop_turn_of exp hash p (tick_event tick)) as [[p1|]|] eqn:E; [|done..]. cbn [mbind res_bind option_map]. cbv zeta. intros [= <-].
  apply loop_turn_frame in E as (_ & _ & d & Ek). split.
  - intros v Hv. rewrite Hv. unfold prog_publish, sock_turn. cbn [pg_sock]. cbn [sock_step].
    change (pg_sock (p1 <| pg_stats := stats |>)) with (pg_sock p1). rewrite Ek. cbn [sk_hub sk_channels].
    pose proof (publish_prunes_nothing (pg_sock p) "stats" v Hso) as Hp. pose proof (publish_channels (pg_sock p) "stats" v) as Hch.
    cbn. destruct (publish_scan _ _ _ _ _) as [ch pr]. cbn [fst snd] in *. subst pr. rewrite bool_decide_eq_true_2 by done. done.
  - intros p'' line id v p3 Hq Hv Ha. apply quiet_turns_stats in Hq.
    assert (pg_stats p'' = stats) as Hx by (rewrite Hq; apply publish_stats). cbn [prog_step]. rewrite Hx, Hv, (dispatch_stats _ v _ _ id Ha). intros [= <-]. done.
Qed.

(** The links of the statistics of a tick. *)
Lemma tick_stats_links st env now cc_now t :
  ss_links (tick_stats exp st env now cc_now t) =
  map (link_stats exp (Some (tick_verdicts st env now).2) (Some (tick_caps exp st env now cc_now).2)
         (effective_quality_enabled (snapshot (sn_config (ml_sender st)))) t) (ml_conns (stamped exp st env now cc_now)).
Proof.
  unfold tick_stats, stats_update.
  match goal with |- context [foldl _ ?s0 _] => destruct (stats_fold exp (Some (tick_verdicts st env now).2) (Some (tick_caps exp st env now cc_now).2) t
    (ml_conns (stamped exp st env now cc_now)) s0 eq_refl eq_refl eq_refl) as (_ & _ & H & _) end. exact H.
Qed.
Lemma link_stats_up cl cc q t c : ls_ip (link_stats exp cl cc q t c) = local_ip c /\
  ls_connected (link_stats exp cl cc q t c) && negb (ls_timed_out (link_stats exp cl cc q t c)) = is_active t c.
Proof. unfold link_stats. repeat case_match; done. Qed.

(** A scrape after a tick that applies no new list marks as up exactly the
    addresses of the links that are connected and have not timed out, and it
    does so until the next tick. *)
Theorem scrape_shows_active show_ip show_f64 l p tick t p' p'' ip
    (Hr : reach l p) (Hp : ml_pending (pg_loop p) = None) (Hs : step p (PvTick tick t) = Ret (Some p')) (Hq : quiet_turns p' p'')
    (Hip : forall ip, label_text (show_ip ip)) (Hf64 : forall x, lacks newline (show_f64 x) = true) (Hinj : Inj (=) (=) show_ip) :
  (series show_ip "srtla_send_link_up" (Some ip), "1"%string) ∈ scrape (render show_ip show_f64 (pg_stats p'') (pg_config p'') (pg_critical p'')) <->
  exists c, c ∈ ml_conns (housekeeping_branch exp (pg_loop p) (tk_env tick) (tk_now tick) (tk_cc_now tick) (tk_outs tick)) /\
    local_ip c = ip /\ is_active t c = true.
Proof.
  rewrite (tick_links exp _ _ _ _ _ Hp), (scrape_render show_ip show_f64 Hip Hf64), (quiet_turns_stats p' p'' Hq).
  assert (pg_stats p' = tick_stats exp (pg_loop p) (tk_env tick) (tk_now tick) (tk_cc_now tick) t) as ->.
  { cbn [prog_step] in Hs. destruct (loop_turn_of exp hash p (tick_event tick)) as [[p1|]|] eqn:E; [|done..]. cbn [mbind res_bind option_map] in Hs.
    cbv zeta in Hs. injection Hs as <-. by rewrite publish_stats. }
  set (stats := tick_stats _ _ _ _ _ _). rewrite list_elem_of_In, in_flat_map. split.
  - intros (f & Hf%list_elem_of_In & Hx%list_elem_of_In). unfold samples_of in Hx. apply list_elem_of_fmap in Hx as ([i v] & E & Hx). cbn [fst snd] in E.
    apply pair_equal_spec in E as [E <-].
    pose proof (family_parts f (proj1 (forallb_forall _ _) (families_ok show_f64 stats _ _) f (proj1 (list_elem_of_In _ _) Hf))) as (_ & _ & Hb & _).
    apply (series_inj show_ip Hip) in E as [En Ei]; [|done|done]. destruct i as [i|]; [|done]. injection Ei as Ei%Hinj. subst i.
    assert (f = mkFamily "srtla_send_link_up" "1 if the link is connected and not timed out" "gauge"
      (per_link stats (fun link => show_flag (ls_connected link && negb (ls_timed_out link))))) as ->.
    { unfold families, link_traffic, link_scheduling, aggregates in Hf. cbn [app] in Hf. apply elem_of_cons in Hf as [->|Hf]; [done|].
      exfalso. repeat (apply elem_of_cons in Hf as [->|Hf]; [discriminate En|]). by apply elem_of_nil in Hf. }
    cbn [fm_samples] in Hx. unfold per_link in Hx. apply list_elem_of_fmap in Hx as (ls & E & Hx). injection E as -> Ev.
    unfold stats in Hx. rewrite tick_stats_links in Hx. apply list_elem_of_fmap in Hx as (c & -> & Hc). exists c.
    destruct (link_stats_up (Some (tick_verdicts (pg_loop p) (tk_env tick) (tk_now tick)).2) (Some (tick_caps exp (pg_loop p) (tk_env tick) (tk_now tick) (tk_cc_now tick)).2)
      (effective_quality_enabled (snapshot (pg_config p))) t c) as [U1 U2]. split; [done|]. split; [done|]. rewrite <- U2.
    match type of Ev with _ = show_flag ?b => destruct b; [done|] end. by vm_compute in Ev.
  - intros (c & Hc & <- & Ha). eexists. split; [apply list_elem_of_In; unfold families, link_traffic; cbn [app]; by left|].
    apply list_elem_of_In. unfold samples_of, per_link. cbn [fm_samples fm_name]. rewrite map_map. apply list_elem_of_fmap.
    eexists. split; [|unfold stats; rewrite tick_stats_links; apply list_elem_of_fmap; exists c; split; [reflexivity|done]]. cbn [fst snd].
    match goal with |- context [link_stats exp ?a ?b ?q t c] => destruct (link_stats_up a b q t c) as [U1 U2] end. rewrite U1, U2, Ha. done.
Qed.
End Compose.

(** ** A run *)

(** A stand-in for the decoder: [s] subscribes to the statistics, [g] asks for
    them, [m] sets classic mode. *)
Definition demo_decode (line : chars) : Request + string :=
  if bool_decide (line = [115]) then
    inl (mkRequest "2.0" "subscribe" (VObj [("topic"%string, VStr "stats")]) (Some (json_int 1)))
  else if bool_decide (line = [103]) then inl (mkRequest "2.0" "get_stats" VNull (Some (json_int 2)))
  else if bool_decide (line = [109]) then
    inl (mkRequest "2.0" "set_mode" (VObj [("mode"%string, VStr "classic")]) None)
  else inr "expected value at line 1 column 1"%string.
Definition demo_value (s : StatsSnapshot) : option Value := Some (json_int (ss_total_links s)).
Definition demo_reparse (s : StatsSnapshot) : Value + string := inl (json_int (ss_total_links s)).

Definition demo_launch : Launch :=
  match main_ demo_typed demo_cli (toml_load demo_toml (Some [1])) with
  | Ret (Run l) => l
  | _ => mkLaunch 0 "" 0 "" dynamic_new
  end.
Abbreviation demo_step := (prog_step (fun x => x) demo_hash demo_decode demo_value demo_reparse).
Abbreviation demo_prog_reach := (prog_reach (fun x => x) demo_hash demo_decode demo_value demo_reparse demo_launch).

Fixpoint prog_exec (p : Program) (evs : list prog_event) : option Program :=
  match evs with
  | [] => Some p
  | ev :: evs => match demo_step p ev with Ret (Some p') => prog_exec p' evs | _ => None end
  end.
Definition plain_prog_event (ev : prog_event) : bool :=
  match ev with PvLoop ev => plain_event ev | PvTick tick _ => plain_event (tick_event tick) | _ => true end.

Lemma prog_exec_reach evs : forall p p', demo_prog_reach p -> forallb plain_prog_event evs = true -> prog_exec p evs = Some p' -> demo_prog_reach p'.
Proof.
  induction evs as [|ev evs IH]; intros p p' Hr Hp; cbn [prog_exec]; [by intros [= <-]|].
  cbn [forallb] in Hp. apply andb_true_iff in Hp as [Hp Hps]. destruct (demo_step p ev) as [[p1|]|] eqn:E; try done.
  apply IH; [|done]. apply (prog_turn _ _ _ _ _ _ p ev); [done| |done]. by destruct ev; try done; apply plain_event_ok.
Qed.

(** Two clients, one of them subscribed; a command on the standard input; the
    handshake of the first link with its two ticks. *)
Definition demo_events : list prog_event :=
  [PvSock SkAccept; PvSock SkAccept; PvLine 1 [115; 10] true; PvStdin [109]; PvTick (demo_tick 3000) 3000] ++
  map PvLoop (datagram 1 3100 (create_reg2_packet id_a)) ++ [PvTick (demo_tick 4000) 4000] ++ map PvLoop (datagram 1 4100 REG3_DATAGRAM).
Definition demo_program_start : Program :=
  match prog_start demo_launch demo_start with inl p => p | inr _ => mkProgram (demo_loop fresh_sender) (sock_start dynamic_new) stats_default [] end.
Definition demo_program : Program := default demo_program_start (prog_exec demo_program_start demo_events).

Lemma demo_program_reach : demo_prog_reach demo_program.
Proof.
  apply (prog_exec_reach demo_events demo_program_start); [|vm_compute; reflexivity|].
  - apply (prog_init _ _ _ _ _ _ demo_start); [|vm_compute; reflexivity].
    cbn. repeat constructor; rewrite ?not_elem_of_cons; repeat split; try done; apply not_elem_of_nil.
  - unfold demo_program. assert (is_Some (prog_exec demo_program_start demo_events)) as [p E] by (apply (bool_decide_eq_true_1 _); vm_compute; reflexivity).
    by rewrite E.
Qed.

Definition demo_tick_event : prog_event := PvTick (demo_tick 5000) 5000.
Definition demo_after : Program := default demo_program (prog_exec demo_program [demo_tick_event]).
Lemma prog_exec_one p ev p' : prog_exec p [ev] = Some p' -> demo_step p ev = Ret (Some p').
Proof. cbn [prog_exec]. destruct (demo_step p ev) as [[p1|]|]; [|done..]. by intros [= ->]. Qed.
Lemma some_default {A} (d : A) (o : option A) : bool_decide (is_Some o) = true -> o = Some (default d o).
Proof. by intros [x ->]%bool_decide_eq_true. Qed.
Lemma demo_after_step : demo_step demo_program demo_tick_event = Ret (Some demo_after).
Proof. apply prog_exec_one, (some_default demo_program). vm_compute. reflexivity. Qed.

Lemma program_refines_witness :
  map (fun c => (conn_id c, connected c)) (ml_conns (pg_loop demo_program)) = [(1, true); (2, false); (3, false)] /\
  map en_sender (hub_entries (sk_hub (pg_sock demo_program))) = [1%nat] /\
  exists o, demo_step demo_program demo_tick_event = Ret o.
Proof.
  split; [vm_compute; reflexivity|]. split; [vm_compute; reflexivity|].
  destruct (program_refines (fun x => x) demo_hash demo_decode demo_value demo_reparse demo_launch demo_program demo_program_reach)
    as (_ & _ & _ & _ & _ & H).
  destruct (H demo_tick_event) as (o & E & _); [apply plain_event_ok; vm_compute; reflexivity|]. exists o. exact E.
Defined.

Lemma settings_only_by_command_witness :
  cfg_mode (snapshot (pg_config demo_program)) = Classic /\ dyn_conn_timeout_ms (pg_config demo_program) = 60000 /\
  timeout_ok (pg_config demo_program).
Proof.
  split; [vm_compute; reflexivity|]. split; [vm_compute; reflexivity|].
  assert (main_ demo_typed demo_cli (toml_load demo_toml (Some [1])) = Ret (Run demo_launch)) as Hm by (vm_compute; reflexivity).
  exact (proj1 (settings_only_by_command (fun x => x) demo_hash demo_decode demo_value demo_reparse _ _ _ demo_launch demo_program Hm demo_program_reach)).
Defined.

Lemma stats_published_witness :
  sk_channels (pg_sock demo_after) !! 1%nat = Some (replicate 3 (mkPush "stats" "sub-0" (json_int 3)))%string.
Proof.
  destruct (stats_published (fun x => x) demo_hash demo_decode demo_value demo_reparse demo_launch demo_program (demo_tick 5000) 5000 demo_after
    demo_program_reach) as [H _].
  - apply plain_event_ok. vm_compute. reflexivity.
  - exact demo_after_step.
  - destruct (H (json_int 3)) as (_ & _ & Hc); [vm_compute; reflexivity|]. rewrite Hc. vm_compute. reflexivity.
Defined.

Lemma scrape_shows_active_witness :
  (series demo_ip "srtla_send_link_up" (Some (ip_key (V4 10 0 0 1))), "1"%string) ∈
    scrape (render demo_ip demo_f64 (pg_stats demo_after) (pg_config demo_after) (pg_critical demo_after)).
Proof.
  apply (scrape_shows_active (fun x => x) demo_hash demo_decode demo_value demo_reparse demo_ip demo_f64 demo_launch demo_program (demo_tick 5000) 5000
    demo_after demo_after (ip_key (V4 10 0 0 1)) demo_program_reach).
  - vm_compute. reflexivity.
  - exact demo_after_step.
  - apply qt_refl.
  - intros ip. split_and!; apply show_int_lacks_any; auto.
  - intros x. apply show_int_lacks.
  - intros i j H. exact (pretty_Z_inj _ _ H).
  - assert (exists c, ml_conns (housekeeping_branch (fun x => x) (pg_loop demo_program) (tk_env (demo_tick 5000)) (tk_now (demo_tick 5000))
      (tk_cc_now (demo_tick 5000)) (tk_outs (demo_tick 5000))) !! 0%nat = Some c /\ local_ip c = ip_key (V4 10 0 0 1) /\ is_active 5000 c = true)
      as (c & Hc & H) by (eexists; split; [vm_compute; reflexivity|split; vm_compute; reflexivity]).
    exists c. split; [exact (list_elem_of_lookup_2 _ _ _ Hc)|exact H].
Defined.
