(* ===== verification/Host.v ===== *)
(** * The host that the network simulator drives

    The simulator (crates/network-sim) builds its test networks by running
    [sudo], [ip] and [tc], starting processes and polling them.  What it asks
    of the host is an [Event] and what the host answers is a function of all
    events so far ([Host]), so a theorem about every host is a theorem about
    every order of successes and failures.  [Sh] is the monad of such code: a
    result that can be an error ([anyhow::Result]) or a panic, with [unwind]
    for the values whose destructors run on the way out. *)
From S2P Require Import Prelude.
From stdpp Require Import strings pretty.
Local Open Scope Z_scope.

Definition Cmd := list string.
(** How a command ended, and the text it printed as characters. *)
Record Output := mkOutput { out_success : bool; out_stdout : list Z }.

(** What the code asks of the host. *)
Inductive Event :=
  | Ran (argv : Cmd) (out : option Output)
  | Spawned (argv : Cmd) (child : option Z)
  | Polled (child : Z) (exited : bool)
  | Killed (child : Z) (done : bool)
  | Slept (ms : Z)
  | Wrote (text : string) (path : option string).

Record Host := mkHost {
  h_pid : Z;
  h_output : list Event -> Cmd -> option Output;
  h_spawn : list Event -> Cmd -> option Z;
  h_exited : list Event -> Z -> bool;
  h_kill : list Event -> Z -> bool;
  h_lines : list Event -> Z -> list string * list string;
  h_now : list Event -> Z;
  h_temp_file : list Event -> option string;
  h_exists : string -> bool }.

(** The state the code carries: what has happened, and [NS_COUNTER]. *)
Record World := mkWorld { w_events : list Event; w_counter : Z }.
#[export] Instance eta_World : Eta World := fun w => mkWorld (w_events w) (w_counter w).

(** ** Results *)
Inductive outcome (A : Type) := Ok (a : A) | Err | Panicked.
Arguments Ok {A} a.
Arguments Err {A}.
Arguments Panicked {A}.

Definition Sh (A : Type) : Type := World -> outcome A * World.
#[export] Instance sh_ret : MRet Sh := fun A a w => (Ok a, w).
#[export] Instance sh_bind : MBind Sh := fun A B f m w =>
  match m w with
  | (Ok a, w') => f a w'
  | (Err, w') => (Err, w')
  | (Panicked, w') => (Panicked, w')
  end.
Definition bail {A} : Sh A := fun w => (Err, w).
Definition panic {A} : Sh A := fun w => (Panicked, w).
(** [.ok_or_else(..)?] and [.with_context(..)?] on an option. *)
Definition or_bail {A} (x : option A) : Sh A := match x with Some a => mret a | None => bail end.
(** [let _ = m]: the result is thrown away, a panic is not. *)
Definition ignore {A} (m : Sh A) : Sh unit := fun w =>
  match m w with (Panicked, w') => (Panicked, w') | (_, w') => (Ok tt, w') end.
(** A value with a destructor is alive while [m] runs: an error or a panic of
    [m] runs the destructor, a success keeps the value. *)
Definition unwind {A} (m : Sh A) (drop : Sh unit) : Sh A := fun w =>
  match m w with (Ok a, w') => (Ok a, w') | (o, w') => (o, (drop w').2) end.
(** The same where the value also ends with the block. *)
Definition scoped {A} (m : Sh A) (drop : Sh unit) : Sh A := fun w =>
  let '(o, w') := m w in (o, (drop w').2).

(** [for x in xs { m(x)?; }] *)
Fixpoint for_each {A} (xs : list A) (m : A -> Sh unit) : Sh unit :=
  match xs with [] => mret tt | x :: xs => _ ← m x; for_each xs m end.

(** The names that a Rust format string leaves as they are. *)
Definition decimal (n : Z) : string := pretty n.
Definition hex_digit (n : Z) : Ascii.ascii := Ascii.ascii_of_nat (Z.to_nat (if n <? 10 then 48 + n else 87 + n)%Z).
(** [{n:x}] of a [u32]: at most eight digits. *)
Fixpoint hex_go (digits : nat) (n : Z) (rest : string) : string :=
  match digits with
  | O => rest
  | S digits =>
    let rest := String (hex_digit (n mod 16)) rest in
    if n <? 16 then rest else hex_go digits (n / 16) rest
  end.
Definition hex (n : Z) : string := hex_go 8 n "".

Section Calls.
Context (h : Host).

Definition emit (e : Event) : Sh unit := fun w => (Ok tt, w <| w_events ::= fun es => es ++ [e] |>).
(** [Command::output]: [None] when the program cannot be started. *)
Definition output (argv : Cmd) : Sh (option Output) := fun w =>
  let out := h_output h (w_events w) argv in (Ok out, w <| w_events ::= fun es => es ++ [Ran argv out] |>).
Definition now : Sh Z := fun w => (Ok (h_now h (w_events w)), w).
Definition sleep (ms : Z) : Sh unit := emit (Slept ms).
End Calls.

(** ** Specifications

    [yields m w Q]: [m] started in [w] ends in an outcome and a world that
    satisfy [Q]. *)
Definition yields {A} (m : Sh A) (w : World) (Q : outcome A -> World -> Prop) : Prop := let '(o, w') := m w in Q o w'.

(** What follows a bind: an error or a panic is passed on. *)
Definition after {A B} (f : A -> Sh B) (Q : outcome B -> World -> Prop) (o : outcome A) (w : World) : Prop :=
  match o with Ok a => yields (f a) w Q | Err => Q Err w | Panicked => Q Panicked w end.

Lemma yields_bind {A B} (m : Sh A) (f : A -> Sh B) w Q : yields m w (after f Q) -> yields (mbind f m) w Q.
Proof. unfold after, yields, mbind, sh_bind. destruct (m w) as [[a| |] w']; [|done..]. by destruct (f a w'). Qed.
Lemma yields_conseq {A} (m : Sh A) w (P Q : outcome A -> World -> Prop) :
  yields m w P -> (forall o w', P o w' -> Q o w') -> yields m w Q.
Proof. unfold yields. destruct (m w). auto. Qed.
Lemma yields_eq {A} (m : Sh A) w o w' Q : m w = (o, w') -> yields m w Q -> Q o w'.
Proof. unfold yields. by intros ->. Qed.
Lemma yields_ret {A} (a : A) w (Q : outcome A -> World -> Prop) : Q (Ok a) w -> yields (mret a) w Q.
Proof. done. Qed.
Lemma yields_ignore {A} (m : Sh A) w (Q : outcome unit -> World -> Prop) :
  yields m w (fun o w' => Q (match o with Panicked => Panicked | _ => Ok tt end) w') -> yields (ignore m) w Q.
Proof. unfold yields, ignore. by destruct (m w) as [[a| |] w']. Qed.
Lemma yields_unwind {A} (m : Sh A) d w (Q : outcome A -> World -> Prop) :
  yields m w (fun o w' => match o with Ok a => Q (Ok a) w' | o => yields d w' (fun _ => Q o) end) -> yields (unwind m d) w Q.
Proof. unfold yields, unwind. destruct (m w) as [[a| |] w']; [done| |]; by destruct (d w'). Qed.
Lemma yields_scoped {A} (m : Sh A) d w (Q : outcome A -> World -> Prop) :
  yields m w (fun o w' => yields d w' (fun _ => Q o)) -> yields (scoped m d) w Q.
Proof. unfold yields, scoped. destruct (m w) as [o w']. by destruct (d w'). Qed.

(** A relation between the worlds before and after that holds of every
    outcome; reflexive and transitive ones pass through every combinator. *)
Section Step.
Context (R : World -> World -> Prop) `{!PreOrder R}.
Definition steps {A} (m : Sh A) : Prop := forall w, yields m w (fun _ w' => R w w').

Lemma steps_ret {A} (a : A) : steps (mret a).
Proof using All. intros w. cbn. reflexivity. Qed.
Lemma steps_bail {A} : steps (@bail A).
Proof using All. intros w. cbn. reflexivity. Qed.
Lemma steps_panic {A} : steps (@panic A).
Proof using All. intros w. cbn. reflexivity. Qed.
Lemma steps_or_bail {A} (x : option A) : steps (or_bail x).
Proof using All. destruct x; [apply steps_ret|apply steps_bail]. Qed.
Lemma steps_bind {A B} (m : Sh A) (f : A -> Sh B) : steps m -> (forall a, steps (f a)) -> steps (mbind f m).
Proof using All.
  intros Hm Hf w. apply yields_bind. eapply yields_conseq; [apply Hm|]. intros [a| |] w' Hw; [|done..]. cbn.
  eapply yields_conseq; [apply Hf|]. intros o w2 H2. by transitivity w'.
Qed.
Lemma steps_ignore {A} (m : Sh A) : steps m -> steps (ignore m).
Proof using All. intros Hm w. apply yields_ignore. eapply yields_conseq; [apply Hm|]. done. Qed.
Lemma steps_unwind {A} (m : Sh A) d : steps m -> steps d -> steps (unwind m d).
Proof using All.
  intros Hm Hd w. apply yields_unwind. eapply yields_conseq; [apply Hm|].
  intros [a| |] w' Hw; [done| |]; (eapply yields_conseq; [apply Hd|]; intros; by transitivity w').
Qed.
Lemma steps_scoped {A} (m : Sh A) d : steps m -> steps d -> steps (scoped m d).
Proof using All.
  intros Hm Hd w. apply yields_scoped. eapply yields_conseq; [apply Hm|].
  intros o w' Hw. eapply yields_conseq; [apply Hd|]; intros; by transitivity w'.
Qed.
Lemma steps_for_each {A} (xs : list A) m : (forall x, steps (m x)) -> steps (for_each xs m).
Proof using All. intros Hm. induction xs; [apply steps_ret|]. apply steps_bind; auto. Qed.
End Step.

Create HintDb host.
#[export] Hint Resolve steps_ret steps_bail steps_panic steps_or_bail steps_bind steps_ignore steps_unwind steps_scoped
  steps_for_each : host.

(** ** Names *)
Lemma hex_go_length digits n rest : 0 <= n -> (String.length (hex_go digits n rest) <= digits + String.length rest)%nat.
Proof.
  revert n rest. induction digits as [|d IH]; intros n rest Hn; cbn [hex_go]; [lia|].
  destruct (n <? 16); cbn [String.length]; [lia|]. specialize (IH (n / 16) (String (hex_digit (n mod 16)) rest)). cbn [String.length] in IH.
  pose proof (Z.div_pos n 16). lia.
Qed.
Lemma hex_go_small digits k n rest : 0 <= n < 16 ^ Z.of_nat k -> (1 <= k <= digits)%nat ->
  (String.length (hex_go digits n rest) <= k + String.length rest)%nat.
Proof.
  revert k n rest. induction digits as [|d IH]; intros k n rest Hn Hk; [lia|]. cbn [hex_go].
  destruct (Z.ltb_spec n 16); cbn [String.length]; [lia|].
  destruct k as [|[|k]]; [lia|change (16 ^ Z.of_nat 1) with 16 in Hn; lia|].
  specialize (IH (S k) (n / 16) (String (hex_digit (n mod 16)) rest)). cbn [String.length] in IH.
  assert (n / 16 < 16 ^ Z.of_nat (S k)).
  { apply Z.div_lt_upper_bound; [lia|]. rewrite (Nat2Z.inj_succ (S k)), Z.pow_succ_r in Hn by lia. lia. }
  pose proof (Z.div_pos n 16). lia.
Qed.
