(* ===== verification/Topology.v ===== *)
(** * Namespaces, links and impairments of the network simulator

    crates/network-sim: the names of test_util.rs, the namespaces and veth
    links of topology.rs, the [tc] commands of impairment.rs and
    [SrtlaTestTopology] of harness.rs, over any [Host].  The theorems of this
    file: names are unique and fit the kernel's limit, and the deletion of every
    namespace that was added is asked for, whatever fails. *)
From S2P Require Import Prelude.
From S2P Require Import F64.
From S2P Require Import Text.
From S2P Require Import Host.
From stdpp Require Import strings pretty.
Local Open Scope Z_scope.

Section Sim.
Context (h : Host).

(** ** topology.rs *)
Record Namespace := mkNamespace { ns_name : string }.

Definition sudo (args : Cmd) : Sh Output := out ← output h ("sudo" :: args); or_bail out.
Definition sudo_checked (args : Cmd) : Sh Output :=
  output ← sudo args; if out_success output then mret output else bail.

Definition namespace_new (name : string) : Sh Namespace :=
  _ ← ignore (sudo ["ip"; "netns"; "del"; name]);
  _ ← sudo_checked ["ip"; "netns"; "add"; name];
  _ ← ignore (sudo ["ip"; "netns"; "exec"; name; "ip"; "link"; "set"; "lo"; "up"]);
  mret (mkNamespace name).

Definition exec (self : Namespace) (cmd : string) (args : Cmd) : Sh Output :=
  sudo (["ip"; "netns"; "exec"; ns_name self; cmd] ++ args).
Definition exec_checked (self : Namespace) (cmd : string) (args : Cmd) : Sh Output :=
  sudo_checked (["ip"; "netns"; "exec"; ns_name self; cmd] ++ args).

Definition add_veth_link (self peer : Namespace) (local_iface peer_iface local_ip peer_ip : string) : Sh unit :=
  _ ← ignore (sudo ["ip"; "link"; "del"; local_iface]);
  _ ← sudo_checked ["ip"; "link"; "add"; local_iface; "type"; "veth"; "peer"; "name"; peer_iface];
  _ ← sudo_checked ["ip"; "link"; "set"; local_iface; "netns"; ns_name self];
  _ ← sudo_checked ["ip"; "link"; "set"; peer_iface; "netns"; ns_name peer];
  _ ← exec_checked self "ip" ["addr"; "add"; local_ip; "dev"; local_iface];
  _ ← exec_checked self "ip" ["link"; "set"; local_iface; "up"];
  _ ← exec_checked peer "ip" ["addr"; "add"; peer_ip; "dev"; peer_iface];
  _ ← exec_checked peer "ip" ["link"; "set"; peer_iface; "up"];
  mret tt.

Definition namespace_drop (self : Namespace) : Sh unit := ignore (sudo ["ip"; "netns"; "del"; ns_name self]).

(** ** test_util.rs *)
Definition check_privileges : Sh bool :=
  out ← output h ["ip"; "netns"];
  match out with
  | Some o => if out_success o then
      out ← output h ["sudo"; "-n"; "ip"; "netns"; "list"];
      mret (match out with Some o => out_success o | None => false end)
    else mret false
  | None => mret false
  end.

(** [&s[..n]]: a panic when [n] lies inside a character. *)
Definition is_continuation (c : Ascii.ascii) : bool := (128 <=? Z.of_nat (Ascii.nat_of_ascii c)) && (Z.of_nat (Ascii.nat_of_ascii c) <? 192).
Definition is_char_boundary (s : string) (n : nat) : bool :=
  match String.get n s with None => Nat.leb n (String.length s) | Some c => negb (is_continuation c) end.
Definition str_prefix (s : string) (n : nat) : Sh string :=
  if is_char_boundary s n then mret (String.substring 0 n s) else panic.

Definition harness_pid : Z := h_pid h mod 0xffff.
Definition name_suffix (seq : Z) : string := "_" +:+ hex harness_pid +:+ "_" +:+ decimal seq.

Definition fetch_add : Sh Z := fun w => (Ok (w_counter w), w <| w_counter ::= fun c => u32_wrap (c + 1) |>).
Definition unique_ns_name (prefix : string) : Sh string :=
  seq ← fetch_add;
  let suffix := name_suffix seq in
  let max_prefix := (15 - String.length suffix)%nat in
  truncated_prefix ← str_prefix prefix (Nat.min (String.length prefix) max_prefix);
  mret (truncated_prefix +:+ suffix).

(** ** impairment.rs *)
Section Impairment.
Context (show_f32 : f32 -> string).

Record GemodelConfig := mkGemodel { ge_p : f32; ge_r : f32; ge_one_h : f32; ge_one_k : f32 }.
Record ImpairmentConfig := mkImpairment {
  im_delay_ms : option Z; im_jitter_ms : option Z; im_loss_percent : option f32; im_loss_correlation : option f32;
  im_gemodel : option GemodelConfig; im_rate_kbit : option Z; im_duplicate_percent : option f32;
  im_reorder_percent : option f32; im_corrupt_percent : option f32; im_tbf_shaping : bool }.
Definition impairment_default : ImpairmentConfig :=
  mkImpairment None None None None None None None None None false.

Definition is_empty (self : ImpairmentConfig) : bool :=
  negb (bool_decide (is_Some (im_delay_ms self))) && negb (bool_decide (is_Some (im_loss_percent self)))
  && negb (bool_decide (is_Some (im_rate_kbit self))) && negb (bool_decide (is_Some (im_gemodel self)))
  && negb (bool_decide (is_Some (im_duplicate_percent self))) && negb (bool_decide (is_Some (im_reorder_percent self)))
  && negb (bool_decide (is_Some (im_corrupt_percent self))).

Definition has_netem_params (self : ImpairmentConfig) : bool :=
  bool_decide (is_Some (im_delay_ms self)) || bool_decide (is_Some (im_loss_percent self))
  || bool_decide (is_Some (im_gemodel self)) || bool_decide (is_Some (im_duplicate_percent self))
  || bool_decide (is_Some (im_reorder_percent self)) || bool_decide (is_Some (im_corrupt_percent self)).

Definition percent_arg (x : f32) : string := show_f32 x +:+ "%".
Definition percent_pair (word : string) (x : option f32) : Cmd :=
  match x with Some x => [word; percent_arg x] | None => [] end.

Definition netem_args (self : ImpairmentConfig) (include_rate : bool) : Cmd :=
  match im_delay_ms self with
  | Some delay =>
    ["delay"; decimal delay +:+ "ms"] ++
    match im_jitter_ms self with
    | Some jitter => if jitter >? 0 then [decimal jitter +:+ "ms"] else []
    | None => []
    end
  | None => []
  end ++
  match im_gemodel self, im_loss_percent self with
  | Some ge, _ =>
    ["loss"; "gemodel"; percent_arg (ge_p ge); percent_arg (ge_r ge); percent_arg (ge_one_h ge); percent_arg (ge_one_k ge)]
  | None, Some loss =>
    ["loss"; percent_arg loss] ++
    match im_loss_correlation self with Some corr => [percent_arg corr] | None => [] end
  | None, None => []
  end ++
  percent_pair "duplicate" (im_duplicate_percent self) ++
  percent_pair "reorder" (im_reorder_percent self) ++
  percent_pair "corrupt" (im_corrupt_percent self) ++
  (if include_rate then match im_rate_kbit self with Some rate => ["rate"; decimal rate +:+ "kbit"] | None => [] end else []).

Definition tc_checked (ns : Namespace) (args : Cmd) : Sh unit :=
  output ← exec ns "tc" args; if out_success output then mret tt else bail.

Definition tbf_burst (rate : Z) : Z :=
  let rate_bytes_per_sec := u64_wrap (rate * 1000) / 8 in Z.max rate_bytes_per_sec 15400 / 10.

Definition apply_tbf_with_netem (ns : Namespace) (iface : string) (config : ImpairmentConfig) : Sh unit :=
  rate ← or_bail (im_rate_kbit config);
  _ ← tc_checked ns ["qdisc"; "add"; "dev"; iface; "root"; "handle"; "1:"; "tbf"; "rate"; decimal rate +:+ "kbit";
                     "burst"; decimal (tbf_burst rate); "latency"; "1s"];
  if has_netem_params config then
    tc_checked ns (["qdisc"; "add"; "dev"; iface; "parent"; "1:1"; "handle"; "10:"; "netem"] ++ netem_args config false)
  else mret tt.

Definition apply_netem_root (ns : Namespace) (iface : string) (config : ImpairmentConfig) : Sh unit :=
  tc_checked ns (["qdisc"; "add"; "dev"; iface; "root"; "netem"] ++ netem_args config true).

Definition apply_impairment (ns : Namespace) (interface : string) (config : ImpairmentConfig) : Sh unit :=
  _ ← ignore (exec ns "tc" ["qdisc"; "del"; "dev"; interface; "root"]);
  if is_empty config then mret tt
  else if im_tbf_shaping config then apply_tbf_with_netem ns interface config
  else apply_netem_root ns interface config.
End Impairment.

(** ** harness.rs, [SrtlaTestTopology] *)
Definition SRTLA_RECEIVER_SERVICE_IP : string := "10.99.0.1".

Record SrtlaTestTopology := mkTopology {
  tp_sender_ns : Namespace; tp_receiver_ns : Namespace; tp_sender_ips : list string; tp_receiver_ip : string;
  tp_sender_ifaces : list string; tp_receiver_ifaces : list string }.

Definition subnet_ip (i : nat) (last : string) : string := "10.10." +:+ decimal (Z.of_nat i + 1) +:+ "." +:+ last.
(** Both ends of a name that may be too long for the kernel. *)
Definition cut_iface (iface : string) : string :=
  if Nat.ltb 15 (String.length iface) then String.substring 0 15 iface else iface.
Definition sender_iface (i : nat) : string := cut_iface ("vs" +:+ hex harness_pid +:+ "_" +:+ decimal (Z.of_nat i)).
Definition receiver_iface (i : nat) : string := cut_iface ("vr" +:+ hex harness_pid +:+ "_" +:+ decimal (Z.of_nat i)).

(** One turn of the loop over the links, then the rest. *)
Fixpoint add_links (sender_ns receiver_ns : Namespace) (idxs : list nat) (acc : list string * list string * list string)
  : Sh (list string * list string * list string) :=
  match idxs with
  | [] => mret acc
  | i :: idxs =>
    let '(sender_ips, sender_ifaces, receiver_ifaces) := acc in
    let s_ip := subnet_ip i "1" in
    let r_ip := subnet_ip i "2" in
    let s_iface := sender_iface i in
    let r_iface := receiver_iface i in
    _ ← add_veth_link sender_ns receiver_ns s_iface r_iface (s_ip +:+ "/24") (r_ip +:+ "/24");
    add_links sender_ns receiver_ns idxs (sender_ips ++ [s_ip], sender_ifaces ++ [s_iface], receiver_ifaces ++ [r_iface])
  end.

Definition disable_rp_filter (ns : Namespace) (ifaces : list string) : Sh unit :=
  for_each (["all"; "default"] ++ ifaces) (fun key =>
    ignore (exec ns "sysctl" ["-w"; "net.ipv4.conf." +:+ key +:+ ".rp_filter=0"])).

Definition wire_link (self : SrtlaTestTopology) (i : nat) (s_ip s_iface : string) : Sh unit :=
  let r_ip := subnet_ip i "2" in
  let table := decimal (Z.of_nat i + 1) in
  _ ← exec_checked (tp_sender_ns self) "ip"
        ["route"; "add"; SRTLA_RECEIVER_SERVICE_IP +:+ "/32"; "via"; r_ip; "dev"; s_iface; "table"; table];
  _ ← exec_checked (tp_sender_ns self) "ip" ["rule"; "add"; "from"; s_ip; "lookup"; table];
  match tp_receiver_ifaces self !! i with
  | None => panic
  | Some r_iface =>
    _ ← exec_checked (tp_receiver_ns self) "ip"
          ["route"; "add"; s_ip +:+ "/32"; "dev"; r_iface; "src"; SRTLA_RECEIVER_SERVICE_IP];
    mret tt
  end.
Fixpoint wire_links (self : SrtlaTestTopology) (i : nat) (links : list (string * string)) : Sh unit :=
  match links with [] => mret tt | (s_ip, s_iface) :: links => _ ← wire_link self i s_ip s_iface; wire_links self (S i) links end.

Definition wire_bonding_routes (self : SrtlaTestTopology) : Sh unit :=
  _ ← disable_rp_filter (tp_sender_ns self) (tp_sender_ifaces self);
  _ ← disable_rp_filter (tp_receiver_ns self) (tp_receiver_ifaces self);
  _ ← exec_checked (tp_receiver_ns self) "ip" ["addr"; "add"; SRTLA_RECEIVER_SERVICE_IP +:+ "/32"; "dev"; "lo"];
  wire_links self 0 (zip (tp_sender_ips self) (tp_sender_ifaces self)).

(** The fields of a dropped topology go in the order of their declaration. *)
Definition topology_drop (self : SrtlaTestTopology) : Sh unit :=
  _ ← namespace_drop (tp_sender_ns self); namespace_drop (tp_receiver_ns self).

Definition topology_new (test_name : string) (num_links : nat) : Sh SrtlaTestTopology :=
  if Nat.eqb num_links 0 then panic
  else
    sender_name ← unique_ns_name (test_name +:+ "_s");
    sender_ns ← namespace_new sender_name;
    receiver_ns ← unwind (receiver_name ← unique_ns_name (test_name +:+ "_r"); namespace_new receiver_name)
                    (namespace_drop sender_ns);
    links ← unwind (add_links sender_ns receiver_ns (seq 0 num_links) ([], [], []))
              (_ ← namespace_drop receiver_ns; namespace_drop sender_ns);
    let topo := mkTopology sender_ns receiver_ns links.1.1 SRTLA_RECEIVER_SERVICE_IP links.1.2 links.2 in
    _ ← unwind (wire_bonding_routes topo) (topology_drop topo);
    mret topo.

Definition impair_link (show_f32 : f32 -> string) (self : SrtlaTestTopology) (idx : nat) (config : ImpairmentConfig) : Sh unit :=
  iface ← or_bail (tp_sender_ifaces self !! idx); apply_impairment show_f32 (tp_sender_ns self) iface config.

(** The text [write_ip_list] writes to a file of its own; the host names the
    file, or fails. *)
Definition LF : string := String (Ascii.ascii_of_nat 10) "".
Definition ip_list_text (self : SrtlaTestTopology) : string := String.concat LF (tp_sender_ips self) +:+ LF.
Definition write_ip_list (self : SrtlaTestTopology) : Sh string := fun w =>
  let path := h_temp_file h (w_events w) in
  (match path with Some p => Ok p | None => Err end, w <| w_events ::= fun es => es ++ [Wrote (ip_list_text self) path] |>).
End Sim.

(** ** Names *)
Definition underscore : Ascii.ascii := Ascii.ascii_of_nat 95.
Lemma digit_not_underscore (x : N) : pretty_N_char x <> underscore.
Proof. unfold pretty_N_char. repeat case_match; done. Qed.

Section Names.
Context (h : Host).

Lemma name_suffix_split a seq :
  a +:+ name_suffix h seq = (a +:+ "_" +:+ hex (harness_pid h)) +:+ String underscore (pretty seq).
Proof.
  unfold name_suffix, decimal. change ("_" +:+ pretty seq) with (String underscore (pretty seq)). by rewrite !append_assoc.
Qed.

Lemma hex_pid_length : (String.length (hex (harness_pid h)) <= 4)%nat.
Proof.
  pose proof (hex_go_small 8 4 (harness_pid h) "") as H. cbn [String.length] in H. rewrite Nat.add_0_r in H. apply H; [|lia].
  unfold harness_pid. change (16 ^ Z.of_nat 4) with 65536. pose proof (Z.mod_pos_bound (h_pid h) 0xffff). lia.
Qed.

Lemma name_suffix_length seq : 0 <= seq < 1000000000 -> (String.length (name_suffix h seq) <= 15)%nat.
Proof.
  intros Hs. unfold name_suffix, decimal. rewrite !length_append. cbn [String.length].
  pose proof (pretty_length 9 seq ltac:(lia) Hs). pose proof hex_pid_length. lia.
Qed.

(** A character of the ASCII range, as in every name the harness passes. *)
Fixpoint is_ascii (s : string) : bool :=
  match s with "" => true | String x s => (Z.of_nat (Ascii.nat_of_ascii x) <? 128)%Z && is_ascii s end%string.
Lemma ascii_boundary s n : is_ascii s = true -> (n <= String.length s)%nat -> is_char_boundary s n = true.
Proof.
  unfold is_char_boundary. revert n. induction s as [|x s IH]; intros n Ha Hn; cbn [String.length] in Hn.
  - replace n with 0%nat by lia. done.
  - cbn [is_ascii] in Ha. apply andb_true_iff in Ha as [Hx Ha]. destruct n as [|n]; cbn [String.get].
    + unfold is_continuation. destruct (Z.leb_spec 128 (Z.of_nat (Ascii.nat_of_ascii x))); [bool_to_prop; lia|done].
    + specialize (IH n Ha ltac:(lia)). destruct (String.get n s); [done|]. cbn. exact IH.
Qed.

(** A fresh name is cut from the prefix and ends in the number of the call. *)
Lemma unique_ns_name_spec prefix w : is_ascii prefix = true ->
  exists a, unique_ns_name h prefix w =
    (Ok (a +:+ name_suffix h (w_counter w)), mkWorld (w_events w) (u32_wrap (w_counter w + 1))) /\
    (String.length a <= 15 - String.length (name_suffix h (w_counter w)))%nat.
Proof.
  intros Hp. unfold unique_ns_name, mbind, sh_bind, fetch_add, str_prefix. cbn [upd eta].
  rewrite ascii_boundary by (done || lia). unfold mret, sh_ret. eexists. split; [reflexivity|].
  pose proof (substring_length (String.length prefix `min` (15 - String.length (name_suffix h (w_counter w)))) prefix). lia.
Qed.

(** Two names of different calls differ, whatever their prefixes, and a name
    fits the 15 characters the kernel allows for the first thousand million. *)
Theorem names_unique p1 p2 w1 w2 (H1 : is_ascii p1 = true) (H2 : is_ascii p2 = true)
    (C1 : 0 <= w_counter w1 < 1000000000) (C2 : 0 <= w_counter w2 < 1000000000) (Hne : w_counter w1 <> w_counter w2) :
  exists n1 n2, (unique_ns_name h p1 w1).1 = Ok n1 /\ (unique_ns_name h p2 w2).1 = Ok n2 /\ n1 <> n2 /\
    (String.length n1 <= 15)%nat /\ (String.length n2 <= 15)%nat.
Proof.
  destruct (unique_ns_name_spec p1 w1 H1) as (a1 & E1 & L1), (unique_ns_name_spec p2 w2 H2) as (a2 & E2 & L2).
  rewrite E1, E2. pose proof (name_suffix_length _ C1). pose proof (name_suffix_length _ C2).
  do 2 eexists. split; [reflexivity|]. split; [reflexivity|]. rewrite !length_append. split; [|lia].
  rewrite !name_suffix_split. intros E. apply numbered_inj in E; [done|apply digit_not_underscore|lia..].
Qed.
End Names.

(** ** Namespaces are not left behind *)

(** The words behind a given beginning of a command. *)
Fixpoint strip (prefix : Cmd) (c : Cmd) : option Cmd :=
  match prefix, c with
  | [], _ => Some c
  | p :: prefix, x :: c => if String.eqb p x then strip prefix c else None
  | _ :: _, [] => None
  end.

Definition unasked_step (l : list string) (e : Event) : list string :=
  match e with
  | Ran c out =>
    match strip ["sudo"; "ip"; "netns"; "add"] c, out with
    | Some [n], Some o => if out_success o then n :: l else l
    | _, _ =>
      match strip ["sudo"; "ip"; "netns"; "del"] c with
      | Some [n] => List.filter (fun x => negb (String.eqb n x)) l
      | _ => l
      end
    end
  | _ => l
  end.
(** The namespaces that were added and not asked to be deleted since; the
    answer to the request does not matter here. *)
Definition unasked (w : World) : list string := fold_left unasked_step (w_events w) [].
Definition no_more (w w' : World) : Prop := forall n, n ∈ unasked w' -> n ∈ unasked w.
#[export] Instance no_more_preorder : PreOrder no_more.
Proof. split; [by intros w n|]. intros w1 w2 w3 H1 H2 n Hn. auto. Qed.

Lemma unasked_event w e c : unasked (mkWorld (w_events w ++ [e]) c) = unasked_step (unasked w) e.
Proof. unfold unasked. cbn. by rewrite fold_left_app. Qed.
Lemma unasked_counter w c : unasked (mkWorld (w_events w) c) = unasked w.
Proof. done. Qed.

Section Leaks.
Context (h : Host).

Lemma output_no_more argv : strip ["sudo"; "ip"; "netns"; "add"]%string argv = None -> steps no_more (output h argv).
Proof.
  intros Ha w. unfold yields, output. cbn [upd eta]. intros n. rewrite unasked_event. unfold unasked_step. rewrite Ha.
  destruct (strip ["sudo"; "ip"; "netns"; "del"]%string argv) as [[|m [|]]|]; try done. intros [Hn _]%list_elem_of_In%filter_In. by apply list_elem_of_In.
Qed.
Lemma sudo_no_more args : strip ["ip"; "netns"; "add"]%string args = None -> steps no_more (sudo h args).
Proof. intros Ha. apply steps_bind; [apply _|by apply output_no_more|]. intros o. by apply steps_or_bail, _. Qed.
Lemma sudo_checked_no_more args : strip ["ip"; "netns"; "add"]%string args = None -> steps no_more (sudo_checked h args).
Proof.
  intros Ha. apply steps_bind; [apply _|by apply sudo_no_more|]. intros o. case_match; [by apply steps_ret, _|by apply steps_bail, _].
Qed.
Lemma ignored_sudo args w : strip ["ip"; "netns"; "add"]%string args = None ->
  yields (ignore (sudo h args)) w (fun o w' => o = Ok tt /\ no_more w w').
Proof.
  intros Ha. pose proof (output_no_more ("sudo" :: args)%string Ha w) as H. revert H.
  unfold yields, ignore, sudo, mbind, sh_bind, output. by destruct (h_output h (w_events w) _).
Qed.
Lemma exec_no_more ns cmd args : steps no_more (exec h ns cmd args).
Proof. by apply sudo_no_more. Qed.
Lemma exec_checked_no_more ns cmd args : steps no_more (exec_checked h ns cmd args).
Proof. by apply sudo_checked_no_more. Qed.
Lemma tc_checked_no_more ns args : steps no_more (tc_checked h ns args).
Proof.
  apply steps_bind; [apply _|apply exec_no_more|]. intros o. case_match; [by apply steps_ret, _|by apply steps_bail, _].
Qed.
Lemma namespace_drop_no_more ns : steps no_more (namespace_drop h ns).
Proof. apply steps_ignore; [apply _|by apply sudo_no_more]. Qed.
End Leaks.
#[export] Hint Resolve exec_no_more exec_checked_no_more tc_checked_no_more namespace_drop_no_more no_more_preorder : host.
#[export] Hint Extern 1 (steps no_more (sudo _ _)) => apply sudo_no_more; reflexivity : host.
#[export] Hint Extern 1 (steps no_more (sudo_checked _ _)) => apply sudo_checked_no_more; reflexivity : host.
#[export] Hint Extern 1 (steps no_more (output _ _)) => apply output_no_more; reflexivity : host.

Section LeaksTopology.
Context (h : Host).

Lemma add_veth_link_no_more self peer a b c d : steps no_more (add_veth_link h self peer a b c d).
Proof. unfold add_veth_link. eauto 30 with host. Qed.
Lemma add_links_no_more s r idxs acc : steps no_more (add_links h s r idxs acc).
Proof.
  revert acc. induction idxs as [|i idxs IH]; intros acc; cbn [add_links]; [auto with host|].
  destruct acc as [[ips sifs] rifs]. apply steps_bind; [apply _|apply add_veth_link_no_more|]. auto.
Qed.
Lemma wire_links_no_more self i links : steps no_more (wire_links h self i links).
Proof.
  revert i. induction links as [|[ip ifc] links IH]; intros i; cbn [wire_links]; [auto with host|].
  apply steps_bind; [apply _| |auto]. unfold wire_link. apply steps_bind; [apply _|auto with host|intros _].
  apply steps_bind; [apply _|auto with host|intros _]. case_match; eauto with host.
Qed.
Lemma wire_bonding_routes_no_more self : steps no_more (wire_bonding_routes h self).
Proof. pose proof wire_links_no_more. unfold wire_bonding_routes, disable_rp_filter. eauto 12 with host. Qed.
Lemma topology_drop_no_more self : steps no_more (topology_drop h self).
Proof. unfold topology_drop. eauto with host. Qed.
Lemma apply_impairment_no_more show ns iface config : steps no_more (apply_impairment h show ns iface config).
Proof.
  unfold apply_impairment. apply steps_bind; [apply _|auto with host|intros _].
  repeat case_match; [auto with host| |unfold apply_netem_root; auto with host].
  unfold apply_tbf_with_netem. apply steps_bind; [apply _|auto with host|intros r].
  apply steps_bind; [apply _|auto with host|intros _]. case_match; auto with host.
Qed.

(** A namespace waits for its deletion while its value is alive. *)
Definition alive_with (names : list string) (w w' : World) : Prop := forall n, n ∈ unasked w' -> n ∈ names \/ n ∈ unasked w.

Lemma namespace_new_alive name w :
  yields (namespace_new h name) w (fun o w' =>
    match o with Ok ns => ns_name ns = name /\ alive_with [name] w w' | _ => no_more w w' end).
Proof.
  unfold namespace_new. apply yields_bind.
  eapply yields_conseq; [by apply ignored_sudo|]. intros o w1 [-> H1]. cbn [after].
  apply yields_bind. unfold sudo_checked, sudo. apply yields_bind, yields_bind. unfold yields at 1. unfold output. cbn [upd eta].
  set (w2 := mkWorld _ _). destruct (h_output h (w_events w1) _) as [o|] eqn:Eo; cbn [after or_bail].
  - assert (unasked w2 = if out_success o then name :: unasked w1 else unasked w1) as E by (unfold w2; by rewrite unasked_event).
    apply yields_ret. cbn [after].
    destruct (out_success o).
    + apply yields_ret. cbn [after]. apply yields_bind.
      eapply yields_conseq; [by apply ignored_sudo|]. intros o3 w3 [-> H3]. cbn [after].
      apply yields_ret. cbn. split; [done|]. intros n Hn. apply H3 in Hn. rewrite E in Hn.
      apply elem_of_cons in Hn as [->|Hn]; [left; by constructor|right; auto].
    + cbn. intros n Hn. rewrite E in Hn. auto.
  - cbn. intros n Hn. unfold w2 in Hn. rewrite unasked_event in Hn. cbn in Hn. auto.
Qed.

Lemma unique_ns_name_no_more prefix : steps no_more (unique_ns_name h prefix).
Proof.
  intros w. unfold yields, unique_ns_name, mbind, sh_bind, fetch_add, str_prefix. cbn [upd eta].
  destruct (is_char_boundary prefix _); intros n Hn; exact Hn.
Qed.

Lemma namespace_drop_alive ns names w0 w : alive_with (ns_name ns :: names) w0 w ->
  yields (namespace_drop h ns) w (fun o w' => o = Ok tt /\ alive_with names w0 w').
Proof.
  intros Ha. unfold namespace_drop, yields, ignore, sudo, mbind, sh_bind, output. cbn [upd eta]. set (w' := mkWorld _ _).
  assert (alive_with names w0 w') as H.
  { intros n Hn. unfold w' in Hn. rewrite unasked_event in Hn.
    apply list_elem_of_In, filter_In in Hn as [Hn Hne]. apply list_elem_of_In in Hn. apply negb_true_iff, String.eqb_neq in Hne.
    destruct (Ha n Hn) as [[E|Hi]%elem_of_cons|Hi]; [by subst|auto..]. }
  by destruct (h_output h (w_events w) _).
Qed.

Lemma alive_nil w w' : alive_with [] w w' -> no_more w w'.
Proof. intros H n Hn. destruct (H n Hn) as [Hx|]; [by apply elem_of_nil in Hx|done]. Qed.
Lemma alive_mono names w w1 w2 : alive_with names w w1 -> no_more w1 w2 -> alive_with names w w2.
Proof. intros H H2 n Hn. auto. Qed.
Lemma alive_start names w0 w w' : no_more w0 w -> alive_with names w w' -> alive_with names w0 w'.
Proof. intros H H2 n Hn. destruct (H2 n Hn); auto. Qed.
Lemma alive_more a b w0 w1 w2 : alive_with a w0 w1 -> alive_with b w1 w2 -> alive_with (b ++ a) w0 w2.
Proof. intros H1 H2 n Hn. rewrite elem_of_app. destruct (H2 n Hn) as [|Hi]; [auto|]. destruct (H1 n Hi); auto. Qed.

Definition two_alive (topo : SrtlaTestTopology) : list string := [ns_name (tp_sender_ns topo); ns_name (tp_receiver_ns topo)].

Lemma topology_drop_alive topo w0 w : alive_with (two_alive topo) w0 w ->
  yields (topology_drop h topo) w (fun _ w' => no_more w0 w').
Proof.
  intros Ha. unfold topology_drop. apply yields_bind. eapply yields_conseq; [by apply namespace_drop_alive|].
  intros o w1 [-> H1]. cbn [after]. eapply yields_conseq; [by apply namespace_drop_alive|]. intros o w2 [_ H2]. by apply alive_nil.
Qed.

(** Two values dropped in the other order. *)
Lemma both_dropped s r w0 w : alive_with [ns_name r; ns_name s] w0 w ->
  yields (_ ← namespace_drop h r; namespace_drop h s) w (fun _ w' => no_more w0 w').
Proof. intros Ha. by apply (topology_drop_alive (mkTopology r s [] "" [] [])). Qed.

Lemma topology_new_alive test_name num_links w :
  yields (topology_new h test_name num_links) w (fun o w' =>
    match o with Ok topo => alive_with (two_alive topo) w w' | _ => no_more w w' end).
Proof.
  unfold topology_new. destruct (Nat.eqb num_links 0); [cbn; reflexivity|].
  apply yields_bind. eapply yields_conseq; [apply unique_ns_name_no_more|]. intros [sname| |] w1 H1; [|done..]. cbn [after].
  apply yields_bind. eapply yields_conseq; [apply namespace_new_alive|]. intros [s| |] w2 H2; cbn [after] in *; [|by transitivity w1..].
  destruct H2 as [<- H2]. cbn [after]. apply (alive_start _ _ _ _ H1) in H2. clear w1 H1.
  apply yields_bind, yields_unwind, yields_bind. eapply yields_conseq; [apply unique_ns_name_no_more|].
  assert (forall w', no_more w2 w' -> yields (namespace_drop h s) w' (fun _ w'' => no_more w w'')) as Hs.
  { intros w' Hw. eapply yields_conseq; [apply namespace_drop_alive; by eapply alive_mono|]. intros o' w'' [_ Hd]. by apply alive_nil. }
  intros [rname| |] w3 H3; cbn [after]; [|by apply Hs..].
  eapply yields_conseq; [apply namespace_new_alive|]. intros [r| |] w4 H4; cbn [after] in *; [|apply Hs; by transitivity w3..].
  destruct H4 as [<- H4]. cbn [after]. apply (alive_start _ _ _ _ H3) in H4. pose proof (alive_more _ _ _ _ _ H2 H4) as Ha.
  cbn [app] in Ha. clear w3 H3 H4 Hs H2. apply yields_bind, yields_unwind. eapply yields_conseq; [apply add_links_no_more|].
  intros [links| |] w5 H5; [|apply both_dropped; by eapply alive_mono..]. cbn [after]. set (topo := mkTopology _ _ _ _ _ _).
  assert (alive_with (two_alive topo) w w5) as Ht.
  { intros n Hn. destruct (alive_mono _ _ _ _ Ha H5 n Hn) as [Hi|]; [left|by right].
    apply elem_of_cons in Hi as [->|Hi]; [right; left|]. apply elem_of_cons in Hi as [->|Hi]; [left|by apply elem_of_nil in Hi]. }
  apply yields_bind, yields_unwind. eapply yields_conseq; [apply wire_bonding_routes_no_more|].
  intros [u| |] w6 H6; cbn [after]; [apply yields_ret; by eapply alive_mono|apply topology_drop_alive; by eapply alive_mono..].
Qed.

(** The life of a topology: what a test does with it, then the drop. *)
Definition with_topology {A} (test_name : string) (num_links : nat) (body : SrtlaTestTopology -> Sh A) : Sh A :=
  topo ← topology_new h test_name num_links; scoped (body topo) (topology_drop h topo).

(** No namespace is forgotten.  Whatever the host answers, whichever step
    of building the topology fails or panics, and whatever the test does
    with it meanwhile without adding namespaces itself, the deletion of every
    namespace that was added is asked for again. *)
Theorem no_namespace_left {A} test_name num_links (body : SrtlaTestTopology -> Sh A)
    (Hb : forall topo, steps no_more (body topo)) : steps no_more (with_topology test_name num_links body).
Proof.
  intros w. unfold with_topology. apply yields_bind. eapply yields_conseq; [apply topology_new_alive|].
  intros [topo| |] w1 H1; [|done..]. cbn [after]. apply yields_scoped. eapply yields_conseq; [apply Hb|].
  intros o w2 H2. apply topology_drop_alive. by eapply alive_mono.
Qed.
End LeaksTopology.

(** ** A run *)

(** A host where every command succeeds except those that hold [bad]. *)
Definition demo_host (bad : string) : Host :=
  mkHost 4242 (fun _ c => Some (mkOutput (negb (bool_decide (bad ∈ c))) [])) (fun _ _ => Some 1) (fun _ _ => false) (fun _ _ => true) (fun _ _ => ([], []))
    (fun _ => 0) (fun _ => Some "/tmp/srtla_ips.txt") (fun _ => true).
Definition world0 : World := mkWorld [] 0.
Definition demo_run (bad : string) : outcome SrtlaTestTopology * World := topology_new (demo_host bad) "bond" 2 world0.

Lemma no_namespace_left_witness :
  steps no_more (with_topology (demo_host "rule") "bond" 2 (fun topo => impair_link (demo_host "rule") (fun _ => "5") topo 0 impairment_default)) /\
  (demo_run "rule").1 = Err /\ unasked (demo_run "rule").2 = [] /\ length (w_events (demo_run "rule").2) = 35%nat.
Proof.
  split; [|by vm_compute]. apply no_namespace_left. intros topo. unfold impair_link.
  apply steps_bind; [apply _|auto with host|]. intros iface. apply apply_impairment_no_more.
Defined.
