(* ===== verification/TopologySpec.v ===== *)
(** * What a topology of the simulator is

    The commands that [Topology.topology_new] has run when it succeeds, and
    what they mean: every source address is routed over its own link, the list
    of addresses it writes is the one the sender reads, and what [tc] is asked
    to do is what the configuration says. *)
From S2P Require Import Prelude.
From S2P Require Import F64.
From S2P Require Import Text.
From S2P Require Import Host.
From S2P Require Import Reload.
From S2P Require Import Topology.
From stdpp Require Import strings pretty.
Local Open Scope Z_scope.

(** ** A topology that was built *)

(** The commands run so far. *)
Definition ran (w : World) : list Cmd := omap (fun e => match e with Ran c _ => Some c | _ => None end) (w_events w).
(** If [m] succeeds, it has run exactly [s], drawn no name and its value
    satisfies [P]. *)
Definition does {A} (m : Sh A) (s : list Cmd) (P : A -> Prop) : Prop :=
  forall w, yields m w (fun o w' => match o with Ok a => ran w' = ran w ++ s /\ w_counter w' = w_counter w /\ P a | _ => True end).

Lemma ran_event w c out k : ran (mkWorld (w_events w ++ [Ran c out]) k) = ran w ++ [c].
Proof. unfold ran. cbn. by rewrite omap_app. Qed.

Lemma does_ret {A} (a : A) (P : A -> Prop) : P a -> does (mret a) [] P.
Proof. intros H w. cbn. by rewrite app_nil_r. Qed.
Lemma does_bind {A B} (m : Sh A) (f : A -> Sh B) s1 s2 P Q :
  does m s1 P -> (forall a, P a -> does (f a) s2 Q) -> does (mbind f m) (s1 ++ s2) Q.
Proof.
  intros Hm Hf w. apply yields_bind. eapply yields_conseq; [apply Hm|]. intros [a| |] w1; [|done..]. intros (E & C & Ha). cbn [after].
  eapply yields_conseq; [by apply Hf|]. intros [b| |] w2; [|done..]. intros (E2 & C2 & Hb). by rewrite E2, E, C2, C, app_assoc.
Qed.
(** The form with the command first. *)
Lemma does_step {A B} (m : Sh A) (f : A -> Sh B) c s Q :
  does m [c] (fun _ => True) -> (forall a, does (f a) s Q) -> does (mbind f m) (c :: s) Q.
Proof. intros Hm Hf. apply (does_bind m f [c] s (fun _ => True)); auto. Qed.
Lemma does_unwind {A} (m : Sh A) d s P : does m s P -> does (unwind m d) s P.
Proof.
  intros Hm w. apply yields_unwind. eapply yields_conseq; [apply Hm|]. intros [a| |] w1 H; [done|..]; unfold yields; by destruct (d w1).
Qed.
Lemma does_for_each {A} (xs : list A) m f : (forall x, does (m x) [f x] (fun _ => True)) -> does (for_each xs m) (map f xs) (fun _ => True).
Proof. intros Hm. induction xs as [|x xs IH]; [by apply does_ret|]. by apply does_step. Qed.

Section Built.
Context (h : Host).

Lemma output_does argv : does (output h argv) [argv] (fun _ => True).
Proof. intros w. unfold yields, output. cbn [upd eta]. by rewrite ran_event. Qed.
Lemma sudo_does args : does (sudo h args) ["sudo" :: args] (fun _ => True).
Proof. unfold sudo. apply does_step; [apply output_does|]. intros [o|]; [by apply does_ret|done]. Qed.
Lemma sudo_checked_does args : does (sudo_checked h args) ["sudo" :: args] (fun _ => True).
Proof. unfold sudo_checked. apply does_step; [apply sudo_does|]. intros o. case_match; [by apply does_ret|done]. Qed.
Lemma ignored_does args : does (ignore (sudo h args)) ["sudo" :: args] (fun _ => True).
Proof.
  intros w. unfold yields, ignore, sudo, mbind, sh_bind, output. cbn [upd eta].
  destruct (h_output h (w_events w) _); (split; [apply ran_event|done]).
Qed.

(** A command inside a namespace. *)
Definition inside (ns : string) (args : Cmd) : Cmd := ["sudo"; "ip"; "netns"; "exec"; ns] ++ args.
Lemma exec_checked_does ns cmd args : does (exec_checked h ns cmd args) [inside (ns_name ns) (cmd :: args)] (fun _ => True).
Proof. apply sudo_checked_does. Qed.
Lemma ignored_exec_does ns cmd args : does (ignore (exec h ns cmd args)) [inside (ns_name ns) (cmd :: args)] (fun _ => True).
Proof. apply ignored_does. Qed.

Ltac does_steps := repeat (apply does_step; [first [apply sudo_checked_does|apply ignored_does|apply exec_checked_does]|intros ?]).

Definition new_script (name : string) : list Cmd :=
  [["sudo"; "ip"; "netns"; "del"; name]; ["sudo"; "ip"; "netns"; "add"; name]; inside name ["ip"; "link"; "set"; "lo"; "up"]].
Lemma namespace_new_does name : does (namespace_new h name) (new_script name) (fun ns => ns = mkNamespace name).
Proof. unfold namespace_new. does_steps. by apply does_ret. Qed.

Definition veth_script (s r : string) (i : nat) : list Cmd :=
  let s_iface := sender_iface h i in
  let r_iface := receiver_iface h i in
  [["sudo"; "ip"; "link"; "del"; s_iface];
   ["sudo"; "ip"; "link"; "add"; s_iface; "type"; "veth"; "peer"; "name"; r_iface];
   ["sudo"; "ip"; "link"; "set"; s_iface; "netns"; s]; ["sudo"; "ip"; "link"; "set"; r_iface; "netns"; r];
   inside s ["ip"; "addr"; "add"; subnet_ip i "1" +:+ "/24"; "dev"; s_iface]; inside s ["ip"; "link"; "set"; s_iface; "up"];
   inside r ["ip"; "addr"; "add"; subnet_ip i "2" +:+ "/24"; "dev"; r_iface]; inside r ["ip"; "link"; "set"; r_iface; "up"]].

Lemma add_links_does s r idxs acc : does (add_links h s r idxs acc) (flat_map (veth_script (ns_name s) (ns_name r)) idxs)
  (fun l => l = (acc.1.1 ++ map (fun i => subnet_ip i "1") idxs, acc.1.2 ++ map (sender_iface h) idxs, acc.2 ++ map (receiver_iface h) idxs)).
Proof.
  revert acc. induction idxs as [|i idxs IH]; intros acc; cbn [add_links flat_map map].
  - apply does_ret. destruct acc as [[a b] c]. cbn. by rewrite !app_nil_r.
  - destruct acc as [[a b] c]. cbn [fst snd]. eapply (does_bind _ _ (veth_script (ns_name s) (ns_name r) i) _ (fun _ => True)).
    + unfold add_veth_link. does_steps. by apply does_ret.
    + intros _ _. specialize (IH (a ++ [subnet_ip i "1"], b ++ [sender_iface h i], c ++ [receiver_iface h i])).
      cbn [fst snd] in IH. rewrite <- !app_assoc in IH. exact IH.
Qed.

Definition rp_script (ns : string) (ifaces : list string) : list Cmd :=
  map (fun key => inside ns ["sysctl"; "-w"; "net.ipv4.conf." +:+ key +:+ ".rp_filter=0"]) (["all"; "default"] ++ ifaces).
Lemma disable_rp_filter_does ns ifaces : does (disable_rp_filter h ns ifaces) (rp_script (ns_name ns) ifaces) (fun _ => True).
Proof. unfold disable_rp_filter, rp_script. apply does_for_each. intros key. apply ignored_exec_does. Qed.

Definition table_of (i : nat) : string := decimal (Z.of_nat i + 1).
Definition service_route : string := SRTLA_RECEIVER_SERVICE_IP +:+ "/32".
Definition wire_script (s r : string) (i : nat) : list Cmd :=
  [inside s ["ip"; "route"; "add"; service_route; "via"; subnet_ip i "2"; "dev"; sender_iface h i; "table"; table_of i];
   inside s ["ip"; "rule"; "add"; "from"; subnet_ip i "1"; "lookup"; table_of i];
   inside r ["ip"; "route"; "add"; subnet_ip i "1" +:+ "/32"; "dev"; receiver_iface h i; "src"; SRTLA_RECEIVER_SERVICE_IP]].

Definition built (s r : string) (n : nat) : SrtlaTestTopology :=
  mkTopology (mkNamespace s) (mkNamespace r) (map (fun i => subnet_ip i "1") (seq 0 n)) SRTLA_RECEIVER_SERVICE_IP
    (map (sender_iface h) (seq 0 n)) (map (receiver_iface h) (seq 0 n)).

Lemma wire_links_does s r n i k : (i + k = n)%nat ->
  does (wire_links h (built s r n) i (zip (map (fun i => subnet_ip i "1") (seq i k)) (map (sender_iface h) (seq i k))))
    (flat_map (wire_script s r) (seq i k)) (fun _ => True).
Proof.
  revert i. induction k as [|k IH]; intros i Hi; cbn [seq map zip wire_links flat_map]; [by apply does_ret|].
  eapply (does_bind _ _ (wire_script s r i) _ (fun _ => True)); [|intros _ _; apply IH; lia].
  unfold wire_link. cbn [built tp_sender_ns tp_receiver_ns tp_receiver_ifaces]. does_steps.
  rewrite list_lookup_fmap, lookup_seq_lt by lia. cbn [fmap option_fmap option_map].
  does_steps. by apply does_ret.
Qed.

Definition wiring (s r : string) (n : nat) : list Cmd :=
  rp_script s (map (sender_iface h) (seq 0 n)) ++ rp_script r (map (receiver_iface h) (seq 0 n)) ++
  inside r ["ip"; "addr"; "add"; service_route; "dev"; "lo"] :: flat_map (wire_script s r) (seq 0 n).
Lemma wire_bonding_routes_does s r n : does (wire_bonding_routes h (built s r n)) (wiring s r n) (fun _ => True).
Proof.
  unfold wire_bonding_routes, wiring. eapply (does_bind _ _ _ _ (fun _ => True)); [apply disable_rp_filter_does|intros _ _].
  eapply (does_bind _ _ _ _ (fun _ => True)); [apply disable_rp_filter_does|intros _ _].
  apply does_step; [apply exec_checked_does|intros _]. by apply (wire_links_does s r n 0 n).
Qed.

Definition topology_script (s r : string) (n : nat) : list Cmd :=
  new_script s ++ new_script r ++ flat_map (veth_script s r) (seq 0 n) ++ wiring s r n.
End Built.

(** ** Routing over the links *)

(** What the commands say: the table a rule gives a source, the route of a
    table to an address, the way back to a source. *)
Definition rule_of (ns src : string) (c : Cmd) : option string :=
  match strip (inside ns ["ip"; "rule"; "add"; "from"; src; "lookup"]) c with Some [table] => Some table | _ => None end.
Definition route_of (ns dst table : string) (c : Cmd) : option (string * string) :=
  match strip (inside ns ["ip"; "route"; "add"; dst; "via"]) c with
  | Some [gw; d; dev; t; tbl] => if String.eqb d "dev" && String.eqb t "table" && String.eqb tbl table then Some (gw, dev) else None
  | _ => None
  end.
Definition return_of (ns src : string) (c : Cmd) : option string :=
  match strip (inside ns ["ip"; "route"; "add"; src; "dev"]) c with
  | Some [dev; s; ip] => if String.eqb s "src" && String.eqb ip SRTLA_RECEIVER_SERVICE_IP then Some dev else None
  | _ => None
  end.

Lemma omap_silent {A B} (f : A -> option B) l : Forall (fun c => f c = None) l -> omap f l = [].
Proof. induction 1 as [|c l Hc _ IH]; [done|]. cbn. by rewrite Hc. Qed.
Lemma omap_skip {A B} (f : A -> option B) c l : f c = None -> omap f (c :: l) = omap f l.
Proof. intros H. cbn. by rewrite H. Qed.
Lemma flat_map_only {B} (g : nat -> list B) i a n : (a <= i < a + n)%nat -> (forall j, j <> i -> g j = []) -> flat_map g (seq a n) = g i.
Proof.
  intros Hi Hg. revert a Hi. induction n as [|n IH]; intros a Hi; [lia|]. cbn [seq flat_map]. destruct (decide (a = i)) as [->|Hne].
  - assert (flat_map g (seq (S i) n) = []) as ->; [|apply app_nil_r].
    assert (forall b, (i < b)%nat -> flat_map g (seq b n) = []) as H; [|apply H; lia].
    clear IH Hi. induction n as [|n IH]; intros b Hb; [done|]. cbn [seq flat_map]. rewrite Hg, IH by lia. done.
  - rewrite Hg by done. apply IH. lia.
Qed.

Lemma subnet_ip_inj i j last : subnet_ip i last = subnet_ip j last -> i = j.
Proof.
  unfold subnet_ip, decimal. intros H. apply append_cancel_l in H. rewrite <- !append_assoc in H. do 2 apply append_cancel_r in H.
  apply (inj pretty) in H. lia.
Qed.
Lemma table_of_inj i j : table_of i = table_of j -> i = j.
Proof. unfold table_of, decimal. intros H. apply (inj pretty) in H. lia. Qed.

Section Wired.
Context (h : Host).

Lemma iface_short (v : string) i : String.length v = 2%nat -> 0 <= Z.of_nat i < 100000000 ->
  cut_iface (v +:+ hex (harness_pid h) +:+ "_" +:+ decimal (Z.of_nat i)) = v +:+ hex (harness_pid h) +:+ "_" +:+ decimal (Z.of_nat i).
Proof.
  intros Hv Hi. unfold cut_iface. destruct (Nat.ltb_spec 15 (String.length (v +:+ hex (harness_pid h) +:+ "_" +:+ decimal (Z.of_nat i)))) as [H|H]; [|done].
  rewrite !length_append in H. cbn [String.length] in H. pose proof (pretty_length 8 (Z.of_nat i) ltac:(lia) Hi). pose proof (hex_pid_length h).
  unfold decimal in H. lia.
Qed.
Lemma iface_inj (v : string) i j : String.length v = 2%nat -> 0 <= Z.of_nat i < 100000000 -> 0 <= Z.of_nat j < 100000000 ->
  cut_iface (v +:+ hex (harness_pid h) +:+ "_" +:+ decimal (Z.of_nat i)) =
  cut_iface (v +:+ hex (harness_pid h) +:+ "_" +:+ decimal (Z.of_nat j)) -> i = j.
Proof.
  intros Hv Hi Hj. rewrite !iface_short by done. intros H. rewrite <- !append_assoc in H.
  rewrite (append_assoc _ "_" (decimal (Z.of_nat i))), (append_assoc _ "_" (decimal (Z.of_nat j))) in H.
  apply (numbered_inj underscore) in H; [lia|apply digit_not_underscore|lia..].
Qed.

Lemma ifaces_nodup (f : nat -> string) n : Z.of_nat n <= 100000000 ->
  (forall i j, 0 <= Z.of_nat i < 100000000 -> 0 <= Z.of_nat j < 100000000 -> f i = f j -> i = j) -> NoDup (map f (seq 0 n)).
Proof.
  intros Hn Hf. apply NoDup_ListNoDup. apply NoDup_map_NoDup_ForallPairs; [|apply seq_NoDup].
  intros i j Hi%in_seq Hj%in_seq. apply Hf; lia.
Qed.

Ltac words := cbn [strip inside app String.eqb Ascii.eqb Bool.eqb andb table_of service_route]; rewrite ?String.eqb_refl;
  cbn [strip inside app String.eqb Ascii.eqb Bool.eqb andb].

Section Pair.
Context (s r : string) (Hsr : s <> r).

Lemma rule_in_wire i j : omap (rule_of s (subnet_ip i "1")) (wire_script h s r j) = if decide (j = i) then [table_of i] else [].
Proof using Hsr.
  unfold wire_script, rule_of. cbn [omap list_omap]. words.
  destruct (decide (j = i)) as [->|Hne]; [by words; rewrite (proj2 (String.eqb_neq s r)) by done|].
  rewrite (proj2 (String.eqb_neq (subnet_ip i "1") (subnet_ip j "1"))) by (intros E%subnet_ip_inj; congruence).
  by rewrite (proj2 (String.eqb_neq s r)) by done.
Qed.

Lemma route_in_wire i j : omap (route_of s service_route (table_of i)) (wire_script h s r j) =
  if decide (j = i) then [(subnet_ip i "2", sender_iface h i)] else [].
Proof using Hsr.
  unfold wire_script, route_of. cbn [omap list_omap]. words.
  destruct (decide (j = i)) as [->|Hne]; [by rewrite String.eqb_refl, (proj2 (String.eqb_neq s r)) by done|].
  rewrite (proj2 (String.eqb_neq (table_of j) (table_of i))) by (intros E%table_of_inj; congruence).
  by rewrite (proj2 (String.eqb_neq s r)) by done.
Qed.
Lemma return_in_wire i j : omap (return_of r (subnet_ip i "1" +:+ "/32")) (wire_script h s r j) =
  if decide (j = i) then [receiver_iface h i] else [].
Proof using Hsr.
  unfold wire_script, return_of. cbn [omap list_omap]. words. rewrite (proj2 (String.eqb_neq r s)) by congruence.
  destruct (decide (j = i)) as [->|Hne]; [by rewrite String.eqb_refl|].
  rewrite (proj2 (String.eqb_neq (subnet_ip i "1" +:+ "/32") (subnet_ip j "1" +:+ "/32"))); [done|].
  intros E. apply append_cancel_r, subnet_ip_inj in E. congruence.
Qed.

(** Nothing but the wiring of the links gives a rule or such a route. *)
Definition plain_cmd {B} (f : Cmd -> option B) : Prop :=
  Forall (fun c => f c = None) (new_script s ++ new_script r) /\
  (forall i, Forall (fun c => f c = None) (veth_script h s r i)) /\
  (forall ns key, f (inside ns ["sysctl"; "-w"; key]) = None) /\
  f (inside r ["ip"; "addr"; "add"; service_route; "dev"; "lo"]) = None.

Lemma omap_script {B} (f : Cmd -> option B) n : plain_cmd f ->
  omap f (topology_script h s r n) = flat_map (fun j => omap f (wire_script h s r j)) (seq 0 n).
Proof.
  intros (Hn & Hv & Hk & Ha). unfold topology_script, wiring, rp_script.
  rewrite app_assoc, omap_app, (omap_silent f _ Hn), !omap_app, omap_skip, !omap_flat_map by done.
  assert (forall l, flat_map (fun j => omap f (veth_script h s r j)) l = []) as ->.
  { induction l as [|x l IH]; [done|]. cbn [flat_map]. by rewrite IH, omap_silent. }
  rewrite !(omap_silent f (map _ _)) by (apply Forall_map, Forall_forall; intros; apply Hk). done.
Qed.

Ltac plain_cmd := split; [|split; [intros i|split; [intros ns key|]]];
  [repeat (apply Forall_cons; split; [words; by repeat case_match|]); apply Forall_nil_2
  |repeat (apply Forall_cons; split; [words; by repeat case_match|]); apply Forall_nil_2
  |words; by repeat case_match|words; by repeat case_match].
Lemma rule_plain src : plain_cmd (rule_of s src).
Proof. unfold rule_of. plain_cmd. Qed.
Lemma route_plain dst table : plain_cmd (route_of s dst table).
Proof. unfold route_of. plain_cmd. Qed.
Lemma return_plain src : plain_cmd (return_of r src).
Proof. unfold return_of. plain_cmd. Qed.

(** Each source has one rule, its table one route, and the way back one device. *)
Lemma script_routes i n : (i < n)%nat ->
  omap (rule_of s (subnet_ip i "1")) (topology_script h s r n) = [table_of i] /\
  omap (route_of s service_route (table_of i)) (topology_script h s r n) = [(subnet_ip i "2", sender_iface h i)] /\
  omap (return_of r (subnet_ip i "1" +:+ "/32")) (topology_script h s r n) = [receiver_iface h i].
Proof using Hsr.
  intros Hi. rewrite !omap_script by (apply rule_plain || apply route_plain || apply return_plain).
  split_and!; (rewrite (flat_map_only _ i) by (lia || (intros j Hj; rewrite ?rule_in_wire, ?route_in_wire, ?return_in_wire; by case_decide));
    rewrite ?rule_in_wire, ?route_in_wire, ?return_in_wire; by rewrite decide_True).
Qed.
End Pair.
End Wired.

Lemma is_ascii_app a b : is_ascii (a +:+ b) = is_ascii a && is_ascii b.
Proof. induction a as [|x a IH]; [done|]. rewrite append_String. cbn [is_ascii]. by rewrite IH, andb_assoc. Qed.

(** A success of [m] satisfies [Q]. *)
Definition on_ok {A} (Q : A -> World -> Prop) (o : outcome A) (w : World) : Prop := match o with Ok a => Q a w | _ => True end.
Lemma on_ok_bind {A B} (m : Sh A) (f : A -> Sh B) w Q : yields m w (on_ok (fun a w' => yields (f a) w' (on_ok Q))) ->
  yields (mbind f m) w (on_ok Q).
Proof. intros H. apply yields_bind. eapply yields_conseq; [exact H|]. by intros [a| |] w'. Qed.
Lemma on_ok_unwind {A} (m : Sh A) d w Q : yields m w (on_ok Q) -> yields (unwind m d) w (on_ok Q).
Proof.
  intros H. apply yields_unwind. eapply yields_conseq; [exact H|]. intros [a| |] w' Hw; [done|..]; unfold yields; by destruct (d w').
Qed.
Lemma does_ok {A} (m : Sh A) s P w Q : does m s P ->
  (forall a w', ran w' = ran w ++ s -> w_counter w' = w_counter w -> P a -> Q a w') -> yields m w (on_ok Q).
Proof. intros H HQ. eapply yields_conseq; [apply H|]. intros [a| |] w'; [|done..]. intros (E & C & Ha). by apply HQ. Qed.

Section BuiltNew.
Context (h : Host).

Lemma topology_new_built test_name n w : is_ascii test_name = true -> 0 <= w_counter w < 999999999 ->
  yields (topology_new h test_name n) w (on_ok (fun topo w' =>
    exists s r, s <> r /\ topo = built h s r n /\ ran w' = ran w ++ topology_script h s r n)).
Proof.
  intros Ha Hc. unfold topology_new. destruct (Nat.eqb n 0); [done|].
  destruct (unique_ns_name_spec h (test_name +:+ "_s") w) as (a & E1 & _); [rewrite is_ascii_app; by rewrite Ha|].
  apply on_ok_bind. unfold yields at 1. rewrite E1. cbn [on_ok]. set (s := a +:+ _). set (w1 := mkWorld _ _).
  apply on_ok_bind. eapply does_ok; [apply namespace_new_does|]. intros ? w2 R2 C2 ->.
  destruct (unique_ns_name_spec h (test_name +:+ "_r") w2) as (b & E2 & _); [rewrite is_ascii_app; by rewrite Ha|].
  apply on_ok_bind, on_ok_unwind, on_ok_bind. unfold yields at 1. rewrite E2. cbn [on_ok]. set (r := b +:+ _). set (w3 := mkWorld _ _).
  eapply does_ok; [apply namespace_new_does|]. intros ? w4 R4 _ ->.
  apply on_ok_bind, on_ok_unwind. eapply does_ok; [apply add_links_does|]. intros ? w5 R5 _ ->. cbn [fst snd app].
  change (mkTopology _ _ _ _ _ _) with (built h s r n).
  apply on_ok_bind, on_ok_unwind. eapply does_ok; [apply wire_bonding_routes_does|]. intros _ w6 R6 _ _. apply yields_ret. cbn [on_ok].
  exists s, r. split_and!; [|done|].
  - unfold s, r. rewrite !name_suffix_split. intros E. apply numbered_inj in E; [|apply digit_not_underscore|lia|].
    + rewrite C2 in E. cbn in E. revert E. zlia.
    + rewrite C2. cbn. zlia.
  - rewrite R6, R5, R4. change (ran w3) with (ran w2). rewrite R2. change (ran w1) with (ran w). unfold topology_script.
    by rewrite <- !app_assoc.
Qed.

(** Every uplink has a path of its own.  When a topology of up to a hundred
    million links comes to exist, the commands that were run give each sender
    address exactly one rule, the table of that rule exactly one route to the
    receiver, over the veth of that link, and the receiver exactly one way
    back, over the other end; addresses and interfaces are pairwise distinct
    and the two namespaces differ. *)
Theorem bond_wired test_name n w topo w' (Ha : is_ascii test_name = true) (Hc : 0 <= w_counter w < 999999999)
    (Hn : Z.of_nat n <= 100000000) (Hr : topology_new h test_name n w = (Ok topo, w')) :
  let s := ns_name (tp_sender_ns topo) in
  let r := ns_name (tp_receiver_ns topo) in
  let cmds := drop (length (ran w)) (ran w') in
  s <> r /\ NoDup (tp_sender_ips topo) /\ NoDup (tp_sender_ifaces topo) /\ NoDup (tp_receiver_ifaces topo) /\
  length (tp_sender_ips topo) = n /\
  forall i ip, tp_sender_ips topo !! i = Some ip ->
    exists table gw dev back, tp_sender_ifaces topo !! i = Some dev /\ tp_receiver_ifaces topo !! i = Some back /\
      omap (rule_of s ip) cmds = [table] /\ omap (route_of s service_route table) cmds = [(gw, dev)] /\
      omap (return_of r (ip +:+ "/32")) cmds = [back].
Proof.
  pose proof (topology_new_built test_name n w Ha Hc) as H. apply (yields_eq _ _ _ _ _ Hr) in H.
  destruct H as (s & r & Hsr & -> & Er). rewrite Er, drop_app_length. cbn [built tp_sender_ns tp_receiver_ns tp_sender_ips tp_sender_ifaces tp_receiver_ifaces ns_name].
  split_and!; [done| | | |by rewrite length_map, length_seq|].
  - apply ifaces_nodup; [done|]. intros i j _ _. apply subnet_ip_inj.
  - apply ifaces_nodup; [done|]. intros i j Hi Hj. by apply iface_inj.
  - apply ifaces_nodup; [done|]. intros i j Hi Hj. by apply iface_inj.
  - intros i ip Hip. apply list_lookup_fmap_Some in Hip as (j & -> & Hj). apply lookup_seq in Hj as [-> Hi].
    destruct (script_routes h s r Hsr i n Hi) as (E1 & E2 & E3). exists (table_of i), (subnet_ip i "2"), (sender_iface h i), (receiver_iface h i).
    rewrite !list_lookup_fmap, !lookup_seq_lt by done. done.
Qed.
End BuiltNew.

(** ** The list the sender reads *)
Definition link_ip (i : nat) : IpAddr := V4 10 10 (Z.of_nat i + 1) 1.
Definition list_of (n : nat) : string := String.concat LF (map (fun i => subnet_ip i "1") (seq 0 n)) +:+ LF.
Definition list_loads (n : nat) : bool :=
  bool_decide (read_weighted_ip_list (Some (chars_of (list_of n))) = Some (map link_ip (seq 0 n), replicate n 1)).
Lemma all_lists_load : forallb list_loads (seq 1 255) = true.
Proof. vm_compute. reflexivity. Qed.

(** ** What [tc] is asked to do *)
Lemma tbf_burst_spec rate : 0 <= rate < 2 ^ 54 ->
  tbf_burst rate = Z.max (rate * 125 / 10) 1540 /\ 1540 <= tbf_burst rate.
Proof. intros Hr. unfold tbf_burst. rewrite u64_wrap_id by (unfold_ints; lia). Z.to_euclidean_division_equations. lia. Qed.

Section Tc.
Context (h : Host) (show_f32 : f32 -> string).

(** The commands a configuration stands for; the first one may fail. *)
Definition tc_script (ns iface : string) (config : ImpairmentConfig) : list Cmd :=
  inside ns ["tc"; "qdisc"; "del"; "dev"; iface; "root"] ::
  if is_empty config then []
  else if im_tbf_shaping config then
    match im_rate_kbit config with
    | None => []
    | Some rate =>
      inside ns ["tc"; "qdisc"; "add"; "dev"; iface; "root"; "handle"; "1:"; "tbf"; "rate"; decimal rate +:+ "kbit";
                 "burst"; decimal (tbf_burst rate); "latency"; "1s"] ::
      if has_netem_params config
      then [inside ns (["tc"; "qdisc"; "add"; "dev"; iface; "parent"; "1:1"; "handle"; "10:"; "netem"] ++ netem_args show_f32 config false)]
      else []
    end
  else [inside ns (["tc"; "qdisc"; "add"; "dev"; iface; "root"; "netem"] ++ netem_args show_f32 config true)].

(** The last command failed. *)
Definition last_failed (w : World) : Prop := exists es c out, w_events w = es ++ [Ran c out] /\ forall o, out = Some o -> out_success o = false.

Lemma tc_checked_runs ns args w :
  yields (tc_checked h ns args) w (fun o w' => ran w' = ran w ++ [inside (ns_name ns) ("tc" :: args)] /\
    (o = Ok tt \/ o = Err /\ last_failed w')).
Proof.
  unfold yields, tc_checked, exec, sudo, mbind, sh_bind, output. cbn [upd eta].
  destruct (h_output h (w_events w) _) as [o|] eqn:E; cbn [or_bail mret sh_ret bail].
  - destruct (out_success o) eqn:Eo; (split; [apply ran_event|]); [by left|right]. split; [done|]. eexists _, _, _. split; [reflexivity|].
    by intros o' [= <-].
  - split; [apply ran_event|right]. split; [done|]. eexists _, _, _. split; [reflexivity|]. done.
Qed.

Lemma ignored_runs args w :
  yields (ignore (sudo h args)) w (fun o w' => o = Ok tt /\ ran w' = ran w ++ ["sudo" :: args]).
Proof.
  unfold yields, ignore, sudo, mbind, sh_bind, output. cbn [upd eta].
  by destruct (h_output h (w_events w) _); (split; [|apply ran_event]).
Qed.

Definition tc_result (config : ImpairmentConfig) (script : list Cmd) (w : World) (o : outcome unit) (w' : World) : Prop :=
  exists k, ran w' = ran w ++ take (S k) script /\
    match o with
    | Ok _ => (length script <= S k)%nat
    | Err => last_failed w' \/ (im_tbf_shaping config = true /\ im_rate_kbit config = None)
    | Panicked => False
    end.

(** Impairing an interface clears it and then runs the commands of the
    configuration in order up to the first that fails: success is the whole
    script, and an error is a failed command or shaping without a rate. *)
Theorem impairment_applied ns iface config w :
  yields (apply_impairment h show_f32 ns iface config) w (tc_result config (tc_script (ns_name ns) iface config) w).
Proof.
  unfold apply_impairment. apply yields_bind. eapply yields_conseq; [apply ignored_runs|]. intros o w1 [-> R1]. cbn [after].
  unfold tc_script. destruct (is_empty config); [apply yields_ret; by exists 0%nat|].
  destruct (im_tbf_shaping config) eqn:Et.
  - unfold apply_tbf_with_netem. destruct (im_rate_kbit config) as [rate|] eqn:Er; [|exists 0%nat; split; [exact R1|by right]].
    apply yields_bind, yields_ret. cbn [after]. apply yields_bind. eapply yields_conseq; [apply tc_checked_runs|].
    intros o w2 [R2 [-> |[-> F]]]; cbn [after]; [|exists 1%nat; split; [by rewrite R2, R1, <- app_assoc|by left]].
    destruct (has_netem_params config); [|apply yields_ret; exists 1%nat; split; [by rewrite R2, R1, <- app_assoc|done]].
    eapply yields_conseq; [apply tc_checked_runs|].
    intros o w3 [R3 [-> |[-> F]]]; exists 2%nat; (split; [by rewrite R3, R2, R1, <- !app_assoc|]); [done|by left].
  - unfold apply_netem_root. eapply yields_conseq; [apply tc_checked_runs|].
    intros o w2 [R2 [-> |[-> F]]]; exists 1%nat; (split; [by rewrite R2, R1, <- app_assoc|]); [done|by left].
Qed.
End Tc.

Section Lists.
Context (h : Host).

(** The list of addresses the harness hands to the sender is the one the
    sender loads.  For up to 255 links, the file that [write_ip_list] writes for
    a topology that was built is read by the sender's parser as exactly the
    addresses of the links in order, with equal weights. *)
Theorem harness_list_loads test_name n w topo w' (Ha : is_ascii test_name = true) (Hc : 0 <= w_counter w < 999999999)
    (Hn : (n <= 255)%nat) (Hr : topology_new h test_name n w = (Ok topo, w')) :
  yields (write_ip_list h topo) w' (on_ok (fun path w'' =>
    exists text, w_events w'' = w_events w' ++ [Wrote text (Some path)] /\
      read_weighted_ip_list (Some (chars_of text)) = Some (map link_ip (seq 0 n), replicate n 1))).
Proof.
  pose proof (topology_new_built h test_name n w Ha Hc) as H. apply (yields_eq _ _ _ _ _ Hr) in H.
  destruct H as (s & r & _ & -> & _). unfold write_ip_list, yields. destruct (h_temp_file h (w_events w')); [|done].
  exists (list_of n). split; [done|]. destruct n as [|n]; [done|].
  apply (bool_decide_eq_true_1 _). apply (proj1 (forallb_forall _ _) all_lists_load (S n)). apply in_seq. lia.
Qed.
End Lists.

(** ** A run *)
Lemma bond_wired_witness : exists topo w', demo_run "none" = (Ok topo, w') /\
  tp_sender_ips topo = ["10.10.1.1"; "10.10.2.1"] /\ NoDup (tp_sender_ifaces topo).
Proof.
  assert (exists topo w', demo_run "none" = (Ok topo, w') /\ tp_sender_ips topo = ["10.10.1.1"; "10.10.2.1"]) as (topo & w' & E & Ei).
  { vm_compute. eauto. }
  exists topo, w'. split; [done|]. split; [done|].
  apply (bond_wired (demo_host "none") "bond" 2 world0 topo w' eq_refl); [cbn; lia|lia|exact E].
Defined.

Lemma harness_list_loads_witness : exists topo w', demo_run "none" = (Ok topo, w') /\
  yields (write_ip_list (demo_host "none") topo) w' (on_ok (fun path w'' =>
    exists text, w_events w'' = w_events w' ++ [Wrote text (Some path)] /\
      read_weighted_ip_list (Some (chars_of text)) = Some ([V4 10 10 1 1; V4 10 10 2 1], [1; 1]))).
Proof.
  assert (exists topo w', demo_run "none" = (Ok topo, w')) as (topo & w' & E) by (vm_compute; eauto).
  exists topo, w'. split; [done|]. apply (harness_list_loads (demo_host "none") "bond" 2 world0 topo w' eq_refl); [cbn; lia|lia|exact E].
Defined.
