(* ===== verification/Scenario.v ===== *)
(** * Random-walk scenarios of the network simulator (crates/network-sim/src/scenario.rs)

    A scenario walks the rate, the delay and the loss of every link at random
    and yields one frame of impairments per step.  The generator is a
    parameter: a state with a draw of a number in [0, 1) (a multiple of 2^-53,
    as rand documents) and a draw of a boolean.  A clamp whose bounds are
    crossed panics, as in Rust.  The theorem: with sensible bounds no frame
    panics and every value of every frame lies within the bounds of its link. *)
From S2P Require Import Prelude F64 F64Int Round.
From S2P Require Import Host.
From S2P Require Import Topology.

(** ** What is used of [Duration] and of floats *)
Record Duration := mkDuration { du_secs : Z; du_nanos : Z }.
Definition NANOS_PER_SEC : Z := 1000000000.
Definition is_zero (d : Duration) : bool := (du_secs d =? 0) && (du_nanos d =? 0).
Definition as_secs_f64 (d : Duration) : f64 := fadd (f_of_Z (du_secs d)) (fdiv (f_of_Z (du_nanos d)) (f_of_Z NANOS_PER_SEC)).

(** [n / 2^k], to the nearest integer, ties to even. *)
Definition div_even (n k : Z) : Z :=
  let q := n / 2 ^ k in
  let r := n mod 2 ^ k in
  if (2 * r >? 2 ^ k) || ((2 * r =? 2 ^ k) && Z.odd q) then q + 1 else q.
(** [Duration::from_secs_f64]: to the nearest nanosecond; a panic for what is
    negative, not a number or too large. *)
Definition from_secs_f64 (x : f64) : res Duration :=
  let of_nanos n :=
    if n / NANOS_PER_SEC <? two64 then Ret (mkDuration (n / NANOS_PER_SEC) (n mod NANOS_PER_SEC)) else Panic in
  match x with
  | S754_zero _ => of_nanos 0
  | S754_finite false m e => of_nanos (if e >=? 0 then Z.pos m * NANOS_PER_SEC * 2 ^ e else div_even (Z.pos m * NANOS_PER_SEC) (- e))
  | _ => Panic
  end.
Definition mul_f64 (d : Duration) (rhs : f64) : res Duration := from_secs_f64 (fmul rhs (as_secs_f64 d)).

(** [f64::ceil] *)
Definition f_ceil (a : f64) : f64 :=
  match a with
  | S754_finite s m e =>
    if e >=? 0 then a
    else let n := - ((if s then Z.pos m else - Z.pos m) / 2 ^ (- e)) in binary_normalize 53 1024 n 0 s
  | _ => a
  end.
(** [x.clamp(lo, hi)]: a panic unless [lo <= hi]. *)
Definition clamp (x lo hi : f64) : res f64 := if fle lo hi then Ret (fclamp x lo hi) else Panic.

(** ** The configuration and the walk *)
Record LinkScenarioConfig := mkLinkScenario {
  sc_min_rate_kbit : Z; sc_max_rate_kbit : Z; sc_rate_step_kbit : Z; sc_base_delay_ms : Z; sc_delay_jitter_ms : Z;
  sc_delay_step_ms : Z; sc_max_loss_percent : f32; sc_loss_step_percent : f32 }.
Record ScenarioConfig := mkScenarioConfig { sc_seed : Z; sc_duration : Duration; sc_step : Duration; sc_links : list LinkScenarioConfig }.
Record ScenarioFrame := mkFrame { fr_t : Duration; fr_configs : list ImpairmentConfig }.
Record LinkState := mkLinkState { lk_rate_kbit : f64; lk_delay_ms : f64; lk_loss_percent : f64 }.

Section Walk.
Context {R : Type} (seed_from_u64 : Z -> R) (random_f64 : R -> f64 * R) (random_bool : R -> bool * R).

Record Scenario := mkScenario { so_cfg : ScenarioConfig; so_rng : R; so_states : list LinkState }.

Definition new_link (rng : R) (link : LinkScenarioConfig) : LinkState * R :=
  let range := f_of_Z (sat_sub (sc_max_rate_kbit link) (sc_min_rate_kbit link)) in
  let '(u, rng) := random_f64 rng in
  let rate := fadd (f_of_Z (sc_min_rate_kbit link)) (fmul u range) in
  let '(v, rng) := random_f64 rng in
  (mkLinkState rate (f_of_Z (sc_base_delay_ms link)) (fmul (fmul v (f64_of_f32 (sc_max_loss_percent link))) (flit 2 10)), rng).
Fixpoint new_links (rng : R) (links : list LinkScenarioConfig) : list LinkState * R :=
  match links with
  | [] => ([], rng)
  | link :: links =>
    let '(st, rng) := new_link rng link in
    let '(sts, rng) := new_links rng links in (st :: sts, rng)
  end.
Definition scenario_new (cfg : ScenarioConfig) : Scenario :=
  let '(states, rng) := new_links (seed_from_u64 (sc_seed cfg)) (sc_links cfg) in mkScenario cfg rng states.

Definition rand_signed (rng : R) (max_step : f64) : f64 * R :=
  if fle max_step f0 then (f0, rng)
  else
    let '(u, rng) := random_f64 rng in
    let mag := fmul u max_step in
    let '(b, rng) := random_bool rng in
    (if b then mag else fneg mag, rng).

Definition link_frame (rng : R) (link_cfg : LinkScenarioConfig) (state : LinkState) : res (ImpairmentConfig * LinkState * R) :=
  let '(d, rng) := rand_signed rng (f_of_Z (sc_rate_step_kbit link_cfg)) in
  rate ← clamp (fadd (lk_rate_kbit state) d) (f_of_Z (sc_min_rate_kbit link_cfg)) (f_of_Z (sc_max_rate_kbit link_cfg));
  let max_delay := f_of_Z (u32_wrap (sc_base_delay_ms link_cfg + sc_delay_jitter_ms link_cfg)) in
  let '(d, rng) := rand_signed rng (f_of_Z (sc_delay_step_ms link_cfg)) in
  delay ← clamp (fadd (lk_delay_ms state) d) (f_of_Z 1) max_delay;
  let '(d, rng) := rand_signed rng (f64_of_f32 (sc_loss_step_percent link_cfg)) in
  loss ← clamp (fadd (lk_loss_percent state) d) f0 (f64_of_f32 (sc_max_loss_percent link_cfg));
  Ret (mkImpairment (Some (f_as_u32 (fmax delay (f_of_Z 1))))
         (if sc_delay_jitter_ms link_cfg >? 0 then Some (sc_delay_jitter_ms link_cfg) else None)
         (Some (f32_of_f64 loss)) None None (Some (f_as_u64 (fmax rate (f_of_Z 1)))) None None None false,
       mkLinkState rate delay loss, rng).

(** The links of one frame, zipped with their states. *)
Fixpoint frame_links (rng : R) (links : list LinkScenarioConfig) (states : list LinkState)
  : res (list ImpairmentConfig * list LinkState * R) :=
  match links, states with
  | link :: links, state :: states =>
    r ← link_frame rng link state;
    let '(config, state, rng) := r in
    rs ← frame_links rng links states;
    let '(configs, states, rng) := rs in Ret (config :: configs, state :: states, rng)
  | _, _ => Ret ([], states, rng)
  end.

Fixpoint frames_loop (cfg : ScenarioConfig) (steps : list nat) (rng : R) (states : list LinkState)
  : res (list ScenarioFrame * list LinkState * R) :=
  match steps with
  | [] => Ret ([], states, rng)
  | step_idx :: steps =>
    t ← mul_f64 (sc_step cfg) (f_of_Z (Z.of_nat step_idx));
    r ← frame_links rng (sc_links cfg) states;
    let '(configs, states, rng) := r in
    rs ← frames_loop cfg steps rng states;
    let '(frames, states, rng) := rs in Ret (mkFrame t configs :: frames, states, rng)
  end.

Definition total_steps (cfg : ScenarioConfig) : Z := f_as_u64 (f_ceil (fdiv (as_secs_f64 (sc_duration cfg)) (as_secs_f64 (sc_step cfg)))).
Definition frames (self : Scenario) : res (list ScenarioFrame * Scenario) :=
  if is_zero (sc_step (so_cfg self)) then Panic
  else
    r ← frames_loop (so_cfg self) (seq 0 (S (Z.to_nat (total_steps (so_cfg self))))) (so_rng self) (so_states self);
    let '(fs, states, rng) := r in Ret (fs, mkScenario (so_cfg self) rng states).
End Walk.

(** ** Bounds *)
Definition link_ok (c : LinkScenarioConfig) : Prop :=
  1 <= sc_min_rate_kbit c <= sc_max_rate_kbit c /\ sc_max_rate_kbit c < 2 ^ 53 /\ 0 <= sc_rate_step_kbit c < 2 ^ 53 /\
  0 <= sc_base_delay_ms c /\ 0 <= sc_delay_jitter_ms c /\ 1 <= sc_base_delay_ms c + sc_delay_jitter_ms c < two32 /\
  0 <= sc_delay_step_ms c < two32 /\
  wf 24 128 (sc_max_loss_percent c) /\ is_finite (sc_max_loss_percent c) = true /\ fle f0 (sc_max_loss_percent c) = true /\
  wf 24 128 (sc_loss_step_percent c) /\ is_finite (sc_loss_step_percent c) = true.

(** The values of a frame, as [tc] gets them. *)
Definition within_bounds (c : LinkScenarioConfig) (im : ImpairmentConfig) : Prop :=
  exists rate delay loss, im_rate_kbit im = Some rate /\ im_delay_ms im = Some delay /\ im_loss_percent im = Some loss /\
    sc_min_rate_kbit c <= rate <= sc_max_rate_kbit c /\
    1 <= delay <= sc_base_delay_ms c + sc_delay_jitter_ms c /\
    fle f0 loss = true /\ fle loss (sc_max_loss_percent c) = true.

Definition num_wf (x : f64) : Prop := is_nan x = false /\ wf 53 1024 x.
Definition state_ok (st : LinkState) : Prop := num_wf (lk_rate_kbit st) /\ num_wf (lk_delay_ms st) /\ num_wf (lk_loss_percent st).

Lemma fadd_num_r a b : is_nan a = false -> is_finite b = true -> is_nan (fadd a b) = false.
Proof.
  unfold is_finite. intros Ha Hb. destruct a as [s1|s1| |s1 m1 e1], b as [s2|s2| |s2 m2 e2]; try done;
    unfold fadd, SFadd; try apply binary_normalize_num; by destruct s1, s2.
Qed.
Lemma finite_num x : is_finite x = true -> is_nan x = false.
Proof. by destruct x. Qed.
Lemma fneg_finite x : is_finite (fneg x) = is_finite x.
Proof. by destruct x. Qed.
Lemma f_of_Z_nan n : is_nan (f_of_Z n) = false.
Proof. apply f_of_Z_num. Qed.
Lemma fle_int a b : 0 <= a <= b -> b < 2 ^ 53 -> fle (f_of_Z a) (f_of_Z b) = true.
Proof.
  intros Hab Hb. destruct (Z.eq_dec a 0) as [->|Ha].
  - destruct (Z.eq_dec b 0) as [->|]; [done|]. rewrite (f_of_Z_int b) by lia. done.
  - rewrite !f_of_Z_int by lia. apply fle_key; [done..|]. unfold key_lt. cbn [fkey fint fst snd]. rewrite !fint_pos by lia.
    pose proof (Z.log2_le_mono a b ltac:(lia)). destruct (Z.eq_dec (Z.log2 a) (Z.log2 b)) as [E|]; [rewrite E|lia].
    assert (0 < 2 ^ (52 - Z.log2 b)) by (destruct (fint_mantissa b) as (L & _); [lia|]; apply Z.pow_pos_nonneg; lia). nia.
Qed.

(** A clamp of a number between two numbers in order. *)
Lemma clamp_ok x lo hi : num_wf x -> wf 53 1024 lo -> wf 53 1024 hi -> fle lo hi = true ->
  exists y, clamp x lo hi = Ret y /\ num_wf y /\ fle lo y = true /\ fle y hi = true.
Proof.
  intros [Hn Hw] Hl Hh H. unfold clamp. rewrite H. destruct (fclamp_range x lo hi Hn H) as [H1 H2]. exists (fclamp x lo hi).
  split; [done|]. split; [|done]. split; [exact (proj2 (fle_not_nan _ _ H1))|]. unfold fclamp. by repeat case_match.
Qed.
Lemma fmax_one y : fle (f_of_Z 1) y = true -> fmax y (f_of_Z 1) = y.
Proof.
  intros H. pose proof (fle_not_nan _ _ H) as [_ Hn]. unfold fmax. rewrite Hn, f_of_Z_nan.
  destruct (flt y (f_of_Z 1)) eqn:E; [|done]. pose proof (fle_lt_trans _ _ _ H E) as Hx. by rewrite flt_irrefl in Hx.
Qed.
Lemma f_as_u32_small x : small_num x -> f_trunc x < two32 -> f_as_u32 x = f_trunc x.
Proof. intros Hx Hlt. pose proof (f_trunc_nonneg x Hx). unfold f_as_u32, f_cast. destruct Hx; [done|]. unfold_ints. lia. Qed.

Section Bounds.
Context {R : Type} (seed_from_u64 : Z -> R) (random_f64 : R -> f64 * R) (random_bool : R -> bool * R).

(** [k / 2^53] *)
Definition unit_f64 (k : Z) : f64 := binary_normalize 53 1024 k (-53) false.
(** What rand documents of its draws. *)
Definition unit_draws : Prop := forall r, exists k, 0 <= k < 2 ^ 53 /\ (random_f64 r).1 = unit_f64 k.
Hypothesis Hdraw : unit_draws.

Lemma draw_tame r : tame (random_f64 r).1.
Proof using Hdraw.
  destruct (Hdraw r) as (k & Hk & ->). unfold unit_f64. destruct k as [|p|p]; [done| |lia]. apply tame_round; lia.
Qed.
Lemma rand_signed_finite rng x : tame x -> let d := (rand_signed random_f64 random_bool rng x).1 in is_finite d = true /\ wf 53 1024 d.
Proof using Hdraw.
  intros Hx. unfold rand_signed. destruct (fle x f0); [done|]. pose proof (draw_tame rng) as Hd. destruct (random_f64 rng) as [u r1].
  destruct (tame_mul u x Hd Hx) as [H1 H2]. destruct (random_bool r1) as [[] r2]; [done|]. cbn. rewrite fneg_finite.
  split; [done|by apply fneg_wf].
Qed.
Lemma walk_num x rng step : num_wf x -> tame step -> num_wf (fadd x (rand_signed random_f64 random_bool rng step).1).
Proof using Hdraw.
  intros [Hn Hw] Hs. destruct (rand_signed_finite rng step Hs) as [Hf Hd]. split; [by apply fadd_num_r|by apply fadd_wf].
Qed.

Lemma link_frame_ok rng c st : link_ok c -> state_ok st ->
  exists im st' rng', link_frame random_f64 random_bool rng c st = Ret (im, st', rng') /\ within_bounds c im /\ state_ok st'.
Proof using Hdraw.
  intros (Hmin & Hmax & Hrs & Hb & Hj & Hd & Hds & Wm & Fm & Zm & Ws & Fs) (Sr & Sd & Sl). unfold link_frame.
  change two32 with (2 ^ 32) in *. rewrite u32_wrap_id by (unfold is_u32; change two32 with (2 ^ 32); lia).
  pose proof (walk_num (lk_rate_kbit st) rng (f_of_Z (sc_rate_step_kbit c)) Sr (tame_int _ Hrs)) as W1.
  destruct (rand_signed _ _ rng (f_of_Z (sc_rate_step_kbit c))) as [d1 r1]. cbn [fst] in W1.
  destruct (clamp_ok _ (f_of_Z (sc_min_rate_kbit c)) (f_of_Z (sc_max_rate_kbit c)) W1 (f_of_Z_wf _) (f_of_Z_wf _)) as (rate & -> & Nr & R1 & R2);
    [apply fle_int; lia|]. cbn [mbind res_bind].
  pose proof (walk_num (lk_delay_ms st) r1 (f_of_Z (sc_delay_step_ms c)) Sd (tame_int (sc_delay_step_ms c) ltac:(lia))) as W2.
  destruct (rand_signed _ _ r1 (f_of_Z (sc_delay_step_ms c))) as [d2 r2]. cbn [fst] in W2.
  destruct (clamp_ok _ (f_of_Z 1) (f_of_Z (sc_base_delay_ms c + sc_delay_jitter_ms c)) W2 (f_of_Z_wf _) (f_of_Z_wf _)) as (delay & -> & Nd & D1 & D2);
    [apply fle_int; lia|]. cbn [mbind res_bind].
  pose proof (walk_num (lk_loss_percent st) r2 _ Sl (tame_f32 _ Ws Fs)) as W3.
  destruct (rand_signed _ _ r2 (f64_of_f32 (sc_loss_step_percent c))) as [d3 r3]. cbn [fst] in W3.
  assert (fle f0 (f64_of_f32 (sc_max_loss_percent c)) = true) as Hz.
  { destruct (sc_max_loss_percent c) as [s|s| |[] m e]; try done. destruct (wf_f32_range _ _ _ Wm).
    destruct (binary_round_exact false m e) as (m' & e' & E & _); [lia..|]. cbn [f64_of_f32]. by rewrite E. }
  destruct (clamp_ok _ f0 (f64_of_f32 (sc_max_loss_percent c)) W3 I (tame_wf _ (tame_f32 _ Wm Fm)) Hz) as (loss & -> & Nl & L1 & L2).
  cbn [mbind res_bind]. do 3 eexists. split; [reflexivity|]. split; [|by split].
  destruct (clamped_trunc rate (sc_min_rate_kbit c) (sc_max_rate_kbit c) (proj2 Nr) ltac:(lia) ltac:(lia) R1 R2 ltac:(lia)) as [Tr1 Tr2].
  destruct (clamped_trunc delay 1 (sc_base_delay_ms c + sc_delay_jitter_ms c) (proj2 Nd) ltac:(lia) ltac:(lia) D1 D2 ltac:(lia)) as [Td1 Td2].
  destruct (f32_of_f64_bound loss _ (proj2 Nl) Wm Fm Zm L1 L2) as [B1 B2].
  do 3 eexists. cbn [im_rate_kbit im_delay_ms im_loss_percent]. split; [reflexivity|]. split; [reflexivity|]. split; [reflexivity|].
  rewrite (fmax_one delay D1), fmax_one by (eapply fle_trans; [|exact R1]; apply fle_int; lia).
  rewrite f_as_u64_small, f_as_u32_small by (done || (unfold_ints; lia)). done.
Qed.

Lemma frame_links_ok rng cs : forall sts, Forall link_ok cs -> Forall state_ok sts -> length sts = length cs ->
  exists ims sts' rng', frame_links random_f64 random_bool rng cs sts = Ret (ims, sts', rng') /\ Forall2 within_bounds cs ims /\
    Forall state_ok sts' /\ length sts' = length cs.
Proof using Hdraw.
  revert rng. induction cs as [|c cs IH]; intros rng [|st sts] Hc Hs Hl; try done; cbn [frame_links].
  - by exists [], [], rng.
  - apply Forall_cons in Hc as [Hc Hcs]. apply Forall_cons in Hs as [Hs Hss].
    destruct (link_frame_ok rng c st Hc Hs) as (im & st' & r1 & -> & Hb & Hs'). cbn [mbind res_bind].
    destruct (IH r1 sts Hcs Hss) as (ims & sts' & r2 & -> & Hbs & Hss' & Hl'); [cbn in Hl; lia|]. cbn [mbind res_bind].
    do 3 eexists. split; [reflexivity|]. split; [by constructor|]. split; [by constructor|cbn; lia].
Qed.

Lemma new_links_ok cs : forall rng, Forall link_ok cs ->
  let sts := (new_links random_f64 rng cs).1 in Forall state_ok sts /\ length sts = length cs.
Proof using Hdraw.
  induction cs as [|c cs IH]; intros rng Hc; [done|]. apply Forall_cons in Hc as [Hc Hcs]. cbn [new_links].
  assert (state_ok (new_link random_f64 rng c).1) as Hs.
  { destruct Hc as (Hmin & Hmax & _ & _ & _ & _ & _ & Wm & Fm & _). unfold new_link. unfold sat_sub.
    pose proof (draw_tame rng) as H1. destruct (random_f64 rng) as [u r1]. pose proof (draw_tame r1) as H2. destruct (random_f64 r1) as [v r2].
    cbn [fst] in *. destruct (tame_mul u (f_of_Z (Z.max 0 (sc_max_rate_kbit c - sc_min_rate_kbit c))) H1) as [F1 W1]; [apply tame_int; lia|].
    destruct (tame_mul v _ H2 (tame_f32 _ Wm Fm)) as [F2 W2].
    split; [|split]; (split; [|try (apply f_of_Z_wf)]); cbn [lk_rate_kbit lk_delay_ms lk_loss_percent].
    - apply fadd_num_r; [apply f_of_Z_nan|done].
    - apply fadd_wf; [apply f_of_Z_wf|done].
    - apply f_of_Z_nan.
    - set (x := fmul v _) in *. destruct x as [s|s| |s m e]; try done. apply binary_round_aux_num. lia.
    - apply fmul_wf; [done|]. vm_compute. split; [done|]. split; [split; discriminate|]. discriminate. }
  destruct (new_link random_f64 rng c) as [st r1]. specialize (IH r1 Hcs). destruct (new_links random_f64 r1 cs) as [sts r2].
  cbn [fst] in *. destruct IH as [H1 H2]. split; [by constructor|cbn; lia].
Qed.
End Bounds.

(** ** Whole seconds *)
Lemma as_secs_whole s : 0 < s < 2 ^ 53 -> as_secs_f64 (mkDuration s 0) = fint false s.
Proof. intros Hs. unfold as_secs_f64. cbn [du_secs du_nanos]. rewrite f_of_Z_int by done. done. Qed.
Lemma from_secs_whole n : 0 < n < 2 ^ 53 -> from_secs_f64 (fint false n) = Ret (mkDuration n 0).
Proof.
  intros Hn. destruct (fint_mantissa n Hn) as (L & _ & _). unfold from_secs_f64, fint. rewrite fint_pos by done.
  assert (forall k, 0 <= k -> div_even (n * 2 ^ k * NANOS_PER_SEC) k = n * NANOS_PER_SEC) as Hd.
  { intros k Hk. unfold div_even. replace (n * 2 ^ k * NANOS_PER_SEC) with (n * NANOS_PER_SEC * 2 ^ k) by lia.
    assert (0 < 2 ^ k) by (apply Z.pow_pos_nonneg; lia). rewrite Z.div_mul, Z.mod_mul by lia.
    rewrite Z.mul_0_r, Z.gtb_ltb, (proj2 (Z.ltb_ge _ _)), (proj2 (Z.eqb_neq 0 _)) by lia. done. }
  assert ((if Z.log2 n - 52 >=? 0 then n * 2 ^ (52 - Z.log2 n) * NANOS_PER_SEC * 2 ^ (Z.log2 n - 52)
           else div_even (n * 2 ^ (52 - Z.log2 n) * NANOS_PER_SEC) (- (Z.log2 n - 52))) = n * NANOS_PER_SEC) as ->.
  { destruct (Z.geb_spec (Z.log2 n - 52) 0).
    - replace (Z.log2 n) with 52 by lia. cbn [Z.sub Z.add Z.opp]. change (2 ^ (52 - 52)) with 1. change (2 ^ (52 + -52)) with 1. lia.
    - replace (- (Z.log2 n - 52)) with (52 - Z.log2 n) by lia. apply Hd. lia. }
  rewrite Z.div_mul, Z.mod_mul by done. rewrite (proj2 (Z.ltb_lt _ _)) by (unfold_ints; lia). done.
Qed.
Lemma mul_whole s i : 0 < s -> 0 <= i -> i * s < 2 ^ 53 -> s < 2 ^ 53 -> mul_f64 (mkDuration s 0) (f_of_Z i) = Ret (mkDuration (i * s) 0).
Proof.
  intros Hs Hi His Hs2. unfold mul_f64. rewrite as_secs_whole by lia. destruct (Z.eq_dec i 0) as [->|Hi0]; [done|].
  rewrite f_of_Z_int by nia. rewrite fmul_int by nia. apply from_secs_whole. nia.
Qed.

Section Frames.
Context {R : Type} (seed_from_u64 : Z -> R) (random_f64 : R -> f64 * R) (random_bool : R -> bool * R).
Hypothesis Hdraw : unit_draws random_f64.

(** What a frame must be: its time and values within the bounds of each link. *)
Definition frame_ok (cfg : ScenarioConfig) (i : nat) (f : ScenarioFrame) : Prop :=
  fr_t f = mkDuration (Z.of_nat i * du_secs (sc_step cfg)) 0 /\ Forall2 within_bounds (sc_links cfg) (fr_configs f).

Lemma frames_loop_ok cfg idxs : forall rng sts, Forall link_ok (sc_links cfg) -> Forall state_ok sts -> length sts = length (sc_links cfg) ->
  0 < du_secs (sc_step cfg) < 2 ^ 53 -> du_nanos (sc_step cfg) = 0 ->
  Forall (fun i => Z.of_nat i * du_secs (sc_step cfg) < 2 ^ 53) idxs ->
  exists fs sts' rng', frames_loop random_f64 random_bool cfg idxs rng sts = Ret (fs, sts', rng') /\ Forall2 (frame_ok cfg) idxs fs.
Proof using Hdraw.
  induction idxs as [|i idxs IH]; intros rng sts Hc Hs Hl Hd Hn Hi; cbn [frames_loop]; [by exists [], sts, rng|].
  apply Forall_cons in Hi as [Hi His].
  assert (mul_f64 (sc_step cfg) (f_of_Z (Z.of_nat i)) = Ret (mkDuration (Z.of_nat i * du_secs (sc_step cfg)) 0)) as ->.
  { destruct (sc_step cfg) as [s n]. cbn [du_secs du_nanos] in *. subst n. apply mul_whole; lia. }
  cbn [mbind res_bind]. destruct (frame_links_ok random_f64 random_bool Hdraw rng (sc_links cfg) sts Hc Hs Hl) as (ims & sts1 & r1 & -> & Hb & Hs1 & Hl1).
  cbn [mbind res_bind]. destruct (IH r1 sts1 Hc Hs1 Hl1 Hd Hn His) as (fs & sts2 & r2 & -> & Hf). cbn [mbind res_bind].
  do 3 eexists. split; [reflexivity|]. by constructor.
Qed.

(** A scenario stays within its bounds.  For sensible bounds per link, a
    step of whole seconds and any generator of numbers in [0, 1), generating the frames
    never panics; there is one frame per step and one more, each at its
    multiple of the step, and in every frame the rate of each link lies
    between its minimum and maximum, the delay between one millisecond and base plus
    jitter, and the loss between zero and its maximum. *)
Theorem scenario_bounds cfg (Hc : Forall link_ok (sc_links cfg)) (Hs : 0 < du_secs (sc_step cfg)) (Hn : du_nanos (sc_step cfg) = 0)
    (Ht : (total_steps cfg + 1) * du_secs (sc_step cfg) < 2 ^ 53) :
  exists fs sc', frames random_f64 random_bool (scenario_new seed_from_u64 random_f64 cfg) = Ret (fs, sc') /\
    Z.of_nat (length fs) = total_steps cfg + 1 /\
    forall i f, fs !! i = Some f -> fr_t f = mkDuration (Z.of_nat i * du_secs (sc_step cfg)) 0 /\ Forall2 within_bounds (sc_links cfg) (fr_configs f).
Proof using Hdraw.
  assert (0 <= total_steps cfg) as H0 by (apply f_cast_range; unfold_ints; lia).
  unfold scenario_new. destruct (new_links_ok random_f64 Hdraw (sc_links cfg) (seed_from_u64 (sc_seed cfg)) Hc) as [H1 H2].
  destruct (new_links random_f64 (seed_from_u64 (sc_seed cfg)) (sc_links cfg)) as [sts rng]. cbn [fst] in H1, H2.
  unfold frames. cbn [so_cfg so_rng so_states]. unfold is_zero. rewrite (proj2 (Z.eqb_neq _ 0)) by lia. cbn [andb].
  destruct (frames_loop_ok cfg (seq 0 (S (Z.to_nat (total_steps cfg)))) rng sts Hc H1 H2) as (fs & sts' & rng' & -> & Hf); [nia|done| |].
  { apply Forall_seq. intros j Hj. nia. }
  cbn [mbind res_bind]. do 2 eexists. split; [reflexivity|]. pose proof (Forall2_length _ _ _ Hf) as Hl. rewrite length_seq in Hl.
  split; [lia|]. intros i f Hi. apply (Forall2_lookup_r _ _ _ _ _ Hf) in Hi as (j & Hj & Hok). apply lookup_seq in Hj as [-> _]. exact Hok.
Qed.
End Frames.

(** ** A run: a generator that counts, and the links of the crate's own test *)
Definition count_f64 (r : Z) : f64 * Z := (unit_f64 ((r * 2654435761 * 2097152) mod 2 ^ 53), r + 1).
Definition count_bool (r : Z) : bool * Z := (Z.even (r * 7 / 3), r + 1).
Lemma count_draws : unit_draws count_f64.
Proof. intros r. eexists. split; [apply Z.mod_pos_bound; lia|reflexivity]. Qed.
Definition f32_whole (n : Z) : f32 := f32_of_Z n.
Definition demo_cfg : ScenarioConfig :=
  mkScenarioConfig 42 (mkDuration 5 0) (mkDuration 1 0)
    [mkLinkScenario 500 1500 150 30 20 5 (f32_whole 10) (f32_whole 2); mkLinkScenario 800 2000 200 20 10 4 (f32_whole 5) (f32_whole 1)].

Lemma demo_links_ok : Forall link_ok (sc_links demo_cfg).
Proof.
  repeat constructor; cbn; unfold_ints; try lia; try (vm_compute; repeat split; (discriminate || done)).
Qed.

Lemma scenario_bounds_witness :
  total_steps demo_cfg = 5 /\
  exists fs sc', frames count_f64 count_bool (scenario_new id count_f64 demo_cfg) = Ret (fs, sc') /\
    Z.of_nat (length fs) = total_steps demo_cfg + 1 /\
    forall i f, fs !! i = Some f -> fr_t f = mkDuration (Z.of_nat i * 1) 0 /\ Forall2 within_bounds (sc_links demo_cfg) (fr_configs f).
Proof.
  assert (total_steps demo_cfg = 5) as E by (vm_compute; reflexivity). split; [done|].
  apply (scenario_bounds id count_f64 count_bool count_draws demo_cfg demo_links_ok); [reflexivity|reflexivity|].
  rewrite E. reflexivity.
Defined.

(** A link with neither delay nor jitter has crossed bounds: its clamp panics. *)
Example zero_delay_panics :
  frames count_f64 count_bool (scenario_new id count_f64
    (mkScenarioConfig 42 (mkDuration 5 0) (mkDuration 1 0) [mkLinkScenario 500 1500 150 0 0 0 (f32_whole 10) (f32_whole 2)])) = Panic.
Proof. vm_compute. reflexivity. Qed.
