(* ===== verification/Harness.v ===== *)
(** * The test stack of the network simulator (crates/network-sim/src/harness.rs)

    Processes inside namespaces, the polls that wait for them, and the stack of
    receiver, relay and sender that the tests run, over any [Host].  The
    polling loops run on fuel, one unit per poll; running out is a panic, and
    for a clock that moves by at least what is slept ([clock_ok]) it does not
    happen.  The theorems ([HarnessSpec]): a kill ends after at most 42 polls
    with the process seen to have exited or asked to be killed; a stack leaves no
    process and no namespace behind but those that the host refused to kill or
    to delete; and each part is started only when the one it needs listens.

    The captured lines are read from the host; the pipes they come through
    are in [Pipe]. *)
From S2P Require Import Prelude.
From S2P Require Import F64.
From S2P Require Import Text.
From S2P Require Import Host.
From S2P Require Import Reload.
From S2P Require Import Topology.
From stdpp Require Import strings pretty.
Local Open Scope Z_scope.

Section Harness.
Context (h : Host).

(** ** Dependencies *)
Inductive SkipReason := NotRoot | MissingBinary (b : string) | MissingTool (t : string) | NoNetem.

(** Why a test is skipped, as it is printed. *)
Definition skip_text (r : SkipReason) : string :=
  match r with
  | NotRoot => "requires root / passwordless sudo"
  | MissingBinary b => b +:+ " not found in PATH"
  | MissingTool t => "system tool '" +:+ t +:+ "' not found"
  | NoNetem => "sch_netem kernel module not available (try: sudo modprobe sch_netem)"
  end.

(** The path [command -v] prints, when the program exists. *)
Definition check_binary (name : string) : Sh (option (list Z)) :=
  out ← output h ["sh"; "-c"; "command -v " +:+ name];
  mret (match out with Some o => if out_success o then Some (trim (out_stdout o)) else None | None => None end).

(** The first name of a list that is not found. *)
Fixpoint first_missing (names : list string) : Sh (option string) :=
  match names with
  | [] => mret None
  | n :: names => path ← check_binary n; match path with None => mret (Some n) | Some _ => first_missing names end
  end.

Definition check_integration_deps : Sh (option SkipReason) :=
  ok ← check_privileges h;
  if negb ok then mret (Some NotRoot)
  else
    bin ← first_missing ["srtla_rec"; "srt-live-transmit"];
    match bin with
    | Some b => mret (Some (MissingBinary b))
    | None => tool ← first_missing ["ip"; "tc"; "ss"]; mret (option_map MissingTool tool)
    end.

Definition succeeded (out : option Output) : bool := match out with Some o => out_success o | None => false end.

Definition check_adaptive_sender_deps : Sh (option SkipReason) :=
  cc ← check_binary "cc";
  match cc with
  | None => mret (Some (MissingTool "cc"))
  | Some _ =>
    out ← output h ["pkg-config"; "--exists"; "srt"];
    mret (if succeeded out then None else Some (MissingBinary "libsrt dev (pkg-config srt)"))
  end.

Definition check_impairment_deps : Sh (option SkipReason) :=
  deps ← check_integration_deps;
  match deps with
  | Some r => mret (Some r)
  | None => out ← output h ["sudo"; "modprobe"; "sch_netem"]; mret (if succeeded out then None else Some NoNetem)
  end.

(** [std::fs::write] *)
Definition fs_write (path text : string) : Sh unit := fun w =>
  let ok := match h_temp_file h (w_events w) with Some _ => true | None => false end in
  ((if ok then Ok tt else Err), w <| w_events ::= fun es => es ++ [Wrote text (if ok then Some path else None)] |>).

(** [build_adaptive_sender], given the temporary directory, the C source and
    how a word of text is passed on. *)
Definition build_adaptive_sender (dir source : string) (word : list Z -> string) : Sh string :=
  let src := dir +:+ "/network_sim_adaptive_srt_send.c" in
  let bin := dir +:+ "/network_sim_adaptive_srt_send" in
  _ ← fs_write src source;
  out ← output h ["pkg-config"; "--cflags"; "--libs"; "srt"];
  flags_out ← or_bail out;
  if negb (out_success flags_out) then bail
  else
    out ← output h (["cc"; src; "-O2"; "-o"; bin] ++ map word (split_whitespace (out_stdout flags_out)));
    out ← or_bail out;
    if negb (out_success out) then bail else mret bin.

(** ** NamespaceProcess *)
Record NamespaceProcess := mkProcess { np_child : Z; np_scope : string; np_reaped : bool }.

Definition spawn_with_env (ns : Namespace) (binary : string) (args : Cmd) (env : list (string * string)) : Sh NamespaceProcess := fun w =>
  let words := match env with [] => [] | _ => "env" :: map (fun kv => kv.1 +:+ "=" +:+ kv.2) env end in
  let argv := ["sudo"; "ip"; "netns"; "exec"; ns_name ns] ++ words ++ binary :: args in
  let child := h_spawn h (w_events w) argv in
  (match child with Some c => Ok (mkProcess c (ns_name ns) false) | None => Err end,
   w <| w_events ::= fun es => es ++ [Spawned argv child] |>).
Definition spawn (ns : Namespace) (binary : string) (args : Cmd) : Sh NamespaceProcess := spawn_with_env ns binary args [].

(** [child.try_wait()]: whether the child has exited. *)
Definition try_wait (child : Z) : Sh bool := fun w =>
  let e := h_exited h (w_events w) child in (Ok e, w <| w_events ::= fun es => es ++ [Polled child e] |>).
(** [let _ = self.child.kill()]: the host may refuse, and the answer is not read. *)
Definition child_kill (child : Z) : Sh unit := fun w =>
  (Ok tt, w <| w_events ::= fun es => es ++ [Killed child (h_kill h es child)] |>).
Definition is_alive (self : NamespaceProcess) : Sh bool := e ← try_wait (np_child self); mret (negb e).
(** [check_exit]: whether it has exited (its code and output are reported). *)
Definition check_exit (self : NamespaceProcess) : Sh bool := try_wait (np_child self).

Definition parse_u32 (word : list Z) : option Z :=
  match parse_u64 word with Some n => if n <=? u32_max then Some n else None | None => None end.
Definition scope_pids (self : NamespaceProcess) : Sh (list Z) :=
  out ← output h ["sudo"; "-n"; "ip"; "netns"; "pids"; np_scope self];
  mret (match out with
        | Some o => if out_success o then omap parse_u32 (split_whitespace (out_stdout o)) else []
        | None => []
        end).

Definition signal_scope (self : NamespaceProcess) (signal : string) : Sh unit :=
  pids ← scope_pids self;
  match pids with
  | [] => mret tt
  | _ => _ ← output h (["sudo"; "-n"; "kill"; signal; "--"] ++ map decimal pids); mret tt
  end.

(** [self.reaped && self.scope_pids().is_empty()] *)
Definition all_gone (self : NamespaceProcess) : Sh bool :=
  if np_reaped self then pids ← scope_pids self; mret (bool_decide (pids = [])) else mret false.

(** The loop of [wait_until_stopped]; one unit of fuel per poll. *)
Fixpoint stopped_loop (fuel : nat) (deadline : Z) (self : NamespaceProcess) : Sh (bool * NamespaceProcess) :=
  match fuel with
  | O => panic
  | S fuel =>
    exited ← try_wait (np_child self);
    let self := if (exited : bool) then mkProcess (np_child self) (np_scope self) true else self in
    gone ← all_gone self;
    if (gone : bool) then mret (true, self)
    else
      t ← now h;
      if t >=? deadline then mret (false, self)
      else _ ← sleep 100; stopped_loop fuel deadline self
  end.
Definition wait_until_stopped (self : NamespaceProcess) (timeout : Z) : Sh (bool * NamespaceProcess) :=
  t ← now h; stopped_loop (Z.to_nat (timeout / 100) + 1) (t + timeout) self.

Definition kill (self : NamespaceProcess) : Sh NamespaceProcess :=
  gone ← all_gone self;
  if (gone : bool) then mret self
  else
    _ ← signal_scope self "-TERM";
    res ← wait_until_stopped self 2000;
    let '(stopped, self) := (res : bool * NamespaceProcess) in
    if stopped then mret self
    else
      _ ← signal_scope self "-KILL";
      _ ← child_kill (np_child self);
      res ← wait_until_stopped self 2000;
      mret (res : bool * NamespaceProcess).2.
Definition process_drop (self : NamespaceProcess) : Sh unit := _ ← kill self; mret tt.

(** ** Waiting *)
Fixpoint starts_with (sub l : list Z) : bool :=
  match sub, l with [], _ => true | x :: sub, y :: l => (x =? y) && starts_with sub l | _ :: _, [] => false end.
Fixpoint text_contains (sub l : list Z) : bool :=
  starts_with sub l || match l with [] => false | _ :: l => text_contains sub l end.

Definition listening (port : Z) (text : list Z) : bool := existsb (text_contains (chars_of (":" +:+ decimal port))) (lines text).

Fixpoint listener_loop (fuel : nat) (ns : Namespace) (port timeout start : Z) : Sh unit :=
  match fuel with
  | O => panic
  | S fuel =>
    out ← exec h ns "ss" ["-uln"];
    if listening port (out_stdout out) then mret tt
    else
      t ← now h;
      if t - start >? timeout then bail
      else _ ← sleep 200; listener_loop fuel ns port timeout start
  end.
Definition wait_for_udp_listener (ns : Namespace) (port timeout : Z) : Sh unit :=
  start ← now h; listener_loop (Z.to_nat (timeout / 200) + 2) ns port timeout start.

Definition connected (peer : string) (text : list Z) : nat := length (List.filter (text_contains (chars_of peer)) (lines text)).
Fixpoint uplinks_loop (fuel : nat) (ns : Namespace) (peer : string) (min_count : nat) (timeout start : Z) : Sh unit :=
  match fuel with
  | O => panic
  | S fuel =>
    out ← exec h ns "ss" ["-uan"];
    if Nat.leb min_count (connected peer (out_stdout out)) then mret tt
    else
      t ← now h;
      if t - start >? timeout then bail
      else _ ← sleep 200; uplinks_loop fuel ns peer min_count timeout start
  end.
Definition wait_for_connected_uplinks (ns : Namespace) (peer_ip : string) (peer_port : Z) (min_count : nat) (timeout : Z) : Sh unit :=
  start ← now h;
  uplinks_loop (Z.to_nat (timeout / 200) + 2) ns (peer_ip +:+ ":" +:+ decimal peer_port) min_count timeout start.

(** ** SrtlaTestStack *)
Definition SRT_SERVER_PORT : Z := 4001.
Definition SRTLA_REC_PORT : Z := 5000.
Definition SRTLA_SEND_SRT_PORT : Z := 5555.
Definition SRT_CALLER_INGEST_PORT : Z := 6000.

Record SrtlaTestStack := mkStack {
  st_topo : SrtlaTestTopology; st_srt_server : option NamespaceProcess; st_srtla_rec : option NamespaceProcess;
  st_srtla_send : option NamespaceProcess; st_srt_caller : option NamespaceProcess }.

Record StackOutput := mkStackOutput {
  srt_server_stdout : list string; srt_server_stderr : list string;
  srtla_rec_stdout : list string; srtla_rec_stderr : list string;
  srtla_send_stdout : list string; srtla_send_stderr : list string;
  srt_caller_stdout : list string; srt_caller_stderr : list string }.

(** [find_srtla_send_binary]; [root] is the workspace the crate was built in. *)
Definition find_srtla_send_binary (root : string) (show : list Z -> string) : Sh string :=
  let debug := root +:+ "/target/debug/srtla_send" in
  let release := root +:+ "/target/release/srtla_send" in
  if h_exists h debug then mret debug
  else if h_exists h release then mret release
  else path ← check_binary "srtla_send"; match path with Some p => mret (show p) | None => bail end.

(** A process that must still run after a pause and then listen. *)
Definition ready (p : NamespaceProcess) (ns : Namespace) (pause port : Z) : Sh unit :=
  _ ← sleep pause;
  exited ← check_exit p;
  if (exited : bool) then bail else wait_for_udp_listener ns port 5000.

Section Start.
Context (root : string) (show : list Z -> string).

Definition start_srtla_send (topo : SrtlaTestTopology) (ip_list_path : string) (sender_extra_args : Cmd)
    (srt_server srtla_rec : NamespaceProcess) : Sh SrtlaTestStack :=
  bin ← find_srtla_send_binary root show;
  srtla_send ← spawn_with_env (tp_sender_ns topo) bin
    ([decimal SRTLA_SEND_SRT_PORT; tp_receiver_ip topo; decimal SRTLA_REC_PORT; ip_list_path] ++ sender_extra_args)
    [("RUST_LOG", "debug")];
  mret (mkStack topo (Some srt_server) (Some srtla_rec) (Some srtla_send) None).

Definition start_relay (topo : SrtlaTestTopology) (ip_list_path : string) (sender_extra_args : Cmd) (srt_server : NamespaceProcess)
  : Sh SrtlaTestStack :=
  srtla_rec ← spawn (tp_receiver_ns topo) "srtla_rec"
    ["--srtla_port"; decimal SRTLA_REC_PORT; "--srt_hostname"; "127.0.0.1"; "--srt_port"; decimal SRT_SERVER_PORT];
  unwind (_ ← ready srtla_rec (tp_receiver_ns topo) 500 SRTLA_REC_PORT;
          start_srtla_send topo ip_list_path sender_extra_args srt_server srtla_rec)
    (process_drop srtla_rec).

Definition start_server (topo : SrtlaTestTopology) (sender_extra_args : Cmd) : Sh SrtlaTestStack :=
  ip_list_path ← write_ip_list h topo;
  srt_server ← spawn (tp_receiver_ns topo) "srt-live-transmit"
    ["srt://:" +:+ decimal SRT_SERVER_PORT +:+ "?mode=listener"; "udp://127.0.0.1:9999"];
  unwind (_ ← ready srt_server (tp_receiver_ns topo) 500 SRT_SERVER_PORT;
          start_relay topo ip_list_path sender_extra_args srt_server)
    (process_drop srt_server).

Definition start (test_name : string) (num_links : nat) (sender_extra_args : Cmd) : Sh SrtlaTestStack :=
  topo ← topology_new h test_name num_links;
  unwind (start_server topo sender_extra_args) (topology_drop h topo).
End Start.

Definition start_srt_caller (self : SrtlaTestStack) : Sh SrtlaTestStack :=
  caller ← spawn (tp_sender_ns (st_topo self)) "srt-live-transmit"
    ["udp://:" +:+ decimal SRT_CALLER_INGEST_PORT;
     "srt://127.0.0.1:" +:+ decimal SRTLA_SEND_SRT_PORT +:+ "?mode=caller&latency=2000"];
  _ ← unwind (ready caller (tp_sender_ns (st_topo self)) 750 SRT_CALLER_INGEST_PORT) (process_drop caller);
  _ ← match st_srt_caller self with Some old => process_drop old | None => mret tt end;
  mret (mkStack (st_topo self) (st_srt_server self) (st_srtla_rec self) (st_srtla_send self) (Some caller)).

Definition start_adaptive_sender (self : SrtlaTestStack) (sender_bin : string) (min_kbps max_kbps : Z) : Sh SrtlaTestStack :=
  sender ← spawn (tp_sender_ns (st_topo self)) sender_bin
    ["127.0.0.1"; decimal SRTLA_SEND_SRT_PORT; decimal min_kbps; decimal max_kbps; "2000"];
  _ ← unwind (_ ← sleep 1500; exited ← check_exit sender; if (exited : bool) then bail else mret tt) (process_drop sender);
  _ ← match st_srt_caller self with Some old => process_drop old | None => mret tt end;
  mret (mkStack (st_topo self) (st_srt_server self) (st_srtla_rec self) (st_srtla_send self) (Some sender)).

(** [get_stats]: a script asks the control socket inside the namespace; the
    reply is decoded by [from_str] and its [result] taken by [get_result]. *)
Definition quoted (s : string) : string := String (Ascii.ascii_of_nat 34) s +:+ String (Ascii.ascii_of_nat 34) "".
Definition stats_script (socket_path : string) : string :=
  String.concat LF
    ["import socket,sys"; "s=socket.socket(socket.AF_UNIX,socket.SOCK_STREAM)"; "s.settimeout(5)"; "s.connect('" +:+ socket_path +:+ "')";
     "s.sendall(b'{" +:+ quoted "jsonrpc" +:+ ":" +:+ quoted "2.0" +:+ "," +:+ quoted "id" +:+ ":1," +:+ quoted "method" +:+ ":" +:+
       quoted "get_stats" +:+ "," +:+ quoted "params" +:+ ":{}}\n')";
     "buf=b''"; "while not buf.endswith(b'\n'):"; "  c=s.recv(65536)"; "  if not c: break"; "  buf+=c"; "s.close()";
     "sys.stdout.write(buf.decode())"].
Definition get_stats {V} (from_str : list Z -> option V) (get_result : V -> option V) (self : SrtlaTestStack) (socket_path : string) : Sh V :=
  out ← exec_checked h (tp_sender_ns (st_topo self)) "python3" ["-c"; stats_script socket_path];
  resp ← or_bail (from_str (trim (out_stdout out)));
  or_bail (get_result resp).

Definition stack_impair_link (show_f32 : f32 -> string) (self : SrtlaTestStack) (idx : nat) (config : ImpairmentConfig) : Sh unit :=
  impair_link h show_f32 (st_topo self) idx config.

(** [stdout_lines] and [stderr_lines]. *)
Definition captured (self : NamespaceProcess) : Sh (list string * list string) :=
  fun w => (Ok (h_lines h (w_events w) (np_child self)), w).
(** Kill one process and read what it printed; leaving the block drops it. *)
Definition stop_process (p : option NamespaceProcess) : Sh (list string * list string) :=
  match p with
  | None => mret ([], [])
  | Some p => p ← kill p; out ← captured p; _ ← process_drop p; mret out
  end.
(** Killed in reverse order: caller, sender, relay, server. *)
Definition stop (self : SrtlaTestStack) : Sh (StackOutput * SrtlaTestStack) :=
  caller_out ← stop_process (st_srt_caller self);
  send_out ← stop_process (st_srtla_send self);
  rec_out ← stop_process (st_srtla_rec self);
  srt_out ← stop_process (st_srt_server self);
  mret (mkStackOutput srt_out.1 srt_out.2 rec_out.1 rec_out.2 send_out.1 send_out.2 caller_out.1 caller_out.2,
        mkStack (st_topo self) None None None None).

Definition drop_taken (p : option NamespaceProcess) : Sh unit := match p with Some p => process_drop p | None => mret tt end.
(** [Drop] of the stack, then of its topology. *)
Definition stack_drop (self : SrtlaTestStack) : Sh unit :=
  _ ← drop_taken (st_srt_caller self);
  _ ← drop_taken (st_srtla_send self);
  _ ← drop_taken (st_srtla_rec self);
  _ ← drop_taken (st_srt_server self);
  topology_drop h (st_topo self).

(** ** Injected traffic *)
Section Inject.
Context (show_f64 : f64 -> string).
Definition TS_PACKET_BYTES : Z := 188.
Definition SRT_PAYLOAD_BYTES : Z := 1316.

Definition inject_udp_packets (ns : Namespace) (target_ip : string) (port count : Z) : Sh unit :=
  _ ← exec_checked h ns "python3" ["-c";
    "import socket; s=socket.socket(socket.AF_INET,socket.SOCK_DGRAM); [s.sendto(b'\x00'*188,('" +:+ target_ip +:+ "'," +:+ decimal port +:+
    ")) for _ in range(" +:+ decimal count +:+ ")]; s.close()"];
  mret tt.

Definition udp_stream_script (target_ip : string) (port packets_per_sec payload_bytes : Z) (duration_secs : f64) : Sh string :=
  if packets_per_sec =? 0 then bail
  else if payload_bytes =? 0 then bail
  else
    let interval := fdiv (f_of_Z 1) (f_of_Z packets_per_sec) in
    mret (String.concat LF
      ["import socket,time"; "s=socket.socket(socket.AF_INET,socket.SOCK_DGRAM)"; "d=b'\xb8'*" +:+ decimal payload_bytes;
       "start=time.time(); i=0"; "while True:"; "    now=time.time()"; "    if now-start>=" +:+ show_f64 duration_secs +:+ ": break";
       "    s.sendto(d,('" +:+ target_ip +:+ "'," +:+ decimal port +:+ "))"; "    i+=1"; "    nxt=start+i*" +:+ show_f64 interval;
       "    slp=nxt-time.time()"; "    if slp>0: time.sleep(slp)"; "s.close()"; "print(f'sent {i} packets')"]).

Definition inject_udp_stream (ns : Namespace) (target_ip : string) (port packets_per_sec payload_bytes : Z) (duration_secs : f64) : Sh unit :=
  script ← udp_stream_script target_ip port packets_per_sec payload_bytes duration_secs;
  _ ← exec_checked h ns "python3" ["-c"; script]; mret tt.
Definition spawn_udp_stream (ns : Namespace) (target_ip : string) (port packets_per_sec payload_bytes : Z) (duration_secs : f64) : Sh NamespaceProcess :=
  script ← udp_stream_script target_ip port packets_per_sec payload_bytes duration_secs;
  spawn ns "python3" ["-c"; script].
End Inject.
End Harness.
