(* ===== verification/HarnessSpec.v ===== *)
(** * What the test stack of the simulator guarantees

    Kills end; a stack leaves no process and no namespace behind but those whose
    kill or deletion it asked for and the host refused; its parts start in order.
    The host is arbitrary but for its clock. *)
From S2P Require Import Prelude.
From S2P Require Import F64.
From S2P Require Import Text.
From S2P Require Import Host.
From S2P Require Import Reload.
From S2P Require Import Topology.
From S2P Require Import Harness.
From stdpp Require Import strings pretty.
Local Open Scope Z_scope.

(** ** Everything the topology does is commands *)
Section Commands.
Context (h : Host) (R : World -> World -> Prop) `{!PreOrder R}.
Context (Ho : forall argv, steps R (output h argv)) (Hc : forall w c, R w (mkWorld (w_events w) c)).

Lemma sudo_steps args : steps R (sudo h args).
Proof using All. apply steps_bind; [done|apply Ho|]. intros o. by apply steps_or_bail. Qed.
Lemma sudo_checked_steps args : steps R (sudo_checked h args).
Proof using All. apply steps_bind; [done|apply sudo_steps|]. intros o. case_match; [by apply steps_ret|by apply steps_bail]. Qed.
Lemma ignored_steps args : steps R (ignore (sudo h args)).
Proof using All. apply steps_ignore; [done|apply sudo_steps]. Qed.
Lemma namespace_drop_steps ns : steps R (namespace_drop h ns).
Proof using All. apply ignored_steps. Qed.
Lemma topology_drop_steps topo : steps R (topology_drop h topo).
Proof using All. apply steps_bind; [done|apply namespace_drop_steps|]. intros _. apply namespace_drop_steps. Qed.

Lemma unique_ns_name_steps prefix : steps R (unique_ns_name h prefix).
Proof using All.
  intros w. unfold yields, unique_ns_name, mbind, sh_bind, fetch_add, str_prefix. cbn [upd eta].
  destruct (is_char_boundary prefix _); apply Hc.
Qed.

Ltac commands := repeat first
  [ apply sudo_checked_steps | apply ignored_steps | by apply steps_ret | by apply steps_bail | by apply steps_panic
  | apply steps_bind; [done| |intros ?] ].

Lemma namespace_new_steps name : steps R (namespace_new h name).
Proof using All. unfold namespace_new. commands. Qed.
Lemma add_links_steps s r idxs acc : steps R (add_links h s r idxs acc).
Proof using All.
  revert acc. induction idxs as [|i idxs IH]; intros [[a b] c]; cbn [add_links]; [by apply steps_ret|].
  apply steps_bind; [done|unfold add_veth_link, exec_checked; commands|auto].
Qed.
Lemma wire_links_steps topo i links : steps R (wire_links h topo i links).
Proof using All.
  revert i. induction links as [|[ip ifc] links IH]; intros i; cbn [wire_links]; [by apply steps_ret|].
  apply steps_bind; [done| |auto]. unfold wire_link, exec_checked. commands. case_match; commands.
Qed.
Lemma wire_bonding_routes_steps topo : steps R (wire_bonding_routes h topo).
Proof using All.
  unfold wire_bonding_routes, disable_rp_filter, exec_checked.
  repeat (apply steps_bind; [done|first [apply steps_for_each; [done|intros ?; apply ignored_steps]|apply sudo_checked_steps]|intros _]).
  apply wire_links_steps.
Qed.
Lemma topology_new_steps test_name n : steps R (topology_new h test_name n).
Proof using All.
  unfold topology_new. case_match; [by apply steps_panic|].
  apply steps_bind; [done|apply unique_ns_name_steps|intros sn]. apply steps_bind; [done|apply namespace_new_steps|intros s].
  apply steps_bind; [done| |intros r].
  { apply steps_unwind; [done| |apply namespace_drop_steps]. apply steps_bind; [done|apply unique_ns_name_steps|intros rn; apply namespace_new_steps]. }
  apply steps_bind; [done| |intros l].
  { apply steps_unwind; [done|apply add_links_steps|]. apply steps_bind; [done|apply namespace_drop_steps|intros _; apply namespace_drop_steps]. }
  apply steps_bind; [done| |intros _; by apply steps_ret].
  apply steps_unwind; [done|apply wire_bonding_routes_steps|apply topology_drop_steps].
Qed.
Lemma impair_link_steps show topo idx config : steps R (impair_link h show topo idx config).
Proof using All.
  assert (forall ns args, steps R (tc_checked h ns args)) as Ht.
  { intros ns args. unfold tc_checked, exec. apply steps_bind; [done|apply sudo_steps|intros o]. case_match; commands. }
  unfold impair_link, apply_impairment, exec, apply_netem_root, apply_tbf_with_netem.
  apply steps_bind; [done|by apply steps_or_bail|intros iface]. apply steps_bind; [done|apply ignored_steps|intros _].
  repeat case_match; [by apply steps_ret| | |apply Ht]; (apply steps_bind; [done|by apply steps_or_bail|intros rate]);
    (apply steps_bind; [done|apply Ht|intros _]); [apply Ht|by apply steps_ret].
Qed.
End Commands.

(** ** Processes *)
Definition unkilled_step (l : list Z) (e : Event) : list Z :=
  match e with
  | Spawned _ (Some c) => c :: l
  | Polled c true => List.filter (fun x => negb (x =? c)) l
  | Killed c _ => List.filter (fun x => negb (x =? c)) l
  | _ => l
  end.
(** The children that were started and since then neither seen to exit nor
    asked to be killed; whether the kill was refused does not matter here. *)
Definition unkilled (w : World) : list Z := fold_left unkilled_step (w_events w) [].
Lemma unkilled_event w e c : unkilled (mkWorld (w_events w ++ [e]) c) = unkilled_step (unkilled w) e.
Proof. unfold unkilled. cbn. by rewrite fold_left_app. Qed.

(** The time slept so far. *)
Definition slept_step (t : Z) (e : Event) : Z := match e with Slept ms => t + ms | _ => t end.
Definition slept (w : World) : Z := fold_left slept_step (w_events w) 0.
Lemma slept_event w e c : slept (mkWorld (w_events w ++ [e]) c) = slept_step (slept w) e.
Proof. unfold slept. cbn. by rewrite fold_left_app. Qed.

(** A clock that does not go back and moves by what is slept. *)
Record clock_ok (h : Host) : Prop := mkClockOk {
  clock_mono es e : h_now h es <= h_now h (es ++ [e]);
  clock_sleep es ms : h_now h es + ms <= h_now h (es ++ [Slept ms]) }.

Lemma filter_ne l (c x : Z) : x ∈ List.filter (fun x => negb (x =? c)) l <-> x ∈ l /\ x <> c.
Proof. rewrite !list_elem_of_In, filter_In, negb_true_iff, Z.eqb_neq. done. Qed.

Section Kill.
Context (h : Host) (Hclock : clock_ok h).
Definition time (w : World) : Z := h_now h (w_events w).

(** A call that neither adds a namespace, nor starts a process, nor sleeps. *)
Record quiet (w w' : World) : Prop := mkQuiet {
  quiet_live : no_more w w'; quiet_orphans : forall c, c ∈ unkilled w' -> c ∈ unkilled w;
  quiet_time : time w <= time w'; quiet_slept : slept w' = slept w }.
#[local] Instance quiet_preorder : PreOrder quiet.
Proof.
  split; [intros w; split; [reflexivity|auto|lia|done]|]. intros w1 w2 w3 [A1 B1 C1 D1] [A2 B2 C2 D2].
  split; [by transitivity w2|auto|lia|lia].
Qed.

(** [m] ends, quietly, with a value that satisfies [P]. *)
Definition calm {A} (m : Sh A) (P : A -> World -> Prop) : Prop :=
  forall w, yields m w (fun o w' => exists a, o = Ok a /\ quiet w w' /\ P a w').
Lemma calm_bind {A B} (m : Sh A) (f : A -> Sh B) P Q : calm m P -> (forall a, calm (f a) Q) -> calm (mbind f m) Q.
Proof.
  intros Hm Hf w. apply yields_bind. eapply yields_conseq; [apply Hm|]. intros ? w1 (a & -> & Q1 & _). cbn [after].
  eapply yields_conseq; [apply Hf|]. intros ? w2 (b & -> & Q2 & HQ). exists b. split; [done|]. split; [by transitivity w1|done].
Qed.
Lemma calm_ret {A} (a : A) : calm (mret a) (fun _ _ => True).
Proof. intros w. exists a. split; [done|]. split; [reflexivity|done]. Qed.

Lemma ran_quiet w c out : strip ["sudo"; "ip"; "netns"; "add"] c = None -> quiet w (mkWorld (w_events w ++ [Ran c out]) (w_counter w)).
Proof using Hclock.
  intros Hs. split; [|by rewrite unkilled_event|apply (clock_mono _ Hclock)|by rewrite slept_event].
  intros n. rewrite unasked_event. unfold unasked_step. rewrite Hs. destruct (strip ["sudo"; "ip"; "netns"; "del"] c) as [[|m [|]]|]; try done.
  intros [Hn _]%list_elem_of_In%filter_In. by apply list_elem_of_In.
Qed.
Lemma output_calm c : strip ["sudo"; "ip"; "netns"; "add"] c = None -> calm (output h c) (fun _ _ => True).
Proof using Hclock. intros Hs w. eexists. split; [reflexivity|]. split; [by apply ran_quiet|done]. Qed.

Lemma scope_pids_calm p : calm (scope_pids h p) (fun _ _ => True).
Proof using Hclock. unfold scope_pids. eapply calm_bind; [by apply output_calm|]. intros o. apply calm_ret. Qed.
Lemma signal_scope_calm p sig : calm (signal_scope h p sig) (fun _ _ => True).
Proof using Hclock.
  unfold signal_scope. eapply calm_bind; [apply scope_pids_calm|]. intros [|pid pids]; [apply calm_ret|].
  eapply calm_bind; [by apply output_calm|]. intros _. apply calm_ret.
Qed.
Lemma all_gone_calm p : calm (all_gone h p) (fun g _ => g = true -> np_reaped p = true).
Proof using Hclock.
  unfold all_gone. destruct (np_reaped p) eqn:E.
  - intros w. eapply yields_conseq; [eapply (calm_bind _ _ _ (fun _ _ => True)); [apply scope_pids_calm|intros l; apply calm_ret]|].
    intros o w' (a & -> & Hq & _). by exists a.
  - intros w. exists false. split; [done|]. split; [reflexivity|done].
Qed.
Lemma try_wait_calm c : calm (try_wait h c) (fun e w' => e = true -> c ∉ unkilled w').
Proof using Hclock.
  intros w. unfold yields, try_wait. cbn [upd eta]. eexists. split; [reflexivity|]. split.
  - split; [|intros x|apply (clock_mono _ Hclock)|by rewrite slept_event].
    + intros n. by rewrite unasked_event.
    + rewrite unkilled_event. cbn [unkilled_step]. case_match; [|done]. by intros [Hx _]%filter_ne.
  - intros ->. rewrite unkilled_event. cbn [unkilled_step]. by intros [_ Hx]%filter_ne.
Qed.

(** What a wait leaves: more time slept, within its bound. *)
Record waited (bound : Z) (w w' : World) : Prop := mkWaited {
  waited_live : no_more w w'; waited_orphans : forall c, c ∈ unkilled w' -> c ∈ unkilled w;
  waited_time : time w <= time w'; waited_slept : slept w' <= slept w + bound }.
Lemma quiet_waited w w' : quiet w w' -> waited 0 w w'.
Proof. intros [A B C D]. split; [done|done|done|lia]. Qed.
Lemma waited_trans a b w1 w2 w3 : waited a w1 w2 -> waited b w2 w3 -> waited (a + b) w1 w3.
Proof. intros [A1 B1 C1 D1] [A2 B2 C2 D2]. split; [by transitivity w2|auto|lia|lia]. Qed.
Lemma waited_more a b w w' : a <= b -> waited a w w' -> waited b w w'.
Proof. intros H [A B C D]. split; [done|done|done|lia]. Qed.

Lemma sleep_waited ms w : 0 <= ms -> waited ms w (mkWorld (w_events w ++ [Slept ms]) (w_counter w)).
Proof using Hclock.
  intros Hm. split; [intros n; by rewrite unasked_event|intros c; by rewrite unkilled_event|apply (clock_mono _ Hclock)|].
  rewrite slept_event. cbn. lia.
Qed.

(** The state of a process after its poll: reaped only if its child is gone. *)
Definition proc_ok (p : NamespaceProcess) (w : World) : Prop := np_reaped p = true -> np_child p ∉ unkilled w.

Definition stop_post (bound : Z) (p : NamespaceProcess) (w : World) (o : outcome (bool * NamespaceProcess)) (w' : World) : Prop :=
  exists b p', o = Ok (b, p') /\ np_child p' = np_child p /\ waited bound w w' /\ proc_ok p' w' /\ (b = true -> np_reaped p' = true).

Lemma stopped_loop_ends fuel : forall deadline p w, proc_ok p w -> deadline <= time w + 100 * Z.of_nat fuel ->
  yields (stopped_loop h (S fuel) deadline p) w (stop_post (100 * Z.of_nat fuel) p w).
Proof using Hclock.
  induction fuel as [|fuel IH]; intros deadline p w Hp Hd; cbn [stopped_loop].
  all: apply yields_bind; eapply yields_conseq; [apply try_wait_calm|]; intros ? w1 (e & -> & Q1 & He); cbn [after];
    set (p1 := if e then _ else _);
    assert (np_child p1 = np_child p /\ proc_ok p1 w1) as [Ec Hp1]
      by (unfold p1; destruct e; (split; [done|intros Hr; cbn in *; first [by apply He|intros Hi; by apply (Hp Hr), Q1]]));
    apply yields_bind; eapply yields_conseq; [apply all_gone_calm|]; intros ? w2 (g & -> & Q2 & Hg); cbn [after];
    assert (waited 0 w w2) as W by (apply quiet_waited; by transitivity w1);
    assert (proc_ok p1 w2) as Hp2 by (intros Hr Hi; by apply (Hp1 Hr), Q2);
    (destruct g; [exists true, p1; split_and!; [done|done|by eapply waited_more; [|exact W]; lia|done|auto]|]);
    apply yields_bind; unfold yields at 1, now; cbn [after];
    pose proof (waited_time _ _ _ W) as Ht; fold (time w2).
  - rewrite (proj2 (Z.geb_le _ _)) by lia. exists false, p1. split_and!; [done|done|by eapply waited_more; [|exact W]; lia|done|done].
  - destruct (Z.geb_spec (time w2) deadline) as [Hge|Hlt].
    { exists false, p1. split_and!; [done|done|by eapply waited_more; [|exact W]; lia|done|done]. }
    apply yields_bind. unfold yields at 1, sleep, emit. cbn [upd eta after]. set (w3 := mkWorld _ _).
    pose proof (sleep_waited 100 w2 ltac:(lia)) as W3. fold w3 in W3. pose proof (clock_sleep _ Hclock (w_events w2) 100) as Hs.
    change (time w2 + 100 <= time w3) in Hs.
    eapply yields_conseq; [apply (IH deadline p1 w3)|].
    + intros Hr Hi. by apply (Hp2 Hr), (waited_orphans _ _ _ W3).
    + lia.
    + intros o w4 (b & p' & -> & Ec' & W4 & Hp4 & Hb). exists b, p'. split_and!; [done|congruence| |done|done].
      eapply waited_more; [|exact (waited_trans _ _ _ _ _ (waited_trans _ _ _ _ _ W W3) W4)]. lia.
Qed.

Lemma wait_until_stopped_ends p w : proc_ok p w -> yields (wait_until_stopped h p 2000) w (stop_post 2000 p w).
Proof using Hclock.
  intros Hp. unfold wait_until_stopped. apply yields_bind. unfold yields at 1, now. cbn [after].
  change (Z.to_nat (2000 / 100) + 1)%nat with (S 20). apply (stopped_loop_ends 20); [done|]. fold (time w). lia.
Qed.

(** A kill leaves the child reaped or asked to be killed, and nothing new behind. *)
Lemma kill_ends p w : proc_ok p w ->
  yields (kill h p) w (fun o w' => exists p', o = Ok p' /\ np_child p' = np_child p /\ waited 4000 w w' /\ (np_child p ∉ unkilled w')).
Proof using Hclock.
  intros Hp. unfold kill. apply yields_bind. eapply yields_conseq; [apply all_gone_calm|]. intros ? w1 (g & -> & Q1 & Hg). cbn [after].
  assert (proc_ok p w1) as Hp1 by (intros Hr Hi; by apply (Hp Hr), Q1). pose proof (quiet_waited _ _ Q1) as W1.
  destruct g; [exists p; split_and!; [done|done|by eapply waited_more; [|exact W1]; lia|by apply Hp1, Hg]|].
  apply yields_bind. eapply yields_conseq; [apply signal_scope_calm|]. intros ? w2 (u & -> & Q2 & _). cbn [after].
  assert (proc_ok p w2) as Hp2 by (intros Hr Hi; by apply (Hp1 Hr), Q2). pose proof (waited_trans _ _ _ _ _ W1 (quiet_waited _ _ Q2)) as W2.
  apply yields_bind. eapply yields_conseq; [by apply wait_until_stopped_ends|]. intros ? w3 (b & p' & -> & Ec & W3 & Hp3 & Hb). cbn [after].
  pose proof (waited_trans _ _ _ _ _ W2 W3) as W13. destruct b.
  { exists p'. split_and!; [done|done|by eapply waited_more; [|exact W13]; lia|]. rewrite <- Ec. by apply Hp3, Hb. }
  apply yields_bind. eapply yields_conseq; [apply signal_scope_calm|]. intros ? w4 (u4 & -> & Q4 & _). cbn [after].
  apply yields_bind. unfold yields at 1, child_kill. cbn [upd eta after]. set (w5 := mkWorld _ _).
  assert (waited 0 w4 w5 /\ (np_child p' ∉ unkilled w5)) as [W5 Hk].
  { unfold w5. split; [split|]; [intros n; by rewrite unasked_event| |apply (clock_mono _ Hclock)|by rewrite slept_event; cbn; lia|];
      rewrite unkilled_event; cbn [unkilled_step]; [by intros c [Hc _]%filter_ne|by intros [_ Hc]%filter_ne]. }
  apply yields_bind. eapply yields_conseq; [apply wait_until_stopped_ends; intros _; exact Hk|].
  intros ? w6 (b6 & p6 & -> & Ec6 & W6 & _ & _). cbn [after]. apply yields_ret. exists p6. split; [done|]. split; [congruence|]. split.
  - eapply waited_more; [|exact (waited_trans _ _ _ _ _ (waited_trans _ _ _ _ _ (waited_trans _ _ _ _ _ W13 (quiet_waited _ _ Q4)) W5) W6)]. lia.
  - rewrite <- Ec. intros Hi. by apply Hk, (waited_orphans _ _ _ W6).
Qed.

(** A kill always comes to an end.  However the process, its namespace and
    the signals behave, as long as the clock moves by what is slept, killing a
    process returns after at most four seconds of sleeping, with its child seen
    to have exited or asked to be killed, no other process started or namespace
    added by it, and without a panic. *)
Theorem kill_bounded p w (Hp : np_reaped p = true -> np_child p ∉ unkilled w) :
  yields (kill h p) w (fun o w' => exists p', o = Ok p' /\ slept w' <= slept w + 4000 /\ (np_child p ∉ unkilled w') /\
    no_more w w' /\ forall c, c ∈ unkilled w' -> c ∈ unkilled w).
Proof using Hclock.
  eapply yields_conseq; [by apply kill_ends|]. intros o w' (p' & -> & _ & [A B C D] & Hk). eauto 10.
Qed.
End Kill.

(** ** Nothing is left behind *)
Definition clean (w w' : World) : Prop := no_more w w' /\ forall c, c ∈ unkilled w' -> c ∈ unkilled w.
#[export] Instance clean_preorder : PreOrder clean.
Proof.
  split; [intros w; split; [reflexivity|auto]|]. intros w1 w2 w3 [A1 B1] [A2 B2]. split; [by transitivity w2|auto].
Qed.

(** Since [w0], only namespaces of [names] and processes of [cs] were added. *)
Definition owns (names : list string) (cs : list Z) (w0 w : World) : Prop :=
  alive_with names w0 w /\ forall c, c ∈ unkilled w -> c ∈ cs \/ c ∈ unkilled w0.

Lemma owns_clean names cs w0 w w' : owns names cs w0 w -> clean w w' -> owns names cs w0 w'.
Proof. intros [A B] [C D]. split; [by eapply alive_mono|auto]. Qed.
Lemma owns_nil w0 w : owns [] [] w0 w -> clean w0 w.
Proof. intros [A B]. split; [by apply alive_nil|]. intros c Hc. by destruct (B c Hc) as [Hx%elem_of_nil|]. Qed.

Definition fewer (w w' : World) : Prop := forall c, c ∈ unkilled w' -> c ∈ unkilled w.
#[export] Instance fewer_preorder : PreOrder fewer.
Proof. split; [by intros w c|]. intros w1 w2 w3 H1 H2 c Hc. auto. Qed.

Section Stack.
Context (h : Host) (Hclock : clock_ok h).

Lemma output_fewer argv : steps fewer (output h argv).
Proof. intros w. unfold yields, output. cbn [upd eta]. intros c. by rewrite unkilled_event. Qed.
Lemma counter_fewer w c : fewer w (mkWorld (w_events w) c).
Proof. by intros x. Qed.
Lemma both_steps {A} (m : Sh A) : steps no_more m -> steps fewer m -> steps clean m.
Proof. intros H1 H2 w. specialize (H1 w). specialize (H2 w). unfold yields in *. destruct (m w). by split. Qed.
Lemma output_clean argv : strip ["sudo"; "ip"; "netns"; "add"] argv = None -> steps clean (output h argv).
Proof. intros Hs. apply both_steps; [by apply output_no_more|apply output_fewer]. Qed.
Lemma exec_clean ns cmd args : steps clean (exec h ns cmd args).
Proof. apply both_steps; [apply exec_no_more|]. by apply sudo_steps; [apply _|apply output_fewer|apply counter_fewer]. Qed.
Lemma impair_clean show topo idx config : steps clean (impair_link h show topo idx config).
Proof.
  apply both_steps; [|by apply impair_link_steps; [apply _|apply output_fewer|apply counter_fewer]].
  unfold impair_link. apply steps_bind; [apply _|auto with host|]. intros iface. apply apply_impairment_no_more.
Qed.
Lemma sleep_clean ms : steps clean (sleep ms).
Proof.
  intros w. unfold yields, sleep, emit. cbn [upd eta]. split; [intros n; by rewrite unasked_event|intros c; by rewrite unkilled_event].
Qed.
Lemma now_clean : steps clean (now h).
Proof. intros w. cbn. reflexivity. Qed.
Lemma try_wait_clean c : steps clean (try_wait h c).
Proof.
  intros w. unfold yields, try_wait. cbn [upd eta]. split; [intros n; by rewrite unasked_event|].
  intros x. rewrite unkilled_event. cbn [unkilled_step]. case_match; [|done]. by intros [Hx _]%filter_ne.
Qed.
Lemma listener_clean fuel ns port timeout t : steps clean (listener_loop h fuel ns port timeout t).
Proof.
  induction fuel as [|fuel IH]; cbn [listener_loop]; [by apply steps_panic, _|].
  apply steps_bind; [apply _|apply exec_clean|intros out]. case_match; [by apply steps_ret, _|].
  apply steps_bind; [apply _|apply now_clean|intros t']. case_match; [by apply steps_bail, _|].
  apply steps_bind; [apply _|apply sleep_clean|intros _; exact IH].
Qed.
Lemma ready_clean p ns pause port : steps clean (ready h p ns pause port).
Proof.
  unfold ready, check_exit, wait_for_udp_listener. apply steps_bind; [apply _|apply sleep_clean|intros _].
  apply steps_bind; [apply _|apply try_wait_clean|intros e]. case_match; [by apply steps_bail, _|].
  apply steps_bind; [apply _|apply now_clean|intros t]. apply listener_clean.
Qed.
Lemma write_ip_list_clean topo : steps clean (write_ip_list h topo).
Proof.
  intros w. unfold yields, write_ip_list. cbn [upd eta]. split; [intros n; by rewrite unasked_event|intros c; by rewrite unkilled_event].
Qed.
Lemma find_binary_clean root show : steps clean (find_srtla_send_binary h root show).
Proof.
  unfold find_srtla_send_binary, check_binary. repeat case_match; try (by apply steps_ret, _).
  apply steps_bind; [apply _| |intros p; case_match; [by apply steps_ret, _|by apply steps_bail, _]].
  apply steps_bind; [apply _|by apply output_clean|intros o; by apply steps_ret, _].
Qed.

(** Running [m] keeps what is owned. *)
Lemma owns_steps {A} (m : Sh A) names cs w0 w : steps clean m -> owns names cs w0 w -> yields m w (fun _ w' => owns names cs w0 w').
Proof. intros Hm Ho. eapply yields_conseq; [apply Hm|]. intros o w' Hw. by eapply owns_clean. Qed.

Lemma spawn_owns ns binary args env names cs w0 w : owns names cs w0 w ->
  yields (spawn_with_env h ns binary args env) w (fun o w' =>
    match o with
    | Ok p => np_reaped p = false /\ owns names (np_child p :: cs) w0 w'
    | Err => owns names cs w0 w'
    | Panicked => False
    end).
Proof.
  intros [A B]. unfold yields, spawn_with_env. cbn [upd eta]. destruct (h_spawn h (w_events w) _) as [c|].
  - split; [done|]. split; [intros n; rewrite unasked_event; apply A|]. intros x. rewrite unkilled_event. cbn [unkilled_step np_child].
    rewrite !elem_of_cons. intros [->|Hx]; [by left; left|]. destruct (B x Hx); auto.
  - split; [intros n; rewrite unasked_event; apply A|]. intros x. rewrite unkilled_event. apply B.
Qed.
Lemma process_drop_owns p names cs w0 w : np_reaped p = false -> owns names (np_child p :: cs) w0 w ->
  yields (process_drop h p) w (fun o w' => o = Ok tt /\ owns names cs w0 w').
Proof using Hclock.
  intros Hf [A B]. unfold process_drop. apply yields_bind. eapply yields_conseq; [apply (kill_ends h Hclock); by intros Hr; rewrite Hf in Hr|].
  intros ? w' (p' & -> & _ & [C D _ _] & Hk). cbn [after]. apply yields_ret. split; [done|]. split; [by eapply alive_mono|].
  intros c Hc. destruct (B c (D c Hc)) as [[->|Hi]%elem_of_cons|Hi]; [done|auto..].
Qed.
Lemma topology_drop_owns topo cs w0 w : owns (two_alive topo) cs w0 w ->
  yields (topology_drop h topo) w (fun _ w' => owns [] cs w0 w').
Proof.
  intros [A B]. pose proof (topology_drop_alive h topo w0 w A) as H1.
  pose proof (topology_drop_steps h fewer output_fewer counter_fewer topo w) as H2. unfold yields in *.
  destruct (topology_drop h topo w) as [o w']. split; [intros n Hn; right; by apply H1|auto].
Qed.

(** Two postconditions of the start: what it owns on success, or nothing. *)
Definition stack_children (s : SrtlaTestStack) : list Z :=
  map np_child (omap id [st_srt_caller s; st_srtla_send s; st_srtla_rec s; st_srt_server s]).
Definition fresh (s : SrtlaTestStack) : Prop :=
  Forall (fun p => np_reaped p = false) (omap id [st_srt_caller s; st_srtla_send s; st_srtla_rec s; st_srt_server s]).
Definition holds (s : SrtlaTestStack) (w0 w : World) : Prop := fresh s /\ owns (two_alive (st_topo s)) (stack_children s) w0 w.
Definition started (topo : SrtlaTestTopology) (cs : list Z) (w0 : World) (o : outcome SrtlaTestStack) (w' : World) : Prop :=
  match o with Ok s => st_topo s = topo /\ holds s w0 w' | _ => owns (two_alive topo) cs w0 w' end.

Section Start.
Context (root : string) (show : list Z -> string).

(** A child that is dropped when the rest fails. *)
Lemma guarded topo p cs w0 w (m : Sh SrtlaTestStack) : np_reaped p = false -> owns (two_alive topo) (np_child p :: cs) w0 w ->
  yields m w (started topo (np_child p :: cs) w0) -> yields (unwind m (process_drop h p)) w (started topo cs w0).
Proof using Hclock.
  intros Hf _ Hm. apply yields_unwind. eapply yields_conseq; [exact Hm|].
  intros [s| |] w' Hw; [done|..]; (eapply yields_conseq; [by apply process_drop_owns|]; by intros o w2 [_ H2]).
Qed.
(** A clean step before the rest. *)
Lemma clean_then {A} topo cs w0 w (m : Sh A) (f : A -> Sh SrtlaTestStack) : steps clean m -> owns (two_alive topo) cs w0 w ->
  (forall a w', owns (two_alive topo) cs w0 w' -> yields (f a) w' (started topo cs w0)) -> yields (mbind f m) w (started topo cs w0).
Proof.
  intros Hm Ho Hf. apply yields_bind. eapply yields_conseq; [by eapply owns_steps|]. intros [a| |] w' Hw; [by apply Hf|done..].
Qed.
Lemma spawn_then topo cs w0 w ns binary args env (f : NamespaceProcess -> Sh SrtlaTestStack) : owns (two_alive topo) cs w0 w ->
  (forall p w', np_reaped p = false -> owns (two_alive topo) (np_child p :: cs) w0 w' -> yields (f p) w' (started topo cs w0)) ->
  yields (mbind f (spawn_with_env h ns binary args env)) w (started topo cs w0).
Proof.
  intros Ho Hf. apply yields_bind. eapply yields_conseq; [by apply spawn_owns|]. intros [p| |] w' Hw; [|done..].
  destruct Hw as [Hr Hw]. by apply Hf.
Qed.

Lemma start_started test_name n extra w :
  yields (start h root show test_name n extra) w (fun o w' => match o with Ok s => holds s w w' | _ => clean w w' end).
Proof using Hclock.
  unfold start. apply yields_bind.
  pose proof (topology_new_alive h test_name n w) as H1. pose proof (topology_new_steps h fewer output_fewer counter_fewer test_name n w) as H2.
  unfold yields in H1, H2 |- *. destruct (topology_new h test_name n w) as [[topo| |] w1]; [|by split..]. cbn [after].
  assert (owns (two_alive topo) [] w w1) as Ho by (split; [done|auto]). clear H1 H2. apply yields_unwind.
  eapply (yields_conseq _ _ (started topo [] w)).
  - unfold start_server. apply clean_then; [apply write_ip_list_clean|done|]. intros path w2 Ho2.
    apply spawn_then; [done|]. intros srv w3 Fs Hs. apply guarded; [done|done|].
    apply clean_then; [apply ready_clean|done|]. intros _ w4 Hs4. unfold start_relay.
    apply spawn_then; [done|]. intros rec w5 Fr Hr. apply guarded; [done|done|].
    apply clean_then; [apply ready_clean|done|]. intros _ w6 Hs6. unfold start_srtla_send.
    apply clean_then; [apply find_binary_clean|done|]. intros bin w7 Hs7.
    apply yields_bind. eapply yields_conseq; [by apply spawn_owns|]. intros [snd| |] w8 Hw; [|done..]. destruct Hw as [Fd Hw].
    apply yields_ret. split; [done|]. split; [by repeat constructor|]. exact Hw.
  - intros [s| |] w2 Hw; [by destruct Hw as [_ Hw]|..];
      (eapply yields_conseq; [by apply topology_drop_owns|]; intros o w3 H3; by apply owns_nil).
Qed.
End Start.
End Stack.

(** ** Sessions *)

(** What a test does with a running stack. *)
Inductive StackOp :=
  | OpCaller
  | OpAdaptive (sender_bin : string) (min_kbps max_kbps : Z)
  | OpImpair (idx : nat) (config : ImpairmentConfig)
  | OpStop.

Section Session.
Context (h : Host) (Hclock : clock_ok h) (root : string) (show : list Z -> string) (show_f32 : f32 -> string).

Definition apply_op (s : SrtlaTestStack) (op : StackOp) : Sh SrtlaTestStack :=
  match op with
  | OpCaller => start_srt_caller h s
  | OpAdaptive bin lo hi => start_adaptive_sender h s bin lo hi
  | OpImpair idx config => _ ← stack_impair_link h show_f32 s idx config; mret s
  | OpStop => r ← stop h s; mret (r : StackOutput * SrtlaTestStack).2
  end.
Fixpoint run_ops (s : SrtlaTestStack) (ops : list StackOp) : Sh unit :=
  match ops with
  | [] => stack_drop h s
  | op :: ops => s' ← unwind (apply_op s op) (stack_drop h s); run_ops s' ops
  end.
Definition stack_session (test_name : string) (n : nat) (extra : Cmd) (ops : list StackOp) : Sh unit :=
  s ← start h root show test_name n extra; run_ops s ops.

Lemma drop_taken_owns p names cs w0 w : Forall (fun p => np_reaped p = false) (omap id [p]) ->
  owns names (map np_child (omap id [p]) ++ cs) w0 w -> yields (drop_taken h p) w (fun o w' => o = Ok tt /\ owns names cs w0 w').
Proof using Hclock.
  destruct p as [p|]; cbn [omap list_omap id map app drop_taken]; intros Hf Ho; [|by split]. apply process_drop_owns; [done|by inversion Hf|done].
Qed.

Lemma holds_split s w0 w : holds s w0 w ->
  Forall (fun p => np_reaped p = false) (omap id [st_srt_caller s]) /\ Forall (fun p => np_reaped p = false) (omap id [st_srtla_send s]) /\
  Forall (fun p => np_reaped p = false) (omap id [st_srtla_rec s]) /\ Forall (fun p => np_reaped p = false) (omap id [st_srt_server s]) /\
  owns (two_alive (st_topo s)) (map np_child (omap id [st_srt_caller s]) ++ map np_child (omap id [st_srtla_send s]) ++
    map np_child (omap id [st_srtla_rec s]) ++ map np_child (omap id [st_srt_server s]) ++ []) w0 w.
Proof.
  intros [Hf Ho]. unfold fresh, stack_children in *. revert Hf Ho.
  destruct (st_srt_caller s), (st_srtla_send s), (st_srtla_rec s), (st_srt_server s); cbn; rewrite ?Forall_cons, ?Forall_nil; tauto.
Qed.

Lemma stack_drop_clean s w0 w : holds s w0 w -> yields (stack_drop h s) w (fun _ w' => clean w0 w').
Proof using Hclock.
  intros (F1 & F2 & F3 & F4 & Ho)%holds_split. unfold stack_drop.
  apply yields_bind. eapply yields_conseq; [by apply drop_taken_owns|]. intros ? w1 [-> H1]. cbn [after].
  apply yields_bind. eapply yields_conseq; [by apply drop_taken_owns|]. intros ? w2 [-> H2]. cbn [after].
  apply yields_bind. eapply yields_conseq; [by apply drop_taken_owns|]. intros ? w3 [-> H3]. cbn [after].
  apply yields_bind. eapply yields_conseq; [by apply drop_taken_owns|]. intros ? w4 [-> H4]. cbn [after].
  eapply yields_conseq; [by apply topology_drop_owns|]. intros o w5 H5. by apply owns_nil.
Qed.

Lemma stop_process_owns p names cs w0 w : Forall (fun p => np_reaped p = false) (omap id [p]) ->
  owns names (map np_child (omap id [p]) ++ cs) w0 w -> yields (stop_process h p) w (fun o w' => (exists a, o = Ok a) /\ owns names cs w0 w').
Proof using Hclock.
  destruct p as [p|]; cbn [omap list_omap id map app stop_process]; intros Hf Ho; [|split; [by eexists|done]].
  destruct Ho as [A B]. apply yields_bind. eapply yields_conseq; [apply (kill_ends h Hclock); intros Hr; by rewrite (Forall_inv Hf) in Hr|].
  intros ? w1 (p1 & -> & Ec & [C1 D1 _ _] & Hk1). cbn [after]. apply yields_bind. unfold yields at 1, captured. cbn [after].
  apply yields_bind. unfold process_drop. apply yields_bind. eapply yields_conseq; [apply (kill_ends h Hclock); intros _; by rewrite Ec|].
  intros ? w2 (p2 & -> & _ & [C2 D2 _ _] & _). cbn [after]. apply yields_ret. cbn [after]. apply yields_ret.
  split; [by eexists|]. split; [eapply alive_mono; [exact A|by transitivity w1]|].
  intros c Hc. destruct (B c (D1 c (D2 c Hc))) as [[->|Hi]%elem_of_cons|Hi]; [|auto..]. by destruct Hk1; apply D2.
Qed.

(** A new caller takes the slot of the old one. *)
Lemma replace_caller s w0 w (check : NamespaceProcess -> Sh unit) ns binary args :
  (forall p, steps clean (check p)) -> holds s w0 w ->
  yields (p ← spawn h ns binary args; _ ← unwind (check p) (process_drop h p);
          _ ← match st_srt_caller s with Some old => process_drop h old | None => mret tt end;
          mret (mkStack (st_topo s) (st_srt_server s) (st_srtla_rec s) (st_srtla_send s) (Some p))) w
    (fun o w' => match o with Ok s' => holds s' w0 w' | _ => holds s w0 w' end).
Proof using Hclock.
  intros Hc [Hf Ho]. apply yields_bind. eapply yields_conseq; [by apply spawn_owns|]. intros [p| |] w1 H1; [|by split|done].
  destruct H1 as [Fp H1]. cbn [after]. apply yields_bind, yields_unwind. eapply yields_conseq; [by eapply owns_steps|].
  intros [[]| |] w2 H2; [|eapply yields_conseq; [by apply process_drop_owns|]; intros o w3 [_ H3]; by split..]. cbn [after].
  apply yields_bind.
  change (match st_srt_caller s with Some old => process_drop h old | None => mret tt end) with (drop_taken h (st_srt_caller s)).
  destruct (holds_split s w0 w (conj Hf Ho)) as (F1 & F2 & F3 & F4 & _).
  eapply yields_conseq; [apply (drop_taken_owns _ (two_alive (st_topo s)) (np_child p :: map np_child (omap id [st_srtla_send s]) ++
    map np_child (omap id [st_srtla_rec s]) ++ map np_child (omap id [st_srt_server s])) w0); [done|]|].
  - destruct H2 as [A B]. split; [done|]. intros c Hi. destruct (B c Hi) as [Hx|Hx]; [left|by right]. revert Hx. unfold stack_children.
    destruct (st_srt_caller s), (st_srtla_send s), (st_srtla_rec s), (st_srt_server s); cbn; rewrite ?elem_of_cons; tauto.
  - intros ? w3 [-> H3]. cbn [after]. apply yields_ret. revert F2 F3 F4 H3. unfold holds, fresh, stack_children.
    destruct (st_srtla_send s), (st_srtla_rec s), (st_srt_server s); cbn; rewrite ?Forall_cons, ?Forall_nil; tauto.
Qed.

Lemma apply_op_holds s op w0 w : holds s w0 w ->
  yields (apply_op s op) w (fun o w' => match o with Ok s' => holds s' w0 w' | _ => holds s w0 w' end).
Proof using Hclock.
  intros Hs. destruct op as [|bin lo hi|idx config|]; cbn [apply_op].
  - apply (replace_caller s w0 w (fun p => ready h p (tp_sender_ns (st_topo s)) 750 SRT_CALLER_INGEST_PORT)); [|done].
    intros p. apply ready_clean.
  - apply (replace_caller s w0 w (fun p => _ ← sleep 1500; e ← check_exit h p; if (e : bool) then bail else mret tt)); [|done].
    intros p. apply steps_bind; [apply _|apply sleep_clean|intros _]. apply steps_bind; [apply _|apply try_wait_clean|intros e].
    case_match; [by apply steps_bail, _|by apply steps_ret, _].
  - destruct Hs as [Hf Ho]. apply yields_bind. eapply yields_conseq; [eapply owns_steps; [apply impair_clean|exact Ho]|].
    intros [[]| |] w' Hw; cbn [after]; [apply yields_ret|..]; by split.
  - apply holds_split in Hs as (F1 & F2 & F3 & F4 & Ho). apply yields_bind. unfold stop.
    apply yields_bind. eapply yields_conseq; [by apply stop_process_owns|]. intros ? w1 [[a1 ->] H1]. cbn [after].
    apply yields_bind. eapply yields_conseq; [by apply stop_process_owns|]. intros ? w2 [[a2 ->] H2]. cbn [after].
    apply yields_bind. eapply yields_conseq; [by apply stop_process_owns|]. intros ? w3 [[a3 ->] H3]. cbn [after].
    apply yields_bind. eapply yields_conseq; [by apply stop_process_owns|]. intros ? w4 [[a4 ->] H4]. cbn [after].
    apply yields_ret. cbn [after]. apply yields_ret. split; [by constructor|]. exact H4.
Qed.

Lemma run_ops_clean ops : forall s w0 w, holds s w0 w -> yields (run_ops s ops) w (fun _ w' => clean w0 w').
Proof using Hclock.
  induction ops as [|op ops IH]; intros s w0 w Hs; cbn [run_ops]; [by apply stack_drop_clean|].
  apply yields_bind, yields_unwind. eapply yields_conseq; [by apply apply_op_holds|].
  intros [s'| |] w1 H1; cbn [after]; [by apply IH|by eapply stack_drop_clean..].
Qed.

(** Once the stack has gone, every process it started was seen to exit or asked
    to be killed, and every namespace it added was asked to be deleted. *)
Lemma session_clean test_name n extra ops : steps clean (stack_session test_name n extra ops).
Proof using Hclock.
  intros w. unfold stack_session. apply yields_bind. eapply yields_conseq; [by apply start_started|].
  intros [s| |] w1 H1; cbn [after]; [by apply run_ops_clean|done..].
Qed.
End Session.

(** ** The start ends, and in order *)

(** No panic, which for the polling loops includes running out of fuel. *)
Definition total {A} (m : Sh A) : Prop := forall w, yields m w (fun o _ => o <> Panicked).
Lemma total_ret {A} (a : A) : total (mret a).
Proof. by intros w. Qed.
Lemma total_bail {A} : total (@bail A).
Proof. by intros w. Qed.
Lemma total_or_bail {A} (x : option A) : total (or_bail x).
Proof. by destruct x. Qed.
Lemma total_bind {A B} (m : Sh A) (f : A -> Sh B) : total m -> (forall a, total (f a)) -> total (mbind f m).
Proof. intros Hm Hf w. apply yields_bind. eapply yields_conseq; [apply Hm|]. intros [a| |] w' Hw; [apply Hf|done..]. Qed.
Lemma total_ignore {A} (m : Sh A) : total m -> total (ignore m).
Proof. intros Hm w. apply yields_ignore. eapply yields_conseq; [apply Hm|]. by intros [a| |] w'. Qed.
Lemma total_unwind {A} (m : Sh A) d : total m -> total (unwind m d).
Proof.
  intros Hm w. apply yields_unwind. eapply yields_conseq; [apply Hm|]. intros [a| |] w' Hw; [done|..]; unfold yields; by destruct (d w').
Qed.
Lemma total_for_each {A} (xs : list A) m : (forall x, total (m x)) -> total (for_each xs m).
Proof. intros Hm. induction xs; [apply total_ret|]. by apply total_bind. Qed.
#[export] Hint Resolve total_ret total_bail total_or_bail total_bind total_ignore total_unwind total_for_each : host.

Section Total.
Context (h : Host).
Lemma output_total c : total (output h c).
Proof. by intros w. Qed.
Lemma sudo_total args : total (sudo h args).
Proof. apply total_bind; [apply output_total|]. intros o. apply total_or_bail. Qed.
Lemma sudo_checked_total args : total (sudo_checked h args).
Proof. apply total_bind; [apply sudo_total|]. intros o. case_match; auto with host. Qed.
Lemma unique_ns_name_total prefix : is_ascii prefix = true -> total (unique_ns_name h prefix).
Proof. intros Ha w. destruct (unique_ns_name_spec h prefix w Ha) as (a & E & _). unfold yields. by rewrite E. Qed.
Lemma namespace_new_total name : total (namespace_new h name).
Proof.
  unfold namespace_new. repeat (apply total_bind; [first [apply total_ignore, sudo_total|apply sudo_checked_total]|intros _]). apply total_ret.
Qed.
Lemma add_links_total s r idxs acc : total (add_links h s r idxs acc).
Proof.
  revert acc. induction idxs as [|i idxs IH]; intros [[a b] c]; cbn [add_links]; [apply total_ret|].
  apply total_bind; [|auto]. unfold add_veth_link, exec_checked.
  repeat (apply total_bind; [first [apply total_ignore, sudo_total|apply sudo_checked_total]|intros _]). apply total_ret.
Qed.

(** The lists of the links have one entry per turn. *)
Lemma add_links_lengths s r idxs : forall acc w, length acc.1.1 = length acc.2 -> length acc.1.2 = length acc.2 ->
  yields (add_links h s r idxs acc) w (fun o _ => match o with Ok l => length l.1.1 = length l.2 /\ length l.1.2 = length l.2 | _ => True end).
Proof.
  induction idxs as [|i idxs IH]; intros [[a b] c] w; cbn [fst snd add_links]; intros H1 H2; [done|].
  apply yields_bind. unfold yields at 1. destruct (add_veth_link _ _ _ _ _ _ _ w) as [[[]| |] w']; [|done..]. cbn [after].
  apply IH; cbn; rewrite !length_app; cbn; lia.
Qed.
Lemma wire_links_total topo i links : (i + length links <= length (tp_receiver_ifaces topo))%nat -> total (wire_links h topo i links).
Proof.
  revert i. induction links as [|[ip ifc] links IH]; intros i Hi; cbn [wire_links length] in *; [apply total_ret|].
  apply total_bind; [|intros _; apply IH; lia]. unfold wire_link, exec_checked.
  repeat (apply total_bind; [apply sudo_checked_total|intros _]).
  destruct (lookup_lt_is_Some_2 (tp_receiver_ifaces topo) i) as [x ->]; [lia|].
  apply total_bind; [apply sudo_checked_total|intros _; apply total_ret].
Qed.
Lemma topology_new_total test_name n : is_ascii test_name = true -> (0 < n)%nat -> total (topology_new h test_name n).
Proof.
  intros Ha Hn. unfold topology_new. rewrite (proj2 (Nat.eqb_neq n 0)) by lia.
  assert (forall x, is_ascii x = true -> is_ascii (test_name +:+ x) = true) as Hx.
  { intros x Hx. clear Hn. induction test_name as [|c t IH]; [done|]. rewrite append_String. cbn [is_ascii] in *.
    apply andb_true_iff in Ha as [-> Ha]. by apply IH. }
  apply total_bind; [by apply unique_ns_name_total, Hx|intros sn]. apply total_bind; [apply namespace_new_total|intros s].
  apply total_bind; [apply total_unwind, total_bind; [by apply unique_ns_name_total, Hx|intros; apply namespace_new_total]|intros r].
  intros w. apply yields_bind, yields_unwind.
  pose proof (add_links_total s r (seq 0 n) ([], [], []) w) as H1. pose proof (add_links_lengths s r (seq 0 n) ([], [], []) w eq_refl eq_refl) as H2.
  unfold yields in H1, H2 |- *. destruct (add_links h s r (seq 0 n) ([], [], []) w) as [[l| |] w1];
    [|by destruct (mbind (M:=Sh) (fun _ => namespace_drop h s) (namespace_drop h r) w1)|done]. cbn [after]. revert w1 H1. intros w1 _. apply total_bind; [|intros _; apply total_ret].
  apply total_unwind. unfold wire_bonding_routes, disable_rp_filter, exec, exec_checked.
  repeat (apply total_bind; [first [apply total_for_each; intros ?; apply total_ignore, sudo_total|apply sudo_checked_total]|intros _]).
  apply wire_links_total. cbn [tp_sender_ips tp_sender_ifaces tp_receiver_ifaces]. rewrite length_zip_with. lia.
Qed.
End Total.

(** The events so far stay. *)
Definition extends (w w' : World) : Prop := exists es, w_events w' = w_events w ++ es.
#[export] Instance extends_preorder : PreOrder extends.
Proof.
  split; [intros w; exists []; by rewrite app_nil_r|]. intros w1 w2 w3 [e1 E1] [e2 E2]. exists (e1 ++ e2). by rewrite E2, E1, app_assoc.
Qed.

Section Order.
Context (h : Host) (Hclock : clock_ok h).

Definition ss_cmd (ns : Namespace) : Cmd := ["sudo"; "ip"; "netns"; "exec"; ns_name ns; "ss"; "-uln"].
(** The last event is a listing that shows the port. *)
Definition seen_last (ns : Namespace) (port : Z) (w w' : World) : Prop :=
  exists es o, w_events w' = w_events w ++ es ++ [Ran (ss_cmd ns) (Some o)] /\ listening port (out_stdout o) = true.

Lemma listener_unfold fuel ns port timeout start : listener_loop h (S fuel) ns port timeout start =
  (out ← exec h ns "ss" ["-uln"];
   if listening port (out_stdout out) then mret tt
   else
     t ← now h;
     if t - start >? timeout then bail
     else _ ← sleep 200; listener_loop h fuel ns port timeout start).
Proof. done. Qed.
Lemma exec_ss ns w : exec h ns "ss" ["-uln"] w =
  (match h_output h (w_events w) (ss_cmd ns) with Some o => Ok o | None => Err end,
   mkWorld (w_events w ++ [Ran (ss_cmd ns) (h_output h (w_events w) (ss_cmd ns))]) (w_counter w)).
Proof. unfold exec, sudo, mbind, sh_bind, output. cbn [upd eta app]. fold (ss_cmd ns). by destruct (h_output h (w_events w) (ss_cmd ns)). Qed.

Lemma listener_ends fuel : forall ns port timeout start w, start + timeout < time h w + 200 * Z.of_nat fuel ->
  yields (listener_loop h (S fuel) ns port timeout start) w (fun o w' =>
    match o with Ok _ => seen_last ns port w w' | Err => True | Panicked => False end).
Proof using Hclock.
  assert (forall w e, time h w <= time h (mkWorld (w_events w ++ [e]) (w_counter w))) as Hm
    by (intros; apply (clock_mono _ Hclock)).
  induction fuel as [|fuel IH]; intros ns port timeout start w Hf; rewrite listener_unfold;
    apply yields_bind; unfold yields at 1; rewrite exec_ss;
    destruct (h_output h (w_events w) (ss_cmd ns)) as [out|]; [|done| |done]; cbn [after];
    set (w1 := mkWorld _ _); pose proof (Hm w (Ran (ss_cmd ns) (Some out))) as Ht; change (time h w <= time h w1) in Ht;
    (destruct (listening port (out_stdout out)) eqn:El; [by apply yields_ret; exists [], out|]);
    apply yields_bind; unfold yields at 1, now; cbn [after]; fold (time h w1).
  - rewrite Z.gtb_ltb, (proj2 (Z.ltb_lt _ _)) by lia. done.
  - destruct (Z.gtb_spec (time h w1 - start) timeout); [done|]. apply yields_bind. unfold yields at 1, sleep, emit. cbn [upd eta after].
    set (w2 := mkWorld _ _). pose proof (clock_sleep _ Hclock (w_events w1) 200) as Hs. change (time h w1 + 200 <= time h w2) in Hs.
    eapply yields_conseq; [apply IH; lia|]. intros [u| |] w3 H3; [|done..]. destruct H3 as (es & o & E & Hl).
    exists ([Ran (ss_cmd ns) (Some out); Slept 200] ++ es), o. split; [|done]. rewrite E. unfold w2, w1. cbn. by rewrite <- !app_assoc.
Qed.

Lemma ready_ends p ns pause port w :
  yields (ready h p ns pause port) w (fun o w' => match o with Ok _ => seen_last ns port w w' | Err => True | Panicked => False end).
Proof using Hclock.
  unfold ready. apply yields_bind. unfold yields at 1, sleep, emit. cbn [upd eta after].
  apply yields_bind. unfold yields at 1, check_exit, try_wait. cbn [upd eta after]. case_match; [done|].
  unfold wait_for_udp_listener. apply yields_bind. unfold yields at 1, now. cbn [after].
  change (Z.to_nat (5000 / 200) + 2)%nat with (S 26). eapply yields_conseq; [apply (listener_ends 26)|].
  - unfold time. cbn. lia.
  - intros [u| |] w' Hw; [|done..]. destruct Hw as (es & o & E & Hl). eexists ([Slept pause; Polled _ false] ++ es), o. split; [|done].
    rewrite E. cbn. by rewrite <- !app_assoc.
Qed.

Lemma spawn_event ns binary args env w :
  yields (spawn_with_env h ns binary args env) w (fun o w' =>
    match o with
    | Ok p => exists argv, w_events w' = w_events w ++ [Spawned argv (Some (np_child p))] /\ binary ∈ argv
    | Err => True
    | Panicked => False
    end).
Proof.
  unfold yields, spawn_with_env. cbn [upd eta]. set (argv := _ ++ _). destruct (h_spawn h (w_events w) argv); [|done].
  exists argv. split; [done|]. unfold argv. rewrite !elem_of_app. right. right. by constructor.
Qed.

(** An unwound computation ends as the computation did. *)
Lemma yields_unwound {A} (m : Sh A) d w (Q : A -> World -> Prop) :
  yields m w (fun o w' => match o with Ok a => Q a w' | Err => True | Panicked => False end) ->
  yields (unwind m d) w (fun o w' => match o with Ok a => Q a w' | Err => True | Panicked => False end).
Proof. intros H. apply yields_unwind. eapply yields_conseq; [exact H|]. intros [a| |] w' Hw; [done|..]; unfold yields; by destruct (d w'). Qed.
Lemma then_ok {A B} (m : Sh A) (f : A -> Sh B) w (P : A -> World -> Prop) (Q : B -> World -> Prop) :
  yields m w (fun o w' => match o with Ok a => P a w' | Err => True | Panicked => False end) ->
  (forall a w', P a w' -> yields (f a) w' (fun o w' => match o with Ok a => Q a w' | Err => True | Panicked => False end)) ->
  yields (mbind f m) w (fun o w' => match o with Ok a => Q a w' | Err => True | Panicked => False end).
Proof. intros Hm Hf. apply yields_bind. eapply yields_conseq; [exact Hm|]. intros [a| |] w' Hw; [by apply Hf|done..]. Qed.
Lemma plain_ok {A} (m : Sh A) w : total m -> steps extends m ->
  yields m w (fun o w' => match o with Ok _ => extends w w' | Err => True | Panicked => False end).
Proof. intros H1 H2. specialize (H1 w). specialize (H2 w). unfold yields in *. by destruct (m w) as [[a| |] w']. Qed.

Lemma output_extends argv : steps extends (output h argv).
Proof. intros w. unfold yields, output. cbn [upd eta]. by eexists. Qed.
Lemma counter_extends w c : extends w (mkWorld (w_events w) c).
Proof. exists []. by rewrite app_nil_r. Qed.
Lemma find_binary_ok root show w :
  yields (find_srtla_send_binary h root show) w (fun o w' => match o with Ok _ => extends w w' | Err => True | Panicked => False end).
Proof.
  apply plain_ok; unfold find_srtla_send_binary, check_binary; repeat case_match; try (by apply total_ret); try (by apply steps_ret, _).
  - apply total_bind; [apply total_bind; [apply output_total|intros; apply total_ret]|intros [p|]; auto with host].
  - apply steps_bind; [apply _| |intros [p|]; [by apply steps_ret, _|by apply steps_bail, _]].
    apply steps_bind; [apply _|apply output_extends|intros; by apply steps_ret, _].
Qed.

(** The parts of a stack in the order of their start: each listens before the
    next one is started. *)
Definition in_order (receiver : Namespace) (s : SrtlaTestStack) (w w' : World) : Prop :=
  exists e0 e1 e2 e3 e4 argv1 argv2 argv3 p1 p2 p3 o1 o2,
    w_events w' = w_events w ++ e0 ++ Spawned argv1 (Some (np_child p1)) :: e1 ++ Ran (ss_cmd receiver) (Some o1) :: e2 ++
      Spawned argv2 (Some (np_child p2)) :: e3 ++ Ran (ss_cmd receiver) (Some o2) :: e4 ++ [Spawned argv3 (Some (np_child p3))] /\
    "srt-live-transmit"%string ∈ argv1 /\ listening SRT_SERVER_PORT (out_stdout o1) = true /\
    "srtla_rec"%string ∈ argv2 /\ listening SRTLA_REC_PORT (out_stdout o2) = true /\
    st_srt_server s = Some p1 /\ st_srtla_rec s = Some p2 /\ st_srtla_send s = Some p3.

(** The start of a stack ends, and in order.  For any answers of the host,
    a clock that moves by what is slept, at least one link and an ASCII name, the
    start never panics and never polls for ever; if it succeeds, the server was
    started first and seen listening before the relay was started, and the
    relay was seen listening before the sender was started. *)
Theorem start_in_order root show test_name n extra w (Ha : is_ascii test_name = true) (Hn : (0 < n)%nat) :
  yields (start h root show test_name n extra) w (fun o w' =>
    match o with Ok s => in_order (tp_receiver_ns (st_topo s)) s w w' | Err => True | Panicked => False end).
Proof using Hclock.
  unfold start. eapply then_ok; [apply plain_ok; [by apply topology_new_total|
    apply topology_new_steps; [apply _|apply output_extends|apply counter_extends]]|]. intros topo w1 X1. cbn beta in X1.
  apply yields_unwound. unfold start_server. eapply then_ok.
  { instantiate (1 := fun _ w' => extends w1 w'). unfold yields, write_ip_list. cbn [upd eta]. destruct (h_temp_file h _); [by eexists|done]. }
  intros path w2 X2. cbn beta in X2. eapply then_ok; [apply spawn_event|]. intros p1 w3 (argv1 & E3 & B1).
  apply yields_unwound. eapply then_ok; [apply ready_ends|]. intros _ w4 (e1 & o1 & E4 & L1). unfold start_relay.
  eapply then_ok; [apply spawn_event|]. intros p2 w5 (argv2 & E5 & B2).
  apply yields_unwound. eapply then_ok; [apply ready_ends|]. intros _ w6 (e3 & o2 & E6 & L2). unfold start_srtla_send.
  eapply then_ok; [apply find_binary_ok|]. intros bin w7 [e4 E7].
  eapply then_ok; [apply spawn_event|]. intros p3 w8 (argv3 & E8 & _). apply yields_ret. cbn [st_topo].
  assert (extends w w2) as [e0 E0] by (by transitivity w1).
  exists e0, e1, [], e3, e4, argv1, argv2, argv3, p1, p2, p3, o1, o2. split_and!; [|done..].
  rewrite E8, E7, E6, E5, E4, E3, E0. cbn [app]. by rewrite <- ?app_assoc.
Qed.
End Order.

(** ** What is left on the host *)

(** A namespace is there from a successful [ip netns add] to a successful
    [ip netns del]. *)
Definition netns_add (n : string) : Cmd := ["sudo"; "ip"; "netns"; "add"; n].
Definition netns_del (n : string) : Cmd := ["sudo"; "ip"; "netns"; "del"; n].
Definition live_step (l : list string) (e : Event) : list string :=
  match e with
  | Ran c out =>
    if succeeded out
    then match strip ["sudo"; "ip"; "netns"; "add"] c, strip ["sudo"; "ip"; "netns"; "del"] c with
         | Some [n], _ => n :: l
         | _, Some [n] => List.filter (fun x => negb (String.eqb n x)) l
         | _, _ => l
         end
    else l
  | _ => l
  end.
Definition live (w : World) : list string := fold_left live_step (w_events w) [].

(** A child runs until it is seen to exit or a kill of it succeeds. *)
Definition orphan_step (l : list Z) (e : Event) : list Z :=
  match e with
  | Spawned _ (Some c) => c :: l
  | Polled c true | Killed c true => List.filter (fun x => negb (x =? c)) l
  | _ => l
  end.
Definition orphans (w : World) : list Z := fold_left orphan_step (w_events w) [].

(** [n] was added during [es]; [c] was started during [es]. *)
Definition added (n : string) (es : list Event) : Prop := exists o, Ran (netns_add n) (Some o) ∈ es /\ out_success o = true.
Definition begun (c : Z) (es : list Event) : Prop := exists argv, Spawned argv (Some c) ∈ es.
(** After it was last added (started), its deletion (its kill) was asked for and refused. *)
Definition del_refused (n : string) (es : list Event) : Prop :=
  exists a out b, es = a ++ Ran (netns_del n) out :: b /\ succeeded out = false /\ added n a /\ ~ added n b.
Definition kill_refused (c : Z) (es : list Event) : Prop :=
  exists a b, es = a ++ Killed c false :: b /\ begun c a /\ ~ begun c b.

Lemma strip_one prefix c n : strip prefix c = Some [n] -> c = prefix ++ [n].
Proof.
  revert c. induction prefix as [|p prefix IH]; intros c; cbn [strip app]; [congruence|].
  destruct c as [|x c]; [done|]. destruct (String.eqb_spec p x) as [->|]; [|done]. intros H. by rewrite (IH c H).
Qed.
Lemma added_snoc n es e : added n (es ++ [e]) <-> added n es \/ added n [e].
Proof. unfold added. setoid_rewrite elem_of_app. naive_solver. Qed.
Lemma begun_snoc c es e : begun c (es ++ [e]) <-> begun c es \/ begun c [e].
Proof. unfold begun. setoid_rewrite elem_of_app. naive_solver. Qed.
Lemma del_refused_snoc n es e : ~ added n [e] -> del_refused n es -> del_refused n (es ++ [e]).
Proof.
  intros He (a & out & b & -> & Ho & Ha & Hb). exists a, out, (b ++ [e]). rewrite <- app_assoc. split_and!; [done..|].
  by intros [|]%added_snoc.
Qed.
Lemma kill_refused_snoc c es e : ~ begun c [e] -> kill_refused c es -> kill_refused c (es ++ [e]).
Proof.
  intros He (a & b & -> & Ha & Hb). exists a, (b ++ [e]). rewrite <- app_assoc. split_and!; [done..|].
  by intros [|]%begun_snoc.
Qed.

(** How an event bears on the namespaces: an addition, a deletion, or neither. *)
Definition netns_view (e : Event) : Prop :=
  (exists m out, e = Ran (netns_add m) out /\
     forall l, live_step l e = (if succeeded out then m :: l else l) /\ unasked_step l e = (if succeeded out then m :: l else l)) \/
  (exists m out, e = Ran (netns_del m) out /\
     forall l, live_step l e = (if succeeded out then unasked_step l e else l) /\ unasked_step l e = List.filter (fun x => negb (String.eqb m x)) l) \/
  ((forall m out, e <> Ran (netns_add m) out) /\ forall l, live_step l e = l /\ unasked_step l e = l).
Lemma netns_views e : netns_view e.
Proof.
  unfold netns_view. destruct e as [c out|argv ch|ch b|ch b|ms|text path]; [|right; right; by split..].
  destruct (strip ["sudo"; "ip"; "netns"; "add"]%string c) as [[|m [|m' ms]]|] eqn:Ea.
  2: { left. exists m, out. apply strip_one in Ea as ->. split; [done|]. intros l. by destruct out as [o|]. }
  all: right; destruct (strip ["sudo"; "ip"; "netns"; "del"]%string c) as [[|d [|d' ds]]|] eqn:Ed;
    try (left; exists d, out; apply strip_one in Ed as ->; split; [done|]; intros l; split; [|done]; cbn [live_step unasked_step app strip]; by destruct (succeeded out)).
  all: right; (split; [intros m0 out0 [= -> ->]; done|]); intros l; cbn [live_step unasked_step]; rewrite Ea, Ed; by destruct (succeeded out).
Qed.
Lemma filter_name l (m x : string) : x ∈ List.filter (fun x => negb (String.eqb m x)) l <-> x ∈ l /\ m <> x.
Proof. rewrite !list_elem_of_In, filter_In, negb_true_iff, String.eqb_neq. done. Qed.
Lemma added_one n e : added n [e] <-> exists o, e = Ran (netns_add n) (Some o) /\ out_success o = true.
Proof. unfold added. setoid_rewrite list_elem_of_singleton. naive_solver. Qed.
Lemma succeeded_some out : succeeded out = true <-> exists o, out = Some o /\ out_success o = true.
Proof. destruct out; naive_solver. Qed.

(** One event: a namespace that is there was just added, or was there before
    and either the code still has to ask for its deletion or the host has just
    refused it. *)
Lemma live_step_cases n l u e : n ∈ live_step l e ->
  added n [e] /\ n ∈ unasked_step u e \/
  n ∈ l /\ ~ added n [e] /\ ((n ∈ u -> n ∈ unasked_step u e) \/ exists out, e = Ran (netns_del n) out /\ succeeded out = false).
Proof.
  rewrite added_one. destruct (netns_views e) as [(m & out & -> & H)|[(m & out & -> & H)|[Hne H]]].
  - destruct (H l) as [-> _], (H u) as [_ ->]. destruct (succeeded out) eqn:Es.
    + apply succeeded_some in Es as (o & -> & Ho). destruct (decide (n = m)) as [->|Hn]; [left; split; [eauto|by constructor]|].
      intros [|Hl]%elem_of_cons; [done|]. right. split_and!; [done|intros (? & [= ->] & _); done|left; by constructor].
    + right. split_and!; [done| |by left]. intros (o & [= -> ->] & Ho). by cbn in Es; rewrite Ho in Es.
  - destruct (H l) as [-> El], (H u) as [_ ->]. intros Hn. right. destruct (succeeded out) eqn:Es.
    + rewrite El in Hn. apply filter_name in Hn as [Hn Hm]. split_and!; [done|by intros (? & [= ] & _)|left]. by rewrite filter_name.
    + split_and!; [done|by intros (? & [= ] & _)|]. destruct (decide (n = m)) as [->|Hd]; [right; eauto|left].
      rewrite filter_name. auto.
  - destruct (H l) as [-> _], (H u) as [_ ->]. right. split_and!; [done|by intros (o & E & _); apply Hne in E|auto].
Qed.

Lemma live_after n es : forall l u, n ∈ fold_left live_step es l ->
  (n ∈ l \/ added n es) /\ (n ∈ l \/ n ∈ fold_left unasked_step es u \/ del_refused n es).
Proof.
  induction es as [|e es IH] using rev_ind; intros l u; [by auto|]. rewrite !fold_left_app. cbn [fold_left].
  intros [[Ha Hu]|(Hl & Hne & He)]%(live_step_cases n _ (fold_left unasked_step es u)); [rewrite added_snoc; auto|].
  destruct (IH l u Hl) as [Ho Hr]. split; [rewrite added_snoc; tauto|].
  destruct Hr as [|[Hu|Hr]]; [auto| |right; right; by apply del_refused_snoc].
  destruct He as [He|(out & -> & Hs)]; [auto|]. destruct Ho as [|Ha]; [auto|]. right. right. exists es, out, [].
  split_and!; [done..|]. by intros (o & Hx%elem_of_nil & _).
Qed.
(** What the code has not asked to be deleted is still there. *)
Lemma unasked_live w n : n ∈ unasked w -> n ∈ live w.
Proof.
  unfold unasked, live. generalize (w_events w). intros es. induction es as [|e es IH] using rev_ind; [done|].
  rewrite !fold_left_app. cbn [fold_left]. destruct (netns_views e) as [(m & out & -> & H)|[(m & out & -> & H)|[_ H]]].
  - destruct (H (fold_left unasked_step es [])) as [_ ->], (H (fold_left live_step es [])) as [-> _].
    case_match; rewrite ?elem_of_cons; tauto.
  - destruct (H (fold_left unasked_step es [])) as [_ ->], (H (fold_left live_step es [])) as [-> ->].
    case_match; rewrite !filter_name; tauto.
  - destruct (H (fold_left unasked_step es [])) as [_ ->], (H (fold_left live_step es [])) as [-> _]. done.
Qed.

(** The same for the children. *)
Lemma orphan_step_cases c l u e : c ∈ orphan_step l e ->
  begun c [e] /\ c ∈ unkilled_step u e \/
  c ∈ l /\ ~ begun c [e] /\ ((c ∈ u -> c ∈ unkilled_step u e) \/ e = Killed c false).
Proof.
  assert (begun c [e] <-> exists argv, e = Spawned argv (Some c)) as -> by (unfold begun; setoid_rewrite list_elem_of_singleton; naive_solver).
  destruct e as [? ?|argv [d|]|d b|d b|ms|text path]; cbn [orphan_step unkilled_step]; try (right; split_and!; [done|naive_solver|by left]).
  - destruct (decide (c = d)) as [->|Hn]; [left; split; [eauto|by constructor]|].
    intros [|Hl]%elem_of_cons; [done|]. right. split_and!; [done|naive_solver|left; by constructor].
  - intros H. right. destruct b; [apply filter_ne in H as [Hl Hn]|]; (split_and!; [done|naive_solver|left; by rewrite ?filter_ne]).
  - intros H. right. destruct b; [apply filter_ne in H as [Hl Hn]; split_and!; [done|naive_solver|left; by rewrite ?filter_ne]|].
    split_and!; [done|naive_solver|]. destruct (decide (c = d)) as [->|Hn]; [by right|left]. by rewrite filter_ne.
Qed.
Lemma orphans_after c es : forall l u, c ∈ fold_left orphan_step es l ->
  (c ∈ l \/ begun c es) /\ (c ∈ l \/ c ∈ fold_left unkilled_step es u \/ kill_refused c es).
Proof.
  induction es as [|e es IH] using rev_ind; intros l u; [by auto|]. rewrite !fold_left_app. cbn [fold_left].
  intros [[Ha Hu]|(Hl & Hne & He)]%(orphan_step_cases c _ (fold_left unkilled_step es u)); [rewrite begun_snoc; auto|].
  destruct (IH l u Hl) as [Ho Hr]. split; [rewrite begun_snoc; tauto|].
  destruct Hr as [|[Hu|Hr]]; [auto| |right; right; by apply kill_refused_snoc].
  destruct He as [He| ->]; [auto|]. destruct Ho as [|Ha]; [auto|]. right. right. exists es, [].
  split_and!; [done..|]. by intros (o & Hx%elem_of_nil).
Qed.
Lemma unkilled_orphans w c : c ∈ unkilled w -> c ∈ orphans w.
Proof.
  unfold unkilled, orphans. generalize (w_events w). intros es. induction es as [|e es IH] using rev_ind; [done|].
  rewrite !fold_left_app. cbn [fold_left].
  destruct e as [? ?|argv [d|]|d []|d []|ms|text path]; cbn [orphan_step unkilled_step]; rewrite ?elem_of_cons, ?filter_ne; tauto.
Qed.

(** The events of a session come after those before it. *)
Section Growth.
Context (h : Host).
Lemma emit_extends e : steps extends (emit e).
Proof. intros w. by eexists. Qed.
Lemma now_extends : steps extends (now h).
Proof. intros w. apply (counter_extends w (w_counter w)). Qed.
Lemma try_wait_extends c : steps extends (try_wait h c).
Proof. intros w. by eexists. Qed.
Lemma child_kill_extends c : steps extends (child_kill h c).
Proof. intros w. by eexists. Qed.
Lemma captured_extends p : steps extends (captured h p).
Proof. intros w. apply (counter_extends w (w_counter w)). Qed.
Lemma spawn_extends ns binary args env : steps extends (spawn_with_env h ns binary args env).
Proof. intros w. unfold yields, spawn_with_env. cbn [upd eta]. by eexists. Qed.
Lemma write_ip_list_extends topo : steps extends (write_ip_list h topo).
Proof. intros w. unfold yields, write_ip_list. cbn [upd eta]. by eexists. Qed.
Lemma sudo_extends args : steps extends (sudo h args).
Proof. apply sudo_steps; [apply _|apply output_extends|apply counter_extends]. Qed.

Ltac grow := repeat first
  [ by apply steps_ret, _ | by apply steps_bail, _ | by apply steps_panic, _ | apply output_extends | apply emit_extends | apply now_extends
  | apply try_wait_extends | apply child_kill_extends | apply captured_extends | apply spawn_extends | apply write_ip_list_extends
  | apply sudo_extends | assumption
  | apply steps_bind; [apply _| |intros ?] | apply steps_unwind; [apply _| |] | case_match ].

Lemma scope_pids_extends p : steps extends (scope_pids h p).
Proof. unfold scope_pids. grow. Qed.
Lemma all_gone_extends p : steps extends (all_gone h p).
Proof. pose proof (scope_pids_extends p). unfold all_gone. grow. Qed.
Lemma signal_scope_extends p signal : steps extends (signal_scope h p signal).
Proof. pose proof (scope_pids_extends p). unfold signal_scope. grow. Qed.
Lemma stopped_loop_extends fuel deadline p : steps extends (stopped_loop h fuel deadline p).
Proof.
  revert p. induction fuel as [|fuel IH]; intros p; cbn [stopped_loop]; [grow|].
  apply steps_bind; [apply _|grow|intros e]. apply steps_bind; [apply _|apply all_gone_extends|intros g].
  case_match; grow; apply IH.
Qed.
Lemma wait_extends p timeout : steps extends (wait_until_stopped h p timeout).
Proof. unfold wait_until_stopped. apply steps_bind; [apply _|grow|intros t]. apply stopped_loop_extends. Qed.
Lemma kill_extends p : steps extends (kill h p).
Proof.
  unfold kill. apply steps_bind; [apply _|apply all_gone_extends|intros g]. case_match; [grow|].
  apply steps_bind; [apply _|apply signal_scope_extends|intros _]. apply steps_bind; [apply _|apply wait_extends|intros [st p']].
  case_match; [grow|]. apply steps_bind; [apply _|apply signal_scope_extends|intros _]. apply steps_bind; [apply _|grow|intros _].
  apply steps_bind; [apply _|apply wait_extends|intros r]. grow.
Qed.
Lemma process_drop_extends p : steps extends (process_drop h p).
Proof. unfold process_drop. apply steps_bind; [apply _|apply kill_extends|intros _]. grow. Qed.
Lemma drop_taken_extends p : steps extends (drop_taken h p).
Proof. destruct p as [p|]; cbn [drop_taken]; [apply process_drop_extends|grow]. Qed.
Lemma topology_drop_extends topo : steps extends (topology_drop h topo).
Proof. apply topology_drop_steps; [apply _|apply output_extends|apply counter_extends]. Qed.
Lemma stack_drop_extends s : steps extends (stack_drop h s).
Proof. unfold stack_drop. repeat (apply steps_bind; [apply _|apply drop_taken_extends|intros _]). apply topology_drop_extends. Qed.
Lemma stop_process_extends p : steps extends (stop_process h p).
Proof.
  destruct p as [p|]; cbn [stop_process]; [|grow]. apply steps_bind; [apply _|apply kill_extends|intros p']. apply steps_bind; [apply _|grow|intros out].
  apply steps_bind; [apply _|apply process_drop_extends|intros _]. grow.
Qed.
Lemma listener_extends fuel ns port timeout t : steps extends (listener_loop h fuel ns port timeout t).
Proof. induction fuel as [|fuel IH]; cbn [listener_loop]; unfold exec; grow. Qed.
Lemma ready_extends p ns pause port : steps extends (ready h p ns pause port).
Proof.
  unfold ready, check_exit, wait_for_udp_listener. apply steps_bind; [apply _|grow|intros _]. apply steps_bind; [apply _|grow|intros e].
  case_match; [grow|]. apply steps_bind; [apply _|grow|intros t]. apply listener_extends.
Qed.
Lemma find_binary_extends root show : steps extends (find_srtla_send_binary h root show).
Proof. unfold find_srtla_send_binary, check_binary. grow. Qed.
Lemma start_extends root show test_name n extra : steps extends (start h root show test_name n extra).
Proof.
  assert (forall p, steps extends (process_drop h p)) by apply process_drop_extends.
  assert (forall p ns pause port, steps extends (ready h p ns pause port)) as Hr by apply ready_extends.
  unfold start. apply steps_bind; [apply _|apply topology_new_steps; [apply _|apply output_extends|apply counter_extends]|intros topo].
  apply steps_unwind; [apply _| |apply topology_drop_extends]. unfold start_server, spawn.
  apply steps_bind; [apply _|grow|intros path]. apply steps_bind; [apply _|grow|intros srv]. apply steps_unwind; [apply _| |done].
  apply steps_bind; [apply _|apply Hr|intros _]. unfold start_relay, spawn. apply steps_bind; [apply _|grow|intros rec].
  apply steps_unwind; [apply _| |done]. apply steps_bind; [apply _|apply Hr|intros _]. unfold start_srtla_send.
  apply steps_bind; [apply _|apply find_binary_extends|intros bin]. grow.
Qed.
Lemma apply_op_extends show_f32 s op : steps extends (apply_op h show_f32 s op).
Proof.
  destruct op as [|bin lo hi|idx config|]; cbn [apply_op].
  - unfold start_srt_caller, spawn. apply steps_bind; [apply _|grow|intros p].
    apply steps_bind; [apply _|apply steps_unwind; [apply _|apply ready_extends|apply process_drop_extends]|intros _].
    apply steps_bind; [apply _|apply (drop_taken_extends (st_srt_caller s))|intros _; grow].
  - unfold start_adaptive_sender, spawn, check_exit. apply steps_bind; [apply _|grow|intros p].
    apply steps_bind; [apply _|apply steps_unwind; [apply _|grow|apply process_drop_extends]|intros _].
    apply steps_bind; [apply _|apply (drop_taken_extends (st_srt_caller s))|intros _; grow].
  - unfold stack_impair_link. apply steps_bind; [apply _|apply impair_link_steps; [apply _|apply output_extends|apply counter_extends]|intros _]. grow.
  - unfold stop. apply steps_bind; [apply _| |intros r; grow].
    repeat (apply steps_bind; [apply _|apply stop_process_extends|intros ?]). grow.
Qed.
Lemma session_extends root show show_f32 test_name n extra ops : steps extends (stack_session h root show show_f32 test_name n extra ops).
Proof.
  unfold stack_session. apply steps_bind; [apply _|apply start_extends|]. induction ops as [|op ops IH]; intros s; cbn [run_ops].
  - apply stack_drop_extends.
  - apply steps_bind; [apply _|apply steps_unwind; [apply _|apply apply_op_extends|apply stack_drop_extends]|intros s'; apply IH].
Qed.
End Growth.

(** C36: a test leaves the machine as it found it, but for what the host refuses
    to take back.  On a host whose clock moves by what is slept, whatever else it
    answers and wherever the start of the stack or an operation on it (a caller,
    an adaptive sender, an impairment, a stop) fails: once the stack has gone, a
    namespace that is there was there before, or the session added it, asked
    for its deletion after that and the deletion failed; and a process that still
    runs did so before, or the session started it, called [Child::kill] on it
    after that and the kill failed.  So on a host that refuses neither, nothing
    is left. *)
Theorem stack_leaves_nothing h (Hclock : clock_ok h) root show show_f32 test_name n extra ops w :
  yields (stack_session h root show show_f32 test_name n extra ops) w (fun _ w' =>
    exists es, w_events w' = w_events w ++ es /\
      (forall ns, ns ∈ live w' -> ns ∈ live w \/ del_refused ns es) /\
      (forall c, c ∈ orphans w' -> c ∈ orphans w \/ kill_refused c es)).
Proof.
  pose proof (session_extends h root show show_f32 test_name n extra ops w) as He.
  pose proof (session_clean h Hclock root show show_f32 test_name n extra ops w) as Hc.
  unfold yields in *. destruct (stack_session _ _ _ _ _ _ _ _ w) as [o w']. destruct He as [es E], Hc as [Hn Hk].
  exists es. split; [done|]. split.
  - intros ns Hl. unfold live in Hl. rewrite E, fold_left_app in Hl.
    destruct (live_after ns es _ (unasked w) Hl) as [_ [|[Hu|]]]; [auto| |auto].
    left. apply unasked_live, Hn. unfold unasked. rewrite E, fold_left_app. exact Hu.
  - intros c Hl. unfold orphans in Hl. rewrite E, fold_left_app in Hl.
    destruct (orphans_after c es _ (unkilled w) Hl) as [_ [|[Hu|]]]; [auto| |auto].
    left. apply unkilled_orphans, Hk. unfold unkilled. rewrite E, fold_left_app. exact Hu.
Qed.

(** ** Runs *)
Definition demo_clock (es : list Event) : Z := fold_left (fun t e => match e with Slept ms => t + Z.max 0 ms | _ => t end) es 0.
(** A host on which everything works; its processes exit when [dies] says so. *)
Definition stack_host (dies : list Event -> Z -> bool) : Host :=
  mkHost 4242
    (fun _ c => Some (mkOutput true (if bool_decide ("ss"%string ∈ c) then chars_of "udp :4001 :5000 :6000"
                                     else if bool_decide ("pids"%string ∈ c) then chars_of "17 23" else [])))
    (fun es _ => Some (Z.of_nat (length es))) dies (fun _ _ => true) (fun _ _ => ([], [])) demo_clock (fun _ => Some "/tmp/srtla_ips.txt") (fun _ => true).
Lemma stack_host_clock dies : clock_ok (stack_host dies).
Proof.
  split; cbn; unfold demo_clock; intros es e; rewrite fold_left_app; cbn; [destruct e; lia|].
  lia.
Qed.
Definition stubborn : Host := stack_host (fun _ _ => false).
Definition demo_process : NamespaceProcess := mkProcess 7 "ns" false.
Definition demo_world : World := mkWorld [Spawned ["sleep"] (Some 7)] 0.
Definition demo_start : outcome SrtlaTestStack * World := start stubborn "/src" (fun _ => "") "bond" 2 [] world0.

Lemma kill_bounded_witness :
  yields (kill stubborn demo_process) demo_world (fun o w' => exists p', o = Ok p' /\ slept w' <= slept demo_world + 4000 /\
    (7 ∉ unkilled w') /\ no_more demo_world w' /\ forall c, c ∈ unkilled w' -> c ∈ unkilled demo_world) /\
  unkilled demo_world = [7] /\ slept (kill stubborn demo_process demo_world).2 = 4000.
Proof.
  split; [|vm_compute; done]. apply (kill_bounded stubborn (stack_host_clock _) demo_process demo_world). done.
Defined.

Definition demo_session (h : Host) : Sh unit := stack_session h "/src" (fun _ => "") (fun _ => "5") "bond" 2 [] [OpCaller; OpStop].
(** The same host with its refusals: no namespace can be deleted, no child killed. *)
Definition refusing : Host :=
  mkHost 4242
    (fun es c => match strip ["sudo"; "ip"; "netns"; "del"] c with
                 | Some _ => Some (mkOutput false [])
                 | None => h_output stubborn es c
                 end)
    (h_spawn stubborn) (h_exited stubborn) (fun _ _ => false) (h_lines stubborn) (h_now stubborn) (h_temp_file stubborn) (h_exists stubborn).
Lemma refusing_clock : clock_ok refusing.
Proof. split; [apply (clock_mono _ (stack_host_clock (fun _ _ => false)))|apply (clock_sleep _ (stack_host_clock (fun _ _ => false)))]. Qed.

Definition leaves_refused (h : Host) (w : World) : Prop :=
  yields (demo_session h) w (fun _ w' => exists es, w_events w' = w_events w ++ es /\
    (forall ns, ns ∈ live w' -> ns ∈ live w \/ del_refused ns es) /\
    (forall c, c ∈ orphans w' -> c ∈ orphans w \/ kill_refused c es)).
(** Where nothing is refused, what the stack started and added is gone; where
    everything is refused, its two namespaces and four processes stay. *)
Lemma stack_leaves_nothing_witness :
  (leaves_refused stubborn world0 /\ (demo_session stubborn world0).1 = Ok tt /\
   orphans (demo_session stubborn world0).2 = [] /\ live (demo_session stubborn world0).2 = [] /\
   length (orphans demo_start.2) = 3%nat /\ length (live demo_start.2) = 2%nat) /\
  leaves_refused refusing world0 /\
  length (orphans (demo_session refusing world0).2) = 4%nat /\ length (live (demo_session refusing world0).2) = 2%nat.
Proof.
  split; [split; [apply (stack_leaves_nothing stubborn (stack_host_clock _))|vm_compute; done]|].
  split; [apply (stack_leaves_nothing refusing refusing_clock)|vm_compute; done].
Defined.

Lemma start_in_order_witness :
  yields (start stubborn "/src" (fun _ => "") "bond" 2 []) world0 (fun o w' =>
    match o with Ok s => in_order (tp_receiver_ns (st_topo s)) s world0 w' | Err => True | Panicked => False end) /\
  exists s, demo_start.1 = Ok s.
Proof.
  split; [apply (start_in_order stubborn (stack_host_clock _) "/src" (fun _ => "") "bond" 2 [] world0 eq_refl); lia|].
  vm_compute. eauto.
Defined.
